(* ===== verification/_CoqProject ===== *)
-Q . S2P
Prelude.v
JsNum.v
NumParse.v
JsValue.v
NumText.v
Text.v
Dates.v
Fetcher.v
Normalizer.v
StableSort.v
FilterSort.v
Watchlist.v
Presentation.v
Markup.v
App.v
Overlay.v
