(* ===== verification/Prelude.v ===== *)
(** * A verification development of the commodity price board ([src/script.js])

    ** The program

    The program is one browser class, [PriceBoardApp] in [src/script.js].
    At start-up it reads the watchlist from [localStorage] and calls
    [loadData()], which fetches one quote per configured commodity from
    an external price API ([fetchCommodityPrice], awaited together by
    [Promise.allSettled] in [loadFromNewAPI]), normalises each quote into
    a display row (name casing, USD to GHS conversion, exchange code to
    city, ISO date), fills the two selects ([populateFilters]), and
    filters, sorts and renders the rows ([applyFilters], [sortData],
    [renderTable], [updateStats]).  The page then reacts to events: the
    three selects and the debounced search box re-run [applyFilters], the
    retry button re-runs [loadData], and the star of a row toggles the
    item in the watchlist ([addToWatchlist]), which is written back to
    [localStorage] and announced by a notification that a timer removes
    3 s later.  A row's details button opens a window
    ([showCommodityDetails]) that its close button or its overlay
    removes 300 ms after the click.  Everything runs on one event loop; [loadData] is
    suspended while its requests are in flight, and a retry can start a
    second load meanwhile.

    ** The files

    - [Prelude] (this file): the exceptions the code throws ([exn]), the
      exception monad [res] with [x <- c ;; k] in [pb_scope],
      [Array.prototype.map] and [filter] with callbacks that may throw
      ([map_res], [filter_res]), the hint databases [pb] and [pb_rw], and
      the list lemmas the components share.
    - [JsNum], [NumParse], [JsValue], [NumText], [Text], [Dates]: the
      parts of the JavaScript runtime the code relies on, from ECMA-262:
      numbers ([num], [*], [-], [/], [Math.floor], [<], each result
      rounded to a double), [parseFloat] and [ToNumber], the values
      [JSON.parse] produces ([jsval]) with [String()] (the shortest
      round-trip digits of [Number::toString]), property access,
      truthiness and [JSON.stringify], [toLowerCase] and the two regular
      expression replacements of [toTitleCase], and [Date] (TimeClip,
      [toISOString], date-only parsing).  [NumText] proves that
      [parseFloat] reads back what [Number::toString] prints.
      [JsValue.Runtime] is the interface to what the model leaves to the
      engine: [localeCompare], [JSON.parse], [Intl.NumberFormat] and the
      CSS string token of a selector; every component is proved for any
      [Runtime], and [JsValue.ascii_runtime] is a concrete one.
    - [Fetcher]: [fetchCommodityPrice] against an API given as what the
      code observes per commodity, and the settled batch.
    - [Normalizer]: the body of [loadFromNewAPI] after the [await]:
      [normalize] (the map callback, in evaluation order, with its
      exceptions), [getExchangeLocation] with the [Object.prototype]
      lookup of plain objects, and the retention filter [keep_row].
    - [StableSort]: [Array.prototype.sort] as insertion sort, the unique
      stable sort for a consistent comparator.
    - [FilterSort]: [applyFilters] and [sortData] on a list of rows.
    - [Watchlist] (stdpp lists): [loadWatchlistFromStorage] and
      [addToWatchlist] on the watchlist value, the stored text and the
      notifications; the button update it calls between the notification
      and the [localStorage] write is a parameter that may throw.
    - [Presentation]: what [renderTable] puts in each row
      ([calculateTrend], [getPriceChangeIndicator] and [renderTrend] with
      their markup, [getCommodityCategory], [formatPrice] with [toFixed],
      [formatDate] with the [en-US] spelling of [toLocaleDateString],
      [getTimeAgo], [escapeHtml]), the rows' [data-commodity] attribute and watchlist
      star with [updateWatchlistButton] run on the rows already in the
      document, the figures of [updateStats] and the options of
      [populateFilters].  Rows are objects: a row of the page is a pair of
      an allocation number and its fields, so that [indexOf] and [Set]
      compare references as the engine does.
    - [Markup]: the [innerHTML] template of a table row around those
      values, and the count of its tags.
    - [App]: the object's state ([app]) and its event handlers as a
      function [step] on events, with the events each state admits
      ([enabled]) and the reachable states ([reachable]).  [loadData] is
      two events, its start and its completion; the handlers call the
      functions of the files above the way the code calls them.
    - [Overlay]: the details window ([createCommodityDetailsModal], its
      element tree, [showCommodityDetails] with its two [closeModal]
      listeners and the inline [onclick] handler), [closeModal],
      [showNotification], and the page ([page]): [App]'s state with the
      screen (clock, notifications, windows, timers), one step relation
      [page_step] that runs [App]'s handlers at the current time, shows
      the notifications they emit, and lets time pass by running the
      [setTimeout] callbacks due (show and remove a window, remove a
      notification, the debounced [applyFilters()]).

    ** The theorems (claim ids C1-C30)

    - Loading: every stored row is valid (C1), its GHS price the double
      nearest its USD price times 15.5 (C21) or [Infinity] beyond the
      doubles (C30), its date a valid UTC midnight (C18); an all-invalid
      batch stores nothing without an error (C27), one bad timestamp
      aborts the load (C26), and a failed load shows the one message
      and keeps the old rows (C7).  The [catch] of [loadData] also
      reports an exception of the rendering as a network error (C19).
    - Filtering and sorting: [applyFilters] returns exactly the rows the
      three conditions select (C2) and throws on non-string locations
      (C28); [sortData] orders the rows as the specification says for
      every key but [name] (C3), and [price-high] reverses [price-low]
      stably (C22).
    - The page: an invariant of every reachable state, by induction on
      the reachability relation (C4); the debounce of the search box
      leaves at most one pending timer, reset 300 ms after each
      keystroke (C20).
    - The table and the figures: the price indicator reads the wrong
      row once the table is filtered (C8); the watchlist stars are set
      only by a later row (C10); [getTimeAgo]'s double arithmetic gives
      the integer figures (C12); the last update (C23); the spelled
      local day (C24); the markup of a row, whose only tags are the
      template's although a name's quotes reach its attributes (C25).
    - The watchlist: a toggle is its own inverse (C5) and keeps names
      unique whatever it ends with (C6); a name that breaks the selector
      of [updateWatchlistButton] loses the toggle on reload (C11);
      stored data that is not an array (C29).
    - Windows, notifications, timers: a notification is gone 3000 ms
      later on every reachable page (C9, by induction on
      [page_reachable]); the [x] and the overlay close a window within
      300 ms (C14), but one closed before its 10 ms show timer fires is
      shown again until then (C15); the footer's Close does nothing
      (C16), the "Add to Watchlist" button throws with the item's JSON
      (C13), and every row's details open (C17).

    The lemmas of the runtime models are proved too but are not claims
    about the program: the error bound of the rounding
    ([JsNum.mkfin_error]), the round trips of [toISOString]
    ([Dates.iso_date_roundtrip]) and of [Number::toString] through
    [parseFloat] ([NumText.parse_float_number_to_string]), the fuel of
    the regular expression scan ([Text.strip_futures_fuel_enough]), and
    the specification's scenarios run on fixed inputs
    ([Normalizer.loadFromNewAPI_corn_scenario],
    [Presentation.renderTable_corn_scenario]).

    ** Bounds and fuel

    A finite number is the rational value of a double: every arithmetic
    result is rounded to 53 significant bits, ties to even, down to the
    subnormal quantum [2^-1074] ([JsNum.round64]), and a magnitude of
    at least [2^1024 - 2^970] becomes an infinity ([JsNum.mkfin]).  The
    binade of a result comes from [Z.log2] of numerator and denominator,
    corrected by one comparison ([JsNum.exponent]).  [Number::toString]
    searches 1 to 17 digits for the shortest decimal that rounds back to
    the double; 17 are enough for every double, a property of binary64
    that is not proved here ([NumText.parse_float_number_to_string] takes the success of the
    search as a hypothesis); a rational that is not a double
    prints its exact expansion.  [toFixed] is modelled for
    magnitudes below 10^21, the only ones it formats digit by digit.
    Time values are integers of milliseconds within the +-8.64e15 of
    TimeClip; the calendar ([Dates.civil_from_days]) is checked against
    [days_from_civil] by evaluating all 146097 days of one 400-year era
    ([Dates.all_doe_era]) and by the era arithmetic beyond.  The global
    replacement [/\s+Futures\b/g] runs with fuel one more than the length
    of the string, which [Text.strip_futures_fuel_enough] shows is enough; the exact decimal expansion
    of a rational uses the bit size of the denominator as fuel for its
    factor counts, enough since every factor halves the number;
    [path_up] climbs the window's element tree with fuel one more than
    the element's position, enough since a parent precedes its children.
    Local time is UTC plus a fixed offset, and a day is spelled with the
    [en] pattern "MMM d, y", whose year is the year of the era.  Timers fire at their due time
    in the order [setTimeout] set them, and a timer due runs before any
    later event (no throttling).

    ** Not modelled

    The position of the retry button: [App.enabled] lets it be clicked
    in every state, although the page hides [#error] at each load start
    and the button may sit inside it (the HTML is not in the
    repository).  The extra events only enlarge the reachable states, so
    the invariants (C4, C9, C20) hold of the page either way; no claim
    relies on two loads overlapping.  The JavaScript the HTML parser
    could decode into the argument of the window's inline handler when
    the item's JSON holds an [&] (C13 excludes it).  [Array.prototype.sort]
    is modelled by the outcome of [cmp > 0] alone: consistency is a
    total preorder of that relation, which the code's subtraction
    comparators satisfy on numbers; ECMA-262's stronger notion is not
    needed.  CSS, [bindElements] (DOM lookups of the page's elements, whose HTML
    is not in the repository: the model takes every element to exist),
    [updateWatchlistDisplay] (a [console.log]), the service worker
    registration (lines 658-668, the registration of a file that is not
    in the repository), the CSS selector parser (the [Runtime]'s
    [css_string]), the JavaScript parser of the inline handler (its
    source is reported; whether it fails to parse or throws, nothing
    else happens), HTML character references other than the five the
    code's own text can hold, the HTML tokenizer beyond the value of a
    double-quoted attribute, the default-locale spelling of the last
    update ([toLocaleDateString()] without arguments; the model keeps
    its time value), the sign
    of a zero ([-0] is [0]: the code only compares, subtracts,
    multiplies and divides by positive constants, where the two agree),
    and strings beyond ASCII code units.

    This file is the prelude: the exceptions, the monad [res], the
    callbacks that may throw, and the shared list lemmas. *)

From Stdlib Require Import List String Ascii ZArith Lia.
Import ListNotations.

Declare Scope pb_scope.
Delimit Scope pb_scope with pb.
Create HintDb pb.
Create Rewrite HintDb pb_rw.

(** ** JavaScript exceptions and the exception monad *)

(** The exceptions the modelled code can raise: a [TypeError] (calling a
    method that does not exist, reading a property of [null]), a
    [RangeError] ([Date.prototype.toISOString] on an invalid date) and
    the [Error] thrown by [loadFromNewAPI], and the [DOMException] a DOM
    method throws ([querySelectorAll] on a selector that does not parse
    throws one named ["SyntaxError"]). *)
Inductive exn : Type :=
| TypeError (msg : string)
| RangeError (msg : string)
| Error (msg : string)
| DOMException (name msg : string).

(** A computation of JavaScript that returns a value or throws. *)
Inductive res (A : Type) : Type :=
| Ok (a : A)
| Throw (e : exn).
Arguments Ok {A} a.
Arguments Throw {A} e.

Definition bind {A B : Type} (r : res A) (k : A -> res B) : res B :=
  match r with
  | Ok a => k a
  | Throw e => Throw e
  end.

Notation "x <- c ;; k" := (bind c (fun x => k))
  (at level 100, c at next level, right associativity) : pb_scope.
Notation "c ;;; k" := (bind c (fun _ => k))
  (at level 100, right associativity) : pb_scope.

Open Scope pb_scope.

(** [xs.map(f)] where [f] may throw: the first exception aborts the map. *)
Fixpoint map_res {A B : Type} (f : A -> res B) (l : list A) : res (list B) :=
  match l with
  | [] => Ok []
  | a :: l' => b <- f a ;; bs <- map_res f l' ;; Ok (b :: bs)
  end.

(** [xs.filter(p)] where [p] may throw. *)
Fixpoint filter_res {A : Type} (p : A -> res bool) (l : list A) : res (list A) :=
  match l with
  | [] => Ok []
  | a :: l' =>
      b <- p a ;;
      rest <- filter_res p l' ;;
      Ok (if b then a :: rest else rest)
  end.

(** ** Lemmas on the exception monad *)

Lemma bind_Ok {A B} (a : A) (k : A -> res B) : bind (Ok a) k = k a.
Proof. reflexivity. Qed.

Lemma bind_Throw {A B} e (k : A -> res B) : bind (Throw e) k = Throw e.
Proof. reflexivity. Qed.

#[export] Hint Rewrite @bind_Ok @bind_Throw : pb_rw.

Lemma bind_Ok_inv {A B} (r : res A) (k : A -> res B) b :
  bind r k = Ok b -> exists a, r = Ok a /\ k a = Ok b.
Proof. destruct r; simpl; [eauto | discriminate]. Qed.

(** Splits every [bind _ _ = Ok _] hypothesis into its two halves. *)
Ltac inv_res :=
  repeat match goal with
  | H : bind _ _ = Ok _ |- _ =>
      let a := fresh "a" in let Ha := fresh "Ha" in
      apply bind_Ok_inv in H; destruct H as [a [Ha H]]; cbv beta zeta in H
  | H : Ok _ = Ok _ |- _ => injection H as H; subst
  | H : Throw _ = Ok _ |- _ => discriminate H
  | H : Ok _ = Throw _ |- _ => discriminate H
  end.

Lemma map_res_Ok_iff {A B} (f : A -> res B) l l' :
  map_res f l = Ok l' <-> Forall2 (fun a b => f a = Ok b) l l'.
Proof.
  revert l'; induction l as [|a l IH]; intros l'; simpl; split.
  - intros H; inv_res; constructor.
  - intros H; inversion H; reflexivity.
  - intros H; inv_res. constructor; [assumption | apply IH; assumption].
  - intros H; inversion H as [|? b ? bs Hab Hrest]; subst.
    rewrite Hab; simpl. apply IH in Hrest. rewrite Hrest. reflexivity.
Qed.

(** Every output of a successful map comes from an input. *)
Lemma map_res_In {A B} (f : A -> res B) l l' b :
  map_res f l = Ok l' -> In b l' -> exists a, In a l /\ f a = Ok b.
Proof.
  intros H%map_res_Ok_iff Hb. induction H as [|a b' l l' Hab _ IH]; [destruct Hb|].
  destruct Hb as [<-|Hb]; [exists a; split; [left|]; auto|].
  destruct (IH Hb) as [a' [Ha' Hf]]. exists a'. split; [right|]; auto.
Qed.

(** A map whose callback succeeds on every element succeeds. *)
Lemma map_res_total {A B} (f : A -> res B) (P : B -> Prop) l :
  (forall a, In a l -> exists b, f a = Ok b /\ P b) ->
  exists l', map_res f l = Ok l' /\ Forall P l'.
Proof.
  induction l as [|a l IH]; intros H; simpl; [exists []; split; constructor|].
  destruct (H a (or_introl eq_refl)) as [b [Hb Pb]]. rewrite Hb; simpl.
  destruct IH as [l' [Hl' Pl']]; [intros x Hx; apply H; right; exact Hx|].
  rewrite Hl'. exists (b :: l'). split; [reflexivity | constructor; assumption].
Qed.

Lemma map_res_pure {A B} (g : A -> B) l :
  map_res (fun a => Ok (g a)) l = Ok (map g l).
Proof. induction l as [|a l IH]; simpl; [reflexivity | now rewrite IH]. Qed.

Lemma map_res_length {A B} (f : A -> res B) l l' :
  map_res f l = Ok l' -> List.length l' = List.length l.
Proof. intros H%map_res_Ok_iff. symmetry. eapply Forall2_length, H. Qed.

(** A map whose callback throws on one element throws the first such
    exception. *)
Lemma map_res_Throw {A B} (f : A -> res B) l1 a l2 e :
  (forall x, In x l1 -> exists b, f x = Ok b) -> f a = Throw e ->
  map_res f (l1 ++ a :: l2) = Throw e.
Proof.
  intros Hok Ha. induction l1 as [|x l1 IH]; simpl.
  - rewrite Ha. reflexivity.
  - destruct (Hok x (or_introl eq_refl)) as [b Hb]. rewrite Hb; simpl.
    rewrite IH; [reflexivity | intros y Hy; apply Hok; right; exact Hy].
Qed.

(** [r.map(f)] on a result: the exception passes through. *)
Definition res_map {A B} (f : A -> B) (r : res A) : res B := x <- r ;; Ok (f x).

(** Filtering the images of [f] is filtering with the predicate composed
    with [f], then taking images. *)
Lemma filter_res_map {A B} (f : A -> B) (p : B -> res bool) l :
  filter_res p (map f l) = res_map (map f) (filter_res (fun a => p (f a)) l).
Proof.
  induction l as [|a l IH]; simpl; [reflexivity|]. rewrite IH. unfold res_map.
  destruct (p (f a)) as [[]|e]; simpl; [destruct (filter_res _ l)..|]; reflexivity.
Qed.

Lemma filter_res_pure {A} (p : A -> bool) l :
  filter_res (fun a => Ok (p a)) l = Ok (filter p l).
Proof. induction l as [|a l IH]; simpl; [reflexivity | now rewrite IH]. Qed.

(** A filter whose predicate never throws is the pure filter of the
    predicate's values. *)
Lemma filter_res_ext {A} (p : A -> res bool) (q : A -> bool) l :
  (forall a, In a l -> p a = Ok (q a)) -> filter_res p l = Ok (filter q l).
Proof.
  induction l as [|a l IH]; intros H; simpl; [reflexivity|].
  rewrite (H a (or_introl eq_refl)); simpl.
  rewrite IH by (intros x Hx; apply H; right; exact Hx). reflexivity.
Qed.

(** A successful filter evaluated its predicate without exception on
    every element and kept those it returned [true] on. *)
Lemma filter_res_Ok {A} (p : A -> res bool) l l' :
  filter_res p l = Ok l' ->
  (forall x, In x l -> exists b, p x = Ok b)
  /\ l' = filter (fun x => match p x with Ok b => b | Throw _ => false end) l.
Proof.
  revert l'. induction l as [|a l IH]; intros l' H; simpl in *.
  - inv_res. split; [intros x []|reflexivity].
  - inv_res. destruct (IH _ Ha0) as [Hall ->]. rewrite Ha. split.
    + intros x [<-|Hx]; eauto.
    + destruct a0; reflexivity.
Qed.

(** A filter whose predicate throws on some element, always the same
    exception, throws it. *)
Lemma filter_res_Throw {A} (p : A -> res bool) l x e :
  In x l -> p x = Throw e -> (forall y e', p y = Throw e' -> e' = e) ->
  filter_res p l = Throw e.
Proof.
  intros Hx Hpx Hsame. induction l as [|a l IH]; [destruct Hx|]. simpl.
  destruct (p a) as [b|e'] eqn:Ha; simpl.
  - destruct Hx as [->|Hx]; [congruence|]. rewrite IH by exact Hx. reflexivity.
  - rewrite (Hsame a e' Ha). reflexivity.
Qed.

(** ** Generic list lemmas *)

Lemma filter_filter {A} (p q : A -> bool) l :
  filter p (filter q l) = filter (fun a => andb (q a) (p a)) l.
Proof.
  induction l as [|a l IH]; simpl; [reflexivity|].
  destruct (q a); simpl; [destruct (p a); simpl; rewrite IH |]; auto.
Qed.

Lemma filter_comm {A} (p q : A -> bool) l :
  filter p (filter q l) = filter q (filter p l).
Proof.
  rewrite !filter_filter. apply filter_ext. intros a. apply Bool.andb_comm.
Qed.

Lemma filter_idem {A} (p : A -> bool) l : filter p (filter p l) = filter p l.
Proof.
  rewrite filter_filter. apply filter_ext. intros a. destruct (p a); reflexivity.
Qed.

Lemma filter_true_id {A} (p : A -> bool) l :
  (forall a, In a l -> p a = true) -> filter p l = l.
Proof.
  induction l as [|a l IH]; intros H; simpl; [reflexivity|].
  rewrite (H a (or_introl eq_refl)), IH; [reflexivity|].
  intros x Hx; apply H; right; exact Hx.
Qed.

Lemma filter_all_false {A} (p : A -> bool) l :
  Forall (fun a => p a = false) l -> filter p l = [].
Proof. induction 1 as [|a l Ha _ IH]; simpl; [reflexivity|]. rewrite Ha. exact IH. Qed.

(** ** Strings and integers *)

Lemma length_append (a b : string) : String.length (a ++ b) = (String.length a + String.length b)%nat.
Proof. induction a as [|c a IH]; simpl; [reflexivity|]. now rewrite IH. Qed.

Lemma append_assoc (a b c : string) : ((a ++ b) ++ c = a ++ b ++ c)%string.
Proof. induction a as [|x a IH]; simpl; [reflexivity|]. now rewrite IH. Qed.

(** Case analysis on every integer comparison of the goal, the
    impossible cases closed by [lia]. *)
(** [s.includes(c)] for one character. *)
Fixpoint has_char (c : ascii) (s : string) : bool :=
  match s with
  | EmptyString => false
  | String c' s' => ((c' =? c)%char || has_char c s')%bool
  end.

Lemma has_char_app c a b : has_char c (a ++ b) = (has_char c a || has_char c b)%bool.
Proof. induction a as [|x a IH]; simpl; [reflexivity|]. now rewrite IH, Bool.orb_assoc. Qed.

(** The double quote, which a string literal of this file cannot hold. *)
Definition quote_char : ascii := ascii_of_nat 34.

Ltac zbool :=
  repeat match goal with
  | |- context [Z.leb ?a ?b] => destruct (Z.leb_spec a b); try lia
  | |- context [Z.ltb ?a ?b] => destruct (Z.ltb_spec a b); try lia
  | |- context [Z.eqb ?a ?b] => destruct (Z.eqb_spec a b); try lia
  end.

#[export] Hint Resolve map_res_pure filter_res_pure : pb.
#[export] Hint Rewrite length_append append_assoc has_char_app : pb_rw.
