(* ===== verification/JsNum.v ===== *)
(** * JavaScript numbers

    A JavaScript number is an IEEE 754 double.  The model keeps a finite
    number as the rational [Fin q] it denotes, and [NaN], [Infinity] and
    [-Infinity] as constructors of their own.  Every arithmetic result
    goes through [mkfin]: the exact result rounded to the nearest double,
    ties to even ([round64]: 53 significant bits, down to the subnormal
    quantum [2^-1074]), and a magnitude that rounds beyond the largest
    double (at least [2^1024 - 2^970]) sent to an infinity.  [-0] is
    identified with [0]: the program only compares, multiplies and
    subtracts numbers, and [-0] and [0] agree on all three.

    The operations are the ones [src/script.js] applies: [*] (price
    conversion, [updated * 1000]), [-] (the sort comparators), [>] and
    [<] (the retention filter, [calculateTrend]), [isNaN] and truthiness. *)

From Stdlib Require Import QArith Qabs Qpower Qround Lia Lqa.
From Stdlib Require Qcanon.
From S2P Require Import Prelude.

Inductive num : Type :=
| NaN
| PosInf
| NegInf
| Fin (q : Q).

Definition Qltb (a b : Q) : bool := negb (Qle_bool b a).

(** The least magnitude that rounds to [Infinity]. *)
Definition overflow_bound : Q := inject_Z (2 ^ 1024 - 2 ^ 970).

(** ** Rounding to a double *)

(** [2^k <= a / d], for positive [a] and [d]. *)
Definition ge_pow2 (a d k : Z) : bool :=
  if (0 <=? k)%Z then (d * 2 ^ k <=? a)%Z else (d <=? a * 2 ^ (- k))%Z.

(** The binary exponent of [a / d]: [2^e <= a / d < 2^(e+1)]. *)
Definition exponent (a d : Z) : Z :=
  let k := (Z.log2 a - Z.log2 d)%Z in if ge_pow2 a d k then k else (k - 1)%Z.

(** The weight of the last bit of a double of exponent [e]: 52 bits
    below the leading one, and never below the subnormal [2^-1074]. *)
Definition quantum (e : Z) : Z := Z.max (e - 52) (-1074).

(** [N / D] rounded to the nearest integer, ties to the even one. *)
Definition round_div (N D : Z) : Z :=
  let n := (N / D)%Z in
  match Z.compare (2 * (N mod D)) D with
  | Lt => n
  | Gt => (n + 1)%Z
  | Eq => if Z.even n then n else (n + 1)%Z
  end.

(** [m * 2^u] as a rational. *)
Definition scaled (m u : Z) : Q :=
  if (0 <=? u)%Z then inject_Z (m * 2 ^ u) else m # Z.to_pos (2 ^ (- u)).

(** The double nearest to [q], ties to even, as a rational in lowest
    terms (the range of doubles is [mkfin]'s concern): the magnitude
    [a / d] is divided by the quantum [2^u] of its binade, rounded to an
    integer [n], and [n * 2^u] given the sign of [q]. *)
Definition round64 (q : Q) : Q :=
  let a := Z.abs (Qnum q) in
  let d := Zpos (Qden q) in
  if (a =? 0)%Z then 0 else
  let u := quantum (exponent a d) in
  let n := if (0 <=? u)%Z then round_div a (d * 2 ^ u) else round_div (a * 2 ^ (- u)) d in
  Qred (scaled (if (Qnum q <? 0)%Z then (- n)%Z else n) u).

(** The number an exact finite result denotes. *)
Definition mkfin (q : Q) : num :=
  if Qle_bool overflow_bound (Qabs q) then (if Qltb 0 q then PosInf else NegInf)
  else Fin (round64 q).

Definition inf_of (positive : bool) : num := if positive then PosInf else NegInf.

(** [a * b] (ECMA-262 Number::multiply). *)
Definition num_mul (a b : num) : num :=
  match a, b with
  | NaN, _ | _, NaN => NaN
  | Fin x, Fin y => mkfin (x * y)
  | Fin x, PosInf | PosInf, Fin x =>
      if Qeq_bool x 0 then NaN else inf_of (Qltb 0 x)
  | Fin x, NegInf | NegInf, Fin x =>
      if Qeq_bool x 0 then NaN else inf_of (Qltb x 0)
  | PosInf, PosInf | NegInf, NegInf => PosInf
  | PosInf, NegInf | NegInf, PosInf => NegInf
  end.

(** [a - b] (ECMA-262 Number::subtract). *)
Definition num_sub (a b : num) : num :=
  match a, b with
  | NaN, _ | _, NaN => NaN
  | Fin x, Fin y => mkfin (x - y)
  | PosInf, PosInf | NegInf, NegInf => NaN
  | PosInf, _ | _, NegInf => PosInf
  | NegInf, _ | _, PosInf => NegInf
  end.

(** [a / b] (ECMA-262 Number::divide); a zero divisor is [+0]. *)
Definition num_div (a b : num) : num :=
  match a, b with
  | NaN, _ | _, NaN => NaN
  | Fin x, Fin y =>
      if Qeq_bool y 0 then (if Qeq_bool x 0 then NaN else inf_of (Qltb 0 x))
      else mkfin (x / y)
  | Fin _, (PosInf | NegInf) => Fin 0
  | (PosInf | NegInf), (PosInf | NegInf) => NaN
  | PosInf, Fin y => inf_of (negb (Qltb y 0))
  | NegInf, Fin y => inf_of (Qltb y 0)
  end.

(** [Math.floor(n)]: the floor of a double is a double. *)
Definition num_floor (n : num) : num :=
  match n with Fin q => Fin (inject_Z (Qfloor q)) | _ => n end.

(** [a < b] (ECMA-262 Number::lessThan, [undefined] read as [false]). *)
Definition num_lt (a b : num) : bool :=
  match a, b with
  | NaN, _ | _, NaN => false
  | NegInf, NegInf => false
  | NegInf, _ => true
  | _, NegInf => false
  | PosInf, _ => false
  | Fin _, PosInf => true
  | Fin x, Fin y => Qltb x y
  end.

Definition num_gt (a b : num) : bool := num_lt b a.

(** [isNaN(n)] on a number. *)
Definition is_nan (n : num) : bool := match n with NaN => true | _ => false end.

(** [Boolean(n)]: [0] and [NaN] are falsy. *)
Definition num_truthy (n : num) : bool :=
  match n with
  | NaN => false
  | Fin q => negb (Qeq_bool q 0)
  | _ => true
  end.

Definition num_of_Z (z : Z) : num := mkfin (inject_Z z).

(** ** Lemmas *)

Lemma Qltb_spec (a b : Q) : Qltb a b = true <-> a < b.
Proof.
  unfold Qltb. rewrite Bool.negb_true_iff.
  split; intros H.
  - apply Qnot_le_lt. intros Hle. apply Qle_bool_iff in Hle. congruence.
  - destruct (Qle_bool b a) eqn:E; [|reflexivity].
    apply Qle_bool_iff in E. exfalso. apply (Qlt_not_le a b); assumption.
Qed.

Lemma Qltb_false (a b : Q) : Qltb a b = false <-> b <= a.
Proof.
  unfold Qltb. rewrite Bool.negb_false_iff. apply Qle_bool_iff.
Qed.

(** A product at or beyond the largest double is [Infinity]. *)
Lemma mkfin_overflow (q : Q) : overflow_bound <= q -> mkfin q = PosInf.
Proof.
  intros H. assert (Hob : 0 < overflow_bound) by (unfold overflow_bound, Qlt; simpl; lia).
  unfold mkfin. rewrite Qabs_pos by lra.
  assert (E1 : Qle_bool overflow_bound q = true) by (apply Qle_bool_iff; exact H).
  assert (E2 : Qltb 0 q = true) by (apply Qltb_spec; lra).
  rewrite E1, E2. reflexivity.
Qed.

(** A value strictly inside the range of doubles is rounded. *)
Lemma mkfin_in_range (q : Q) : Qabs q < overflow_bound -> mkfin q = Fin (round64 q).
Proof.
  intros Hhi. unfold mkfin.
  destruct (Qle_bool overflow_bound (Qabs q)) eqn:E1; [|reflexivity].
  apply Qle_bool_iff in E1. exfalso. apply (Qlt_not_le _ _ Hhi E1).
Qed.

(** [mkfin] never yields [NaN]. *)
Lemma mkfin_not_nan (q : Q) : mkfin q <> NaN.
Proof.
  unfold mkfin. destruct (Qle_bool _ _); [destruct (Qltb 0 q)|]; discriminate.
Qed.

(** *** The binary exponent *)

Lemma pow2_pos (k : Z) : (0 <= k)%Z -> (0 < 2 ^ k)%Z.
Proof. intros. apply Z.pow_pos_nonneg; lia. Qed.

(** [ge_pow2] compares [a / d] with [2^k] through any common scale [2^s]. *)
Lemma ge_pow2_iff (a d k s : Z) : (0 <= s)%Z -> (0 <= k + s)%Z ->
  ge_pow2 a d k = true <-> (d * 2 ^ (k + s) <= a * 2 ^ s)%Z.
Proof.
  intros Hs Hks. unfold ge_pow2.
  destruct (Z.leb_spec 0 k) as [Hk|Hk]; rewrite Z.leb_le.
  - rewrite Z.pow_add_r by lia. pose proof (pow2_pos s Hs). split; intros; nia.
  - assert (E : (2 ^ s = 2 ^ (- k) * 2 ^ (k + s))%Z)
      by (rewrite <- Z.pow_add_r by lia; f_equal; lia).
    rewrite E. pose proof (pow2_pos _ Hks). split; intros; nia.
Qed.

(** A smaller power of two is still below [a / d]. *)
Lemma ge_pow2_mono (a d k k' : Z) : (0 < d)%Z -> (k' <= k)%Z ->
  ge_pow2 a d k = true -> ge_pow2 a d k' = true.
Proof.
  intros Hd Hk. set (s := Z.max 0 (- k')).
  rewrite (ge_pow2_iff a d k s), (ge_pow2_iff a d k' s) by lia.
  replace (k + s)%Z with ((k - k') + (k' + s))%Z by lia.
  rewrite Z.pow_add_r by lia. pose proof (pow2_pos (k' + s)). pose proof (pow2_pos (k - k')).
  assert (1 <= 2 ^ (k - k'))%Z by lia. nia.
Qed.

(** [exponent a d] is a power of two below [a / d]. *)
Lemma exponent_le (a d : Z) : (0 < a)%Z -> (0 < d)%Z -> ge_pow2 a d (exponent a d) = true.
Proof.
  intros Ha Hd. unfold exponent.
  destruct (ge_pow2 a d (Z.log2 a - Z.log2 d)) eqn:E; [exact E|].
  pose proof (Z.log2_spec a Ha) as [Ha1 _]. pose proof (Z.log2_spec d Hd) as [_ Hd2].
  pose proof (Z.log2_nonneg a). pose proof (Z.log2_nonneg d).
  rewrite (ge_pow2_iff _ _ _ (Z.log2 d + 1)) by lia.
  replace (Z.log2 a - Z.log2 d - 1 + (Z.log2 d + 1))%Z with (Z.log2 a) by lia.
  rewrite Z.pow_succ_r in Hd2 by lia. rewrite Z.pow_add_r by lia.
  pose proof (pow2_pos (Z.log2 a)). nia.
Qed.

(** *** Sign of the rounded value *)

Lemma round_div_nonneg (N D : Z) : (0 <= N)%Z -> (0 < D)%Z -> (0 <= round_div N D)%Z.
Proof.
  intros HN HD. assert (0 <= N / D)%Z by (apply Z.div_pos; lia).
  unfold round_div. destruct (Z.compare _ _); [destruct (Z.even _)|..]; lia.
Qed.

Lemma round_div_pos (N D : Z) : (0 < D)%Z -> (D <= N)%Z -> (0 < round_div N D)%Z.
Proof.
  intros HD HN. assert (1 <= N / D)%Z.
  { apply (Z.div_le_mono D N D) in HN; [|lia]. rewrite Z.div_same in HN by lia. exact HN. }
  unfold round_div. destruct (Z.compare _ _); [destruct (Z.even _)|..]; lia.
Qed.

Lemma Zpos_to_pos_pow2 (k : Z) : (0 <= k)%Z -> Zpos (Z.to_pos (2 ^ k)) = (2 ^ k)%Z.
Proof. intros. apply Z2Pos.id, pow2_pos; lia. Qed.

Lemma scaled_nonneg (m u : Z) : (0 <= m)%Z -> 0 <= scaled m u.
Proof.
  intros Hm. unfold scaled. destruct (Z.leb_spec 0 u).
  - pose proof (pow2_pos u). unfold Qle; simpl. nia.
  - unfold Qle; simpl. lia.
Qed.

Lemma scaled_nonpos (m u : Z) : (m <= 0)%Z -> scaled m u <= 0.
Proof.
  intros Hm. unfold scaled. destruct (Z.leb_spec 0 u).
  - pose proof (pow2_pos u). unfold Qle; simpl. nia.
  - unfold Qle; simpl. lia.
Qed.

Lemma scaled_pos (m u : Z) : (0 < m)%Z -> 0 < scaled m u.
Proof.
  intros Hm. unfold scaled. destruct (Z.leb_spec 0 u).
  - pose proof (pow2_pos u). unfold Qlt; simpl. nia.
  - unfold Qlt; simpl. lia.
Qed.

Ltac case_leb := match goal with |- context [(0 <=? ?u)%Z] => destruct (Z.leb_spec 0 u) end.

(** The sign of the integer [round64] scales is the sign of [q]. *)
Ltac round64_cases q :=
  unfold round64; destruct (Z.eqb_spec (Z.abs (Qnum q)) 0); [first [lra|exfalso; lia]|];
  rewrite Qred_correct; destruct (Z.ltb_spec (Qnum q) 0).

Lemma round64_nonneg (q : Q) : 0 <= q -> 0 <= round64 q.
Proof.
  intros Hq. assert (0 <= Qnum q)%Z by (unfold Qle in Hq; simpl in Hq; lia).
  round64_cases q; [lia|]. apply scaled_nonneg.
  case_leb; apply round_div_nonneg; try apply Z.mul_nonneg_nonneg;
    try apply Z.mul_pos_pos; try apply pow2_pos; lia.
Qed.

Lemma round64_nonpos (q : Q) : q <= 0 -> round64 q <= 0.
Proof.
  intros Hq. assert (Qnum q <= 0)%Z by (unfold Qle in Hq; simpl in Hq; lia).
  round64_cases q; [|lia]. apply scaled_nonpos. rewrite Z.opp_nonpos_nonneg.
  case_leb; apply round_div_nonneg; try apply Z.mul_nonneg_nonneg;
    try apply Z.mul_pos_pos; try apply pow2_pos; lia.
Qed.

(** The smallest positive double, [2^-1074]. *)
Definition min_subnormal : Q := 1 # Z.to_pos (2 ^ 1074).

Lemma round64_pos (q : Q) : min_subnormal <= q -> 0 < round64 q.
Proof.
  intros Hq. unfold min_subnormal, Qle in Hq; cbn [Qnum Qden] in Hq.
  rewrite Zpos_to_pos_pow2 in Hq by lia.
  assert (Hn : (0 < Qnum q)%Z) by (pose proof (pow2_pos 1074); nia).
  round64_cases q; [lia|]. apply scaled_pos.
  set (a := Z.abs (Qnum q)). set (d := Zpos (Qden q)).
  assert (Ha : (0 < a)%Z) by lia. assert (Hd : (0 < d)%Z) by lia.
  assert (Hu : ge_pow2 a d (quantum (exponent a d)) = true).
  { unfold quantum. destruct (Z.max_spec (exponent a d - 52) (-1074)) as [[_ ->]|[_ ->]].
    - rewrite (ge_pow2_iff _ _ _ 1074) by lia. simpl Z.add. rewrite Z.mul_1_r.
      subst a. rewrite Z.abs_eq by lia. lia.
    - apply (ge_pow2_mono _ _ (exponent a d)); [lia|lia|apply exponent_le; assumption]. }
  revert Hu. case_leb; intros Hu.
  - rewrite (ge_pow2_iff _ _ _ 0), Z.add_0_r, Z.mul_1_r in Hu by lia.
    apply round_div_pos; [pose proof (pow2_pos _ H); lia|exact Hu].
  - rewrite (ge_pow2_iff _ _ _ (- quantum (exponent a d))), Z.add_opp_diag_r, Z.mul_1_r in Hu by lia.
    apply round_div_pos; [lia|exact Hu].
Qed.

(** *** The grid of doubles *)

(** Every double is an integer multiple of [2^-1074]. *)
Definition on_grid (q : Q) : Prop := exists k : Z, q == k # Z.to_pos (2 ^ 1074).

(** A number the program can hold: not [NaN], and a multiple of
    [2^-1074] when finite. *)
Definition num_ok (n : num) : Prop :=
  match n with NaN => False | Fin q => on_grid q | _ => True end.

Lemma on_grid_int (z : Z) : on_grid (inject_Z z).
Proof.
  exists (z * 2 ^ 1074)%Z. unfold Qeq, inject_Z; cbn [Qnum Qden]. rewrite Zpos_to_pos_pow2 by lia. lia.
Qed.

Lemma on_grid_scaled (m u : Z) : (-1074 <= u)%Z -> on_grid (scaled m u).
Proof.
  intros Hu. unfold scaled. case_leb.
  - apply on_grid_int.
  - exists (m * 2 ^ (1074 + u))%Z. unfold Qeq; cbn [Qnum Qden].
    rewrite !Zpos_to_pos_pow2 by lia.
    rewrite <- Z.mul_assoc, <- Z.pow_add_r by lia. f_equal. f_equal. lia.
Qed.

Lemma round64_on_grid (q : Q) : on_grid (round64 q).
Proof.
  unfold round64. destruct (Z.eqb _ 0); [exists 0%Z; reflexivity|].
  match goal with |- on_grid (Qred (scaled ?m ?u)) =>
    destruct (on_grid_scaled m u (Z.le_max_r _ _)) as [k Hk] end.
  exists k. rewrite Qred_correct. exact Hk.
Qed.

Lemma on_grid_sub (x y : Q) : on_grid x -> on_grid y -> on_grid (x - y).
Proof.
  intros [k1 H1] [k2 H2]. exists (k1 - k2)%Z. rewrite H1, H2.
  generalize (Z.to_pos (2 ^ 1074)) as P. intros P.
  unfold Qeq, Qminus, Qplus, Qopp; simpl. rewrite Pos2Z.inj_mul. ring.
Qed.

(** A positive double is at least [2^-1074]. *)
Lemma on_grid_pos (q : Q) : on_grid q -> 0 < q -> min_subnormal <= q.
Proof.
  intros [k Hk] Hq. rewrite Hk in *. unfold min_subnormal.
  generalize (Z.to_pos (2 ^ 1074)) as P. intros P. unfold Qlt, Qle in *; simpl in *. nia.
Qed.

Lemma mkfin_ok (q : Q) : num_ok (mkfin q).
Proof.
  unfold mkfin. destruct (Qle_bool _ _); [destruct (Qltb 0 q); exact I|apply round64_on_grid].
Qed.

Lemma num_of_Z_ok (z : Z) : num_ok (Fin (inject_Z z)).
Proof. apply on_grid_int. Qed.

(** The decision of [num_ok]. *)
Definition on_gridb (q : Q) : bool := (Qnum q * 2 ^ 1074 mod Zpos (Qden q) =? 0)%Z.

Definition num_okb (n : num) : bool :=
  match n with NaN => false | Fin q => on_gridb q | _ => true end.

Lemma num_okb_sound (n : num) : num_okb n = true -> num_ok n.
Proof.
  destruct n as [| | |q]; cbn [num_okb num_ok]; try discriminate; try (intros; exact I).
  unfold on_gridb. rewrite Z.eqb_eq. intros Hm.
  exists ((Qnum q * 2 ^ 1074) / Zpos (Qden q))%Z. unfold Qeq; cbn [Qnum Qden].
  rewrite Zpos_to_pos_pow2 by lia.
  apply Z.div_exact in Hm; [|lia]. rewrite Hm at 1. ring.
Qed.

Lemma num_ok_not_nan (n : num) : num_ok n -> n <> NaN.
Proof. destruct n; cbn; congruence. Qed.

(** [mkfin q] is positive exactly when [q] is, for [q] a difference of doubles. *)
Lemma mkfin_gt0_grid (q : Q) : on_grid q -> num_gt (mkfin q) (Fin 0) = Qltb 0 q.
Proof.
  intros Hg. unfold mkfin. destruct (Qle_bool overflow_bound (Qabs q)).
  - destruct (Qltb 0 q); reflexivity.
  - unfold num_gt, num_lt. destruct (Qltb 0 q) eqn:E.
    + apply Qltb_spec, round64_pos, on_grid_pos; [exact Hg|apply Qltb_spec, E].
    + apply Qltb_false, round64_nonpos, Qltb_false, E.
Qed.

(** [<] is a strict order on the non-[NaN] numbers. *)
Lemma num_lt_irrefl (a : num) : num_lt a a = false.
Proof.
  destruct a; simpl; try reflexivity.
  apply Qltb_false. apply Qle_refl.
Qed.

Lemma num_lt_trans (a b c : num) :
  num_lt a b = true -> num_lt b c = true -> num_lt a c = true.
Proof.
  destruct a, b, c; simpl; try discriminate; try reflexivity.
  rewrite !Qltb_spec. apply Qlt_trans.
Qed.

Lemma num_lt_asym (a b : num) : num_lt a b = true -> num_lt b a = false.
Proof.
  intros H. destruct (num_lt b a) eqn:E; [|reflexivity].
  rewrite <- (num_lt_irrefl a). symmetry. apply (num_lt_trans a b a); assumption.
Qed.

(** [<] is total on the non-[NaN] numbers: if [c < a] then [b] lies above
    [c] or below [a]. *)
Lemma num_lt_split (a b c : num) : b <> NaN ->
  num_lt c a = true -> num_lt c b = true \/ num_lt b a = true.
Proof.
  intros Hb. destruct a, b, c; simpl; try discriminate; try congruence; auto.
  rewrite !Qltb_spec. intros H.
  destruct (Qlt_le_dec q1 q0); [left; exact q2|right; eapply Qle_lt_trans; eassumption].
Qed.

(** The sign of a difference is the order of its operands. *)
Lemma num_sub_gt0 (a b : num) : num_ok a -> num_ok b ->
  num_gt (num_sub a b) (Fin 0) = num_lt b a.
Proof.
  intros Ha Hb. destruct a as [| | |x], b as [| | |y]; cbn [num_ok] in Ha, Hb;
    try contradiction; try reflexivity.
  cbn [num_sub]. rewrite mkfin_gt0_grid by (apply on_grid_sub; assumption). unfold num_lt, Qltb.
  f_equal. apply eq_true_iff_eq. rewrite !Qle_bool_iff. lra.
Qed.

#[export] Hint Resolve num_lt_irrefl num_lt_asym mkfin_not_nan mkfin_ok num_of_Z_ok num_ok_not_nan : pb.

(** *** Rounding error *)

Lemma round_div_spec (N D : Z) : (0 < D)%Z ->
  (- D <= 2 * (round_div N D * D - N) <= D)%Z.
Proof.
  intros HD. pose proof (Z.mod_pos_bound N D HD). pose proof (Z.div_mod N D ltac:(lia)).
  unfold round_div. destruct (Z.compare_spec (2 * (N mod D)) D); [destruct (Z.even _)|..]; nia.
Qed.

Lemma scaled_opp (m u : Z) : scaled (- m) u == - scaled m u.
Proof. unfold scaled. case_leb; unfold Qeq; cbn [Qnum Qden Qopp inject_Z]; lia. Qed.

Lemma scaled_Qpower (m u : Z) : scaled m u == inject_Z m * 2 ^ u.
Proof.
  unfold scaled. case_leb.
  - rewrite inject_Z_mult, Zpower_Qpower by lia. reflexivity.
  - rewrite Qmake_Qdiv, Zpos_to_pos_pow2, Zpower_Qpower by lia.
    unfold Qdiv. rewrite <- Qpower_opp, Z.opp_involutive. reflexivity.
Qed.

(** [ge_pow2] read in [Q]. *)
Lemma ge_pow2_scaled (a : Z) (p : positive) (k : Z) :
  ge_pow2 a (Zpos p) k = true -> scaled 1 k <= a # p.
Proof.
  unfold ge_pow2, scaled. case_leb; rewrite Z.leb_le; intros Hk; unfold Qle; cbn [Qnum Qden inject_Z].
  - lia.
  - rewrite Zpos_to_pos_pow2 by lia. lia.
Qed.

Lemma round64_opp (q : Q) : round64 (- q) == - round64 q.
Proof.
  destruct q as [z p]. unfold round64. cbn [Qnum Qden Qopp]. rewrite Z.abs_opp.
  destruct (Z.eqb_spec (Z.abs z) 0); [reflexivity|]. rewrite !Qred_correct.
  destruct (Z.ltb_spec (- z) 0), (Z.ltb_spec z 0); try lia.
  - rewrite scaled_opp. reflexivity.
  - rewrite scaled_opp, Qopp_involutive. reflexivity.
Qed.

(** Half a quantum: a positive value is within [2^u / 2] of its double. *)
Lemma round64_pos_err (z : Z) (p : positive) : (0 < z)%Z ->
  Qabs (round64 (z # p) - (z # p)) <= (1 # 2) * scaled 1 (quantum (exponent z (Zpos p))).
Proof.
  intros Hz. unfold round64. cbn [Qnum Qden]. rewrite Z.abs_eq by lia.
  destruct (Z.eqb_spec z 0) as [|_]; [lia|]. rewrite Qred_correct.
  destruct (Z.ltb_spec z 0) as [|_]; [lia|].
  set (u := quantum _). unfold scaled. case_leb.
  - pose proof (pow2_pos u H) as HP.
    pose proof (round_div_spec z (Zpos p * 2 ^ u) ltac:(lia)) as Hs.
    revert HP Hs. generalize (round_div z (Zpos p * 2 ^ u)) as n.
    generalize (2 ^ u)%Z as P. intros P n HP Hs.
    apply Qabs_Qle_condition; split; unfold Qle, Qminus, Qplus, Qopp, Qmult, inject_Z;
      cbn [Qnum Qden]; rewrite ?Pos2Z.inj_mul; nia.
  - assert (HP : Zpos (Z.to_pos (2 ^ (- u))) = (2 ^ (- u))%Z) by (apply Zpos_to_pos_pow2; lia).
    rewrite <- HP.
    pose proof (round_div_spec (z * Zpos (Z.to_pos (2 ^ (- u)))) (Zpos p) ltac:(lia)) as Hs.
    revert Hs. generalize (round_div (z * Zpos (Z.to_pos (2 ^ (- u)))) (Zpos p)) as n.
    generalize (Z.to_pos (2 ^ (- u))) as P. intros P n Hs.
    apply Qabs_Qle_condition; split; unfold Qle, Qminus, Qplus, Qopp, Qmult, inject_Z;
      cbn [Qnum Qden]; rewrite ?Pos2Z.inj_mul; nia.
Qed.

(** The quantum of a positive value is at most [2^-52] of it, or the
    subnormal quantum [2^-1074]. *)
Lemma quantum_bound (z : Z) (p : positive) : (0 < z)%Z ->
  scaled 1 (quantum (exponent z (Zpos p))) <= (1 # 2) ^ 52 * (z # p) + (1 # 2) ^ 1074.
Proof.
  intros Hz. assert (Hx : 0 <= (1 # 2) ^ 52 * (z # p)).
  { apply Qmult_le_0_compat; [apply Qpower_0_le; discriminate|unfold Qle; cbn; lia]. }
  unfold quantum. destruct (Z.max_spec (exponent z (Zpos p) - 52) (-1074)) as [[_ ->]|[_ ->]].
  - assert (E : scaled 1 (-1074) == (1 # 2) ^ 1074) by (vm_compute; reflexivity). lra.
  - pose proof (ge_pow2_scaled _ _ _ (exponent_le z (Zpos p) Hz ltac:(lia))) as He.
    rewrite !scaled_Qpower in *.
    replace (exponent z (Zpos p) - 52)%Z with (exponent z (Zpos p) + -52)%Z by lia.
    rewrite Qpower_plus by (unfold Qeq; cbn; lia).
    assert (E : (2 ^ (-52)) == (1 # 2) ^ 52) by (vm_compute; reflexivity). rewrite E.
    assert (Hp : 0 <= (1 # 2) ^ 1074) by (apply Qpower_0_le; discriminate).
    assert (Hq : 0 <= (1 # 2) ^ 52) by (apply Qpower_0_le; discriminate).
    rewrite Qmult_1_l in *. apply (Qmult_le_compat_r _ _ _ He) in Hq. lra.
Qed.

(** [round64] is correct to half a unit in the last place: the double
    it yields is within [2^-53] of the exact value, relatively, or within
    half the subnormal quantum [2^-1075]. *)
Lemma round64_abs_error (q : Q) :
  Qabs (round64 q - q) <= (1 # 2) ^ 53 * Qabs q + (1 # 2) ^ 1075.
Proof.
  assert (Hpos : forall z p, (0 < z)%Z ->
            Qabs (round64 (z # p) - (z # p)) <= (1 # 2) ^ 53 * (z # p) + (1 # 2) ^ 1075).
  { intros z p Hz. eapply Qle_trans; [apply round64_pos_err, Hz|].
    apply Qle_trans with ((1 # 2) * ((1 # 2) ^ 52 * (z # p) + (1 # 2) ^ 1074)).
    { apply Qmult_le_l; [reflexivity|apply quantum_bound, Hz]. }
    assert (E53 : (1 # 2) ^ 53 == (1 # 2) * (1 # 2) ^ 52) by (vm_compute; reflexivity).
    assert (E75 : (1 # 2) ^ 1075 == (1 # 2) * (1 # 2) ^ 1074) by (vm_compute; reflexivity).
    rewrite E53, E75. apply Qle_lteq. right. ring. }
  destruct q as [z p]. destruct (Z.lt_trichotomy z 0) as [Hz|[->|Hz]].
  - set (w := Qmake (- z) p).
    assert (Ew : Qmake z p = - w) by (unfold w, Qopp; cbn [Qnum Qden]; rewrite Z.opp_involutive; reflexivity).
    assert (Hw : 0 <= w) by (unfold w, Qle; cbn [Qnum Qden]; lia).
    rewrite Ew, round64_opp, !Qabs_opp, (Qabs_pos w Hw).
    setoid_replace (- round64 w - - w) with (- (round64 w - w)) by ring.
    rewrite Qabs_opp. apply Hpos. lia.
  - assert (E0 : round64 (0 # p) = 0) by reflexivity. rewrite E0.
    assert (Z0 : Qabs (0 - (0 # p)) == 0) by (unfold Qeq; reflexivity).
    assert (Z1 : Qabs (0 # p) == 0) by (unfold Qeq; reflexivity).
    rewrite Z0, Z1, Qmult_0_r, Qplus_0_l. apply Qpower_0_le. discriminate.
  - rewrite (Qabs_pos (z # p)) by (unfold Qle; cbn [Qnum Qden]; lia). apply (Hpos z p Hz).
Qed.

(** *** [round64] depends only on the value *)

(** [ge_pow2] depends only on the ratio [a / d]. *)
Lemma ge_pow2_ratio (a d a' d' k : Z) : (0 < d)%Z -> (0 < d')%Z -> (a * d' = a' * d)%Z ->
  ge_pow2 a d k = ge_pow2 a' d' k.
Proof.
  intros Hd Hd' E. set (s := Z.max 0 (- k)).
  apply eq_true_iff_eq. rewrite (ge_pow2_iff a d k s), (ge_pow2_iff a' d' k s) by lia.
  pose proof (pow2_pos (k + s) ltac:(lia)). pose proof (pow2_pos s ltac:(lia)).
  split; intros; nia.
Qed.

(** [exponent a d] is the largest power of two below [a / d]. *)
Lemma exponent_lt (a d : Z) : (0 < a)%Z -> (0 < d)%Z -> ge_pow2 a d (exponent a d + 1) = false.
Proof.
  intros Ha Hd. pose proof (Z.log2_spec a Ha) as [_ Ha2]. pose proof (Z.log2_spec d Hd) as [Hd1 _].
  pose proof (Z.log2_nonneg a). pose proof (Z.log2_nonneg d).
  assert (Hk : ge_pow2 a d (Z.log2 a - Z.log2 d + 1) = false).
  { apply Bool.not_true_iff_false. rewrite (ge_pow2_iff _ _ _ (Z.log2 d)) by lia.
    replace (Z.log2 a - Z.log2 d + 1 + Z.log2 d)%Z with (Z.succ (Z.log2 a)) by lia.
    pose proof (pow2_pos (Z.log2 d)). nia. }
  unfold exponent. destruct (ge_pow2 a d (Z.log2 a - Z.log2 d)) eqn:E; [exact Hk|].
  replace (Z.log2 a - Z.log2 d - 1 + 1)%Z with (Z.log2 a - Z.log2 d)%Z by lia. exact E.
Qed.

(** Two exponents that both bracket the same ratio agree. *)
Lemma exponent_unique (a d e e' : Z) : (0 < d)%Z ->
  ge_pow2 a d e = true -> ge_pow2 a d (e + 1) = false ->
  ge_pow2 a d e' = true -> ge_pow2 a d (e' + 1) = false -> e = e'.
Proof.
  intros Hd H1 H2 H3 H4. destruct (Z.lt_trichotomy e e') as [Hl|[Hl|Hl]]; [|exact Hl|].
  - rewrite (ge_pow2_mono a d e' (e + 1) Hd ltac:(lia) H3) in H2. discriminate.
  - rewrite (ge_pow2_mono a d e (e' + 1) Hd ltac:(lia) H1) in H4. discriminate.
Qed.

Lemma exponent_ratio (a d a' d' : Z) : (0 < a)%Z -> (0 < d)%Z -> (0 < a')%Z -> (0 < d')%Z ->
  (a * d' = a' * d)%Z -> exponent a d = exponent a' d'.
Proof.
  intros Ha Hd Ha' Hd' E. apply (exponent_unique a d); [exact Hd|apply exponent_le; lia|apply exponent_lt; lia|..].
  - rewrite (ge_pow2_ratio a d a' d') by assumption. apply exponent_le; lia.
  - rewrite (ge_pow2_ratio a d a' d') by assumption. apply exponent_lt; lia.
Qed.

(** [round_div] depends only on the ratio [N / D]. *)
Lemma round_div_ratio (N D N' D' : Z) : (0 < D)%Z -> (0 < D')%Z -> (N * D' = N' * D)%Z ->
  round_div N D = round_div N' D'.
Proof.
  intros HD HD' E.
  pose proof (Z.mod_pos_bound N D HD). pose proof (Z.div_mod N D ltac:(lia)).
  pose proof (Z.mod_pos_bound N' D' HD'). pose proof (Z.div_mod N' D' ltac:(lia)).
  assert (Hq : (N / D = N' / D')%Z).
  { apply Z.le_antisymm; apply Z.lt_succ_r; apply (Z.mul_lt_mono_pos_r (D * D')); nia. }
  assert (Hr : (N mod D * D' = N' mod D' * D)%Z) by nia.
  unfold round_div. rewrite Hq.
  assert (Hc : Z.compare (2 * (N mod D)) D = Z.compare (2 * (N' mod D')) D').
  { revert Hr. generalize (N mod D)%Z (N' mod D')%Z. intros r r' Hr. clear - Hr HD HD'.
    destruct (Z.compare_spec (2 * r) D), (Z.compare_spec (2 * r') D'); try reflexivity; nia. }
  rewrite Hc. reflexivity.
Qed.

Lemma round64_wd (q q' : Q) : q == q' -> round64 q = round64 q'.
Proof.
  destruct q as [z p], q' as [z' p']. unfold Qeq, round64; cbn [Qnum Qden]. intros E.
  destruct (Z.eqb_spec (Z.abs z) 0), (Z.eqb_spec (Z.abs z') 0); try reflexivity; try nia.
  assert (Ea : (Z.abs z * Zpos p' = Z.abs z' * Zpos p)%Z).
  { rewrite <- (Z.abs_eq (Zpos p')), <- (Z.abs_eq (Zpos p)), <- !Z.abs_mul, E by lia. reflexivity. }
  rewrite (exponent_ratio (Z.abs z) (Zpos p) (Z.abs z') (Zpos p')) by lia.
  set (u := quantum _). case_leb.
  - rewrite (round_div_ratio (Z.abs z) (Zpos p * 2 ^ u) (Z.abs z') (Zpos p' * 2 ^ u))
      by (pose proof (pow2_pos u H); nia).
    destruct (Z.ltb_spec z 0), (Z.ltb_spec z' 0); try reflexivity; nia.
  - rewrite (round_div_ratio (Z.abs z * 2 ^ (- u)) (Zpos p) (Z.abs z' * 2 ^ (- u)) (Zpos p'))
      by (pose proof (pow2_pos (- u) ltac:(lia)); nia).
    destruct (Z.ltb_spec z 0), (Z.ltb_spec z' 0); try reflexivity; nia.
Qed.

(** Equal rationals round to the same double. *)
#[export] Instance round64_Proper : Proper (Qeq ==> eq) round64.
Proof. intros q q' E. apply round64_wd, E. Qed.

#[export] Instance mkfin_Proper : Proper (Qeq ==> eq) mkfin.
Proof.
  intros q q' E. unfold mkfin. rewrite E, (round64_wd q q' E).
  destruct (Qle_bool _ _); [|reflexivity]. unfold Qltb. rewrite E. reflexivity.
Qed.

(** *** Integers below [2^53] are doubles *)

Lemma round_div_1 (N : Z) : round_div N 1 = N.
Proof. unfold round_div. rewrite Z.div_1_r, Z.mod_1_r. reflexivity. Qed.

Lemma Qred_inject_Z (z : Z) : Qred (inject_Z z) = inject_Z z.
Proof. apply Qcanon.Qred_identity. cbn. apply Z.gcd_1_r. Qed.

Lemma round64_int (z : Z) : (Z.abs z < 2 ^ 53)%Z -> round64 (inject_Z z) = inject_Z z.
Proof.
  intros Hz. destruct (Z.eq_dec z 0) as [->|Hz0]; [reflexivity|].
  unfold round64. cbn [Qnum Qden inject_Z]. destruct (Z.eqb_spec (Z.abs z) 0); [lia|].
  assert (He : (exponent (Z.abs z) 1 <= 52)%Z).
  { destruct (Z.le_gt_cases (exponent (Z.abs z) 1) 52) as [|Hgt]; [assumption|].
    pose proof (ge_pow2_mono _ 1 (exponent (Z.abs z) 1) 53 ltac:(lia) ltac:(lia)
                  (exponent_le (Z.abs z) 1 ltac:(lia) ltac:(lia))) as H53.
    rewrite (ge_pow2_iff _ _ _ 0), Z.add_0_r, Z.pow_0_r, Z.mul_1_r, Z.mul_1_l in H53 by lia. lia. }
  assert (Hm : forall n, (if (z <? 0)%Z then (- (Z.abs z * n))%Z else (Z.abs z * n)%Z) = (z * n)%Z)
    by (intros; destruct (Z.ltb_spec z 0); lia).
  set (u := quantum _). assert (Hu : (u <= 0)%Z) by (unfold u, quantum; lia). case_leb.
  - replace u with 0%Z by lia. rewrite Z.mul_1_r, round_div_1.
    rewrite <- (Z.mul_1_r (Z.abs z)), Hm. unfold scaled. cbn. rewrite !Z.mul_1_r. apply Qred_inject_Z.
  - rewrite round_div_1, Hm. unfold scaled. destruct (Z.leb_spec 0 u); [lia|].
    rewrite <- (Qred_inject_Z z). apply Qred_complete.
    unfold Qeq; cbn [Qnum Qden inject_Z]. rewrite Zpos_to_pos_pow2 by lia. ring.
Qed.

(** *** [Math.floor] of a quotient of integers *)

Lemma Qfloor_unique (y : Q) (k : Z) : inject_Z k <= y -> y < inject_Z (k + 1) -> Qfloor y = k.
Proof.
  intros H1 H2. pose proof (Qfloor_le y). pose proof (Qlt_floor y).
  assert (k < Qfloor y + 1)%Z by (rewrite Zlt_Qlt; eapply Qle_lt_trans; eassumption).
  assert (Qfloor y < k + 1)%Z by (rewrite Zlt_Qlt; eapply Qle_lt_trans; eassumption).
  lia.
Qed.

(** Dividing integers below [2^52] and taking the floor of the rounded
    quotient is integer division: the rounding never crosses an integer. *)
Lemma floor_round64_div (d c : Z) : (0 < c)%Z -> (c <= 2 ^ 52)%Z -> (Z.abs d < 2 ^ 52)%Z ->
  Qfloor (round64 (inject_Z d / inject_Z c)) = (d / c)%Z.
Proof.
  intros Hc Hc2 Hd.
  pose proof (Z.mod_pos_bound d c Hc) as Hr. pose proof (Z.div_mod d c ltac:(lia)) as Hdm.
  set (k := (d / c)%Z) in *. set (r := (d mod c)%Z) in *.
  assert (Hc0 : ~ inject_Z c == 0) by (unfold Qeq; cbn; lia).
  set (w := / inject_Z c).
  assert (Hw : 0 < w) by (apply Qinv_lt_0_compat; unfold Qlt; cbn; lia).
  assert (Hwc : w * inject_Z c == 1) by (unfold w; field; exact Hc0).
  assert (Hx : inject_Z d / inject_Z c == inject_Z k + inject_Z r * w).
  { unfold w. rewrite Hdm at 1. rewrite inject_Z_plus, inject_Z_mult. field. exact Hc0. }
  destruct (Z.eq_dec r 0) as [Hr0|Hr0].
  - rewrite (round64_wd _ (inject_Z k)) by (rewrite Hx, Hr0; ring).
    rewrite round64_int, Qfloor_Z; [reflexivity|]. 
    assert (Z.abs k <= Z.abs d)%Z by (rewrite Hdm, Hr0, Z.add_0_r, Z.abs_mul; nia). lia.
  - rewrite Hx. set (x := inject_Z k + inject_Z r * w).
    assert (Hr1 : 1 <= inject_Z r) by (change 1 with (inject_Z 1); rewrite <- Zle_Qle; lia).
    assert (Hr2 : inject_Z r <= inject_Z c - 1).
    { change 1 with (inject_Z 1). unfold Qminus. rewrite <- inject_Z_opp, <- inject_Z_plus, <- Zle_Qle. lia. }
    assert (Hc3 : inject_Z c <= 4503599627370496 # 1)
      by (change (4503599627370496 # 1) with (inject_Z (2 ^ 52)); rewrite <- Zle_Qle; lia).
    assert (Hd3 : Qabs x <= (4503599627370495 # 1) * w).
    { unfold x. rewrite <- Hx. unfold Qdiv. fold w. rewrite Qabs_Qmult, (Qabs_pos w) by lra.
      apply Qmult_le_compat_r; [|lra]. change (Qabs (inject_Z d)) with (inject_Z (Z.abs d)).
      change (4503599627370495 # 1) with (inject_Z (2 ^ 52 - 1)). rewrite <- Zle_Qle. lia. }
    assert (E53 : (1 # 2) ^ 53 == 1 # 9007199254740992) by reflexivity.
    assert (Ht : (1 # 2) ^ 1075 <= 1 # 9007199254740992) by (vm_compute; discriminate).
    pose proof (round64_abs_error x) as He. rewrite E53 in He.
    apply Qabs_Qle_condition in He as [He1 He2].
    assert (Hxl : inject_Z k + w <= x).
    { assert (0 <= (inject_Z r - 1) * w) by (apply Qmult_le_0_compat; lra). unfold x. lra. }
    assert (Hxh : x <= inject_Z k + 1 - w).
    { assert (0 <= (inject_Z c - 1 - inject_Z r) * w) by (apply Qmult_le_0_compat; lra). unfold x. lra. }
    assert (Hw2 : 1 <= (4503599627370496 # 1) * w).
    { assert (0 <= ((4503599627370496 # 1) - inject_Z c) * w) by (apply Qmult_le_0_compat; lra). lra. }
    apply Qfloor_unique; [|rewrite inject_Z_plus; change (inject_Z 1) with 1]; lra.
Qed.

Lemma overflow_bound_big : inject_Z (2 ^ 53) < overflow_bound.
Proof. unfold overflow_bound. rewrite <- Zlt_Qlt. vm_compute. reflexivity. Qed.

Lemma mkfin_int (z : Z) : (Z.abs z < 2 ^ 53)%Z -> mkfin (inject_Z z) = Fin (inject_Z z).
Proof.
  intros Hz. rewrite mkfin_in_range; [rewrite round64_int by exact Hz; reflexivity|].
  eapply Qlt_trans; [|exact overflow_bound_big].
  change (Qabs (inject_Z z)) with (inject_Z (Z.abs z)). rewrite <- Zlt_Qlt. exact Hz.
Qed.

(** The difference of two integers below [2^53] apart is exact. *)
Lemma num_sub_int (a b : Z) : (Z.abs (a - b) < 2 ^ 53)%Z ->
  num_sub (Fin (inject_Z a)) (Fin (inject_Z b)) = Fin (inject_Z (a - b)).
Proof.
  intros H. cbn [num_sub]. rewrite <- mkfin_int by exact H.
  apply mkfin_Proper. unfold Qminus. rewrite <- inject_Z_opp, <- inject_Z_plus. reflexivity.
Qed.

(** [Math.floor(d / c)] on integers is [d / c] rounded down. *)
Lemma num_floor_div_int (d c : Z) : (0 < c)%Z -> (c <= 2 ^ 52)%Z -> (Z.abs d < 2 ^ 52)%Z ->
  num_floor (num_div (Fin (inject_Z d)) (Fin (inject_Z c))) = Fin (inject_Z (d / c)).
Proof.
  intros Hc Hc2 Hd. cbn [num_div].
  replace (Qeq_bool (inject_Z c) 0) with false
    by (symmetry; apply Bool.not_true_iff_false; rewrite Qeq_bool_iff; unfold Qeq; cbn; lia).
  rewrite mkfin_in_range.
  - cbn [num_floor]. rewrite floor_round64_div by assumption. reflexivity.
  - eapply Qle_lt_trans; [|exact overflow_bound_big].
    unfold Qdiv. rewrite Qabs_Qmult. change (Qabs (inject_Z d)) with (inject_Z (Z.abs d)).
    rewrite Qabs_pos by (apply Qinv_le_0_compat; unfold Qle; cbn; lia).
    apply Qle_shift_div_r; [unfold Qlt; cbn; lia|].
    rewrite <- inject_Z_mult, <- Zle_Qle. nia.
Qed.

(** ** Accuracy of the arithmetic *)

(** Every product and difference the code computes inside the range
    of doubles ([mkfin] of the exact result) is a finite double within
    half a unit in the last place of the exact result: within [2^-53] of
    it relatively, or [2^-1075] in the subnormal range. *)
Theorem mkfin_error (q : Q) : Qabs q < overflow_bound ->
  exists r, mkfin q = Fin r /\ Qabs (r - q) <= (1 # 2) ^ 53 * Qabs q + (1 # 2) ^ 1075.
Proof. intros H. exists (round64 q). split; [apply mkfin_in_range, H|apply round64_abs_error]. Qed.

(** The decimal 27.9 is not a double; its nearest double is within the
    bound. *)
Lemma mkfin_error_witness :
  exists r, mkfin (279 # 10) = Fin r /\ Qabs (r - (279 # 10)) <= (1 # 2) ^ 53 * Qabs (279 # 10) + (1 # 2) ^ 1075.
Proof. apply mkfin_error. vm_compute. reflexivity. Defined.

Lemma num_lt_int (a b : Z) : num_lt (Fin (inject_Z a)) (Fin (inject_Z b)) = (a <? b)%Z.
Proof. unfold num_lt. apply eq_true_iff_eq. rewrite Qltb_spec, Z.ltb_lt, Zlt_Qlt. reflexivity. Qed.
