(* ===== verification/NumParse.v ===== *)
(** * String to number conversions of the JavaScript runtime

    The program turns strings into numbers in two places:
    [parseFloat(item.price)] when the API sends the price as text
    ([loadFromNewAPI], line 108 of [src/script.js]), and the implicit
    [ToNumber] of [item.updated * 1000] (line 107) when the timestamp is
    not a number.  Both are built-ins of the runtime; they are modelled
    from ECMA-262 (sections StringToNumber and parseFloat) on strings of
    ASCII code units: [parseFloat] reads the longest prefix of the
    left-trimmed string that is a [StrDecimalLiteral]; [StringToNumber]
    trims both ends and requires the whole rest to be a
    [StrDecimalLiteral] or a [0x]/[0o]/[0b] literal, the empty string
    giving [0].  The value is the decimal's exact value rounded to the
    nearest double ([JsNum.mkfin]), as engines do for any number of
    digits. *)

From Stdlib Require Import List String Ascii ZArith QArith Lia.
From S2P Require Import Prelude JsNum.
Import ListNotations.
Open Scope string_scope.

(** ** Character classes *)

(** [StrWhiteSpaceChar] restricted to ASCII: TAB, LF, VT, FF, CR, SP. *)
Definition is_js_space (c : ascii) : bool :=
  let n := nat_of_ascii c in
  (((9 <=? n) && (n <=? 13)) || (n =? 32))%nat.

Definition digit_value (c : ascii) : option Z :=
  let n := nat_of_ascii c in
  if ((48 <=? n) && (n <=? 57))%nat then Some (Z.of_nat (n - 48)) else None.

Definition radix_digit_value (radix : Z) (c : ascii) : option Z :=
  let n := nat_of_ascii c in
  let v := if ((48 <=? n) && (n <=? 57))%nat then Some (Z.of_nat (n - 48))
           else if ((97 <=? n) && (n <=? 122))%nat then Some (Z.of_nat (n - 87))
           else if ((65 <=? n) && (n <=? 90))%nat then Some (Z.of_nat (n - 55))
           else None in
  match v with
  | Some d => if (d <? radix)%Z then Some d else None
  | None => None
  end.

(** ** Trimming *)

Fixpoint trim_start (s : string) : string :=
  match s with
  | String c r => if is_js_space c then trim_start r else s
  | EmptyString => EmptyString
  end.

Fixpoint rev_string_acc (s acc : string) : string :=
  match s with
  | EmptyString => acc
  | String c r => rev_string_acc r (String c acc)
  end.

Definition rev_string (s : string) : string := rev_string_acc s EmptyString.

(** [String.prototype.trim]. *)
Definition trim (s : string) : string :=
  rev_string (trim_start (rev_string (trim_start s))).

(** ** Scanning a decimal literal *)

(** The maximal run of decimal digits at the front: its digits (most
    significant first) and the rest. *)
Fixpoint scan_digits (s : string) : list Z * string :=
  match s with
  | String c r =>
      match digit_value c with
      | Some d => let '(ds, rest) := scan_digits r in (d :: ds, rest)
      | None => ([], s)
      end
  | EmptyString => ([], EmptyString)
  end.

Definition digits_value (radix : Z) (ds : list Z) : Z :=
  fold_left (fun acc d => acc * radix + d)%Z ds 0%Z.

(** [ExponentPart]: [e] or [E], an optional sign and at least one digit;
    without a digit there is no exponent and nothing is consumed. *)
Definition scan_exponent (s : string) : Z * string :=
  match s with
  | String c r =>
      if (c =? "e")%char || (c =? "E")%char then
        let '(sign, r') :=
          match r with
          | String c' r'' =>
              if (c' =? "+")%char then (1%Z, r'')
              else if (c' =? "-")%char then ((-1)%Z, r'')
              else (1%Z, r)
          | EmptyString => (1%Z, r)
          end in
        match scan_digits r' with
        | ([], _) => (0%Z, s)
        | (ds, rest) => ((sign * digits_value 10 ds)%Z, rest)
        end
      else (0%Z, s)
  | EmptyString => (0%Z, s)
  end.

(** The exact value [m * 10^e]. *)
Definition decimal_value (m e : Z) : Q :=
  if (0 <=? e)%Z then inject_Z (m * 10 ^ e) else Qmake m (Z.to_pos (10 ^ (- e))).

(** The longest [StrUnsignedDecimalLiteral] at the front of [s]: its value
    and the rest, or [None] when no prefix is one. *)
Definition scan_unsigned (s : string) : option (num * string) :=
  if String.prefix "Infinity" s then Some (PosInf, substring 8 (String.length s - 8) s)
  else
    let '(ds1, r1) := scan_digits s in
    match r1 with
    | String c r2 =>
        if (c =? ".")%char then
          let '(ds2, r3) := scan_digits r2 in
          match ds1, ds2 with
          | [], [] => None
          | _, _ =>
              let '(e, r4) := scan_exponent r3 in
              let m := digits_value 10 (ds1 ++ ds2) in
              Some (mkfin (decimal_value m (e - Z.of_nat (List.length ds2))), r4)
          end
        else
          match ds1 with
          | [] => None
          | _ => let '(e, r4) := scan_exponent r1 in
                 Some (mkfin (decimal_value (digits_value 10 ds1) e), r4)
          end
    | EmptyString =>
        match ds1 with
        | [] => None
        | _ => Some (mkfin (inject_Z (digits_value 10 ds1)), EmptyString)
        end
    end.

Definition num_neg (n : num) : num :=
  match n with
  | NaN => NaN
  | PosInf => NegInf
  | NegInf => PosInf
  | Fin q => Fin (Qopp q)
  end.

(** The longest [StrDecimalLiteral] (optional sign) at the front of [s]. *)
Definition scan_decimal (s : string) : option (num * string) :=
  match s with
  | String c r =>
      if (c =? "+")%char then scan_unsigned r
      else if (c =? "-")%char then
        match scan_unsigned r with
        | Some (v, rest) => Some (num_neg v, rest)
        | None => None
        end
      else scan_unsigned s
  | EmptyString => None
  end.

(** [parseFloat(string)]. *)
Definition parse_float (s : string) : num :=
  match scan_decimal (trim_start s) with
  | Some (v, _) => v
  | None => NaN
  end.

(** The digits of a [0x], [0o] or [0b] literal: all of [s] must be digits
    of the radix, and there must be at least one. *)
Fixpoint radix_digits (radix : Z) (s : string) : option (list Z) :=
  match s with
  | EmptyString => Some []
  | String c r =>
      match radix_digit_value radix c, radix_digits radix r with
      | Some d, Some ds => Some (d :: ds)
      | _, _ => None
      end
  end.

Definition scan_non_decimal (s : string) : option num :=
  match s with
  | String z (String k r) =>
      if (z =? "0")%char then
        let radix :=
          if (k =? "x")%char || (k =? "X")%char then 16%Z
          else if (k =? "o")%char || (k =? "O")%char then 8%Z
          else if (k =? "b")%char || (k =? "B")%char then 2%Z
          else 0%Z in
        if (radix =? 0)%Z then None
        else match radix_digits radix r with
             | Some ((_ :: _) as ds) => Some (mkfin (inject_Z (digits_value radix ds)))
             | _ => None
             end
      else None
  | _ => None
  end.

(** [StringToNumber(string)], the [ToNumber] of a string. *)
Definition string_to_number (s : string) : num :=
  let t := trim s in
  match t with
  | EmptyString => Fin 0
  | _ =>
      match scan_non_decimal t with
      | Some v => v
      | None =>
          match scan_decimal t with
          | Some (v, EmptyString) => v
          | _ => NaN
          end
      end
  end.
