(* ===== verification/JsValue.v ===== *)
(** * JavaScript values, conversions and the runtime interface

    The values the program handles: what [response.json()] and
    [JSON.parse] produce (null, booleans, numbers, strings, arrays and
    objects with their keys in order), [undefined] (a missing property),
    and the built-in values an object lookup can reach through
    [Object.prototype]: [getExchangeLocation] indexes a plain object
    literal with an API-supplied key, so [exchangeLocations["constructor"]]
    is the function [Object] ([JFunction]) and
    [exchangeLocations["__proto__"]] is [Object.prototype] itself
    ([JObjectPrototype]), one shared object.

    [Runtime] is the interface to the parts of the JavaScript runtime
    the model does not define: [String.prototype.localeCompare],
    [JSON.parse] (on failure [None], where the code catches a
    [SyntaxError]) and [new Intl.NumberFormat('en-US', {style:
    'currency', currency: c}).format(x)] ([format_currency c x], a
    [RangeError] for an invalid currency code), and the CSS string
    token of a selector [querySelectorAll] parses ([css_string]; the
    test instance refuses every quote, backslash and line break, where a
    browser also reads escapes).  [JSON.stringify] is
    defined here from ECMA-262 ([json_stringify]).
    Every component is proved for an arbitrary [Runtime]; the witnesses
    run on [ascii_runtime], a concrete instance.

    The conversions [to_string] ([String(v)], [ToPropertyKey]) and
    [to_number] ([ToNumber]) follow ECMA-262, including the [TypeError]
    of [ToPrimitive] on an object whose own [toString] property is not a
    function (a JSON object with a ["toString"] key). *)

From Stdlib Require Import List String Ascii ZArith QArith Qabs Lia DecimalString.
From S2P Require Import Prelude JsNum NumParse.
Import ListNotations.
Open Scope string_scope.
Open Scope pb_scope.

Local Set Warnings "-register-all".
Inductive jsval : Type :=
| JUndefined
| JNull
| JBool (b : bool)
| JNumber (n : num)
| JString (s : string)
| JArray (xs : list jsval)
| JObject (fields : list (string * jsval))
| JObjectPrototype
| JFunction (name : string).

(** ** [Number.prototype.toString] on a finite number

    ECMA-262 Number::toString prints the shortest decimal [s * 10^(n-k)]
    that denotes the double, in plain notation when [-6 < n <= 21] and in
    exponential notation otherwise.  [shortest_decimal] searches the
    digit counts [k = 1 .. 17] for it, with [round64] deciding whether a
    decimal denotes the double.  A rational of the model that is not a
    double has no such decimal; it prints its exact decimal expansion,
    and "NaN" when that does not terminate. *)

Definition Z_to_decimal (z : Z) : string :=
  let digits := DecimalString.NilEmpty.string_of_int (Z.to_int z) in
  match digits with EmptyString => "0" | _ => digits end.

Fixpoint count_factor (f : Z) (fuel : nat) (d : Z) : nat * Z :=
  match fuel with
  | O => (O, d)
  | S fuel' => if (d mod f =? 0)%Z then let '(k, r) := count_factor f fuel' (d / f) in (S k, r)
               else (O, d)
  end.

(** Strip the trailing zeros of [m], raising the exponent [e]. *)
Fixpoint strip_zeros (fuel : nat) (m e : Z) : Z * Z :=
  match fuel with
  | O => (m, e)
  | S fuel' => if (m mod 10 =? 0)%Z then strip_zeros fuel' (m / 10) (e + 1) else (m, e)
  end.

(** [|q| = m * 10^e] with [m] positive and not a multiple of 10. *)
Definition decimal_of (q : Q) : option (Z * Z) :=
  let d := Zpos (Qden q) in
  let fuel := Pos.size_nat (Qden q) in
  let '(a, r2) := count_factor 2 fuel d in
  let '(b, r) := count_factor 5 fuel r2 in
  if (r =? 1)%Z then
    let k := Z.of_nat (Nat.max a b) in
    let m := (Z.abs (Qnum q) * 10 ^ k / d)%Z in
    Some (strip_zeros (Pos.size_nat (Z.to_pos m)) m (- k))
  else None.

Fixpoint repeat_char (n : nat) (c : ascii) : string :=
  match n with O => EmptyString | S n' => String c (repeat_char n' c) end.

(** The digits [s] of length [k] with point position [n] (the value is
    [0.s * 10^n]), per Number::toString. *)
Definition format_decimal (s : string) (n : Z) : string :=
  let k := Z.of_nat (String.length s) in
  if ((k <=? n) && (n <=? 21))%Z then s ++ repeat_char (Z.to_nat (n - k)) "0"
  else if ((0 <? n) && (n <=? 21))%Z then
    substring 0 (Z.to_nat n) s ++ "." ++ substring (Z.to_nat n) (Z.to_nat (k - n)) s
  else if ((-6 <? n) && (n <=? 0))%Z then "0." ++ repeat_char (Z.to_nat (- n)) "0" ++ s
  else
    let e := (n - 1)%Z in
    let exp := (if (0 <=? e)%Z then "+" else "-") ++ Z_to_decimal (Z.abs e) in
    match s with
    | String c EmptyString => String c ("e" ++ exp)
    | String c rest => String c ("." ++ rest ++ "e" ++ exp)
    | EmptyString => "0"
    end.

(** *** The shortest decimal that denotes a double *)

(** [10^e] as a rational, for any integer [e]. *)
Definition pow10q (e : Z) : Q :=
  if (0 <=? e)%Z then inject_Z (10 ^ e) else 1 # Z.to_pos (10 ^ (- e)).

(** For positive [x], the [n] with [10^(n-1) <= x < 10^n]: the digit
    counts of numerator and denominator place it within one. *)
Definition decimal_point (x : Q) : Z :=
  let L := (Z.of_nat (String.length (Z_to_decimal (Qnum x)))
            - Z.of_nat (String.length (Z_to_decimal (Zpos (Qden x)))))%Z in
  if Qle_bool (pow10q L) x then (L + 1)%Z else L.

(** [s * 10^(n-k)] rounds to the double [x]. *)
Definition denotes (x : Q) (k s n : Z) : bool :=
  Qeq_bool (round64 (inject_Z s * pow10q (n - k))) x.

(** [s] has [k] digits: [10^(k-1) <= s < 10^k]. *)
Definition has_digits (k s : Z) : bool := (10 ^ (k - 1) <=? s)%Z && (s <? 10 ^ k)%Z.

(** The [k]-digit decimals nearest to [x] below and above,
    [s * 10^(n-k)] with [10^(k-1) <= s < 10^k], and the one of them that
    rounds to [x], the nearer when both do, the even [s] on a tie
    (Number::toString step 5), as [(s, n, k)]. *)
Definition candidate (x : Q) (n0 k : Z) : option (Z * Z * Z) :=
  let t := x * pow10q (k - n0) in
  let s := (Qnum t / Zpos (Qden t))%Z in
  let up := if (s + 1 =? 10 ^ k)%Z then (10 ^ (k - 1), n0 + 1)%Z else ((s + 1)%Z, n0) in
  let lo_ok := has_digits k s && denotes x k s n0 in
  let up_ok := has_digits k (fst up) && denotes x k (fst up) (snd up) in
  if lo_ok && up_ok then
    let dlo := x - inject_Z s * pow10q (n0 - k) in
    let dup := inject_Z (fst up) * pow10q (snd up - k) - x in
    if Qltb dlo dup then Some (s, n0, k)
    else if Qltb dup dlo then Some (fst up, snd up, k)
    else if Z.even s then Some (s, n0, k) else Some (fst up, snd up, k)
  else if lo_ok then Some (s, n0, k)
  else if up_ok then Some (fst up, snd up, k)
  else None.

(** The first [k] of [ks] with a candidate. *)
Fixpoint first_candidate (x : Q) (n0 : Z) (ks : list nat) : option (Z * Z * Z) :=
  match ks with
  | [] => None
  | k :: ks' =>
      match candidate x n0 (Z.of_nat k) with
      | Some c => Some c
      | None => first_candidate x n0 ks'
      end
  end.

(** The digits [s], point position [n] and digit count [k] of a positive
    double: the fewest digits, [k <= 17], that denote it (17 digits
    suffice for every binary64 double, a known property of the format
    that this development does not prove); [None] for a rational that
    is not a double. *)
Definition shortest_decimal (x : Q) : option (Z * Z * Z) :=
  first_candidate x (decimal_point x) (seq 1 17).

(** The [k] decimal digits of [s], most significant first. *)
Fixpoint digits_k (k : nat) (s : Z) : list Z :=
  match k with
  | O => []
  | S k' => (digits_k k' (s / 10)%Z ++ [(s mod 10)%Z])%list
  end.

Definition digit_char (d : Z) : ascii := ascii_of_nat (48 + Z.to_nat d).

Fixpoint digits_to_string (ds : list Z) : string :=
  match ds with
  | [] => EmptyString
  | d :: ds' => String (digit_char d) (digits_to_string ds')
  end.

(** [Number.prototype.toString()] of a finite number: the [k] digits of
    the shortest decimal of the double; a rational that is not a double
    falls back to its exact decimal expansion. *)
Definition number_to_string (q : Q) : string :=
  if Qeq_bool q 0 then "0"
  else
    let sign := if (Qnum q <? 0)%Z then "-" else "" in
    match shortest_decimal (Qabs q) with
    | Some (s, n, k) => sign ++ format_decimal (digits_to_string (digits_k (Z.to_nat k) s)) n
    | None =>
        match decimal_of q with
        | Some (m, e) =>
            let s := Z_to_decimal m in
            sign ++ format_decimal s (Z.of_nat (String.length s) + e)
        | None => "NaN"
        end
    end.

(** [css_string body] is the value of the CSS string token ["body"] in
    a selector [[attr="body"]] when the selector parses (CSS Syntax 4.3.5:
    backslash escapes, a line break or an early quote make the selector
    invalid or end the token), and [None] when [querySelectorAll] throws
    its [SyntaxError]. *)
Class Runtime : Type := {
  locale_compare : string -> string -> Z;
  json_parse : string -> option jsval;
  format_currency : string -> num -> res string;
  css_string : string -> option string
}.

(** ** Truthiness and [||] *)

Definition truthy (v : jsval) : bool :=
  match v with
  | JUndefined | JNull => false
  | JBool b => b
  | JNumber n => num_truthy n
  | JString s => negb (String.eqb s "")
  | JArray _ | JObject _ | JObjectPrototype | JFunction _ => true
  end.

(** [a || b]. *)
Definition js_or (a b : jsval) : jsval := if truthy a then a else b.

(** ** Property access *)

Fixpoint lookup_field (k : string) (fs : list (string * jsval)) : option jsval :=
  match fs with
  | [] => None
  | (k', v) :: fs' => if String.eqb k k' then Some v else lookup_field k fs'
  end.

(** [v.k] for a key [k] that no built-in prototype defines (the program
    reads [name], [exchange], [updated], [price] and [productName]):
    [TypeError] on [null] and [undefined], the own property of an object,
    [undefined] otherwise. *)
Definition get_prop (v : jsval) (k : string) : res jsval :=
  match v with
  | JUndefined | JNull => Throw (TypeError ("Cannot read properties of null (reading '" ++ k ++ "')"))
  | JObject fs => Ok (match lookup_field k fs with Some x => x | None => JUndefined end)
  | _ => Ok JUndefined
  end.

(** ** Conversions *)

Definition num_to_string (n : num) : string :=
  match n with
  | NaN => "NaN"
  | PosInf => "Infinity"
  | NegInf => "-Infinity"
  | Fin q => number_to_string q
  end.

(** [ToPrimitive] of an object: its own [toString] (a JSON value, never
    callable) makes it throw; otherwise [Object.prototype.toString]. *)
Definition object_to_string (fs : list (string * jsval)) : res string :=
  match lookup_field "toString" fs with
  | Some _ => Throw (TypeError "Cannot convert object to primitive value")
  | None => Ok "[object Object]"
  end.

(** [String(v)]; an array is [Array.prototype.join] with [","], its
    [null] and [undefined] elements read as the empty string. *)
Fixpoint to_string (v : jsval) : res string :=
  match v with
  | JUndefined => Ok "undefined"
  | JNull => Ok "null"
  | JBool b => Ok (if b then "true" else "false")
  | JNumber n => Ok (num_to_string n)
  | JString s => Ok s
  | JArray xs =>
      (fix join (xs : list jsval) : res string :=
         match xs with
         | [] => Ok ""
         | x :: xs' =>
             sx <- (match x with JUndefined | JNull => Ok "" | _ => to_string x end) ;;
             match xs' with
             | [] => Ok sx
             | _ => rest <- join xs' ;; Ok (sx ++ "," ++ rest)
             end
         end) xs
  | JObject fs => object_to_string fs
  | JObjectPrototype => Ok "[object Object]"
  | JFunction name => Ok ("function " ++ name ++ "() { [native code] }")
  end.

(** [ToNumber(v)]. *)
Definition to_number (v : jsval) : res num :=
  match v with
  | JUndefined => Ok NaN
  | JNull => Ok (Fin 0)
  | JBool b => Ok (if b then Fin 1 else Fin 0)
  | JNumber n => Ok n
  | JString s => Ok (string_to_number s)
  | JArray _ | JObject _ => s <- to_string v ;; Ok (string_to_number s)
  | JObjectPrototype | JFunction _ => Ok NaN
  end.

(** ** [JSON.stringify] *)

Definition hex_digit (n : nat) : ascii :=
  if (n <? 10)%nat then ascii_of_nat (48 + n) else ascii_of_nat (87 + n).

(** QuoteJSONString on one code unit. *)
Definition json_escape (c : ascii) : string :=
  let n := nat_of_ascii c in
  if (n =? 8)%nat then "\b"
  else if (n =? 9)%nat then "\t"
  else if (n =? 10)%nat then "\n"
  else if (n =? 12)%nat then "\f"
  else if (n =? 13)%nat then "\r"
  else if (n =? 34)%nat then String "\" (String (ascii_of_nat 34) EmptyString)
  else if (n =? 92)%nat then "\\"
  else if (n <? 32)%nat then "\u00" ++ String (hex_digit (n / 16)) (String (hex_digit (n mod 16)) EmptyString)
  else String c EmptyString.

Fixpoint json_quote_body (s : string) : string :=
  match s with
  | EmptyString => EmptyString
  | String c r => json_escape c ++ json_quote_body r
  end.

Definition json_quote (s : string) : string :=
  String (ascii_of_nat 34) (json_quote_body s ++ String (ascii_of_nat 34) EmptyString).

(** SerializeJSONProperty: [None] is [undefined] ([undefined] and
    functions); non-finite numbers become [null]. *)
Fixpoint json_ser (v : jsval) : option string :=
  match v with
  | JUndefined | JFunction _ => None
  | JNull => Some "null"
  | JBool b => Some (if b then "true" else "false")
  | JNumber n => Some (match n with Fin q => number_to_string q | _ => "null" end)
  | JString s => Some (json_quote s)
  | JObjectPrototype => Some "{}"
  | JArray xs =>
      let elems := map (fun x => match json_ser x with Some t => t | None => "null" end) xs in
      Some ("[" ++ String.concat "," elems ++ "]")
  | JObject fs =>
      let members :=
        (fix go (fs : list (string * jsval)) : list string :=
           match fs with
           | [] => []
           | (k, x) :: fs' =>
               match json_ser x with
               | Some t => (json_quote k ++ ":" ++ t) :: go fs'
               | None => go fs'
               end
           end) fs in
      Some ("{" ++ String.concat "," members ++ "}")
  end.

(** [String(JSON.stringify(v))], the text [localStorage.setItem] stores. *)
Definition json_stringify (v : jsval) : string :=
  match json_ser v with Some s => s | None => "undefined" end.


(** ** A concrete runtime for the witnesses

    Strings compare by code units, and [JSON.parse] reads the
    literals [null], [true], [false], [[]] and [{}] and rejects every
    other text: enough for the concrete runs, which parse only such texts
    or invalid JSON. *)

Fixpoint ascii_compare (a b : string) : comparison :=
  match a, b with
  | EmptyString, EmptyString => Eq
  | EmptyString, String _ _ => Lt
  | String _ _, EmptyString => Gt
  | String x a', String y b' =>
      match N.compare (N_of_ascii x) (N_of_ascii y) with
      | Eq => ascii_compare a' b'
      | c => c
      end
  end.

Definition ascii_runtime : Runtime := {|
  locale_compare a b := match ascii_compare a b with Lt => (-1)%Z | Eq => 0%Z | Gt => 1%Z end;
  json_parse s :=
    if String.eqb s "null" then Some JNull
    else if String.eqb s "true" then Some (JBool true)
    else if String.eqb s "false" then Some (JBool false)
    else if String.eqb s "[]" then Some (JArray [])
    else if String.eqb s "{}" then Some (JObject [])
    else None;
  format_currency c x :=
    if String.eqb c "USD" then Ok ("$" ++ num_to_string x)
    else Throw (RangeError ("Invalid currency code : " ++ c));
  css_string b :=
    if has_char quote_char b || has_char "\"%char b || has_char (ascii_of_nat 10) b
       || has_char (ascii_of_nat 13) b || has_char (ascii_of_nat 12) b
    then None else Some b
|}.

(** ** Lemmas *)

Lemma js_or_truthy a b : truthy a = true -> js_or a b = a.
Proof. unfold js_or. intros ->. reflexivity. Qed.

Lemma js_or_falsy a b : truthy a = false -> js_or a b = b.
Proof. unfold js_or. intros ->. reflexivity. Qed.

(** Reading a property of anything but [null] and [undefined] succeeds. *)
Lemma get_prop_ok v k :
  v <> JUndefined -> v <> JNull -> exists x, get_prop v k = Ok x.
Proof. destruct v; simpl; intros; try congruence; eauto. Qed.

(** A truthy value is neither [null] nor [undefined]. *)
Lemma truthy_not_nullish v : truthy v = true -> v <> JUndefined /\ v <> JNull.
Proof. destruct v; simpl; split; congruence. Qed.

(** [ascii_compare] is the code-unit order of [Array.prototype.sort]
    and of [<] on strings: a total order. *)
Lemma ascii_compare_eq a b : ascii_compare a b = Eq <-> a = b.
Proof.
  split; [|intros ->; induction b as [|x b IH]; simpl; [reflexivity|]; now rewrite N.compare_refl].
  revert b. induction a as [|x a IH]; intros [|y b]; simpl; try discriminate; [reflexivity|].
  destruct (N.compare _ _) eqn:E; try discriminate. intros H.
  apply N.compare_eq_iff, (f_equal ascii_of_N) in E. rewrite !ascii_N_embedding in E.
  now rewrite E, (IH b H).
Qed.





Lemma ascii_compare_antisym a b : ascii_compare b a = CompOpp (ascii_compare a b).
Proof.
  revert b. induction a as [|x a IH]; intros [|y b]; simpl; try reflexivity.
  rewrite (N.compare_antisym (N_of_ascii x) (N_of_ascii y)).
  destruct (N.compare (N_of_ascii x) (N_of_ascii y)); simpl; auto.
Qed.

Lemma ascii_compare_le_trans a b c :
  ascii_compare a b <> Gt -> ascii_compare b c <> Gt -> ascii_compare a c <> Gt.
Proof.
  revert b c. induction a as [|x a IH]; intros [|y b] [|z c]; simpl; try congruence.
  destruct (N.compare_spec (N_of_ascii x) (N_of_ascii y)) as [E1|E1|E1];
  destruct (N.compare_spec (N_of_ascii y) (N_of_ascii z)) as [E2|E2|E2]; try congruence; intros H1 H2.
  - rewrite E1, E2, N.compare_refl. eauto.
  - rewrite E1. now rewrite (proj2 (N.compare_lt_iff _ _) E2).
  - rewrite <- E2. now rewrite (proj2 (N.compare_lt_iff _ _) E1).
  - now rewrite (proj2 (N.compare_lt_iff _ _) (N.lt_trans _ _ _ E1 E2)).
Qed.

#[export] Hint Resolve js_or_truthy js_or_falsy : pb.
