(* ===== verification/NumText.v ===== *)
(** * Printing and reading back a number

    [Number::toString] ([JsValue.number_to_string]) and [parseFloat]
    ([NumParse.parse_float]) are inverse on doubles: the text the engine
    prints for a double reads back as that double.  The program relies
    on it wherever a number goes through text and back: the prices of
    the watchlist written by [JSON.stringify] and read again at start-up,
    and a price the API sends as a string ([parseFloat(item.price)],
    line 108 of [src/script.js]).

    The proof reads the text [format_decimal] builds, in each of its four
    layouts, with the scanner of [NumParse]: the digit strings
    ([digits_to_string], [Z_to_decimal]) scan back to their digits
    ([scan_digits_string]), whose value is the number printed
    ([digits_k_value]); the value read is [s * 10^(n-k)], which rounds
    to the double by the check [denotes] of the digit search. *)

From Stdlib Require Import List String Ascii ZArith QArith Qabs Lia Lqa DecimalString DecimalPos.
From S2P Require Import Prelude JsNum NumParse JsValue.
Import ListNotations.
Open Scope string_scope.

(** ** Digit strings *)

Definition is_digits (ds : list Z) : Prop := Forall (fun d => (0 <= d <= 9)%Z) ds.

Lemma digit_value_char (d : Z) : (0 <= d <= 9)%Z -> digit_value (digit_char d) = Some d.
Proof.
  intros Hd. assert (exists m, d = Z.of_nat m /\ (m <= 9)%nat) as [m [-> Hm]]
    by (exists (Z.to_nat d); split; lia).
  do 10 (destruct m as [|m]; [reflexivity|]). lia.
Qed.

Lemma scan_digits_string (ds : list Z) (r : string) : is_digits ds ->
  scan_digits (digits_to_string ds ++ r) =
  let '(ds', r') := scan_digits r in ((ds ++ ds')%list, r').
Proof.
  induction 1 as [|d ds Hd _ IH]; cbn [digits_to_string append].
  - destruct (scan_digits r). reflexivity.
  - cbn [scan_digits]. rewrite digit_value_char by exact Hd. rewrite IH.
    destruct (scan_digits r). reflexivity.
Qed.

(** A character that is not a digit stops the scan. *)
Lemma scan_digits_stop (c : ascii) (r : string) :
  digit_value c = None -> scan_digits (String c r) = ([], String c r).
Proof. intros H. cbn [scan_digits]. rewrite H. reflexivity. Qed.

Lemma length_digits_to_string (ds : list Z) : String.length (digits_to_string ds) = List.length ds.
Proof. induction ds; cbn; congruence. Qed.

Lemma digits_acc (ds : list Z) (acc : Z) :
  fold_left (fun acc d => acc * 10 + d)%Z ds acc =
  (acc * 10 ^ Z.of_nat (List.length ds) + fold_left (fun acc d => acc * 10 + d)%Z ds 0)%Z.
Proof.
  revert acc. induction ds as [|d ds IH]; intros acc; cbn [fold_left List.length].
  - lia.
  - rewrite IH, (IH (0 * 10 + d)%Z), Nat2Z.inj_succ, Z.pow_succ_r by lia. ring.
Qed.

Lemma digits_value_app (ds1 ds2 : list Z) :
  digits_value 10 (ds1 ++ ds2) =
  (digits_value 10 ds1 * 10 ^ Z.of_nat (List.length ds2) + digits_value 10 ds2)%Z.
Proof. unfold digits_value. rewrite fold_left_app, digits_acc. reflexivity. Qed.

Lemma digits_value_repeat0 (m : nat) : digits_value 10 (repeat 0%Z m) = 0%Z.
Proof.
  unfold digits_value. induction m as [|m IH]; [reflexivity|].
  cbn [repeat fold_left]. rewrite digits_acc, IH. lia.
Qed.

Lemma digits_value_zeros (m : nat) (ds : list Z) :
  digits_value 10 (repeat 0%Z m ++ ds) = digits_value 10 ds.
Proof. rewrite digits_value_app, digits_value_repeat0. lia. Qed.

Lemma is_digits_zeros (m : nat) : is_digits (repeat 0%Z m).
Proof. induction m; constructor; auto; lia. Qed.

Lemma digits_to_string_app (ds1 ds2 : list Z) :
  digits_to_string (ds1 ++ ds2) = digits_to_string ds1 ++ digits_to_string ds2.
Proof. induction ds1; cbn; congruence. Qed.

Lemma repeat_char_zeros (m : nat) : repeat_char m "0" = digits_to_string (repeat 0%Z m).
Proof. induction m; cbn; congruence. Qed.

(** ** The [k] digits of a number *)

Lemma digits_k_length (k : nat) (s : Z) : List.length (digits_k k s) = k.
Proof.
  revert s. induction k as [|k IH]; intros s; [reflexivity|].
  cbn [digits_k]. rewrite length_app, IH. cbn. lia.
Qed.

Lemma digits_k_digits (k : nat) (s : Z) : (0 <= s)%Z -> is_digits (digits_k k s).
Proof.
  revert s. induction k as [|k IH]; intros s Hs; [constructor|].
  cbn [digits_k]. apply Forall_app. split.
  - apply IH. apply Z.div_pos; lia.
  - constructor; [pose proof (Z.mod_pos_bound s 10); lia|constructor].
Qed.

(** The [k] digits of [s] read back as [s], for [0 <= s < 10^k]. *)
Lemma digits_k_value (k : nat) (s : Z) : (0 <= s < 10 ^ Z.of_nat k)%Z ->
  digits_value 10 (digits_k k s) = s.
Proof.
  revert s. induction k as [|k IH]; intros s Hs.
  - cbn in Hs. cbn. lia.
  - cbn [digits_k]. rewrite digits_value_app, IH; cbn [List.length].
    + unfold digits_value; cbn [fold_left]. change (Z.of_nat 1) with 1%Z. rewrite Z.pow_1_r.
      pose proof (Z.div_mod s 10). lia.
    + rewrite Nat2Z.inj_succ, Z.pow_succ_r in Hs by lia. split; [apply Z.div_pos; lia|].
      apply Z.div_lt_upper_bound; lia.
Qed.

(** ** The decimal digits of an integer, [Z_to_decimal] *)

Fixpoint uint_digits (u : Decimal.uint) : list Z :=
  match u with
  | Decimal.Nil => []
  | Decimal.D0 u => 0%Z :: uint_digits u
  | Decimal.D1 u => 1%Z :: uint_digits u
  | Decimal.D2 u => 2%Z :: uint_digits u
  | Decimal.D3 u => 3%Z :: uint_digits u
  | Decimal.D4 u => 4%Z :: uint_digits u
  | Decimal.D5 u => 5%Z :: uint_digits u
  | Decimal.D6 u => 6%Z :: uint_digits u
  | Decimal.D7 u => 7%Z :: uint_digits u
  | Decimal.D8 u => 8%Z :: uint_digits u
  | Decimal.D9 u => 9%Z :: uint_digits u
  end.

Lemma string_of_uint_digits (u : Decimal.uint) :
  NilEmpty.string_of_uint u = digits_to_string (uint_digits u).
Proof. induction u; cbn [NilEmpty.string_of_uint uint_digits digits_to_string]; [reflexivity|..]; rewrite IHu; reflexivity. Qed.

Lemma uint_digits_ok (u : Decimal.uint) : is_digits (uint_digits u).
Proof. induction u; constructor; auto; lia. Qed.

Lemma uint_digits_acc (u : Decimal.uint) (acc : positive) :
  fold_left (fun acc d => acc * 10 + d)%Z (uint_digits u) (Zpos acc) = Zpos (Pos.of_uint_acc u acc).
Proof.
  revert acc. induction u; intros acc; cbn [uint_digits fold_left Pos.of_uint_acc]; [reflexivity|..];
    match goal with |- fold_left _ _ ?e = Zpos (Pos.of_uint_acc _ ?p) =>
      replace e with (Zpos p) by (rewrite ?Pos2Z.inj_add, ?Pos2Z.inj_mul; lia); apply IHu end.
Qed.

Lemma uint_digits_value (u : Decimal.uint) : digits_value 10 (uint_digits u) = Z.of_N (Pos.of_uint u).
Proof.
  unfold digits_value. induction u; cbn [uint_digits fold_left Pos.of_uint]; [reflexivity|exact IHu|..];
    apply uint_digits_acc.
Qed.

(** [Z_to_decimal z] of a non-negative [z] is a digit string of value [z]. *)
Lemma Z_to_decimal_digits (z : Z) : (0 <= z)%Z ->
  exists ds, Z_to_decimal z = digits_to_string ds /\ is_digits ds /\ digits_value 10 ds = z.
Proof.
  intros Hz. destruct z as [|p|p]; [|clear Hz|lia].
  - exists [0%Z]. split; [reflexivity|]. split; [repeat constructor; lia|reflexivity].
  - exists (uint_digits (Pos.to_uint p)). split; [|split; [apply uint_digits_ok|]].
    + unfold Z_to_decimal. cbn [Z.to_int NilEmpty.string_of_int]. rewrite string_of_uint_digits.
      destruct (digits_to_string (uint_digits (Pos.to_uint p))) eqn:E; [|reflexivity].
      exfalso. apply (DecimalPos.Unsigned.to_uint_nonnil p).
      destruct (Pos.to_uint p); cbn in E; congruence.
    + rewrite uint_digits_value, DecimalPos.Unsigned.of_to. reflexivity.
Qed.

(** ** Cutting a digit string *)

Lemma substring_0_digits (m : nat) (ds : list Z) :
  substring 0 m (digits_to_string ds) = digits_to_string (firstn m ds).
Proof.
  revert m. induction ds as [|d ds IH]; intros [|m]; cbn; try reflexivity. rewrite IH. reflexivity.
Qed.

Lemma substring_digits (i m : nat) (ds : list Z) :
  substring i m (digits_to_string ds) = digits_to_string (firstn m (skipn i ds)).
Proof.
  revert ds. induction i as [|i IH]; intros ds; [apply substring_0_digits|].
  destruct ds as [|d ds]; cbn [digits_to_string skipn].
  - destruct m; reflexivity.
  - apply IH.
Qed.

Lemma is_digits_firstn (m : nat) (ds : list Z) : is_digits ds -> is_digits (firstn m ds).
Proof. intros H. rewrite <- (firstn_skipn m ds) in H. apply Forall_app in H. tauto. Qed.

Lemma is_digits_skipn (m : nat) (ds : list Z) : is_digits ds -> is_digits (skipn m ds).
Proof. intros H. rewrite <- (firstn_skipn m ds) in H. apply Forall_app in H. tauto. Qed.

(** ** Reading the four layouts back *)

(** A digit is neither white space nor a sign nor the [I] of [Infinity]. *)
Lemma digit_char_facts (d : Z) : (0 <= d <= 9)%Z ->
  is_js_space (digit_char d) = false /\ (digit_char d =? "+")%char = false /\
  (digit_char d =? "-")%char = false /\ (digit_char d =? ".")%char = false.
Proof.
  intros Hd. assert (exists m, d = Z.of_nat m /\ (m <= 9)%nat) as [m [-> Hm]]
    by (exists (Z.to_nat d); split; lia).
  do 10 (destruct m as [|m]; [repeat split; reflexivity|]). lia.
Qed.

Lemma prefix_Infinity_digit (d : Z) (r : string) : (0 <= d <= 9)%Z ->
  String.prefix "Infinity" (String (digit_char d) r) = false.
Proof.
  intros Hd. cbn [String.prefix]. destruct (ascii_dec "I" (digit_char d)) as [E|]; [|reflexivity].
  pose proof (digit_value_char d Hd) as H. rewrite <- E in H. discriminate.
Qed.

Lemma append_empty (t : string) : t ++ "" = t.
Proof. induction t; cbn; congruence. Qed.

Lemma scan_digits_empty_after (ds : list Z) : is_digits ds ->
  scan_digits (digits_to_string ds) = (ds, "").
Proof.
  intros H. rewrite <- (append_empty (digits_to_string ds)), scan_digits_string by exact H.
  cbn. rewrite app_nil_r. reflexivity.
Qed.

Lemma Z_to_decimal_nonempty (z : Z) : Z_to_decimal z <> "".
Proof. unfold Z_to_decimal. destruct (NilEmpty.string_of_int _); discriminate. Qed.

(** The exponent part [format_decimal] prints reads back. *)
Lemma scan_exponent_printed (e : Z) :
  scan_exponent ("e" ++ (if (0 <=? e)%Z then "+" else "-") ++ Z_to_decimal (Z.abs e)) = (e, "").
Proof.
  destruct (Z_to_decimal_digits (Z.abs e) ltac:(lia)) as (eds & E & Hd & Hv).
  assert (Hne : eds <> []) by (intros ->; apply (Z_to_decimal_nonempty (Z.abs e)); exact E).
  rewrite E. destruct (Z.leb_spec 0 e); unfold scan_exponent; cbn -[digits_to_string scan_digits digits_value Z.mul];
    (rewrite scan_digits_empty_after by exact Hd);
    (destruct eds as [|d eds]; [congruence|]); f_equal; lia.
Qed.

(** An integer: digits up to the end of the text. *)
Lemma scan_unsigned_int (ds : list Z) : is_digits ds -> ds <> [] ->
  scan_unsigned (digits_to_string ds) = Some (mkfin (inject_Z (digits_value 10 ds)), "").
Proof.
  intros H Hne. destruct ds as [|d ds']; [congruence|]. unfold scan_unsigned.
  rewrite scan_digits_empty_after by exact H. inversion H; subst.
  cbn [digits_to_string]. rewrite prefix_Infinity_digit by assumption. reflexivity.
Qed.

(** Digits, a point and digits, then what [scan_exponent] reads. *)
Lemma scan_unsigned_point (ds1 ds2 : list Z) (r : string) :
  is_digits ds1 -> is_digits ds2 -> ds1 <> [] -> scan_digits r = ([], r) ->
  scan_unsigned (digits_to_string ds1 ++ String "." (digits_to_string ds2 ++ r)) =
  let '(e, r4) := scan_exponent r in
  Some (mkfin (decimal_value (digits_value 10 (ds1 ++ ds2)) (e - Z.of_nat (List.length ds2))), r4).
Proof.
  intros H1 H2 Hne Hr. destruct ds1 as [|d ds1']; [congruence|]. unfold scan_unsigned.
  rewrite scan_digits_string by exact H1. rewrite scan_digits_stop by reflexivity.
  inversion H1; subst. cbn [digits_to_string append]. rewrite prefix_Infinity_digit by assumption.
  cbn [Ascii.eqb Bool.eqb]. rewrite scan_digits_string, Hr by exact H2. rewrite !app_nil_r.
  destruct (scan_exponent r). reflexivity.
Qed.

(** Digits then a character that is neither a digit nor a point. *)
Lemma scan_unsigned_digits_then (ds : list Z) (c : ascii) (r : string) :
  is_digits ds -> ds <> [] -> digit_value c = None -> (c =? ".")%char = false ->
  scan_unsigned (digits_to_string ds ++ String c r) =
  let '(e, r4) := scan_exponent (String c r) in
  Some (mkfin (decimal_value (digits_value 10 ds) e), r4).
Proof.
  intros H Hne Hc Hp. destruct ds as [|d ds']; [congruence|]. unfold scan_unsigned.
  rewrite scan_digits_string by exact H. rewrite scan_digits_stop by exact Hc.
  inversion H; subst. cbn [digits_to_string append]. rewrite prefix_Infinity_digit by assumption.
  rewrite Hp, app_nil_r. reflexivity.
Qed.

(** ** [format_decimal] reads back *)

Lemma app_nonempty_l (l1 l2 : list Z) : l1 <> [] -> (l1 ++ l2)%list <> [].
Proof. destruct l1; [congruence|discriminate]. Qed.

Ltac digits_side :=
  first [ reflexivity | discriminate | assumption | (repeat constructor; lia)
        | (apply app_nonempty_l; assumption)
        | (apply Forall_app; split; [assumption|apply is_digits_zeros])
        | (apply Forall_app; split; [apply is_digits_zeros|assumption]) ].

(** The exponential layout: the first digit, the others after a point
    when there are others, then the exponent. *)
Lemma scan_exponential (ds : list Z) (e : Z) (ex : string) :
  is_digits ds -> ds <> [] -> scan_exponent ("e" ++ ex) = (e, "") ->
  scan_unsigned (match digits_to_string ds with
                 | String c EmptyString => String c ("e" ++ ex)
                 | String c rest => String c ("." ++ rest ++ "e" ++ ex)
                 | EmptyString => "0"
                 end) =
  Some (mkfin (decimal_value (digits_value 10 ds) (e - Z.of_nat (List.length ds - 1))), "").
Proof.
  intros Hd Hne He. destruct ds as [|d ds']; [congruence|]. inversion Hd as [|? ? Hd0 Hds]; subst.
  destruct ds' as [|d' ds''].
  - cbn [digits_to_string].
    change (String (digit_char d) ("e" ++ ex)) with (digits_to_string [d] ++ String "e" ex).
    rewrite scan_unsigned_digits_then by digits_side.
    change (String "e" ex) with ("e" ++ ex). rewrite He. cbn [List.length]. do 4 f_equal; lia.
  - change (digits_to_string (d :: d' :: ds'')) with (String (digit_char d) (digits_to_string (d' :: ds''))).
    cbn [digits_to_string].
    change (String (digit_char d) ("." ++ String (digit_char d') (digits_to_string ds'') ++ "e" ++ ex))
      with (digits_to_string [d] ++ String "." (digits_to_string (d' :: ds'') ++ ("e" ++ ex))).
    rewrite scan_unsigned_point by digits_side. rewrite He.
    cbn [List.length app]. do 4 f_equal; lia.
Qed.


(** The point layouts, with nothing after the digits. *)
Lemma scan_unsigned_point_end (ds1 ds2 : list Z) : is_digits ds1 -> is_digits ds2 -> ds1 <> [] ->
  scan_unsigned (digits_to_string ds1 ++ "." ++ digits_to_string ds2) =
  Some (mkfin (decimal_value (digits_value 10 (ds1 ++ ds2)) (0 - Z.of_nat (List.length ds2))), "").
Proof.
  intros H1 H2 Hne. rewrite <- (append_empty (digits_to_string ds2)).
  exact (scan_unsigned_point ds1 ds2 "" H1 H2 Hne eq_refl).
Qed.

Lemma scan_unsigned_zero_point (ds : list Z) : is_digits ds ->
  scan_unsigned ("0." ++ digits_to_string ds) =
  Some (mkfin (decimal_value (digits_value 10 ds) (0 - Z.of_nat (List.length ds))), "").
Proof.
  intros H. change ("0." ++ digits_to_string ds) with (digits_to_string [0%Z] ++ "." ++ digits_to_string ds).
  rewrite scan_unsigned_point_end by digits_side. reflexivity.
Qed.

(** Whatever layout [format_decimal] chooses for the digits [ds] and the
    point position [n], the longest decimal literal of the text is all
    of it, of value [ds * 10^(n - length ds)]. *)
Lemma scan_format_decimal (ds : list Z) (n : Z) : is_digits ds -> ds <> [] ->
  scan_unsigned (format_decimal (digits_to_string ds) n) =
  Some (mkfin (decimal_value (digits_value 10 ds) (n - Z.of_nat (List.length ds))), "").
Proof.
  intros Hd Hne. assert (Hk : (1 <= List.length ds)%nat) by (destruct ds; [congruence|cbn; lia]).
  unfold format_decimal. rewrite length_digits_to_string.
  destruct (Z.leb_spec (Z.of_nat (List.length ds)) n), (Z.leb_spec n 21), (Z.ltb_spec 0 n),
    (Z.ltb_spec (-6) n), (Z.leb_spec n 0); cbn [andb]; try (exfalso; lia).
  all: first
    [ (* digits then zeros *)
      rewrite repeat_char_zeros, <- digits_to_string_app, scan_unsigned_int by digits_side;
      rewrite digits_value_app, digits_value_repeat0, repeat_length, Z2Nat.id by lia;
      unfold decimal_value; destruct (Z.leb_spec 0 (n - Z.of_nat (List.length ds))); [|lia];
      rewrite Z.add_0_r; reflexivity
    | (* digits, point, digits *)
      rewrite substring_0_digits, substring_digits, scan_unsigned_point_end;
      [ rewrite (firstn_all2 (skipn (Z.to_nat n) ds)) by (rewrite length_skipn; lia);
        rewrite firstn_skipn, length_skipn; do 4 f_equal; lia
      | apply is_digits_firstn, Hd
      | apply is_digits_firstn, is_digits_skipn, Hd
      | destruct ds; [congruence|]; destruct (Z.to_nat n) eqn:?; [lia|discriminate] ]
    | (* zero, point, zeros, digits *)
      rewrite repeat_char_zeros, <- digits_to_string_app, scan_unsigned_zero_point by digits_side;
      rewrite digits_value_zeros, length_app, repeat_length; do 4 f_equal; lia
    | (* exponential *)
      rewrite (scan_exponential ds (n - 1)) by (digits_side || apply scan_exponent_printed);
      do 4 f_equal; lia ].
Qed.

(** ** What the digit search returns *)

Lemma candidate_sound (x : Q) (n0 k s n k' : Z) :
  candidate x n0 k = Some (s, n, k') -> k' = k /\ has_digits k s = true /\ denotes x k s n = true.
Proof.
  unfold candidate. cbv zeta.
  repeat match goal with |- context [if ?b then _ else _] => destruct b eqn:? end;
    intros H; inversion H; subst; clear H;
    repeat match goal with H : (_ && _)%bool = true |- _ => apply andb_prop in H as [? ?] end;
    auto.
Qed.

Lemma first_candidate_sound (x : Q) (n0 : Z) (ks : list nat) (s n k : Z) :
  first_candidate x n0 ks = Some (s, n, k) ->
  (exists k0, k = Z.of_nat k0 /\ In k0 ks) /\ has_digits k s = true /\ denotes x k s n = true.
Proof.
  induction ks as [|k0 ks IH]; cbn [first_candidate]; [discriminate|].
  destruct (candidate x n0 (Z.of_nat k0)) as [[[s' n'] k']|] eqn:E.
  - intros [= <- <- <-]. apply candidate_sound in E as (-> & H1 & H2).
    split; [exists k0; split; [reflexivity|left; reflexivity]|auto].
  - intros H. destruct (IH H) as ([k1 [-> Hk1]] & H1 & H2).
    split; [exists k1; split; [reflexivity|right; exact Hk1]|auto].
Qed.

(** The printed digits: [k] of them, from 1 to 17, of value [s], with
    [s * 10^(n-k)] rounding to the double. *)
Lemma shortest_decimal_sound (x : Q) (s n k : Z) : shortest_decimal x = Some (s, n, k) ->
  (1 <= k <= 17)%Z /\ (10 ^ (k - 1) <= s < 10 ^ k)%Z /\
  round64 (inject_Z s * pow10q (n - k)) == x.
Proof.
  unfold shortest_decimal. intros H. apply first_candidate_sound in H as ([k0 [-> Hk0]] & H1 & H2).
  apply in_seq in Hk0. unfold has_digits in H1. apply andb_prop in H1 as [H1 H1'].
  rewrite Z.leb_le in H1. rewrite Z.ltb_lt in H1'. apply Qeq_bool_iff in H2.
  split; [lia|split; [lia|exact H2]].
Qed.

(** ** The text starts with a digit *)

Lemma format_decimal_head (ds : list Z) (n : Z) : is_digits ds -> ds <> [] ->
  exists d r, format_decimal (digits_to_string ds) n = String (digit_char d) r /\ (0 <= d <= 9)%Z.
Proof.
  intros Hd Hne. destruct ds as [|d0 ds']; [congruence|]. inversion Hd as [|? ? Hd0 ?]; subst.
  unfold format_decimal. rewrite length_digits_to_string.
  destruct (Z.leb_spec (Z.of_nat (List.length (d0 :: ds'))) n), (Z.leb_spec n 21), (Z.ltb_spec 0 n),
    (Z.ltb_spec (-6) n), (Z.leb_spec n 0); cbn [andb]; try (exfalso; lia).
  all: first
    [ exists d0; eexists; split; [reflexivity|exact Hd0]
    | exists 0%Z; eexists; split; [reflexivity|lia]
    | destruct (Z.to_nat n) eqn:?; [lia|]; exists d0; eexists; split; [reflexivity|exact Hd0]
    | destruct ds'; exists d0; eexists; split; first [reflexivity|exact Hd0] ].
Qed.

(** [parseFloat] of a text that starts with a digit is its longest
    unsigned decimal literal. *)
Lemma parse_float_digit_head (d : Z) (r : string) : (0 <= d <= 9)%Z ->
  parse_float (String (digit_char d) r) =
  match scan_unsigned (String (digit_char d) r) with Some (v, _) => v | None => NaN end.
Proof.
  intros Hd. destruct (digit_char_facts d Hd) as (Hs & Hp & Hm & _).
  unfold parse_float. cbn [trim_start]. rewrite Hs. unfold scan_decimal. rewrite Hp, Hm. reflexivity.
Qed.

(** ** Reading back the value *)

Lemma round64_red (q : Q) : Qred (round64 q) = round64 q.
Proof. unfold round64. destruct (_ =? 0)%Z; [reflexivity|apply Qred_complete, Qred_correct]. Qed.

(** A value that rounds to a double [x] (a fixed point of [round64])
    rounds to [x] itself, not only to a rational equal to it. *)
Lemma round64_canonical (y x : Q) : round64 x = x -> round64 y == x -> round64 y = x.
Proof.
  intros Hx Hy. rewrite <- (round64_red y), <- Hx, <- (round64_red x). apply Qred_complete.
  rewrite Hx. exact Hy.
Qed.

Lemma decimal_value_pow10q (m e : Z) : decimal_value m e == inject_Z m * pow10q e.
Proof.
  unfold decimal_value, pow10q. destruct (Z.leb_spec 0 e).
  - rewrite inject_Z_mult. reflexivity.
  - unfold Qeq, Qmult; cbn [Qnum Qden inject_Z]. lia.
Qed.

Lemma pow10q_pos (e : Z) : 0 < pow10q e.
Proof.
  unfold pow10q. destruct (Z.leb_spec 0 e).
  - change 0 with (inject_Z 0). rewrite <- Zlt_Qlt. apply Z.pow_pos_nonneg; lia.
  - unfold Qlt; cbn. lia.
Qed.

(** A positive value that rounds to a double below [2^1023] is inside
    the range of doubles, where [mkfin] rounds instead of overflowing. *)
Lemma rounds_in_range (V x : Q) : round64 V = x -> 0 < V -> x < inject_Z (2 ^ 1023) ->
  Qabs V < overflow_bound.
Proof.
  intros HV Hpos Hx. rewrite Qabs_pos by lra.
  pose proof (round64_abs_error V) as He. rewrite HV, (Qabs_pos V) in He by lra.
  apply Qabs_Qle_condition in He as [He1 He2].
  assert (E53 : (1 # 2) ^ 53 == 1 # 9007199254740992) by reflexivity.
  assert (Ht : (1 # 2) ^ 1075 <= 1) by (vm_compute; discriminate).
  assert (HT : 2 <= inject_Z (2 ^ 1023)) by (vm_compute; discriminate).
  assert (Eob : overflow_bound == inject_Z (2 ^ 1023) * (2 - (1 # 2) ^ 53))
    by (vm_compute; reflexivity).
  rewrite Eob. rewrite E53 in *. lra.
Qed.

(** The digits printed for a positive double read back as the double,
    and the text starts with a digit. *)
Lemma scan_shortest (y : Q) (s n k : Z) :
  round64 y = y -> 0 < y -> y < inject_Z (2 ^ 1023) -> shortest_decimal y = Some (s, n, k) ->
  exists d r, format_decimal (digits_to_string (digits_k (Z.to_nat k) s)) n = String (digit_char d) r /\
    (0 <= d <= 9)%Z /\ scan_unsigned (String (digit_char d) r) = Some (Fin y, "").
Proof.
  intros Hy Hpos Hbig Hsd. destruct (shortest_decimal_sound _ _ _ _ Hsd) as (Hk & Hs & Hden).
  assert (Hs0 : (0 < 10 ^ (k - 1))%Z) by (apply Z.pow_pos_nonneg; lia).
  set (ds := digits_k (Z.to_nat k) s).
  assert (Hds : is_digits ds) by (apply digits_k_digits; lia).
  assert (Hlen : Z.of_nat (List.length ds) = k) by (unfold ds; rewrite digits_k_length; lia).
  assert (Hne : ds <> []) by (intros E; rewrite E in Hlen; cbn in Hlen; lia).
  assert (Hval : digits_value 10 ds = s) by (apply digits_k_value; rewrite Z2Nat.id; lia).
  destruct (format_decimal_head ds n Hds Hne) as (d & r & Ehead & Hd).
  exists d, r. split; [exact Ehead|split; [exact Hd|]]. rewrite <- Ehead.
  rewrite scan_format_decimal by assumption. rewrite Hval, Hlen.
  assert (HV : round64 (decimal_value s (n - k)) = y).
  { apply round64_canonical; [exact Hy|]. rewrite (round64_wd _ _ (decimal_value_pow10q s (n - k))).
    exact Hden. }
  assert (HVpos : 0 < decimal_value s (n - k)).
  { rewrite decimal_value_pow10q. apply Qmult_lt_0_compat; [|apply pow10q_pos].
    change 0 with (inject_Z 0). rewrite <- Zlt_Qlt. lia. }
  rewrite mkfin_in_range by exact (rounds_in_range _ _ HV HVpos Hbig). rewrite HV. reflexivity.
Qed.

Lemma trim_start_minus (t : string) : trim_start (String "-" t) = String "-" t.
Proof. reflexivity. Qed.

Lemma scan_decimal_minus (t : string) :
  scan_decimal (String "-" t) = match scan_unsigned t with Some (v, r) => Some (num_neg v, r) | None => None end.
Proof. reflexivity. Qed.

Lemma round64_fix_opp (x : Q) : round64 x = x -> round64 (- x) = - x.
Proof.
  intros Hx. rewrite <- round64_red, (Qred_complete _ (- round64 x)) by apply round64_opp.
  rewrite Qred_opp, round64_red, Hx. reflexivity.
Qed.

(** [parseFloat] reads back what [Number::toString] prints: for a
    nonzero double of magnitude below [2^1023] whose shortest digits the
    search finds, [parseFloat(String(x))] is [x], the sign included, in
    each of the four layouts of the text (digits with trailing zeros, a
    point inside the digits, [0.] and leading zeros, exponential). *)
Theorem parse_float_number_to_string (x : Q) (s n k : Z) :
  round64 x = x -> ~ x == 0 -> Qabs x < inject_Z (2 ^ 1023) ->
  shortest_decimal (Qabs x) = Some (s, n, k) ->
  parse_float (number_to_string x) = Fin x.
Proof.
  intros Hx Hx0 Hbig Hsd. unfold number_to_string. rewrite Hsd.
  replace (Qeq_bool x 0) with false by (symmetry; apply Bool.not_true_iff_false; rewrite Qeq_bool_iff; exact Hx0).
  destruct x as [a p]. cbn [Qnum].
  assert (Ha : a <> 0%Z) by (intros ->; apply Hx0; reflexivity).
  destruct (Z.ltb_spec a 0) as [Hneg|Hnn]; cbn [append].
  - (* a negative double: a minus sign, then the digits of its magnitude *)
    assert (Eabs : Qabs (a # p) = - (a # p)) by (cbn; rewrite Z.abs_neq by lia; reflexivity).
    rewrite Eabs in Hsd, Hbig.
    assert (Hpos : 0 < - (a # p)) by (unfold Qlt; cbn; lia).
    destruct (scan_shortest _ _ _ _ (round64_fix_opp _ Hx) Hpos Hbig Hsd) as (d & r & Ehead & Hd & Hscan).
    rewrite Ehead. unfold parse_float. rewrite trim_start_minus, scan_decimal_minus, Hscan.
    cbn [num_neg]. unfold Qopp. cbn [Qnum Qden]. rewrite Z.opp_involutive. reflexivity.
  - assert (Eabs : Qabs (a # p) = a # p) by (cbn; rewrite Z.abs_eq by lia; reflexivity).
    rewrite Eabs in Hsd, Hbig.
    assert (Hpos : 0 < a # p) by (unfold Qlt; cbn; lia).
    destruct (scan_shortest _ _ _ _ Hx Hpos Hbig Hsd) as (d & r & Ehead & Hd & Hscan).
    rewrite Ehead, parse_float_digit_head, Hscan by exact Hd. reflexivity.
Qed.

(** The GHS price of 1.8 USD, [1.8 * 15.5 = 27.900000000000002], prints
    with 17 digits and reads back. *)
Lemma parse_float_number_to_string_witness :
  parse_float (number_to_string (round64 (round64 (9 # 5) * (31 # 2))))
  = Fin (round64 (round64 (9 # 5) * (31 # 2))).
Proof.
  apply (parse_float_number_to_string _ 27900000000000002 2 17); vm_compute;
    [reflexivity|discriminate|reflexivity|reflexivity].
Defined.
