(* ===== verification/Text.v ===== *)
(** * String operations of the program

    [toTitleCase] (lines 153-158 of [src/script.js]) and the string
    built-ins it and [applyFilters] call: [toLowerCase], the two regular
    expression replacements [/\b\w/g] (capitalise the first word character
    of each word) and [/\s+Futures\b/g] (delete a run of white space
    followed by the word [Futures]), [.replace(/_/g, ' ')] of
    [loadFromNewAPI], and [String.prototype.includes].

    Strings are sequences of ASCII code units: [\w] is [[A-Za-z0-9_]],
    [\s] is TAB, LF, VT, FF, CR and SP, and case mapping changes [A-Z] and
    [a-z] only.  On code units above 127 JavaScript's [toLowerCase] and
    [\s] differ from this model (Latin-1 letters, NBSP); the names the
    program handles are ASCII.

    The global replacement [/\s+Futures\b/g] scans left to right and
    resumes after each match; [strip_futures_fuel] does so with fuel, and
    [strip_futures_fuel_enough] shows that any fuel above the length of the
    string gives the same result. *)

From Stdlib Require Import List String Ascii Arith Lia.
From S2P Require Import Prelude.
Open Scope string_scope.
Open Scope bool_scope.

(** ** Character classes and case mapping *)

Definition is_upper (c : ascii) : bool :=
  let n := nat_of_ascii c in ((65 <=? n) && (n <=? 90))%nat.

Definition is_lower (c : ascii) : bool :=
  let n := nat_of_ascii c in ((97 <=? n) && (n <=? 122))%nat.

Definition is_digit (c : ascii) : bool :=
  let n := nat_of_ascii c in ((48 <=? n) && (n <=? 57))%nat.

(** [\w]. *)
Definition is_word_char (c : ascii) : bool :=
  is_upper c || is_lower c || is_digit c || (c =? "_")%char.

(** [\s] on ASCII. *)
Definition is_regex_space (c : ascii) : bool :=
  let n := nat_of_ascii c in (((9 <=? n) && (n <=? 13)) || (n =? 32))%nat.

Definition lower_char (c : ascii) : ascii :=
  if is_upper c then ascii_of_nat (nat_of_ascii c + 32) else c.

Definition upper_char (c : ascii) : ascii :=
  if is_lower c then ascii_of_nat (nat_of_ascii c - 32) else c.

(** [s.toLowerCase()]. *)
Fixpoint to_lower (s : string) : string :=
  match s with
  | EmptyString => EmptyString
  | String c r => String (lower_char c) (to_lower r)
  end.

(** [s.replace(/_/g, ' ')]. *)
Fixpoint replace_underscores (s : string) : string :=
  match s with
  | EmptyString => EmptyString
  | String c r => String (if (c =? "_")%char then " "%char else c) (replace_underscores r)
  end.

(** [s.replace(/\b\w/g, c => c.toUpperCase())]: a word character whose
    predecessor is not a word character (or that starts the string) is
    upper-cased; [prev_word] says whether the previous character was a
    word character. *)
Fixpoint title_words_from (prev_word : bool) (s : string) : string :=
  match s with
  | EmptyString => EmptyString
  | String c r =>
      String (if is_word_char c && negb prev_word then upper_char c else c)
             (title_words_from (is_word_char c) r)
  end.

Definition title_words (s : string) : string := title_words_from false s.

(** ** [/\s+Futures\b/g] *)

Fixpoint skip_spaces (s : string) : string :=
  match s with
  | String c r => if is_regex_space c then skip_spaces r else s
  | EmptyString => s
  end.

(** [\b] after [Futures]: the end of the string or a non-word character. *)
Definition word_boundary_before (s : string) : bool :=
  match s with
  | EmptyString => true
  | String c _ => negb (is_word_char c)
  end.

(** A match of [\s+Futures\b] at the front of [s]: the text after it.
    [\s+] is greedy, and backtracking to a shorter run cannot help since
    [Futures] does not start with white space. *)
Definition match_futures (s : string) : option string :=
  match s with
  | String c _ =>
      if is_regex_space c then
        let t := skip_spaces s in
        if String.prefix "Futures" t then
          let rest := substring 7 (String.length t - 7) t in
          if word_boundary_before rest then Some rest else None
        else None
      else None
  | EmptyString => None
  end.

Fixpoint strip_futures_fuel (fuel : nat) (s : string) : string :=
  match fuel with
  | O => s
  | S fuel' =>
      match s with
      | EmptyString => EmptyString
      | String c r =>
          match match_futures s with
          | Some rest => strip_futures_fuel fuel' rest
          | None => String c (strip_futures_fuel fuel' r)
          end
      end
  end.

(** [s.replace(/\s+Futures\b/g, '')]. *)
Definition strip_futures (s : string) : string :=
  strip_futures_fuel (S (String.length s)) s.

(** [toTitleCase(text)] of [src/script.js] on a string. *)
Definition toTitleCase (text : string) : string :=
  strip_futures (title_words (to_lower text)).

(** [s.includes(sub)]. *)
Fixpoint includes (s sub : string) : bool :=
  String.prefix sub s ||
  match s with
  | EmptyString => false
  | String _ r => includes r sub
  end.

(** ** Lemmas *)

Lemma skip_spaces_length s : String.length (skip_spaces s) <= String.length s.
Proof.
  induction s as [|c r IH]; simpl; [lia|]. destruct (is_regex_space c); simpl; lia.
Qed.

Lemma substring_length_le n m s : String.length (substring n m s) <= String.length s - n.
Proof.
  revert n m. induction s as [|c r IH]; intros [|n] [|m]; simpl; try lia.
  - specialize (IH 0 m). lia.
  - specialize (IH n 0). lia.
  - specialize (IH n (S m)). lia.
Qed.

(** A match consumes at least the white space and [Futures]. *)
Lemma match_futures_shorter s rest :
  match_futures s = Some rest -> String.length rest < String.length s.
Proof.
  unfold match_futures. destruct s as [|c r]; [discriminate|].
  destruct (is_regex_space c) eqn:Hc; [|discriminate].
  set (t := skip_spaces (String c r)).
  destruct (String.prefix "Futures" t) eqn:Hp; [|discriminate].
  destruct (word_boundary_before _); [|discriminate].
  intros H; injection H as <-.
  assert (Ht : String.length t <= String.length r).
  { unfold t; simpl. rewrite Hc. apply skip_spaces_length. }
  pose proof (substring_length_le 7 (String.length t - 7) t). simpl. lia.
Qed.

(** The scan of the global [replace] in [toTitleCase] terminates:
    each step consumes at least one character, so any fuel beyond the
    length of the string gives the same result, the one [strip_futures]
    computes with [length + 1]. *)
Lemma strip_futures_fuel_enough n m s :
  String.length s < n -> String.length s < m ->
  strip_futures_fuel n s = strip_futures_fuel m s.
Proof.
  revert m s. induction n as [|n IH]; intros m s Hn Hm; [lia|].
  destruct m as [|m]; [lia|]. simpl.
  destruct s as [|c r]; [reflexivity|].
  destruct (match_futures (String c r)) as [rest|] eqn:E.
  - apply match_futures_shorter in E. apply IH; lia.
  - f_equal. apply IH; simpl in *; lia.
Qed.

Lemma lower_char_idem c : lower_char (lower_char c) = lower_char c.
Proof. destruct c as [[] [] [] [] [] [] [] []]; reflexivity. Qed.

Lemma to_lower_idem s : to_lower (to_lower s) = to_lower s.
Proof. induction s as [|c r IH]; simpl; [reflexivity|]. now rewrite lower_char_idem, IH. Qed.

#[export] Hint Rewrite to_lower_idem : pb_rw.

(** ** The first character of a title-cased name *)

(** The first code unit of a string. *)
Definition head_char (s : string) : option ascii :=
  match s with String c _ => Some c | EmptyString => None end.

(** A first character a member of [Object.prototype] cannot start with:
    neither a lower-case letter nor [_]. *)
Definition capital_head (c : ascii) : bool := negb (is_lower c) && negb (c =? "_")%char.

Lemma match_futures_boundary s rest :
  match_futures s = Some rest -> word_boundary_before rest = true.
Proof.
  unfold match_futures. destruct s as [|c r]; [discriminate|].
  destruct (is_regex_space c); [|discriminate].
  destruct (String.prefix _ _); [|discriminate].
  destruct (word_boundary_before _) eqn:E; [|discriminate]. now intros [= <-].
Qed.

Lemma non_word_capital c : is_word_char c = false -> capital_head c = true.
Proof.
  unfold is_word_char, capital_head. intros H.
  apply Bool.orb_false_iff in H as [H H3]. apply Bool.orb_false_iff in H as [H _].
  apply Bool.orb_false_iff in H as [_ H2]. now rewrite H2, H3.
Qed.

(** The scan of [/\s+Futures\b/g] starts its result with the first
    character of its input, or with the non-word character that follows
    a deleted match. *)
Lemma strip_futures_fuel_head n s c r :
  strip_futures_fuel n s = String c r -> head_char s = Some c \/ is_word_char c = false.
Proof.
  revert s. induction n as [|n IH]; intros s; simpl.
  - intros ->. now left.
  - destruct s as [|c0 r0]; [discriminate|].
    destruct (match_futures (String c0 r0)) as [rest|] eqn:E.
    + intros H%IH. right. destruct H as [H|H]; [|exact H].
      apply match_futures_boundary in E. destruct rest; [discriminate|].
      injection H as ->. simpl in E. now apply Bool.negb_true_iff.
    + intros [= -> _]. now left.
Qed.

Lemma upper_char_capital c : (c =? "_")%char = false -> capital_head (upper_char (lower_char c)) = true.
Proof. destruct c as [[] [] [] [] [] [] [] []]; try reflexivity; discriminate. Qed.

(** The name [toTitleCase(name.replace(/_/g, ' '))] never starts with a
    lower-case letter or an underscore. *)
Lemma toTitleCase_head s c r :
  toTitleCase (replace_underscores s) = String c r -> capital_head c = true.
Proof.
  unfold toTitleCase, strip_futures. intros [H|H]%strip_futures_fuel_head; [|now apply non_word_capital].
  destruct s as [|c0 s]; [discriminate|]. simpl in H. injection H as <-.
  destruct (is_word_char (lower_char (if (c0 =? "_")%char then " "%char else c0))) eqn:W; simpl.
  - apply upper_char_capital. destruct (c0 =? "_")%char eqn:U; [reflexivity|].
    destruct c0 as [[] [] [] [] [] [] [] []]; try reflexivity; discriminate.
  - now apply non_word_capital.
Qed.

Lemma strip_futures_fuel_enough_witness :
  strip_futures_fuel 13 "corn futures" = strip_futures_fuel 100 "corn futures".
Proof. apply strip_futures_fuel_enough; simpl; lia. Defined.
