(* ===== verification/Dates.v ===== *)
(** * Dates: [new Date(..)], [toISOString], and [new Date(isoDate)]

    [loadFromNewAPI] builds [new Date(item.updated * 1000)] (or
    [new Date()]) and keeps [date.toISOString().split('T')[0]] (lines 107
    and 121 of [src/script.js]); the default sort compares
    [new Date(b.date) - new Date(a.date)] (line 469).

    A time value is an integer number of milliseconds since the epoch, or
    invalid.  [time_clip] is ECMA-262's TimeClip (invalid beyond
    8.64e15 ms, truncated toward zero otherwise).  The calendar is the
    proleptic Gregorian one of ECMA-262, computed with the era-based
    algorithms [civil_from_days] and [days_from_civil].  [to_iso_string]
    throws the [RangeError] of an invalid date; [parse_iso_date] reads
    the date-only ISO forms [YYYY-MM-DD] and [+YYYYYY-MM-DD] /
    [-YYYYYY-MM-DD] as UTC midnight.  Other strings are read as invalid:
    V8 would try its legacy parser on them, but every date the program
    parses is one it produced with [toISOString].

    The calendar functions are checked against each other on all 146097
    days of one 400-year era by evaluation ([all_doe_era]), and beyond it
    by the era arithmetic ([civil_from_days_spec]); the date part of
    [toISOString] then reads back as UTC midnight of its day and prints
    the same date again ([iso_date_roundtrip]). *)

From Stdlib Require Import List String Ascii ZArith QArith Qabs Lia.
From S2P Require Import Prelude JsNum Text.
Import ListNotations.
Open Scope string_scope.
Open Scope bool_scope.
Open Scope Z_scope.

Definition msPerDay : Z := 86400000.
Definition max_time : Z := 8640000000000000.

(** [TimeClip(time)]: [None] is an invalid date. *)
Definition time_clip (t : num) : option Z :=
  match t with
  | Fin q => if Qle_bool (Qabs q) (inject_Z max_time)
             then Some (Z.quot (Qnum q) (Zpos (Qden q))) else None
  | _ => None
  end.

(** ** The proleptic Gregorian calendar *)

(** Year of era, month and day of a day of era [doe] in [0, 146096], the
    era starting on 1 March of a year divisible by 400. *)
Definition civil_of_doe (doe : Z) : Z * Z * Z :=
  let yoe := (doe - doe / 1460 + doe / 36524 - doe / 146096) / 365 in
  let doy := doe - (365 * yoe + yoe / 4 - yoe / 100) in
  let mp := (5 * doy + 2) / 153 in
  let d := doy - (153 * mp + 2) / 5 + 1 in
  let m := if mp <? 10 then mp + 3 else mp - 9 in
  (yoe, m, d).

(** Inverse direction, within an era. *)
Definition doe_of_civil (yoe m d : Z) : Z :=
  let doy := (153 * (if 2 <? m then m - 3 else m + 9) + 2) / 5 + d - 1 in
  yoe * 365 + yoe / 4 - yoe / 100 + doy.

(** Year, month (1-12) and day (1-31) of day [z] since 1970-01-01. *)
Definition civil_from_days (z : Z) : Z * Z * Z :=
  let z' := z + 719468 in
  let era := z' / 146097 in
  let '(yoe, m, d) := civil_of_doe (z' mod 146097) in
  (yoe + era * 400 + (if m <=? 2 then 1 else 0), m, d).

(** Day since 1970-01-01 of a date; linear in [d], so an out-of-month day
    rolls over as ECMA-262's MakeDay does. *)
Definition days_from_civil (y m d : Z) : Z :=
  let y' := y - (if m <=? 2 then 1 else 0) in
  let era := y' / 400 in
  era * 146097 + doe_of_civil (y' - era * 400) m d - 719468.

(** The checks of [civil_of_doe] on every day of an era: the
    fields are in range and [doe_of_civil] gives the day back. *)
Definition doe_ok (doe : Z) : bool :=
  let '(yoe, m, d) := civil_of_doe doe in
  (0 <=? yoe) && (yoe <=? 399) && (1 <=? m) && (m <=? 12) && (1 <=? d) && (d <=? 31)
  && (doe_of_civil yoe m d =? doe).

Fixpoint all_doe (n : nat) (z : Z) : bool :=
  match n with O => true | S k => doe_ok z && all_doe k (z + 1) end.

(** ** Printing *)

Definition digit_char (d : Z) : ascii := ascii_of_nat (48 + Z.to_nat d).

(** The last [n] decimal digits of [k], zero-padded. *)
Fixpoint pad (n : nat) (k : Z) : string :=
  match n with
  | O => EmptyString
  | S n' => pad n' (k / 10) ++ String (digit_char (k mod 10)) EmptyString
  end.

Definition year_string (y : Z) : string :=
  if (0 <=? y) && (y <=? 9999) then pad 4 y
  else (if y <? 0 then "-" else "+") ++ pad 6 (Z.abs y).

Definition date_string (y m d : Z) : string :=
  year_string y ++ "-" ++ pad 2 m ++ "-" ++ pad 2 d.

(** [date.toISOString()] of a valid time value. *)
Definition iso_string (t : Z) : string :=
  let '(y, m, d) := civil_from_days (t / msPerDay) in
  let ms := t mod msPerDay in
  date_string y m d ++ "T" ++ pad 2 (ms / 3600000) ++ ":" ++ pad 2 (ms / 60000 mod 60)
  ++ ":" ++ pad 2 (ms / 1000 mod 60) ++ "." ++ pad 3 (ms mod 1000) ++ "Z".

(** [date.toISOString()]: a [RangeError] on an invalid date. *)
Definition to_iso_string (t : option Z) : res string :=
  match t with
  | Some t => Ok (iso_string t)
  | None => Throw (RangeError "Invalid time value")
  end.

(** [s.split('T')[0]]: the text before the first [T]. *)
Fixpoint split_T_first (s : string) : string :=
  match s with
  | EmptyString => EmptyString
  | String c r => if (c =? "T")%char then EmptyString else String c (split_T_first r)
  end.

(** ** Parsing *)

Fixpoint parse_digits_acc (s : string) (acc : Z) : option Z :=
  match s with
  | EmptyString => Some acc
  | String c r =>
      if is_digit c then parse_digits_acc r (acc * 10 + (Z.of_nat (nat_of_ascii c) - 48))
      else None
  end.

(** The value of a string of decimal digits. *)
Definition parse_digits (s : string) : option Z := parse_digits_acc s 0.

(** [new Date(s)] for a date-only ISO string: UTC midnight of that day. *)
Definition parse_iso_date (s : string) : option Z :=
  let fields :=
    match s with
    | String sg r =>
        if ((sg =? "+")%char || (sg =? "-")%char) && (String.length r =? 12)%nat then
          Some (if (sg =? "-")%char then (-1) else 1, substring 0 6 r,
                substring 6 1 r, substring 7 2 r, substring 9 1 r, substring 10 2 r,
                true)
        else if (String.length s =? 10)%nat then
          Some (1, substring 0 4 s, substring 4 1 s, substring 5 2 s,
                substring 7 1 s, substring 8 2 s, false)
        else None
    | EmptyString => None
    end in
  match fields with
  | Some (sign, ys, dash1, ms, dash2, ds, extended) =>
      match parse_digits ys, parse_digits ms, parse_digits ds with
      | Some y, Some m, Some d =>
          if String.eqb dash1 "-" && String.eqb dash2 "-" && (1 <=? m) && (m <=? 12)
             && (1 <=? d) && (d <=? 31) && negb (extended && (sign =? -1) && (y =? 0))
          then
            let t := days_from_civil (sign * y) m d * msPerDay in
            if Z.abs t <=? max_time then Some t else None
          else None
      | _, _, _ => None
      end
  | None => None
  end.

(** The number [new Date(s).getTime()] of a date string. *)
Definition date_value (s : string) : num :=
  match parse_iso_date s with
  | Some t => Fin (inject_Z t)
  | None => NaN
  end.

(** ** Lemmas *)



(** A date-only string denotes UTC midnight: a whole number of days. *)
Lemma parse_iso_date_midnight s t :
  parse_iso_date s = Some t -> exists d, t = d * msPerDay /\ Z.abs t <= max_time.
Proof.
  unfold parse_iso_date. cbv zeta.
  match goal with |- context [match ?f with Some _ => _ | None => None end] => destruct f as
    [[[[[[[sign ys] d1] ms] d2] ds] ext]|] end; [|discriminate].
  destruct (parse_digits ys), (parse_digits ms), (parse_digits ds); try discriminate.
  destruct (_ && _); [|discriminate].
  destruct (Z.abs _ <=? max_time) eqn:E; [|discriminate].
  intros [= <-]. apply Z.leb_le in E. eauto.
Qed.

(** ** Printing and reading back *)

Lemma pad_length n k : String.length (pad n k) = n.
Proof. revert k. induction n as [|n IH]; intros k; simpl; [reflexivity|]. rewrite length_append, IH. simpl. lia. Qed.

Lemma parse_digits_acc_app s1 s2 acc :
  parse_digits_acc (s1 ++ s2) acc =
  match parse_digits_acc s1 acc with Some v => parse_digits_acc s2 v | None => None end.
Proof.
  revert acc. induction s1 as [|c s1 IH]; intros acc; simpl; [reflexivity|].
  destruct (is_digit c); [apply IH|reflexivity].
Qed.

Lemma digit_cases d : 0 <= d <= 9 ->
  d = 0 \/ d = 1 \/ d = 2 \/ d = 3 \/ d = 4 \/ d = 5 \/ d = 6 \/ d = 7 \/ d = 8 \/ d = 9.
Proof. lia. Qed.

(** A digit character is a digit, denotes its value, and is not the
    [T] that ends the date part. *)
Lemma digit_char_spec d : 0 <= d <= 9 ->
  is_digit (digit_char d) = true /\ Z.of_nat (nat_of_ascii (digit_char d)) - 48 = d
  /\ (digit_char d =? "T")%char = false.
Proof. intros [-> | [-> | [-> | [-> | [-> | [-> | [-> | [-> | [-> | ->]]]]]]]]]%digit_cases; auto. Qed.

Lemma mod_mul_10 k p : 0 < p -> k mod (10 * p) = k mod 10 + 10 * ((k / 10) mod p).
Proof.
  intros Hp. symmetry. apply Z.mod_unique with ((k / 10) / p).
  - left. pose proof (Z.mod_pos_bound k 10). pose proof (Z.mod_pos_bound (k / 10) p Hp). lia.
  - pose proof (Z.div_mod k 10). pose proof (Z.div_mod (k / 10) p). lia.
Qed.

(** Reading back the last [n] digits of [k]. *)
Lemma parse_digits_acc_pad n k acc :
  0 <= k -> parse_digits_acc (pad n k) acc = Some (acc * 10 ^ Z.of_nat n + k mod 10 ^ Z.of_nat n).
Proof.
  revert k acc. induction n as [|n IH]; intros k acc Hk.
  - simpl. f_equal. rewrite Z.mod_1_r. lia.
  - simpl pad. rewrite parse_digits_acc_app, IH by (apply Z.div_pos; lia).
    destruct (digit_char_spec (k mod 10)) as [D [V _]]; [pose proof (Z.mod_pos_bound k 10); lia|].
    cbn [parse_digits_acc]. rewrite D, V. f_equal.
    rewrite Nat2Z.inj_succ, Z.pow_succ_r by lia.
    rewrite mod_mul_10 by lia. ring.
Qed.

Lemma parse_digits_pad n k : 0 <= k < 10 ^ Z.of_nat n -> parse_digits (pad n k) = Some k.
Proof. intros H. unfold parse_digits. rewrite parse_digits_acc_pad by lia. f_equal. rewrite Z.mod_small; lia. Qed.

Lemma all_doe_spec n z : all_doe n z = true -> forall k, z <= k < z + Z.of_nat n -> doe_ok k = true.
Proof.
  revert z. induction n as [|n IH]; intros z H k Hk; simpl in *; [lia|].
  apply andb_prop in H as [H1 H2]. destruct (Z.eq_dec k z) as [->|]; [exact H1|].
  apply (IH (z + 1)); [exact H2|lia].
Qed.

Lemma all_doe_era : all_doe (Z.to_nat 146097) 0 = true.
Proof. vm_compute. reflexivity. Qed.

Lemma civil_of_doe_spec doe : 0 <= doe < 146097 ->
  let '(yoe, m, d) := civil_of_doe doe in
  0 <= yoe <= 399 /\ 1 <= m <= 12 /\ 1 <= d <= 31 /\ doe_of_civil yoe m d = doe.
Proof.
  intros H. pose proof (all_doe_spec _ _ all_doe_era doe ltac:(lia)) as E. unfold doe_ok in E.
  destruct (civil_of_doe doe) as [[yoe m] d].
  repeat rewrite Bool.andb_true_iff in E. rewrite !Z.leb_le, Z.eqb_eq in E. lia.
Qed.

Lemma civil_from_days_spec z :
  let '(y, m, d) := civil_from_days z in
  1 <= m <= 12 /\ 1 <= d <= 31 /\ days_from_civil y m d = z
  /\ (-100000000 <= z <= 100000000 -> Z.abs y < 1000000).
Proof.
  unfold civil_from_days. set (z' := z + 719468).
  pose proof (Z.mod_pos_bound z' 146097 ltac:(lia)) as Hb.
  pose proof (Z.div_mod z' 146097 ltac:(lia)) as Hdm.
  pose proof (civil_of_doe_spec _ Hb) as Hs.
  destruct (civil_of_doe (z' mod 146097)) as [[yoe m] d].
  destruct Hs as (Hy & Hm & Hd & Hdoe).
  set (era := z' / 146097) in *.
  assert (Hdiv : (yoe + era * 400) / 400 = era) by (symmetry; apply Z.div_unique with yoe; lia).
  unfold days_from_civil. repeat split; try lia.
  - destruct (m <=? 2);
      replace (yoe + era * 400 + _ - _) with (yoe + era * 400) by lia;
      rewrite Hdiv; replace (yoe + era * 400 - era * 400) with yoe by lia; lia.
  - intros Hz. destruct (m <=? 2); lia.
Qed.
Lemma parse_iso_date_basic a b c :
  String.length a = 4%nat -> String.length b = 2%nat -> String.length c = 2%nat ->
  parse_iso_date (a ++ "-" ++ b ++ "-" ++ c) =
  match parse_digits a, parse_digits b, parse_digits c with
  | Some y, Some m, Some d =>
      if (1 <=? m) && (m <=? 12) && (1 <=? d) && (d <=? 31) then
        let t := days_from_civil y m d * msPerDay in
        if Z.abs t <=? max_time then Some t else None
      else None
  | _, _, _ => None
  end.
Proof.
  intros Ha Hb Hc.
  destruct a as [|a1 [|a2 [|a3 [|a4 [|]]]]]; try discriminate.
  destruct b as [|b1 [|b2 [|]]]; try discriminate.
  destruct c as [|c1 [|c2 [|]]]; try discriminate.
  unfold parse_iso_date. simpl. rewrite Bool.andb_false_r.
  repeat match goal with |- context [parse_digits ?s] => destruct (parse_digits s) end; try reflexivity.
  rewrite Z.mul_1_l. simpl. rewrite !Bool.andb_true_r. reflexivity.
Qed.
Lemma parse_iso_date_extended sg a b c :
  (sg = "+"%char \/ sg = "-"%char) ->
  String.length a = 6%nat -> String.length b = 2%nat -> String.length c = 2%nat ->
  parse_iso_date (String sg (a ++ String "-" (b ++ String "-" c))) =
  match parse_digits a, parse_digits b, parse_digits c with
  | Some y, Some m, Some d =>
      let sign := if (sg =? "-")%char then -1 else 1 in
      if (1 <=? m) && (m <=? 12) && (1 <=? d) && (d <=? 31) && negb ((sign =? -1) && (y =? 0)) then
        let t := days_from_civil (sign * y) m d * msPerDay in
        if Z.abs t <=? max_time then Some t else None
      else None
  | _, _, _ => None
  end.
Proof.
  intros Hsg Ha Hb Hc.
  destruct a as [|a1 [|a2 [|a3 [|a4 [|a5 [|a6 [|]]]]]]]; try discriminate.
  destruct b as [|b1 [|b2 [|]]]; try discriminate.
  destruct c as [|c1 [|c2 [|]]]; try discriminate.
  unfold parse_iso_date. destruct Hsg as [-> | ->]; simpl;
  repeat match goal with |- context [parse_digits ?s] => destruct (parse_digits s) end; reflexivity.
Qed.



(** The digits [pad] prints contain no [T]. *)
Lemma split_T_first_pad n k s : split_T_first (pad n k ++ s) = pad n k ++ split_T_first s.
Proof.
  revert k s. induction n as [|n IH]; intros k s; [reflexivity|]. simpl pad.
  rewrite !append_assoc, IH. cbn [append split_T_first].
  destruct (digit_char_spec (k mod 10)) as (_ & _ & ->); [|reflexivity].
  pose proof (Z.mod_pos_bound k 10). lia.
Qed.

Lemma split_T_first_date y m d s :
  split_T_first (date_string y m d ++ "T" ++ s) = date_string y m d.
Proof.
  unfold date_string, year_string. rewrite !append_assoc.
  destruct (_ && _).
  - rewrite split_T_first_pad. cbn [append split_T_first]. rewrite split_T_first_pad.
    cbn [append split_T_first]. rewrite split_T_first_pad. reflexivity.
  - destruct (y <? 0); cbn [append split_T_first]; rewrite split_T_first_pad; cbn [append split_T_first];
      rewrite split_T_first_pad; cbn [append split_T_first]; rewrite split_T_first_pad; reflexivity.
Qed.


(** The date part of [toISOString] reads back as UTC midnight of the
    day it prints. *)
Lemma iso_date_parses t :
  Z.abs t <= max_time -> parse_iso_date (split_T_first (iso_string t)) = Some (t / msPerDay * msPerDay).
Proof.
  intros Ht. unfold iso_string.
  pose proof (Z.div_mod t msPerDay ltac:(unfold msPerDay; lia)) as Hdm.
  pose proof (Z.mod_pos_bound t msPerDay ltac:(unfold msPerDay; lia)) as Hmb.
  assert (Hz : -100000000 <= t / msPerDay <= 100000000) by (unfold max_time, msPerDay in *; lia).
  pose proof (civil_from_days_spec (t / msPerDay)) as Hs.
  destruct (civil_from_days (t / msPerDay)) as [[y m] d].
  destruct Hs as (Hm & Hd & Hdays & Hy). specialize (Hy Hz).
  rewrite split_T_first_date.
  assert (Hmax : Z.abs (t / msPerDay * msPerDay) <= max_time) by (unfold max_time, msPerDay in *; lia).
  unfold date_string, year_string. destruct (0 <=? y) eqn:E1, (y <=? 9999) eqn:E2; simpl andb.
  1: { rewrite parse_iso_date_basic by apply pad_length.
    rewrite !parse_digits_pad by (apply Z.leb_le in E1; apply Z.leb_le in E2; simpl; lia).
    cbv zeta. rewrite Hdays. zbool; reflexivity. }
    all: apply Z.leb_gt in E2 || apply Z.leb_gt in E1.
    all: destruct (Z.ltb_spec y 0); try (exfalso; lia).
    all: cbn [append]; rewrite parse_iso_date_extended by (auto || apply pad_length).
    all: rewrite !parse_digits_pad by (simpl; lia); cbv zeta.
    all: try change (("+" =? "-")%char) with false; try change (("-" =? "-")%char) with true; cbv iota.
    all: try (rewrite (Z.abs_eq y) by lia; rewrite Z.mul_1_l);
         try (rewrite (Z.abs_neq y) by lia; replace (-1 * - y) with y by lia).
    all: rewrite Hdays; zbool; reflexivity.
Qed.

(** The date part of [toISOString] round-trips: for every valid time
    value [t], [new Date(d)] of the printed date
    [d = t.toISOString().split('T')[0]] is UTC midnight of [t]'s day, and
    that midnight prints [d] again; in the four-digit and in the signed
    six-digit year forms. *)
Theorem iso_date_roundtrip t :
  Z.abs t <= max_time ->
  exists d, parse_iso_date (split_T_first (iso_string t)) = Some d
    /\ d = t / msPerDay * msPerDay
    /\ split_T_first (iso_string d) = split_T_first (iso_string t).
Proof.
  intros Ht. exists (t / msPerDay * msPerDay).
  split; [now apply iso_date_parses|]. split; [reflexivity|].
  unfold iso_string. rewrite Z.div_mul by (unfold msPerDay; lia).
  destruct (civil_from_days (t / msPerDay)) as [[y m] d]. rewrite !split_T_first_date. reflexivity.
Qed.

(** TimeClip keeps time values within the range of dates. *)
Lemma time_clip_range n t : time_clip n = Some t -> Z.abs t <= max_time.
Proof.
  unfold time_clip. destruct n as [| | |q]; try discriminate.
  destruct (Qle_bool (Qabs q) (inject_Z max_time)) eqn:E; [|discriminate]. intros [= <-].
  apply Qle_bool_iff in E. destruct q as [p d]. unfold Qabs, Qle in E. simpl in E.
  rewrite <- Z.quot_abs by lia. rewrite Z.quot_div_nonneg by lia. apply Z.div_le_upper_bound; simpl; lia.
Qed.

Lemma iso_date_roundtrip_witness :
  exists d, parse_iso_date (split_T_first (iso_string (-62198755200001))) = Some d
    /\ d = -62198755200001 / msPerDay * msPerDay
    /\ split_T_first (iso_string d) = split_T_first (iso_string (-62198755200001)).
Proof. apply iso_date_roundtrip. unfold max_time. lia. Defined.
