(* ===== verification/Fetcher.v ===== *)
(** * The fetcher: [fetchCommodityPrice] and the settled batch

    [fetchCommodityPrice(name)] (lines 128-151 of [src/script.js]) asks the
    external API for one commodity.  The API is modelled by what the code
    can observe of it, per commodity name: a rejected [fetch] (network
    error), or a response with its [ok] flag and a body that
    [response.json()] parses ([Some v]) or rejects ([None]).  Every failure
    is caught and becomes [null]; a JSON array yields its first element
    or [null].

    [loadFromNewAPI] (lines 92-98) issues the requests for the configured
    [defaultCommodities], waits for all with [Promise.allSettled], and keeps
    the values of the fulfilled ones that are truthy, in request order. *)

From Stdlib Require Import List String.
From S2P Require Import Prelude JsNum JsValue.
Import ListNotations.
Open Scope string_scope.

Inductive response : Type :=
| NetworkError
| HttpResponse (ok : bool) (body : option jsval).

(** The external price source, per commodity name. *)
Definition Api : Type := string -> response.

(** [this.defaultCommodities] (lines 11-19). *)
Definition defaultCommodities : list string :=
  [ "corn"; "wheat"; "soybean"; "soybean_meal"; "soybean_oil";
    "coffee"; "cocoa"; "cotton"; "sugar"; "orange_juice";
    "gold"; "platinum"; "aluminum"; "copper"; "crude_oil"; "brent_crude_oil";
    "natural_gas"; "gasoline_rbob"; "heating_oil";
    "lean_hogs"; "feeder_cattle"; "live_cattle"; "oat"; "lumber"; "palladium";
    "micro_gold" ].

(** [fetchCommodityPrice(name)]: the value its promise fulfils with. *)
Definition fetchCommodityPrice (api : Api) (name : string) : jsval :=
  match api name with
  | NetworkError => JNull
  | HttpResponse false _ => JNull
  | HttpResponse true None => JNull
  | HttpResponse true (Some (JArray data)) => js_or (nth 0 data JUndefined) JNull
  | HttpResponse true (Some data) => data
  end.

(** The outcome of one promise of [Promise.allSettled]. *)
Inductive settled : Type :=
| Fulfilled (value : jsval)
| Rejected (reason : exn).

(** [Promise.allSettled(commodityNames.map(name => this.fetchCommodityPrice(name)))]:
    [fetchCommodityPrice] catches every exception, so each promise fulfils. *)
Definition settle_all (api : Api) (names : list string) : list settled :=
  map (fun name => Fulfilled (fetchCommodityPrice api name)) names.

(** [results.filter(r => r.status === 'fulfilled' && r.value).map(r => r.value)]. *)
Fixpoint fulfilled_values (results : list settled) : list jsval :=
  match results with
  | [] => []
  | Fulfilled v :: rs => if truthy v then v :: fulfilled_values rs else fulfilled_values rs
  | Rejected _ :: rs => fulfilled_values rs
  end.

(** ** Lemmas *)

(** The kept items are the truthy fetch results, in request order. *)
Lemma fulfilled_values_settle_all api names :
  fulfilled_values (settle_all api names)
  = filter truthy (map (fetchCommodityPrice api) names).
Proof.
  induction names as [|n names IH]; simpl; [reflexivity|].
  destruct (truthy (fetchCommodityPrice api n)); simpl; rewrite IH; reflexivity.
Qed.

(** A failed request (network error, HTTP error or malformed body) yields
    no item. *)
Definition request_failed (r : response) : Prop :=
  r = NetworkError \/ (exists b, r = HttpResponse false b) \/ r = HttpResponse true None.

Lemma fetch_failed_null api name :
  request_failed (api name) -> fetchCommodityPrice api name = JNull.
Proof.
  unfold fetchCommodityPrice. intros [H|[[b H]|H]]; rewrite H; reflexivity.
Qed.

(** When every request fails, no item is kept. *)
Lemma fetch_all_failed api names :
  (forall n, In n names -> request_failed (api n)) ->
  fulfilled_values (settle_all api names) = [].
Proof.
  rewrite fulfilled_values_settle_all.
  induction names as [|n names IH]; intros H; simpl; [reflexivity|].
  rewrite fetch_failed_null by (apply H; left; reflexivity). simpl.
  apply IH. intros m Hm. apply H. right. exact Hm.
Qed.

#[export] Hint Rewrite fulfilled_values_settle_all : pb_rw.
