(* ===== verification/Normalizer.v ===== *)
(** * The normaliser: from API quotes to display rows

    The body of [loadFromNewAPI] after the fetch (lines 100-125 of
    [src/script.js]): throw when no quote arrived, map every quote to a
    row (the arrow function of lines 104-124, [normalize] here), and keep
    the rows whose name is not the placeholder and whose GHS price is
    positive.  [getExchangeLocation] (lines 160-175) looks the exchange
    code up in an object literal; a code that names a member of
    [Object.prototype] finds that member, as JavaScript's property lookup
    does.

    The current time of [new Date()] is the parameter [now] (a valid time
    value in milliseconds). *)

From Stdlib Require Import List String ZArith QArith Qabs Lia Lqa.
From S2P Require Import Prelude JsNum NumParse JsValue Text Dates Fetcher.
Import ListNotations.
Open Scope string_scope.
Open Scope bool_scope.
Open Scope pb_scope.

(** The object literal of lines 116-124. *)
Record row : Type := mkRow {
  productName : string;
  price : num;
  currency : string;
  location : jsval;
  date : string;
  source : string;
  usdPrice : num
}.

(** The same object as JavaScript sees it, its keys in the order of the
    literal: what [JSON.stringify(item)] and [{...item}] enumerate. *)
Definition row_object (r : row) : list (string * jsval) :=
  [("productName", JString (productName r)); ("price", JNumber (price r));
   ("currency", JString (currency r)); ("location", location r);
   ("date", JString (date r)); ("source", JString (source r));
   ("usdPrice", JNumber (usdPrice r))].

(** [this.usdToGhsRate] (line 22): 15.5. *)
Definition usdToGhsRate : num := Fin (31 # 2).

(** [exchangeLocations] (lines 161-172). *)
Definition exchangeLocations : list (string * string) :=
  [ ("CME", "Chicago, Illinois"); ("COMEX", "New York, New York");
    ("NYMEX", "New York, New York"); ("CBOT", "Chicago, Illinois");
    ("ICE", "Atlanta, Georgia"); ("LME", "London, England");
    ("TOCOM", "Tokyo, Japan"); ("SHFE", "Shanghai, China");
    ("DCE", "Dalian, China"); ("ZCE", "Zhengzhou, China") ].

Fixpoint assoc (k : string) (l : list (string * string)) : option string :=
  match l with
  | [] => None
  | (k', v) :: l' => if String.eqb k k' then Some v else assoc k l'
  end.

(** The members an object literal inherits from [Object.prototype]: the
    value [obj[key]] has when [obj] has no own property [key]. *)
Definition inherited_member (key : string) : option jsval :=
  if String.eqb key "__proto__" then Some JObjectPrototype
  else if String.eqb key "constructor" then Some (JFunction "Object")
  else if existsb (String.eqb key)
            [ "hasOwnProperty"; "isPrototypeOf"; "propertyIsEnumerable";
              "toLocaleString"; "toString"; "valueOf"; "__defineGetter__";
              "__defineSetter__"; "__lookupGetter__"; "__lookupSetter__" ]
       then Some (JFunction key)
  else None.

(** [getExchangeLocation(exchange)]: [exchangeLocations[exchange] || exchange];
    every value the lookup can find is truthy. *)
Definition getExchangeLocation (exchange : jsval) : res jsval :=
  key <- to_string exchange ;;
  Ok (match assoc key exchangeLocations with
      | Some loc => JString loc
      | None => match inherited_member key with
                | Some v => v
                | None => exchange
                end
      end).

(** [typeof item.price === 'number' ? item.price : parseFloat(item.price)]. *)
Definition numeric_price (p : jsval) : res num :=
  match p with
  | JNumber n => Ok n
  | _ => s <- to_string p ;; Ok (parse_float s)
  end.

(** [item.updated ? new Date(item.updated * 1000) : new Date()]. *)
Definition updated_date (now : Z) (updated : jsval) : res (option Z) :=
  if truthy updated then
    u <- to_number updated ;; Ok (time_clip (num_mul u (Fin 1000)))
  else Ok (Some now).

(** [!isNaN(numericPrice) ? numericPrice * this.usdToGhsRate : 0]. *)
Definition price_in_ghs (numericPrice : num) : num :=
  if negb (is_nan numericPrice) then num_mul numericPrice usdToGhsRate else Fin 0.

(** The arrow function [item => {...}] of lines 104-124, in the order the
    code evaluates it. *)
Definition normalize (now : Z) (item : jsval) : res row :=
  name <- get_prop item "name" ;;
  nameStr <- to_string (js_or name (JString "")) ;;
  let pn := toTitleCase (replace_underscores nameStr) in
  ex <- get_prop item "exchange" ;;
  let exchange := js_or ex (JString "Unknown Exchange") in
  upd <- get_prop item "updated" ;;
  updatedDate <- updated_date now upd ;;
  p <- get_prop item "price" ;;
  numericPrice <- numeric_price p ;;
  let priceInGhs := price_in_ghs numericPrice in
  loc <- getExchangeLocation exchange ;;
  iso <- to_iso_string updatedDate ;;
  Ok {| productName := if String.eqb pn "" then "Unknown Commodity" else pn;
        price := priceInGhs;
        currency := "GHS";
        location := loc;
        date := split_T_first iso;
        source := "API Ninjas";
        usdPrice := numericPrice |}.

(** [.filter(row => row.productName !== 'Unknown Commodity' && row.price > 0)]. *)
Definition keep_row (r : row) : bool :=
  negb (String.eqb (productName r) "Unknown Commodity") && num_gt (price r) (Fin 0).

(** [loadFromNewAPI()]: the rows it assigns to [this.data], or the
    exception it throws. *)
Definition loadFromNewAPI (api : Api) (now : Z) : res (list row) :=
  let items := fulfilled_values (settle_all api defaultCommodities) in
  match items with
  | [] => Throw (Error "No commodity prices available from API.")
  | _ => rows <- map_res (normalize now) items ;; Ok (filter keep_row rows)
  end.

(** ** Invariant of the rows *)

(** The GHS price is the USD price times 15.5, both positive (an
    overflowing product is [Infinity]). *)
Definition conversion_ok (r : row) : Prop :=
  (exists u, usdPrice r = Fin u /\ 0 < u /\ price r = mkfin (u * (31 # 2)))%Q
  \/ (usdPrice r = PosInf /\ price r = PosInf).

(** What every row of [this.data] satisfies; its location converts to
    a string ([escapeHtml] and the template literals can print it). *)
Definition row_wf (r : row) : Prop :=
  productName r <> "Unknown Commodity" /\ num_gt (price r) (Fin 0) = true
  /\ currency r = "GHS" /\ source r = "API Ninjas" /\ conversion_ok r
  /\ exists l, to_string (location r) = Ok l.

(** A member of [Object.prototype] is the object itself or a function. *)
Lemma inherited_member_value key v :
  inherited_member key = Some v -> v = JObjectPrototype \/ exists n, v = JFunction n.
Proof.
  unfold inherited_member.
  destruct (String.eqb _ _); [intros [= <-]; auto|].
  destruct (String.eqb _ _); [intros [= <-]; eauto|].
  destruct (existsb _ _); [intros [= <-]; eauto|discriminate].
Qed.

(** The location [getExchangeLocation] finds converts to a string: the
    exchange code itself did. *)
Lemma getExchangeLocation_to_string ex l :
  getExchangeLocation ex = Ok l -> exists s, to_string l = Ok s.
Proof.
  unfold getExchangeLocation. destruct (to_string ex) as [k|] eqn:Hk; [|discriminate].
  cbn [bind]. destruct (assoc k exchangeLocations); intros H; injection H as <-; [simpl; eauto|].
  destruct (inherited_member k) as [v|] eqn:E; [|exists k; exact Hk].
  destruct (inherited_member_value _ _ E) as [->|[n ->]]; simpl; eauto.
Qed.

(** Every member of [Object.prototype] is named by a lower-case letter or
    an underscore first. *)
Lemma inherited_member_head key v :
  inherited_member key = Some v -> exists c r, key = String c r /\ capital_head c = false.
Proof.
  unfold inherited_member.
  destruct (String.eqb_spec key "__proto__") as [->|_]; [eauto|].
  destruct (String.eqb_spec key "constructor") as [->|_]; [eauto|].
  destruct (existsb _ _) eqn:E; [|discriminate]. intros _.
  apply existsb_exists in E as [k [Hin Hk%String.eqb_eq]]. subst k.
  repeat (destruct Hin as [<-|Hin]; [now eauto|]). destruct Hin.
Qed.

(** A title-cased product name finds no member of [Object.prototype]. *)
Lemma inherited_member_productName now item r :
  normalize now item = Ok r -> inherited_member (productName r) = None.
Proof.
  unfold normalize. intros H. inv_res. simpl.
  destruct (String.eqb _ "") eqn:E; [reflexivity|].
  destruct (inherited_member _) eqn:Hm; [|reflexivity].
  destruct (inherited_member_head _ _ Hm) as [c [r' [Hs Hc]]].
  rewrite (toTitleCase_head _ _ _ Hs) in Hc. discriminate.
Qed.

Lemma normalize_fields now item r :
  normalize now item = Ok r ->
  currency r = "GHS" /\ source r = "API Ninjas" /\ price r = price_in_ghs (usdPrice r).
Proof. unfold normalize. intros H. inv_res. simpl. auto. Qed.

Lemma normalize_location now item r :
  normalize now item = Ok r -> exists s, to_string (location r) = Ok s.
Proof. unfold normalize. intros H. inv_res. simpl. eapply getExchangeLocation_to_string. eassumption. Qed.

Lemma mkfin_gt0_inv (q : Q) : num_gt (mkfin q) (Fin 0) = true -> (0 < q)%Q.
Proof.
  unfold mkfin, num_gt.
  destruct (Qle_bool overflow_bound (Qabs q)).
  - destruct (Qltb 0 q) eqn:E; simpl; [intros _; apply Qltb_spec; exact E | discriminate].
  - intros H%Qltb_spec. destruct (Qlt_le_dec 0 q) as [|Hle]; [assumption|].
    apply round64_nonpos in Hle. lra.
Qed.

(** A positive GHS price comes from a positive USD price. *)
Lemma price_in_ghs_pos u :
  num_gt (price_in_ghs u) (Fin 0) = true ->
  (exists x, u = Fin x /\ 0 < x /\ price_in_ghs u = mkfin (x * (31 # 2)))%Q
  \/ (u = PosInf /\ price_in_ghs u = PosInf).
Proof.
  destruct u as [| | |x]; simpl; try discriminate.
  - intros _. right. split; reflexivity.
  - intros H. left. exists x. split; [reflexivity|]. split; [|reflexivity].
    apply mkfin_gt0_inv in H. lra.
Qed.

Lemma kept_row_wf now item r :
  normalize now item = Ok r -> keep_row r = true -> row_wf r.
Proof.
  intros Hn Hk. destruct (normalize_fields _ _ _ Hn) as [Hc [Hs Hp]].
  unfold keep_row in Hk. apply andb_prop in Hk as [Hname Hgt].
  rewrite Bool.negb_true_iff, String.eqb_neq in Hname.
  repeat split; try assumption; [|exact (normalize_location _ _ _ Hn)].
  unfold conversion_ok. rewrite Hp in *.
  destruct (price_in_ghs_pos _ Hgt) as [[x [Hx [Hpos Hm]]]|[Hx Hm]].
  - left. exists x. rewrite Hx in *. auto.
  - right. rewrite Hx in *. auto.
Qed.

(** The numeric price of a row is the one read from the quote. *)
Lemma normalize_price_source now item r p :
  normalize now item = Ok r -> get_prop item "price" = Ok p ->
  numeric_price p = Ok (usdPrice r).
Proof.
  unfold normalize. intros H Hp. inv_res. simpl. congruence.
Qed.

(** The date of a row is the date part of [toISOString] of the quote's
    time or of [now]. *)
Lemma updated_date_range now u t :
  updated_date now u = Ok (Some t) -> t = now \/ Z.abs t <= max_time.
Proof.
  unfold updated_date. destruct (truthy u).
  - destruct (to_number u); simpl; [|discriminate].
    intros [= H]. right. exact (time_clip_range _ _ H).
  - intros [= ->]. now left.
Qed.

Lemma normalize_date now item r :
  normalize now item = Ok r ->
  exists t, (t = now \/ Z.abs t <= max_time) /\ date r = split_T_first (iso_string t).
Proof.
  unfold normalize. intros H. inv_res.
  match goal with Hu : updated_date now _ = Ok ?d, Hi : to_iso_string ?d = Ok _ |- _ =>
    destruct d as [t|]; [injection Hi as <-|discriminate];
    exists t; split; [exact (updated_date_range _ _ _ Hu)|reflexivity] end.
Qed.

(** The date of a row made at a valid time [now] reads back as UTC
    midnight of a valid day. *)
Lemma normalize_date_parses now item r :
  normalize now item = Ok r -> Z.abs now <= max_time ->
  exists t, Z.abs t <= max_time /\ parse_iso_date (date r) = Some (t / msPerDay * msPerDay).
Proof.
  intros H Hnow. destruct (normalize_date _ _ _ H) as [t [Ht ->]].
  assert (Z.abs t <= max_time) by (destruct Ht; subst; auto).
  exists t. split; [assumption|]. now apply iso_date_parses.
Qed.

(** The rows of a successful load are the kept normalised quotes. *)
Lemma loadFromNewAPI_Ok api now rows :
  loadFromNewAPI api now = Ok rows ->
  exists all, map_res (normalize now) (fulfilled_values (settle_all api defaultCommodities)) = Ok all
              /\ rows = filter keep_row all.
Proof.
  unfold loadFromNewAPI. cbv zeta.
  destruct (fulfilled_values _) as [|i rest]; [discriminate|].
  intros H. inv_res. eauto.
Qed.

Lemma loadFromNewAPI_row_wf api now rows r :
  loadFromNewAPI api now = Ok rows -> In r rows -> row_wf r.
Proof.
  intros [all [Hall ->]]%loadFromNewAPI_Ok [Hin Hk]%filter_In.
  destruct (map_res_In _ _ _ _ Hall Hin) as [item [_ Hn]].
  eapply kept_row_wf; eassumption.
Qed.

(** A date the table can sort and show: it reads back as UTC midnight of
    a valid day. *)
Definition date_ok (d : string) : Prop :=
  exists t, Z.abs t <= max_time /\ parse_iso_date d = Some (t / msPerDay * msPerDay).

Lemma loadFromNewAPI_row_date api now rows r :
  loadFromNewAPI api now = Ok rows -> Z.abs now <= max_time -> In r rows -> date_ok (date r).
Proof.
  intros [all [Hall ->]]%loadFromNewAPI_Ok Hnow [Hin _]%filter_In.
  destruct (map_res_In _ _ _ _ Hall Hin) as [item [_ Hn]].
  exact (normalize_date_parses _ _ _ Hn Hnow).
Qed.

Lemma date_ok_value d : date_ok d -> num_ok (date_value d).
Proof. intros [t [_ H]]. unfold date_value. rewrite H. apply on_grid_int. Qed.

(** ** Properties of the load *)

(** C1: every row [loadFromNewAPI] stores in [this.data] has a real name,
    a positive GHS price that is its positive USD price times 15.5, the
    currency GHS and the source label. *)
Theorem loadFromNewAPI_rows_wf api now rows :
  loadFromNewAPI api now = Ok rows -> Forall row_wf rows.
Proof. intros H. apply Forall_forall. intros r. exact (loadFromNewAPI_row_wf _ _ _ r H). Qed.

(** C18: at a valid current time, every row [loadFromNewAPI] stores has a
    date-only string that reads back as UTC midnight of a valid day: the
    date sort and the date column never meet an invalid date. *)
Theorem loadFromNewAPI_dates_ok api now rows :
  loadFromNewAPI api now = Ok rows -> Z.abs now <= max_time -> Forall (fun r => date_ok (date r)) rows.
Proof. intros H Hnow. apply Forall_forall. intros r. exact (loadFromNewAPI_row_date _ _ _ r H Hnow). Qed.

(** C21: a USD price whose product with 15.5 lies inside the range of
    doubles is converted by one rounded multiplication: the GHS price is
    the double nearest to the USD price times 15.5, equal to that
    product within floating-point tolerance (2^-53 of it, or 2^-1075
    below the normal range). *)
Theorem normalize_price_conversion now item r u :
  normalize now item = Ok r -> usdPrice r = Fin u ->
  (Qabs (u * (31 # 2)) < overflow_bound)%Q ->
  price r = Fin (round64 (u * (31 # 2))) /\
  (Qabs (round64 (u * (31 # 2)) - u * (31 # 2)) <= (1 # 2) ^ 53 * Qabs (u * (31 # 2)) + (1 # 2) ^ 1075)%Q.
Proof.
  intros Hn Hu Hhi. split; [|apply round64_abs_error].
  destruct (normalize_fields _ _ _ Hn) as [_ [_ ->]].
  rewrite Hu. apply mkfin_in_range; assumption.
Qed.

(** A quote whose price is missing or not numeric ([numeric_price]
    gives [NaN]) yields a row the filter drops. *)
Theorem normalize_non_numeric_price_dropped now item r p :
  normalize now item = Ok r -> get_prop item "price" = Ok p ->
  numeric_price p = Ok NaN -> keep_row r = false.
Proof.
  intros Hn Hp Hnan. pose proof (normalize_price_source _ _ _ _ Hn Hp) as Hs.
  rewrite Hnan in Hs. injection Hs as Hs.
  destruct (normalize_fields _ _ _ Hn) as [_ [_ Hprice]].
  unfold keep_row. rewrite Hprice, <- Hs. simpl. apply Bool.andb_false_r.
Qed.

(** When every request fails, the load throws the one error the user
    sees. *)
Theorem loadFromNewAPI_all_failed api now :
  (forall n, In n defaultCommodities -> request_failed (api n)) ->
  loadFromNewAPI api now = Throw (Error "No commodity prices available from API.").
Proof.
  intros H. unfold loadFromNewAPI. cbv zeta. rewrite fetch_all_failed by exact H.
  reflexivity.
Qed.

(** C27: when quotes arrive but none survives normalisation, the load does
    not throw: it stores an empty table. *)
Theorem loadFromNewAPI_no_valid_rows_no_error api now :
  fulfilled_values (settle_all api defaultCommodities) <> [] ->
  (forall item, In item (fulfilled_values (settle_all api defaultCommodities)) ->
     exists r, normalize now item = Ok r /\ keep_row r = false) ->
  loadFromNewAPI api now = Ok [].
Proof.
  intros Hne Hall. unfold loadFromNewAPI. cbv zeta.
  destruct (map_res_total (normalize now) (fun r => keep_row r = false) _ Hall)
    as [rows [Hrows Hk]].
  destruct (fulfilled_values _) as [|i rest]; [contradiction|].
  rewrite Hrows. simpl. f_equal. apply filter_all_false. exact Hk.
Qed.

(** C26: the first quote whose normalisation throws (an invalid
    [updated] timestamp, an object with a [toString] key) aborts the whole
    load, however many other quotes were good. *)
Theorem loadFromNewAPI_throw_aborts api now l1 item l2 e :
  fulfilled_values (settle_all api defaultCommodities) = (l1 ++ item :: l2)%list ->
  (forall x, In x l1 -> exists r, normalize now x = Ok r) ->
  normalize now item = Throw e ->
  loadFromNewAPI api now = Throw e.
Proof.
  intros Hitems Hl1 He. unfold loadFromNewAPI. cbv zeta. rewrite Hitems.
  rewrite (map_res_Throw _ _ _ _ _ Hl1 He).
  destruct l1; reflexivity.
Qed.

(** A string exchange code gives a string location, unless the code
    names a member of [Object.prototype]. *)
Theorem getExchangeLocation_string_code code :
  inherited_member code = None ->
  exists l, getExchangeLocation (JString code) = Ok (JString l).
Proof.
  intros H. unfold getExchangeLocation. cbn [bind to_string].
  destruct (assoc code exchangeLocations) as [l|]; [eauto|].
  rewrite H. eauto.
Qed.


(** ** Concrete runs *)

Definition corn_quote : jsval :=
  JObject [("name", JString "corn"); ("exchange", JString "CBOT");
           ("updated", JNumber (Fin 1700000000)); ("price", JNumber (Fin (9 # 2)))].

(** The API of the scenario: corn is quoted, every other request fails. *)
Definition corn_api : Api :=
  fun n => if String.eqb n "corn" then HttpResponse true (Some (JArray [corn_quote]))
           else NetworkError.

Definition corn_row : row :=
  {| productName := "Corn"; price := Fin (279 # 4); currency := "GHS";
     location := JString "Chicago, Illinois"; date := "2023-11-14";
     source := "API Ninjas"; usdPrice := Fin (9 # 2) |}.

(** The scenario of the specification: a corn quote of 4.5 USD on
    CBOT updated at 1700000000 becomes the row "Corn", 69.75 GHS, Chicago,
    2023-11-14. *)
Theorem loadFromNewAPI_corn_scenario now :
  loadFromNewAPI corn_api now = Ok [corn_row].
Proof. vm_compute. reflexivity. Qed.

Lemma loadFromNewAPI_dates_ok_witness : Forall (fun r => date_ok (date r)) [corn_row].
Proof. apply (loadFromNewAPI_dates_ok corn_api 0); [vm_compute; reflexivity|unfold max_time; lia]. Defined.

Lemma loadFromNewAPI_rows_wf_witness : Forall row_wf [corn_row].
Proof. apply (loadFromNewAPI_rows_wf corn_api 0). vm_compute. reflexivity. Defined.

Lemma normalize_price_conversion_witness : price corn_row = Fin (279 # 4).
Proof.
  rewrite (proj1 (normalize_price_conversion 0 corn_quote corn_row (9 # 2)
                    ltac:(vm_compute; reflexivity) ltac:(vm_compute; reflexivity)
                    ltac:(vm_compute; reflexivity))).
  vm_compute. reflexivity.
Defined.

Definition na_quote : jsval :=
  JObject [("name", JString "corn"); ("exchange", JString "CBOT");
           ("updated", JNumber (Fin 1700000000)); ("price", JString "N/A")].

Definition na_row : row :=
  {| productName := "Corn"; price := Fin 0; currency := "GHS";
     location := JString "Chicago, Illinois"; date := "2023-11-14";
     source := "API Ninjas"; usdPrice := NaN |}.

Lemma normalize_non_numeric_price_dropped_witness : keep_row na_row = false.
Proof.
  apply (normalize_non_numeric_price_dropped 0 na_quote na_row (JString "N/A"));
    vm_compute; reflexivity.
Defined.

Lemma loadFromNewAPI_all_failed_witness :
  loadFromNewAPI (fun _ => NetworkError) 0
  = Throw (Error "No commodity prices available from API.").
Proof. apply loadFromNewAPI_all_failed. intros n _. left. reflexivity. Defined.

Definition na_api : Api :=
  fun n => if String.eqb n "corn" then HttpResponse true (Some na_quote) else NetworkError.

Lemma loadFromNewAPI_no_valid_rows_no_error_witness :
  loadFromNewAPI na_api 0 = Ok [].
Proof.
  apply loadFromNewAPI_no_valid_rows_no_error.
  - vm_compute. discriminate.
  - intros item Hin. vm_compute in Hin. destruct Hin as [<-|[]].
    exists na_row. split; vm_compute; reflexivity.
Defined.

(** A wheat quote whose [updated] field is not a timestamp. *)
Definition bad_date_quote : jsval :=
  JObject [("name", JString "wheat"); ("exchange", JString "CBOT");
           ("updated", JString "yesterday"); ("price", JNumber (Fin 6))].

Definition bad_date_api : Api :=
  fun n => if String.eqb n "corn" then HttpResponse true (Some corn_quote)
           else if String.eqb n "wheat" then HttpResponse true (Some bad_date_quote)
           else NetworkError.

Lemma loadFromNewAPI_throw_aborts_witness :
  loadFromNewAPI bad_date_api 0 = Throw (RangeError "Invalid time value").
Proof.
  apply (loadFromNewAPI_throw_aborts bad_date_api 0 [corn_quote] bad_date_quote []).
  - vm_compute. reflexivity.
  - intros x [<-|[]]. exists corn_row. vm_compute. reflexivity.
  - vm_compute. reflexivity.
Defined.

Lemma getExchangeLocation_string_code_witness :
  exists l, getExchangeLocation (JString "CBOT") = Ok (JString l).
Proof. apply getExchangeLocation_string_code. vm_compute. reflexivity. Defined.

(** An exchange code that names a member of [Object.prototype] gives
    the row a location that is a function, not a string. *)
Theorem normalize_prototype_exchange now :
  option_map location
    (match normalize now (JObject [("name", JString "gold"); ("exchange", JString "constructor");
                                  ("updated", JNumber (Fin 1700000000)); ("price", JNumber (Fin 2000))])
     with Ok r => Some r | Throw _ => None end)
  = Some (JFunction "Object").
Proof. vm_compute. reflexivity. Qed.
