(* ===== verification/StableSort.v ===== *)
(** * [Array.prototype.sort] with a comparator

    ECMA-262 leaves the algorithm of [Array.prototype.sort] to the engine
    but requires it to be stable, and, for a consistent comparator, the
    result is then determined: it is the unique permutation that is sorted
    and keeps the input order of equivalent elements
    ([stable_sort_unique]).  The model computes that result by insertion
    sort ([sort]); [sort_is_stable_sort] and [stable_sort_unique] together
    are the refinement: any engine's stable sort (V8's TimSort included)
    returns [sort cmp l].

    A comparator returns a number; [x] must come after [y] when
    [cmp x y > 0] ([NaN] reads as [0]).  Consistency is required only on
    the elements the program sorts ([ok]): the comparators of [sortData]
    subtract prices or dates, which is consistent on rows whose price and
    date are numbers. *)

From Stdlib Require Import List Sorted Permutation Bool QArith.
From S2P Require Import Prelude JsNum.
Import ListNotations.

(** ** List lemmas on permutations and sortedness *)

Lemma Permutation_filter_compat {A} (p : A -> bool) l l' :
  Permutation l l' -> Permutation (filter p l) (filter p l').
Proof.
  induction 1 as [|x l l' _ IH|x y l|l l' l'' _ IH1 _ IH2]; simpl.
  - constructor.
  - destruct (p x); [apply perm_skip|]; exact IH.
  - destruct (p x), (p y); try constructor; reflexivity.
  - etransitivity; eassumption.
Qed.

Lemma StronglySorted_filter {A} (R : A -> A -> Prop) (p : A -> bool) l :
  StronglySorted R l -> StronglySorted R (filter p l).
Proof.
  induction 1 as [|a l _ IH Ha]; simpl; [constructor|].
  destruct (p a); [|exact IH]. constructor; [exact IH|].
  rewrite Forall_forall in Ha |- *. intros x Hx. apply filter_In in Hx as [Hx _]. auto.
Qed.

Lemma StronglySorted_app {A} (R : A -> A -> Prop) l1 l2 :
  StronglySorted R l1 -> StronglySorted R l2 ->
  (forall x y, In x l1 -> In y l2 -> R x y) -> StronglySorted R (l1 ++ l2).
Proof.
  induction 1 as [|a l1 _ IH Ha]; intros H2 H; simpl; [exact H2|].
  constructor; [apply IH; auto; intros x y Hx Hy; apply H; [right|]; auto|].
  apply Forall_app. split; [exact Ha|].
  apply Forall_forall. intros y Hy. apply H; [left|]; auto.
Qed.

Lemma StronglySorted_rev {A} (R : A -> A -> Prop) l :
  StronglySorted R l -> StronglySorted (fun a b => R b a) (rev l).
Proof.
  induction 1 as [|a l _ IH Ha]; simpl; [constructor|].
  apply StronglySorted_app; [exact IH | repeat constructor|].
  intros x y Hx [<-|[]]. rewrite <- in_rev in Hx. rewrite Forall_forall in Ha. auto.
Qed.

Lemma StronglySorted_impl_in {A} (R R' : A -> A -> Prop) l :
  (forall a b, In a l -> In b l -> R a b -> R' a b) ->
  StronglySorted R l -> StronglySorted R' l.
Proof.
  intros H Hs. induction Hs as [|a l _ IH Ha]; constructor.
  - apply IH. intros x y Hx Hy. apply H; right; assumption.
  - rewrite Forall_forall in Ha |- *. intros x Hx. apply H; [left; reflexivity|right|]; auto.
Qed.

Section StableSort.
Context {A : Type} (cmp : A -> A -> num).

(** [a] must be placed after [b]. *)
Definition cmp_gt (a b : A) : bool := num_gt (cmp a b) (Fin 0%Q).

(** [a] may stay before [b]. *)
Definition cmp_le (a b : A) : bool := negb (cmp_gt a b).

(** Neither must follow the other. *)
Definition cmp_equiv (a b : A) : bool := cmp_le a b && cmp_le b a.

(** Insert [x] after every element it need not precede. *)
Fixpoint insert (x : A) (l : list A) : list A :=
  match l with
  | [] => [x]
  | y :: ys => if cmp_gt y x then x :: y :: ys else y :: insert x ys
  end.

(** The stable sort of [l]. *)
Definition sort (l : list A) : list A := fold_left (fun acc x => insert x acc) l [].

(** ** Consistency on the sorted elements *)

Context (ok : A -> Prop).
Hypothesis le_total : forall a b, ok a -> ok b -> cmp_le a b = true \/ cmp_le b a = true.
Hypothesis le_trans : forall a b c, ok a -> ok b -> ok c ->
  cmp_le a b = true -> cmp_le b c = true -> cmp_le a c = true.

Local Abbreviation sorted := (StronglySorted (fun a b => cmp_le a b = true)).

Lemma le_refl a : ok a -> cmp_le a a = true.
Proof. intros Ha. destruct (le_total a a Ha Ha); assumption. Qed.

Lemma gt_le a b : ok a -> ok b -> cmp_gt a b = true -> cmp_le b a = true.
Proof.
  intros Ha Hb H. destruct (le_total a b Ha Hb) as [E|E]; [|exact E].
  unfold cmp_le in E. rewrite H in E. discriminate.
Qed.

Lemma equiv_trans a b c : ok a -> ok b -> ok c ->
  cmp_equiv a b = true -> cmp_equiv b c = true -> cmp_equiv a c = true.
Proof.
  unfold cmp_equiv. intros Ha Hb Hc [H1 H2]%andb_prop [H3 H4]%andb_prop.
  apply andb_true_intro. split; eapply le_trans; eauto.
Qed.

Lemma equiv_sym a b : cmp_equiv a b = cmp_equiv b a.
Proof. unfold cmp_equiv. apply andb_comm. Qed.

(** An element that must follow [y] is not equivalent to anything
    equivalent to [y]. *)
Lemma gt_not_equiv x y z : ok x -> ok y -> ok z ->
  cmp_equiv x y = true -> cmp_gt z y = true -> cmp_equiv x z = false.
Proof.
  intros Hx Hy Hz Hxy Hzy. destruct (cmp_equiv x z) eqn:Hxz; [|reflexivity].
  rewrite equiv_sym in Hxz. pose proof (equiv_trans _ _ _ Hz Hx Hy Hxz Hxy) as Hzy'.
  unfold cmp_equiv, cmp_le in Hzy'. rewrite Hzy in Hzy'. discriminate.
Qed.

Lemma gt_of_le_gt z w y : ok z -> ok w -> ok y ->
  cmp_le z w = true -> cmp_gt z y = true -> cmp_gt w y = true.
Proof.
  intros Hz Hw Hy Hzw Hzy. destruct (cmp_gt w y) eqn:E; [reflexivity|].
  assert (Hwy : cmp_le w y = true) by (unfold cmp_le; rewrite E; reflexivity).
  pose proof (le_trans _ _ _ Hz Hw Hy Hzw Hwy) as Hzy'.
  unfold cmp_le in Hzy'. rewrite Hzy in Hzy'. discriminate.
Qed.

Lemma insert_perm x l : Permutation (x :: l) (insert x l).
Proof.
  induction l as [|y l IH]; simpl; [reflexivity|].
  destruct (cmp_gt y x); [reflexivity|].
  transitivity (y :: x :: l); [apply perm_swap | apply perm_skip, IH].
Qed.

Lemma insert_sorted x l : ok x -> Forall ok l -> sorted l -> sorted (insert x l).
Proof.
  intros Hx Hl Hs. revert Hl. induction Hs as [|y l Hs IH Hy]; intros Hl; simpl.
  - repeat constructor.
  - apply Forall_cons_iff in Hl as [Hyok Hlok].
    destruct (cmp_gt y x) eqn:E.
    + apply SSorted_cons; [apply SSorted_cons; assumption|].
      constructor; [apply gt_le; assumption|].
      rewrite Forall_forall in Hy, Hlok |- *. intros z Hz.
      apply (le_trans x y z); auto. apply gt_le; assumption.
    + apply SSorted_cons; [apply IH; exact Hlok|].
      rewrite Forall_forall in Hy |- *. intros z Hz.
      apply (Permutation_in _ (Permutation_sym (insert_perm x l))) in Hz.
      destruct Hz as [<-|Hz]; [unfold cmp_le; rewrite E; reflexivity | auto].
Qed.

Lemma sort_snoc l y : sort (l ++ [y]) = insert y (sort l).
Proof. unfold sort. rewrite fold_left_app. reflexivity. Qed.

Lemma sort_perm l : Permutation l (sort l).
Proof.
  induction l as [|y l IH] using rev_ind; [reflexivity|].
  rewrite sort_snoc, <- insert_perm.
  transitivity (y :: l); [apply Permutation_sym, Permutation_cons_append | apply perm_skip, IH].
Qed.

Lemma Forall_perm {B} (P : B -> Prop) l l' : Permutation l l' -> Forall P l -> Forall P l'.
Proof.
  intros Hp. rewrite !Forall_forall. intros H x Hx.
  apply H. eapply Permutation_in; [apply Permutation_sym, Hp | exact Hx].
Qed.

Lemma sort_sorted l : Forall ok l -> sorted (sort l).
Proof.
  induction l as [|y l IH] using rev_ind; intros Hl; [constructor|].
  apply Forall_app in Hl as [Hl Hy]. inversion Hy; subst.
  rewrite sort_snoc. apply insert_sorted; auto.
  eapply Forall_perm; [apply sort_perm | exact Hl].
Qed.

(** Inserting [y] puts it after every element equivalent to it. *)
Lemma insert_filter x y l : ok x -> ok y -> Forall ok l -> sorted l ->
  filter (cmp_equiv x) (insert y l) = filter (cmp_equiv x) l ++ filter (cmp_equiv x) [y].
Proof.
  intros Hx Hy Hl Hs. revert Hl. induction Hs as [|z l Hs IH Hz]; intros Hl; simpl;
    [reflexivity|].
  apply Forall_cons_iff in Hl as [Hzok Hlok].
  destruct (cmp_gt z y) eqn:E; simpl.
  - destruct (cmp_equiv x y) eqn:Exy; [|now rewrite app_nil_r].
    rewrite (gt_not_equiv x y z Hx Hy Hzok Exy E), filter_all_false; [reflexivity|].
    rewrite Forall_forall in Hz, Hlok |- *. intros w Hw.
    apply (gt_not_equiv x y w); auto. apply (gt_of_le_gt z w y); auto.
  - destruct (cmp_equiv x z); simpl; rewrite IH by exact Hlok; reflexivity.
Qed.

Lemma sort_stable l x : ok x -> Forall ok l ->
  filter (cmp_equiv x) (sort l) = filter (cmp_equiv x) l.
Proof.
  intros Hx. induction l as [|y l IH] using rev_ind; intros Hl; [reflexivity|].
  apply Forall_app in Hl as [Hl Hy]. inversion Hy; subst.
  rewrite sort_snoc, insert_filter, IH, filter_app; auto.
  - eapply Forall_perm; [apply sort_perm | exact Hl].
  - apply sort_sorted. exact Hl.
Qed.

(** The specification of a stable sort. *)
Definition is_stable_sort (l l' : list A) : Prop :=
  Permutation l l' /\ sorted l'
  /\ forall x, ok x -> filter (cmp_equiv x) l' = filter (cmp_equiv x) l.

Lemma in_filter_self x l : ok x -> In x l -> In x (filter (cmp_equiv x) l).
Proof.
  intros Hx Hin. apply filter_In. split; [exact Hin|].
  unfold cmp_equiv. rewrite le_refl by exact Hx. reflexivity.
Qed.

(** A sorted list is determined by its classes of equivalent elements. *)
Lemma sorted_classes_eq l1 l2 : Forall ok l1 -> Forall ok l2 -> sorted l1 -> sorted l2 ->
  (forall x, ok x -> filter (cmp_equiv x) l1 = filter (cmp_equiv x) l2) -> l1 = l2.
Proof.
  intros Hok1. revert l2.
  induction Hok1 as [|a l1 Ha Hok1 IH]; intros l2 Hok2 Hs1 Hs2 H.
  - destruct Hok2 as [|b l2 Hb _]; [reflexivity|].
    pose proof (in_filter_self b (b :: l2) Hb (or_introl eq_refl)) as Hin.
    rewrite <- H in Hin by exact Hb. destruct Hin.
  - destruct Hok2 as [|b l2 Hb Hok2].
    { pose proof (in_filter_self a (a :: l1) Ha (or_introl eq_refl)) as Hin.
      rewrite H in Hin by exact Ha. destruct Hin. }
    apply StronglySorted_inv in Hs1 as [Hs1 Hf1]. apply StronglySorted_inv in Hs2 as [Hs2 Hf2].
    rewrite Forall_forall in Hf1, Hf2.
    assert (Hab : cmp_le a b = true).
    { pose proof (in_filter_self b (b :: l2) Hb (or_introl eq_refl)) as Hin.
      rewrite <- H in Hin by exact Hb. apply filter_In in Hin as [[<-|Hin] _].
      - apply le_refl; exact Ha.
      - apply Hf1; exact Hin. }
    assert (Hba : cmp_le b a = true).
    { pose proof (in_filter_self a (a :: l1) Ha (or_introl eq_refl)) as Hin.
      rewrite H in Hin by exact Ha. apply filter_In in Hin as [[->|Hin] _].
      - apply le_refl; exact Ha.
      - apply Hf2; exact Hin. }
    assert (Heq : cmp_equiv a b = true) by (unfold cmp_equiv; rewrite Hab, Hba; reflexivity).
    pose proof (H a Ha) as Hclass. simpl in Hclass.
    rewrite Heq in Hclass. unfold cmp_equiv at 1 in Hclass.
    rewrite le_refl in Hclass by exact Ha. simpl in Hclass.
    injection Hclass as <- _.
    f_equal. apply IH; auto. intros x Hx. specialize (H x Hx). simpl in H.
    destruct (cmp_equiv x a); [injection H as H|]; exact H.
Qed.

(** [sort] meets the specification of a stable sort. *)
Lemma sort_is_stable_sort l : Forall ok l -> is_stable_sort l (sort l).
Proof.
  intros Hl. split; [apply sort_perm|]. split; [apply sort_sorted; exact Hl|].
  intros x Hx. apply sort_stable; assumption.
Qed.

(** Refinement: every stable sort of [l] is [sort l]. *)
Theorem stable_sort_unique l l' : Forall ok l -> is_stable_sort l l' -> l' = sort l.
Proof.
  intros Hl [Hp [Hs Hf]]. apply sorted_classes_eq; auto.
  - eapply Forall_perm; eassumption.
  - eapply Forall_perm; [apply sort_perm | exact Hl].
  - apply sort_sorted; exact Hl.
  - intros x Hx. rewrite Hf, sort_stable by assumption. reflexivity.
Qed.

(** Sorting a sorted list changes nothing. *)
Lemma sort_idem l : Forall ok l -> sort (sort l) = sort l.
Proof.
  intros Hl. assert (Hs : Forall ok (sort l)) by (eapply Forall_perm; [apply sort_perm | exact Hl]).
  symmetry. apply stable_sort_unique; [exact Hs|].
  split; [reflexivity|]. split; [apply sort_sorted; exact Hl | reflexivity].
Qed.

(** Filtering commutes with the stable sort. *)
Lemma filter_sort (p : A -> bool) l : Forall ok l -> filter p (sort l) = sort (filter p l).
Proof.
  intros Hl. assert (Hs : Forall ok (sort l)) by (eapply Forall_perm; [apply sort_perm | exact Hl]).
  apply stable_sort_unique.
  - rewrite Forall_forall in Hl |- *. intros x Hx. apply filter_In in Hx as [Hx _]. auto.
  - split; [apply Permutation_filter_compat, sort_perm|].
    split; [apply StronglySorted_filter, sort_sorted; exact Hl|].
    intros x Hx. rewrite filter_comm, sort_stable, filter_comm by assumption. reflexivity.
Qed.

End StableSort.

(** ** Sorting through a projection *)

(** Sorting values by a comparator on their images [f a] and taking
    the images is sorting the images. *)
Lemma insert_map {A B} (cmp : B -> B -> num) (f : A -> B) x l :
  map f (insert (fun a b => cmp (f a) (f b)) x l) = insert cmp (f x) (map f l).
Proof.
  induction l as [|y l IH]; simpl; [reflexivity|]. unfold cmp_gt.
  destruct (num_gt (cmp (f y) (f x)) (Fin 0)); simpl; [reflexivity|]. now rewrite IH.
Qed.

Lemma sort_map {A B} (cmp : B -> B -> num) (f : A -> B) l :
  map f (sort (fun a b => cmp (f a) (f b)) l) = sort cmp (map f l).
Proof.
  unfold sort. change (@nil B) with (map f (@nil A)). generalize (@nil A) as acc.
  induction l as [|x l IH]; intros acc; simpl; [reflexivity|]. now rewrite IH, insert_map.
Qed.

(** ** Consistent comparators *)

(** A comparator is consistent on the elements satisfying [ok]: the order
    it induces is a total preorder there. *)
Definition consistent {A} (cmp : A -> A -> num) (ok : A -> Prop) : Prop :=
  (forall a b, ok a -> ok b -> cmp_le cmp a b = true \/ cmp_le cmp b a = true)
  /\ (forall a b c, ok a -> ok b -> ok c ->
       cmp_le cmp a b = true -> cmp_le cmp b c = true -> cmp_le cmp a c = true).

(** Comparing keys [f a] and [f b] with a consistent comparator. *)
Lemma consistent_map {A B} (cmp : B -> B -> num) (ok : B -> Prop) (f : A -> B) :
  consistent cmp ok -> consistent (fun a b => cmp (f a) (f b)) (fun a => ok (f a)).
Proof.
  intros [Ht Htr]. split; intros *; unfold cmp_le, cmp_gt; [apply Ht | apply Htr].
Qed.

(** ** Swapping the comparator's arguments *)

(** [(a, b) => cmp(b, a)]: [b.price - a.price] is the swap of
    [a.price - b.price]. *)
Definition flip_cmp {A} (cmp : A -> A -> num) : A -> A -> num := fun a b => cmp b a.

Lemma cmp_equiv_flip {A} (cmp : A -> A -> num) x a :
  cmp_equiv (flip_cmp cmp) x a = cmp_equiv cmp x a.
Proof. unfold cmp_equiv, cmp_le, cmp_gt, flip_cmp. apply andb_comm. Qed.

Lemma consistent_flip {A} (cmp : A -> A -> num) ok :
  consistent cmp ok -> consistent (flip_cmp cmp) ok.
Proof.
  intros [Ht Htr]. split.
  - intros a b Ha Hb. destruct (Ht b a Hb Ha); auto.
  - intros a b c Ha Hb Hc H1 H2. apply (Htr c b a); auto.
Qed.

(** Sorting with the swapped comparator is reversing the sort of the
    reversed list: equivalent elements keep their input order in both. *)
Lemma sort_flip_rev {A} (cmp : A -> A -> num) (ok : A -> Prop)
  (le_total : forall a b, ok a -> ok b -> cmp_le cmp a b = true \/ cmp_le cmp b a = true)
  (le_trans : forall a b c, ok a -> ok b -> ok c ->
     cmp_le cmp a b = true -> cmp_le cmp b c = true -> cmp_le cmp a c = true)
  l : Forall ok l -> sort (flip_cmp cmp) l = rev (sort cmp (rev l)).
Proof.
  intros Hl. assert (Hr : Forall ok (rev l)) by (apply Forall_rev; exact Hl).
  symmetry. apply (stable_sort_unique (flip_cmp cmp) ok); auto.
  - intros a b Ha Hb. destruct (le_total b a Hb Ha); auto.
  - intros a b c Ha Hb Hc H1 H2. apply (le_trans c b a); auto.
  - split; [|split].
    + rewrite <- (rev_involutive l) at 1. apply Permutation_rev', sort_perm.
    + apply (StronglySorted_rev (fun a b => cmp_le cmp a b = true)).
      apply (sort_sorted cmp ok le_total le_trans). exact Hr.
    + intros x Hx. rewrite !(filter_ext _ _ (cmp_equiv_flip cmp x)).
      rewrite filter_rev, (sort_stable cmp ok le_total le_trans), filter_rev, rev_involutive
        by assumption.
      reflexivity.
Qed.
