(* ===== verification/FilterSort.v ===== *)
(** * The filter/sort engine: [applyFilters] and [sortData]

    [applyFilters] (lines 430-454 of [src/script.js]) lower-cases the
    search text, keeps the rows of [this.data] that match the search, the
    commodity select and the location select, and sorts them in place with
    [sortData] (lines 456-472).  Its calls to [renderTable] and
    [updateStats] are modelled with the application state in [App.v].

    The search predicate evaluates [item.location.toLowerCase()] only when
    the name does not already match; on a row whose location is not a
    string (see [Normalizer.getExchangeLocation]) that call throws a
    [TypeError], which [filter_res] propagates.

    [sortData] hands [Array.prototype.sort] one of four comparators;
    [price-high] is [price-low] with its arguments swapped.  The
    comparators that subtract two keys are consistent on rows whose keys
    are numbers ([key_cmp_consistent]). *)

From Stdlib Require Import List String ZArith QArith Sorted Permutation Lia.
From S2P Require Import Prelude JsNum JsValue Text Dates Normalizer StableSort.
Import ListNotations.
Open Scope string_scope.
Open Scope bool_scope.
Open Scope pb_scope.

(** The values [applyFilters] reads from the page: the search input, the
    two selects and the sort select. *)
Record filter_state : Type := mkFilterState {
  searchInput : string;
  cropFilter : string;
  regionFilter : string;
  sortBy : string
}.

(** [item.location === selectedRegion] with [selectedRegion] a string. *)
Definition location_is (loc : jsval) (s : string) : bool :=
  match loc with
  | JString l => String.eqb l s
  | _ => false
  end.

(** The callback of [this.data.filter(item => {...})] (lines 437-446). *)
Definition matches (searchTerm selectedProduct selectedRegion : string) (item : row) : res bool :=
  matchesSearch <-
    (if String.eqb searchTerm "" then Ok true
     else if includes (to_lower (productName item)) searchTerm then Ok true
     else match location item with
          | JString l => Ok (includes (to_lower l) searchTerm)
          | _ => Throw (TypeError "item.location.toLowerCase is not a function")
          end) ;;
  let matchesProduct := String.eqb selectedProduct "" || String.eqb (productName item) selectedProduct in
  let matchesRegion := String.eqb selectedRegion "" || location_is (location item) selectedRegion in
  Ok (matchesSearch && matchesProduct && matchesRegion).

(** The comparators of [sortData]. *)
Definition price_low (a b : row) : num := num_sub (price a) (price b).
Definition price_high (a b : row) : num := num_sub (price b) (price a).
Definition date_desc (a b : row) : num := num_sub (date_value (date b)) (date_value (date a)).

Section WithRuntime.
Context {RT : Runtime}.

Definition by_name (a b : row) : num := num_of_Z (locale_compare (productName a) (productName b)).

(** The [switch (sortBy)] of [sortData]: [date] and any other value sort
    by date, most recent first. *)
Definition comparator (sortBy : string) : row -> row -> num :=
  if String.eqb sortBy "price-low" then price_low
  else if String.eqb sortBy "price-high" then price_high
  else if String.eqb sortBy "name" then by_name
  else date_desc.

(** [sortData(sortBy)] on [this.filteredData]. *)
Definition sortData (sortBy : string) (filteredData : list row) : list row :=
  sort (comparator sortBy) filteredData.

(** [applyFilters()]: the new [this.filteredData], or the exception. *)
Definition applyFilters (data : list row) (st : filter_state) : res (list row) :=
  let searchTerm := to_lower (searchInput st) in
  filteredData <- filter_res (matches searchTerm (cropFilter st) (regionFilter st)) data ;;
  Ok (sortData (sortBy st) filteredData).

(** ** The inclusion predicate of the specification *)

(** The search, product and location conditions, as a total predicate. *)
Definition row_matches (searchTerm selectedProduct selectedRegion : string) (item : row) : bool :=
  (String.eqb searchTerm "" || includes (to_lower (productName item)) searchTerm
   || match location item with JString l => includes (to_lower l) searchTerm | _ => false end)
  && (String.eqb selectedProduct "" || String.eqb (productName item) selectedProduct)
  && (String.eqb selectedRegion "" || location_is (location item) selectedRegion).

Lemma matches_string_location t p g r l :
  location r = JString l -> matches t p g r = Ok (row_matches t p g r).
Proof.
  intros H. unfold matches, row_matches. rewrite H.
  destruct (String.eqb t ""), (includes (to_lower (productName r)) t); reflexivity.
Qed.

Lemma matches_type_error t p g r :
  String.eqb t "" = false -> includes (to_lower (productName r)) t = false ->
  (forall l, location r <> JString l) ->
  matches t p g r = Throw (TypeError "item.location.toLowerCase is not a function").
Proof.
  intros Ht Hi Hl. unfold matches. rewrite Ht, Hi.
  destruct (location r); try reflexivity. exfalso. eapply Hl. reflexivity.
Qed.

Lemma matches_throw_only t p g r e :
  matches t p g r = Throw e -> e = TypeError "item.location.toLowerCase is not a function".
Proof.
  unfold matches. destruct (String.eqb t ""); [discriminate|].
  destruct (includes _ _); [discriminate|].
  destruct (location r); simpl; congruence.
Qed.

(** ** Consistency of the comparators *)

(** Subtracting two number keys is consistent on the elements whose key is
    a double that is not [NaN]. *)
Lemma key_cmp_consistent {A} (key : A -> num) :
  consistent (fun a b => num_sub (key a) (key b)) (fun a => num_ok (key a)).
Proof.
  split; intros *; unfold cmp_le, cmp_gt; intros; rewrite ?num_sub_gt0 in * by assumption.
  - destruct (num_lt (key b) (key a)) eqn:E; [right|left; reflexivity].
    rewrite (num_lt_asym _ _ E). reflexivity.
  - apply Bool.negb_true_iff in H2, H3. apply Bool.negb_true_iff.
    destruct (num_lt (key c) (key a)) eqn:E; [|reflexivity].
    destruct (num_lt_split _ _ _ (num_ok_not_nan _ H0) E); congruence.
Qed.

Lemma price_low_consistent : consistent price_low (fun r => num_ok (price r)).
Proof. exact (key_cmp_consistent price). Qed.

Lemma date_desc_consistent : consistent date_desc (fun r => num_ok (date_value (date r))).
Proof. exact (consistent_flip _ _ (key_cmp_consistent (fun r => date_value (date r)))). Qed.

(** The rows the comparators of [sortData] can order. *)
Definition row_sortable (r : row) : Prop := num_ok (price r) /\ num_ok (date_value (date r)).

Definition row_sortableb (r : row) : bool := num_okb (price r) && num_okb (date_value (date r)).

Lemma row_sortableb_sound l : forallb row_sortableb l = true -> Forall row_sortable l.
Proof.
  intros H. apply Forall_forall. intros r Hr. eapply forallb_forall in H; [|exact Hr].
  apply andb_true_iff in H as [H1 H2]. split; apply num_okb_sound; assumption.
Qed.

Lemma prices_okb_sound l : forallb (fun r => num_okb (price r)) l = true -> Forall (fun r => num_ok (price r)) l.
Proof.
  intros H. apply Forall_forall. intros r Hr. eapply forallb_forall in H; [|exact Hr].
  apply num_okb_sound. exact H.
Qed.

Lemma consistent_weaken {A} (cmp : A -> A -> num) (ok ok' : A -> Prop) :
  (forall a, ok' a -> ok a) -> consistent cmp ok -> consistent cmp ok'.
Proof. intros H [Ht Htr]. split; intros *; eauto. Qed.

(** ** Properties of the engine *)

(** C2: when every location is a string, [applyFilters] returns the rows
    that satisfy the specification's inclusion predicate, sorted by
    [sortData]. *)
Theorem applyFilters_spec data st :
  Forall (fun r => exists l, location r = JString l) data ->
  applyFilters data st
  = Ok (sortData (sortBy st)
          (filter (row_matches (to_lower (searchInput st)) (cropFilter st) (regionFilter st)) data)).
Proof.
  intros H. unfold applyFilters. cbv zeta.
  rewrite (filter_res_ext _ (row_matches (to_lower (searchInput st)) (cropFilter st) (regionFilter st)));
    [reflexivity|].
  intros r Hr. rewrite Forall_forall in H. destruct (H r Hr) as [l Hl].
  apply matches_string_location with (l := l). exact Hl.
Qed.

(** C28: a non-empty search throws a [TypeError] when some row whose name
    does not contain the search text has a location that is not a string. *)
Theorem applyFilters_type_error data st r :
  String.eqb (to_lower (searchInput st)) "" = false -> In r data ->
  includes (to_lower (productName r)) (to_lower (searchInput st)) = false ->
  (forall l, location r <> JString l) ->
  applyFilters data st = Throw (TypeError "item.location.toLowerCase is not a function").
Proof.
  intros Ht Hr Hi Hl. unfold applyFilters. cbv zeta.
  rewrite (filter_res_Throw _ _ r _ Hr (matches_type_error _ _ _ _ Ht Hi Hl)); [reflexivity|].
  intros y e'. apply matches_throw_only.
Qed.

(** [applyFilters] is idempotent: applied to its own output with the
    same inputs it returns that output, when the comparator is consistent
    on the rows. *)
Theorem applyFilters_idempotent data st out :
  consistent (comparator (sortBy st)) row_sortable -> Forall row_sortable data ->
  applyFilters data st = Ok out -> applyFilters out st = Ok out.
Proof.
  intros [Ht Htr] Hd H. unfold applyFilters in *. cbv zeta in *. inv_res.
  destruct (filter_res_Ok _ _ _ Ha) as [Hall ->].
  set (p := matches _ _ _) in *.
  set (kept := filter _ data).
  assert (Hk : Forall row_sortable kept).
  { rewrite Forall_forall in Hd |- *. intros x Hx. apply filter_In in Hx as [Hx _]. auto. }
  rewrite (filter_res_ext p (fun _ => true)).
  - rewrite filter_true_id by reflexivity. cbn [bind]. f_equal.
    apply (sort_idem _ _ Ht Htr _ Hk).
  - intros x Hx. unfold sortData in Hx.
    apply (Permutation_in _ (Permutation_sym (sort_perm _ _))) in Hx.
    apply filter_In in Hx as [Hx Hq]. destruct (Hall x Hx) as [b Hb].
    rewrite Hb in *. subst b. reflexivity.
Qed.

(** C22: sorting by [price-high] is reversing the [price-low] sort of the
    reversed rows: rows of equal price keep their input order in both. *)
Theorem sortData_price_high_rev l :
  Forall (fun r => num_ok (price r)) l ->
  sortData "price-high" l = rev (sortData "price-low" (rev l)).
Proof.
  intros H. unfold sortData.
  change (comparator "price-high") with (flip_cmp price_low).
  change (comparator "price-low") with price_low.
  destruct price_low_consistent as [Ht Htr]. exact (sort_flip_rev price_low _ Ht Htr l H).
Qed.

(** [sortData] is the stable sort of the table for its comparator:
    a list is a stable sort of the rows exactly when it is [sortData]'s
    result, so every engine's [Array.prototype.sort] agrees with it. *)
Theorem sortData_stable_sort_iff k (ok : row -> Prop) l l' :
  consistent (comparator k) ok -> Forall ok l ->
  (is_stable_sort (comparator k) ok l l' <-> l' = sortData k l).
Proof.
  intros [Ht Htr] Hl. split.
  - apply (stable_sort_unique _ _ Ht Htr _ _ Hl).
  - intros ->. apply (sort_is_stable_sort _ _ Ht Htr _ Hl).
Qed.

(** Every comparator but the name one orders rows whose price and date
    are numbers. *)
Lemma comparator_consistent k : k <> "name" -> consistent (comparator k) row_sortable.
Proof.
  intros Hk. unfold comparator.
  destruct (String.eqb_spec k "price-low"); [|destruct (String.eqb_spec k "price-high");
    [|destruct (String.eqb_spec k "name"); [congruence|]]].
  - exact (consistent_weaken _ _ _ (fun r H => proj1 H) price_low_consistent).
  - exact (consistent_weaken _ _ _ (fun r H => proj1 H) (consistent_flip _ _ price_low_consistent)).
  - exact (consistent_weaken _ _ _ (fun r H => proj2 H) date_desc_consistent).
Qed.

Lemma row_wf_price r : row_wf r -> num_ok (price r).
Proof.
  intros (_ & _ & _ & _ & [(u & _ & _ & ->)|(_ & ->)] & _); [apply mkfin_ok|exact I].
Qed.

(** The order the specification gives each key: [price-low] ascending
    prices, [price-high] descending prices, and [date] or any other key
    but [name] the most recent date first.  [sort_key_le k a b]: [a] may
    come before [b]. *)
Definition sort_key_le (sortBy : string) (a b : row) : bool :=
  if String.eqb sortBy "price-low" then negb (num_lt (price b) (price a))
  else if String.eqb sortBy "price-high" then negb (num_lt (price a) (price b))
  else negb (num_lt (date_value (date a)) (date_value (date b))).

(** On numbers, the comparator lets [a] precede [b] exactly when the
    specification's order does. *)
Lemma comparator_le k a b : k <> "name" -> row_sortable a -> row_sortable b ->
  cmp_le (comparator k) a b = sort_key_le k a b.
Proof.
  intros Hk [Hpa Hda] [Hpb Hdb]. unfold comparator, sort_key_le, cmp_le, cmp_gt.
  destruct (String.eqb_spec k "price-low"); [unfold price_low; now rewrite num_sub_gt0|].
  destruct (String.eqb_spec k "price-high"); [unfold price_high; now rewrite num_sub_gt0|].
  destruct (String.eqb_spec k "name"); [congruence|]. unfold date_desc. now rewrite num_sub_gt0.
Qed.

(** C3: [sortData] orders the rows as the specification says: for the
    keys [price-low] (ascending price), [price-high] (descending price)
    and [date] or any other key but [name] (most recent first), the
    result is a permutation of the rows in which every row may precede
    each row after it, provided prices and dates are numbers. *)
Theorem sortData_orders k l :
  k <> "name" -> Forall row_sortable l ->
  Permutation l (sortData k l) /\ StronglySorted (fun a b => sort_key_le k a b = true) (sortData k l).
Proof.
  intros Hk Hl. destruct (comparator_consistent k Hk) as [Ht Htr].
  split; [apply sort_perm|].
  pose proof (Forall_perm _ _ _ (sort_perm (comparator k) l) Hl) as Hs. rewrite Forall_forall in Hs.
  eapply StronglySorted_impl_in; [|exact (sort_sorted _ _ Ht Htr l Hl)].
  intros a b Ha Hb H. cbv beta in H |- *. rewrite <- comparator_le by auto. exact H.
Qed.

(** At a valid current time, the rows of a load can be sorted by
    price or date: for every sort key but "name", [sortData] is the
    stable sort of the loaded rows, the one result every engine's
    [Array.prototype.sort] gives. *)
Theorem sortData_loaded_rows api now rows k :
  loadFromNewAPI api now = Ok rows -> Z.abs now <= max_time -> k <> "name" ->
  is_stable_sort (comparator k) row_sortable rows (sortData k rows).
Proof.
  intros Hl Hnow Hk. destruct (comparator_consistent k Hk) as [Ht Htr].
  apply (sort_is_stable_sort _ _ Ht Htr). apply Forall_forall. intros r Hr. split.
  - exact (row_wf_price _ (loadFromNewAPI_row_wf _ _ _ _ Hl Hr)).
  - exact (date_ok_value _ (loadFromNewAPI_row_date _ _ _ _ Hl Hnow Hr)).
Qed.

(** Sorting by [price-low] yields non-decreasing prices. *)
Theorem sortData_price_low_ascending l :
  Forall (fun r => num_ok (price r)) l ->
  StronglySorted (fun a b => num_lt (price b) (price a) = false) (sortData "price-low" l).
Proof.
  intros H. destruct price_low_consistent as [Ht Htr].
  pose proof (sort_sorted price_low _ Ht Htr l H) as Hs.
  assert (Hin : Forall (fun r => num_ok (price r)) (sortData "price-low" l))
    by (eapply Forall_perm; [apply sort_perm | exact H]).
  rewrite Forall_forall in Hin.
  eapply StronglySorted_impl_in; [|exact Hs].
  intros a b Ha Hb. unfold cmp_le, cmp_gt, price_low.
  rewrite num_sub_gt0 by auto. apply Bool.negb_true_iff.
Qed.

End WithRuntime.

(** ** Concrete runs *)

Definition gold_row : row :=
  {| productName := "Gold"; price := Fin 31000; currency := "GHS";
     location := JString "New York, New York"; date := "2023-11-14";
     source := "API Ninjas"; usdPrice := Fin 2000 |}.

Definition micro_gold_row : row :=
  {| productName := "Micro Gold"; price := Fin 31031; currency := "GHS";
     location := JString "New York, New York"; date := "2023-11-14";
     source := "API Ninjas"; usdPrice := Fin 2002 |}.

Definition gold_search : filter_state :=
  {| searchInput := "gold"; cropFilter := ""; regionFilter := ""; sortBy := "date" |}.

(** The scenario of the specification: searching "gold" in Corn, Gold and
    Micro Gold keeps the two gold rows. *)
Lemma applyFilters_spec_witness :
  @applyFilters ascii_runtime [corn_row; gold_row; micro_gold_row] gold_search
  = Ok [gold_row; micro_gold_row].
Proof.
  rewrite applyFilters_spec.
  - vm_compute. reflexivity.
  - repeat constructor; eexists; reflexivity.
Defined.

(** A row whose location came from the exchange code "constructor". *)
Definition proto_row : row :=
  {| productName := "Gold"; price := Fin 31000; currency := "GHS";
     location := JFunction "Object"; date := "2023-11-14";
     source := "API Ninjas"; usdPrice := Fin 2000 |}.

Lemma applyFilters_type_error_witness :
  @applyFilters ascii_runtime [corn_row; proto_row]
    {| searchInput := "corn"; cropFilter := ""; regionFilter := ""; sortBy := "date" |}
  = Throw (TypeError "item.location.toLowerCase is not a function").
Proof.
  apply applyFilters_type_error with (r := proto_row).
  - vm_compute. reflexivity.
  - right. left. reflexivity.
  - vm_compute. reflexivity.
  - intros l. discriminate.
Defined.

Lemma applyFilters_idempotent_witness :
  @applyFilters ascii_runtime [gold_row; micro_gold_row] gold_search
  = Ok [gold_row; micro_gold_row].
Proof.
  apply (@applyFilters_idempotent ascii_runtime [corn_row; gold_row; micro_gold_row]).
  - apply (consistent_weaken _ _ _ (fun r H => proj2 H)). exact date_desc_consistent.
  - apply row_sortableb_sound. vm_compute. reflexivity.
  - exact applyFilters_spec_witness.
Defined.

Lemma sortData_price_high_rev_witness :
  @sortData ascii_runtime "price-high" [corn_row; gold_row]
  = rev (@sortData ascii_runtime "price-low" (rev [corn_row; gold_row])).
Proof. apply sortData_price_high_rev, prices_okb_sound. vm_compute. reflexivity. Defined.

Lemma sortData_stable_sort_iff_witness :
  is_stable_sort price_low (fun r => num_ok (price r)) [gold_row; corn_row] [corn_row; gold_row].
Proof.
  apply (proj2 (@sortData_stable_sort_iff ascii_runtime "price-low" (fun r => num_ok (price r))
                  [gold_row; corn_row] [corn_row; gold_row] price_low_consistent
                  ltac:(apply prices_okb_sound; vm_compute; reflexivity))).
  vm_compute. reflexivity.
Defined.

Lemma sortData_price_low_ascending_witness :
  StronglySorted (fun a b => num_lt (price b) (price a) = false)
    (@sortData ascii_runtime "price-low" [gold_row; corn_row]).
Proof. apply sortData_price_low_ascending, prices_okb_sound. vm_compute. reflexivity. Defined.

Lemma sortData_orders_witness :
  Permutation [gold_row; corn_row] (@sortData ascii_runtime "price-low" [gold_row; corn_row])
  /\ StronglySorted (fun a b => sort_key_le "price-low" a b = true) (@sortData ascii_runtime "price-low" [gold_row; corn_row]).
Proof.
  apply sortData_orders; [discriminate|]. apply row_sortableb_sound. vm_compute. reflexivity.
Defined.

Lemma sortData_loaded_rows_witness :
  is_stable_sort (@comparator ascii_runtime "date") row_sortable [corn_row]
    (@sortData ascii_runtime "date" [corn_row]).
Proof.
  apply (sortData_loaded_rows corn_api 0); [vm_compute; reflexivity|unfold max_time; lia|discriminate].
Defined.
