(* ===== verification/Watchlist.v ===== *)
(** * The watchlist store: [loadWatchlistFromStorage] and [addToWatchlist]

    [this.watchlist] holds whatever [JSON.parse] made of the stored string
    (lines 390-402 of [src/script.js]): an array normally, but any JSON
    value when the stored text is valid JSON that is not an array.
    [addToWatchlist(item)] (lines 317-346) replaces a falsy watchlist by
    [[]], looks the item's name up with [findIndex], removes the first
    entry with that name ([splice]) or appends a copy of the item with an
    [addedAt] timestamp ([push]), shows a notification, updates the
    table's buttons ([updateWatchlistButton]), and writes the whole list
    back to [localStorage].  On a watchlist that is not an array,
    [findIndex] is not a function; on a [null] entry, reading its
    [productName] throws: both are [TypeError]s.  The button update
    throws on a name its CSS selector cannot hold, after the watchlist
    changed and before it is stored.

    The state is the watchlist value, the stored string under
    ["commodityWatchlist"] and the notifications shown so far; the page
    the button update acts on is a parameter ([updateButton] on a type
    [D]), instantiated in [App] with [Presentation.updateWatchlistButton]
    on the table.  [updateWatchlistDisplay] only logs.  Lists use stdpp:
    [splice] of one element is [delete]. *)

From Stdlib Require Import String ZArith.
From stdpp Require Import list strings.
From S2P Require Import Prelude JsNum JsValue Dates Normalizer.
Open Scope string_scope.
Open Scope pb_scope.

Record wl_state : Type := mkWlState {
  watchlist : jsval;
  storage : option string;
  notifications : list (string * string)
}.

(** [w.productName === name]. *)
Definition named (name : string) (w : jsval) : res bool :=
  p <- get_prop w "productName" ;;
  Ok (match p with JString n => String.eqb n name | _ => false end).

(** [ws.findIndex(p)] with a callback that may throw; [None] for [-1]. *)
Fixpoint findIndex (p : jsval -> res bool) (ws : list jsval) : res (option nat) :=
  match ws with
  | [] => Ok None
  | w :: ws' =>
      b <- p w ;;
      if b then Ok (Some 0%nat)
      else i <- findIndex p ws' ;; Ok (option_map S i)
  end.

(** [{ ...item, addedAt: new Date().toISOString() }]. *)
Definition watch_entry (now : Z) (item : row) : jsval :=
  JObject (row_object item ++ [("addedAt", JString (iso_string now))]).

(** The name an entry is found by: its [productName] when that is a
    string. *)
Definition entry_name (w : jsval) : option string :=
  match w with
  | JObject fs => match lookup_field "productName" fs with
                  | Some (JString n) => Some n
                  | _ => None
                  end
  | _ => None
  end.

(** An entry [findIndex]'s callback can read. *)
Definition entry_ok (w : jsval) : Prop := w <> JNull /\ w <> JUndefined.

(** ** Lemmas on the lookup *)

Lemma named_result name w b :
  named name w = Ok b -> b = bool_decide (entry_name w = Some name).
Proof.
  unfold named. destruct w; simpl; intros H; inv_res; try reflexivity.
  destruct (lookup_field "productName" fields) as [v|]; [|reflexivity].
  destruct v; try reflexivity.
  destruct (String.eqb_spec s name) as [->|Hne].
  - rewrite bool_decide_true; reflexivity.
  - rewrite bool_decide_false; [reflexivity | congruence].
Qed.

Lemma named_total name w : entry_ok w -> exists b, named name w = Ok b.
Proof. intros [H1 H2]. unfold named. destruct w; simpl; try congruence; eauto. Qed.

(** One step of [findIndex] on a readable head. *)
Lemma findIndex_cons name w ws b :
  named name w = Ok b ->
  findIndex (named name) (w :: ws)
  = if b then Ok (Some 0%nat) else i <- findIndex (named name) ws ;; Ok (option_map S i).
Proof. intros H. simpl. rewrite H. reflexivity. Qed.

Lemma findIndex_None name ws :
  findIndex (named name) ws = Ok None -> name ∉ omap entry_name ws.
Proof.
  induction ws as [|w ws IH]; intros H; [apply not_elem_of_nil|].
  simpl in H. destruct (named name w) as [b|] eqn:Hb; [|discriminate]. simpl in H.
  pose proof (named_result _ _ _ Hb) as ->.
  destruct (bool_decide _) eqn:E; [discriminate|]. apply bool_decide_eq_false in E.
  destruct (findIndex (named name) ws) as [[j|]|] eqn:Ef; simpl in H; try discriminate.
  simpl. destruct (entry_name w) as [n|]; [|exact (IH eq_refl)].
  rewrite elem_of_cons. intros [->|Hin]; [congruence | exact (IH eq_refl Hin)].
Qed.

Lemma findIndex_Some name ws i :
  findIndex (named name) ws = Ok (Some i) -> exists w, ws !! i = Some w /\ entry_name w = Some name.
Proof.
  revert i. induction ws as [|w ws IH]; intros i H; [discriminate|].
  simpl in H. destruct (named name w) as [b|] eqn:Hb; [|discriminate]. simpl in H.
  pose proof (named_result _ _ _ Hb) as ->.
  destruct (bool_decide _) eqn:E.
  - injection H as <-. apply bool_decide_eq_true in E. exists w. auto.
  - destruct (findIndex (named name) ws) as [[j|]|] eqn:Ef; simpl in H; try discriminate.
    injection H as <-. exact (IH j eq_refl).
Qed.

Lemma findIndex_absent name ws :
  Forall entry_ok ws -> name ∉ omap entry_name ws -> findIndex (named name) ws = Ok None.
Proof.
  induction 1 as [|w ws Hw _ IH]; simpl; intros Hn; [reflexivity|].
  destruct (named_total name w Hw) as [b Hb]. rewrite Hb. simpl.
  pose proof (named_result _ _ _ Hb) as ->.
  rewrite bool_decide_false.
  - rewrite IH; [reflexivity|]. destruct (entry_name w); [|exact Hn].
    intros Hin. apply Hn. apply elem_of_cons. right. exact Hin.
  - intros E. apply Hn. rewrite E. apply elem_of_cons. left. reflexivity.
Qed.

Lemma findIndex_snoc name ws e :
  findIndex (named name) ws = Ok None -> entry_name e = Some name ->
  findIndex (named name) (ws ++ [e]) = Ok (Some (length ws)).
Proof.
  intros H He. induction ws as [|w ws IH].
  - unfold named. destruct e; try discriminate. simpl in *.
    destruct (lookup_field "productName" fields) as [[]|]; try discriminate.
    injection He as ->. simpl. rewrite String.eqb_refl. reflexivity.
  - simpl in H |- *. destruct (named name w) as [b|]; [|discriminate]. simpl in H |- *.
    destruct b; [discriminate|].
    destruct (findIndex (named name) ws) as [[j|]|]; simpl in H; try discriminate.
    rewrite IH by reflexivity. reflexivity.
Qed.

Lemma entry_name_watch_entry now item :
  entry_name (watch_entry now item) = Some (productName item).
Proof. reflexivity. Qed.

Section WithRuntime.
Context {RT : Runtime}.

(** [loadWatchlistFromStorage()] given [localStorage.getItem(...)]. *)
Definition loadWatchlistFromStorage (saved : option string) : jsval :=
  match saved with
  | Some s =>
      if String.eqb s "" then JArray []
      else match json_parse s with
           | Some v => v
           | None => JArray []
           end
  | None => JArray []
  end.

Section Toggle.
Context {D : Type} (updateButton : string -> bool -> D -> res D).

(** [addToWatchlist(item)] at time [now], on the store [s] and the part
    [d] of the page that [updateWatchlistButton] updates
    ([updateButton]): the store and the page after it, and the exception
    that stopped it.  The watchlist array is changed in place and the
    notification shown before the buttons are updated, and
    [localStorage] is written after them. *)
Definition addToWatchlist (now : Z) (item : row) (s : wl_state) (d : D) : wl_state * D * option exn :=
  let wl := if truthy (watchlist s) then watchlist s else JArray [] in
  match wl with
  | JArray ws =>
      match findIndex (named (productName item)) ws with
      | Throw e => (s, d, Some e)
      | Ok existingIndex =>
          let '(ws', note, isIn) :=
            match existingIndex with
            | Some i => (delete i ws, (productName item ++ " removed from watchlist", "info"), false)
            | None => ((ws ++ [watch_entry now item])%list,
                       (productName item ++ " added to watchlist!", "success"), true)
            end in
          let nts := (notifications s ++ [note])%list in
          match updateButton (productName item) isIn d with
          | Throw e => (mkWlState (JArray ws') (storage s) nts, d, Some e)
          | Ok d' => (mkWlState (JArray ws') (Some (json_stringify (JArray ws'))) nts, d', None)
          end
      end
  | _ => (s, d, Some (TypeError "this.watchlist.findIndex is not a function"))
  end.

(** ** Properties of the store *)

Lemma names_delete (ws : list jsval) i w name :
  ws !! i = Some w -> entry_name w = Some name -> NoDup (omap entry_name ws) ->
  NoDup (omap entry_name (delete i ws)) /\ (name ∉ omap entry_name (delete i ws))
  /\ name ∈ omap entry_name ws.
Proof.
  intros Hw Hn Hnd.
  pose proof (omap_Permutation entry_name _ _ (delete_Permutation _ _ _ Hw)) as Hp.
  simpl in Hp. rewrite Hn in Hp. rewrite Hp in Hnd |- *. apply NoDup_cons in Hnd.
  split; [tauto|]. split; [tauto|]. apply elem_of_cons. left. reflexivity.
Qed.

Lemma names_snoc (ws : list jsval) e name :
  entry_name e = Some name -> name ∉ omap entry_name ws -> NoDup (omap entry_name ws) ->
  NoDup (omap entry_name (ws ++ [e])%list) /\ name ∈ omap entry_name (ws ++ [e])%list.
Proof.
  intros He Hnot Hnd. rewrite omap_app. simpl. rewrite He. split.
  - apply NoDup_app. split; [exact Hnd|]. split; [|apply NoDup_singleton].
    intros x Hx Hx'. apply list_elem_of_singleton in Hx'. subst x. contradiction.
  - apply elem_of_app. right. apply list_elem_of_singleton. reflexivity.
Qed.

(** C5: toggling an item absent from the watchlist twice adds it, then
    removes it again: the watchlist is back to its original list, stored
    as such, the two notifications were shown, and the buttons were
    updated to "in the watchlist", then back. *)
Theorem addToWatchlist_toggle_twice now1 now2 item ws stored nts d0 d1 d2 :
  Forall entry_ok ws -> productName item ∉ omap entry_name ws ->
  updateButton (productName item) true d0 = Ok d1 ->
  updateButton (productName item) false d1 = Ok d2 ->
  exists s1,
    addToWatchlist now1 item (mkWlState (JArray ws) stored nts) d0 = (s1, d1, None) /\
    watchlist s1 = JArray (ws ++ [watch_entry now1 item]) /\
    addToWatchlist now2 item s1 d1 =
      (mkWlState (JArray ws) (Some (json_stringify (JArray ws)))
         (nts ++ [(productName item ++ " added to watchlist!", "success");
                  (productName item ++ " removed from watchlist", "info")]), d2, None).
Proof.
  intros Hok Habs H1 H2. unfold addToWatchlist at 1. simpl.
  pose proof (findIndex_absent _ _ Hok Habs) as Hn. rewrite Hn. simpl. rewrite H1.
  eexists. split; [reflexivity|]. split; [reflexivity|].
  unfold addToWatchlist. simpl.
  rewrite (findIndex_snoc _ _ _ Hn (entry_name_watch_entry now1 item)). simpl. rewrite H2.
  rewrite (delete_middle ws [] (watch_entry now1 item)), app_nil_r, <- app_assoc.
  reflexivity.
Qed.

(** C6: the watchlist invariant: whatever a toggle ends with, the
    watchlist is an array whose names are unique, and a toggle that
    completes flips whether the item's name is in it. *)
Theorem addToWatchlist_names_invariant now item s d ws s' d' e :
  watchlist s = JArray ws -> NoDup (omap entry_name ws) ->
  addToWatchlist now item s d = (s', d', e) ->
  exists ws', watchlist s' = JArray ws' /\ NoDup (omap entry_name ws') /\
    (e = None -> (productName item ∈ omap entry_name ws' <-> productName item ∉ omap entry_name ws)).
Proof.
  intros Hws Hnd H. unfold addToWatchlist in H. rewrite Hws in H. simpl in H.
  destruct (findIndex (named (productName item)) ws) as [[i|]|e0] eqn:Ef; simpl in H.
  - destruct (findIndex_Some _ _ _ Ef) as [w [Hw Hn]].
    destruct (names_delete _ _ _ _ Hw Hn Hnd) as (Hnd' & Hnot & Hin).
    exists (delete i ws).
    destruct (updateButton _ _ _); injection H as <- _ <-; (split; [reflexivity|]);
      (split; [exact Hnd'|]); intros _; tauto.
  - pose proof (findIndex_None _ _ Ef) as Hnot.
    destruct (names_snoc _ _ _ (entry_name_watch_entry now item) Hnot Hnd) as [Hnd' Hin].
    exists (ws ++ [watch_entry now item])%list.
    destruct (updateButton _ _ _); injection H as <- _ <-;
      (split; [reflexivity|]); (split; [exact Hnd'|]); intros _; tauto.
  - injection H as <- _ <-. exists ws. split; [exact Hws|]. split; [exact Hnd|]. discriminate.
Qed.

(** Every toggle that completes writes the whole watchlist to
    [localStorage] and shows exactly one notification. *)
Theorem addToWatchlist_persists now item s d s' d' :
  addToWatchlist now item s d = (s', d', None) ->
  storage s' = Some (json_stringify (watchlist s')) /\
  exists note, notifications s' = (notifications s ++ [note])%list.
Proof.
  unfold addToWatchlist. intros H.
  destruct (if truthy (watchlist s) then watchlist s else JArray []); try discriminate.
  destruct (findIndex _ _) as [[i|]|]; simpl in H; try discriminate;
    destruct (updateButton _ _ _); try discriminate; injection H as <- _; simpl; eauto.
Qed.

(** A toggle that throws writes nothing to [localStorage] and leaves the
    buttons as they were. *)
Lemma addToWatchlist_throw_unsaved now item s d s' d' e :
  addToWatchlist now item s d = (s', d', Some e) -> storage s' = storage s /\ d' = d.
Proof.
  unfold addToWatchlist. intros H.
  destruct (if truthy (watchlist s) then watchlist s else JArray []);
    try (injection H as <- <- _; auto).
  destruct (findIndex _ _) as [[i|]|]; simpl in H; try (injection H as <- <- _; auto);
    destruct (updateButton _ _ _); try discriminate; injection H as <- <- _; auto.
Qed.

End Toggle.

(** C29: a stored watchlist that parses to a truthy value that is not an
    array is kept by [loadWatchlistFromStorage], and every later toggle
    throws a [TypeError]. *)
Theorem stored_non_array_breaks_toggle {D} (ub : string -> bool -> D -> res D) saved v now item nts d :
  json_parse saved = Some v -> saved <> "" -> truthy v = true -> (forall ws, v <> JArray ws) ->
  addToWatchlist ub now item (mkWlState (loadWatchlistFromStorage (Some saved)) (Some saved) nts) d
  = (mkWlState v (Some saved) nts, d, Some (TypeError "this.watchlist.findIndex is not a function")).
Proof.
  intros Hp Hne Ht Hna. unfold addToWatchlist, loadWatchlistFromStorage. simpl.
  apply String.eqb_neq in Hne. rewrite Hne, Hp, Ht.
  destruct v; try reflexivity. exfalso. eapply Hna. reflexivity.
Qed.

(** Stored text that is not JSON is read as an empty watchlist. *)
Theorem loadWatchlistFromStorage_unparseable saved :
  json_parse saved = None -> loadWatchlistFromStorage (Some saved) = JArray [].
Proof.
  intros H. unfold loadWatchlistFromStorage. rewrite H.
  destruct (String.eqb saved ""); reflexivity.
Qed.

End WithRuntime.

(** ** Concrete runs *)

(** A page with no watchlist button. *)
Definition no_buttons (name : string) (isIn : bool) (d : unit) : res unit := Ok d.

Lemma addToWatchlist_toggle_twice_witness :
  exists s1,
    addToWatchlist no_buttons 0 corn_row (mkWlState (JArray []) None []) tt = (s1, tt, None) /\
    watchlist s1 = JArray ([] ++ [watch_entry 0 corn_row]) /\
    addToWatchlist no_buttons 1000 corn_row s1 tt =
      (mkWlState (JArray []) (Some "[]")
         ([] ++ [("Corn added to watchlist!", "success"); ("Corn removed from watchlist", "info")]), tt, None).
Proof.
  apply (addToWatchlist_toggle_twice no_buttons 0 1000 corn_row [] None [] tt tt tt).
  - constructor.
  - apply not_elem_of_nil.
  - reflexivity.
  - reflexivity.
Defined.

Lemma addToWatchlist_names_invariant_witness :
  exists ws', JArray [watch_entry 0 corn_row] = JArray ws' /\ NoDup (omap entry_name ws') /\
    (@None exn = None -> ("Corn" ∈ omap entry_name ws' <-> "Corn" ∉ omap entry_name [])).
Proof.
  apply (addToWatchlist_names_invariant no_buttons 0 corn_row (mkWlState (JArray []) None []) tt []
           (mkWlState (JArray [watch_entry 0 corn_row])
              (Some (json_stringify (JArray [watch_entry 0 corn_row])))
              [("Corn added to watchlist!", "success")])
           tt None).
  - reflexivity.
  - constructor.
  - vm_compute. reflexivity.
Defined.

Lemma addToWatchlist_persists_witness :
  Some (json_stringify (JArray [watch_entry 0 corn_row]))
  = Some (json_stringify (JArray [watch_entry 0 corn_row])) /\
  exists note, [("Corn added to watchlist!", "success")] = ([] ++ [note])%list.
Proof.
  exact (addToWatchlist_persists no_buttons 0 corn_row (mkWlState (JArray []) None []) tt
           (mkWlState (JArray [watch_entry 0 corn_row])
              (Some (json_stringify (JArray [watch_entry 0 corn_row])))
              [("Corn added to watchlist!", "success")]) tt
           ltac:(vm_compute; reflexivity)).
Defined.

Lemma stored_non_array_breaks_toggle_witness :
  addToWatchlist no_buttons 0 corn_row
    (mkWlState (@loadWatchlistFromStorage ascii_runtime (Some "{}")) (Some "{}") []) tt
  = (mkWlState (JObject []) (Some "{}") [], tt,
     Some (TypeError "this.watchlist.findIndex is not a function")).
Proof.
  apply stored_non_array_breaks_toggle with (v := JObject []).
  - reflexivity.
  - discriminate.
  - reflexivity.
  - intros ws. discriminate.
Defined.

(** The scenario of the specification: the stored text "not json". *)
Lemma loadWatchlistFromStorage_unparseable_witness :
  @loadWatchlistFromStorage ascii_runtime (Some "not json") = JArray [].
Proof. apply loadWatchlistFromStorage_unparseable. reflexivity. Defined.
