(* ===== verification/Presentation.v ===== *)
(** * The values [renderTable] and [updateStats] put on the page

    The helpers of the table (lines 177-215 and 543-592 of
    [src/script.js]): [calculateTrend], [getPriceChangeIndicator],
    [renderTrend], [getCommodityCategory], [formatPrice] (with
    [Number.prototype.toFixed]), [formatDate], [getTimeAgo] and
    [escapeHtml] (lines 646-650); the text of a table row; and the
    figures [updateStats] (lines 595-613) and [populateFilters] (lines
    404-428) write.

    Rows are JavaScript objects: [this.filteredData] holds references to
    the objects of [this.data], and [this.data.indexOf(item)] compares
    references.  A reference is a pair [(id, row)] whose [id] is the
    allocation the row was created by ([obj]); [index_of] looks the id
    up.  [Set] compares primitives by value and objects by reference
    ([same_value_zero]).

    A row is the record [row_view] of the values the template
    interpolates, with the [data-commodity] attribute of its buttons as
    the HTML parser reads it ([attr_value]) and whether its watchlist
    button has the class [in-watchlist]; [Markup.row_markup] is the
    template around them.  The price indicator and the trend icon are
    markup; a date is spelled as [toLocaleDateString('en-US', ...)]
    spells it ("Nov 14, 2023").  Local time is UTC plus a fixed offset
    of [tz] minutes.  [updateWatchlistButton] (lines 348-363)
    queries the document, which holds the rows appended so far: the row
    being rendered is appended only after it (lines 531-536). *)

From Stdlib Require Import List String Ascii ZArith QArith Qabs Qround Lia Lqa Permutation Sorted.
From S2P Require Import Prelude JsNum JsValue Text Dates Normalizer StableSort Watchlist.
Import ListNotations.
Open Scope string_scope.
Open Scope bool_scope.
Open Scope pb_scope.

(** A row object: its allocation and its fields. *)
Abbreviation obj := (nat * row)%type (only parsing).

(** [arr.indexOf(item)] for an array of objects: the first position of
    the same allocation, or [-1]. *)
Fixpoint index_of (id : nat) (xs : list obj) : Z :=
  match xs with
  | [] => (-1)%Z
  | (id', _) :: xs' =>
      if Nat.eqb id id' then 0%Z
      else let i := index_of id xs' in if (i <? 0)%Z then i else (i + 1)%Z
  end.

(** ** Trend *)

(** The strings ['up'], ['down'] and ['stable']. *)
Inductive trend : Type := up | down | stable.

Definition trend_of (currentPrice previousPrice : num) : trend :=
  if num_gt currentPrice previousPrice then up
  else if num_lt currentPrice previousPrice then down
  else stable.

(** [calculateTrend(item, index)] reading [this.filteredData]: the
    element at [index - 1] (undefined outside the array, a negative
    index included) must exist. *)
Definition calculateTrend (filteredData : list obj) (item : row) (index : Z) : res trend :=
  if (index =? 0)%Z then Ok stable
  else match (if (index - 1 <? 0)%Z then None else nth_error filteredData (Z.to_nat (index - 1))) with
       | Some (_, prev) => Ok (trend_of (price item) (price prev))
       | None => Throw (TypeError "Cannot read properties of undefined (reading 'price')")
       end.

(** [getPriceChangeIndicator(item)]: the trend of [item] at its index in
    [this.data], read in [this.filteredData]; [indicators[trend]] is one
    of the three indicators, named here by its trend ([price_indicator]
    gives its markup). *)
Definition getPriceChangeIndicator (data filteredData : list obj) (item : obj) : res trend :=
  calculateTrend filteredData (snd item) (index_of (fst item) data).

(** The text [s] between double quotes, an attribute's value in markup. *)
Definition quoted (s : string) : string := String quote_char (s ++ String quote_char EmptyString).

(** The arrows U+2197, U+2198 and U+2192 of lines 210-212, as the UTF-8
    bytes of the source file. *)
Definition utf8_3 (a b c : nat) : string :=
  String (ascii_of_nat a) (String (ascii_of_nat b) (String (ascii_of_nat c) EmptyString)).
Definition arrow_up_right : string := utf8_3 226 134 151.
Definition arrow_down_right : string := utf8_3 226 134 152.
Definition arrow_right : string := utf8_3 226 134 146.

(** [indicators] of [getPriceChangeIndicator] (lines 209-213). *)
Definition price_indicator (t : trend) : string :=
  match t with
  | up => "<span class=" ++ quoted "price-up" ++ ">" ++ arrow_up_right ++ " +2.5%</span>"
  | down => "<span class=" ++ quoted "price-down" ++ ">" ++ arrow_down_right ++ " -1.8%</span>"
  | stable => "<span class=" ++ quoted "price-stable" ++ ">" ++ arrow_right ++ " 0.0%</span>"
  end.

(** [renderTrend(trend)] (lines 555-563): [icons[trend]], the trend's
    icon. *)
Definition renderTrend (t : trend) : string :=
  match t with
  | up => "<i class=" ++ quoted "fas fa-arrow-up trend-up" ++ "></i>"
  | down => "<i class=" ++ quoted "fas fa-arrow-down trend-down" ++ "></i>"
  | stable => "<i class=" ++ quoted "fas fa-minus trend-stable" ++ "></i>"
  end.

(** ** Category *)

(** [categories] (lines 178-201). *)
Definition categories : list (string * string) :=
  [ ("Gold", "Precious Metal"); ("Silver", "Precious Metal");
    ("Platinum", "Precious Metal"); ("Palladium", "Precious Metal");
    ("Copper", "Industrial Metal"); ("Aluminum", "Industrial Metal");
    ("Crude Oil", "Energy"); ("Natural Gas", "Energy"); ("Gasoline", "Energy");
    ("Heating Oil", "Energy"); ("Corn", "Agriculture"); ("Wheat", "Agriculture");
    ("Soybean", "Agriculture"); ("Coffee", "Agriculture"); ("Cocoa", "Agriculture");
    ("Cotton", "Agriculture"); ("Sugar", "Agriculture"); ("Orange Juice", "Agriculture");
    ("Live Cattle", "Livestock"); ("Feeder Cattle", "Livestock");
    ("Lean Hogs", "Livestock"); ("Class III Milk", "Livestock") ].

(** [categories[commodityName] || 'Commodity']: an own property, else a
    member inherited from [Object.prototype] (all truthy), else the
    default. *)
Definition getCommodityCategory (commodityName : string) : jsval :=
  match assoc commodityName categories with
  | Some c => JString c
  | None => match inherited_member commodityName with
            | Some v => v
            | None => JString "Commodity"
            end
  end.

(** ** [escapeHtml] *)

(** The HTML serialisation of a character of a text node: [&], NBSP,
    [<] and [>] become entities; quotes are left as they are. *)
Definition escape_char (c : ascii) : string :=
  if (c =? "&")%char then "&amp;"
  else if (nat_of_ascii c =? 160)%nat then "&nbsp;"
  else if (c =? "<")%char then "&lt;"
  else if (c =? ">")%char then "&gt;"
  else String c EmptyString.

Fixpoint escape_text (s : string) : string :=
  match s with
  | EmptyString => EmptyString
  | String c r => escape_char c ++ escape_text r
  end.

(** [escapeHtml(text)]: [div.textContent = text] turns [null] into the
    empty string and anything else into [String(text)]; [div.innerHTML]
    serialises the text node. *)
Definition escapeHtml (text : jsval) : res string :=
  s <- (match text with JNull => Ok "" | _ => to_string text end) ;;
  Ok (escape_text s).

(** ** Prices *)

(** The digits of [n >= 0] with a point before the last [f] of them,
    padded with zeros to at least one digit before the point (steps
    10.b-10.d of ECMA-262 [Number.prototype.toFixed]). *)
Definition fixed_digits (n : Z) (f : nat) : string :=
  let m := Z_to_decimal n in
  match f with
  | O => m
  | S _ =>
      let k := String.length m in
      let m' := if (k <=? f)%nat then repeat_char (f + 1 - k) "0" ++ m else m in
      let k' := String.length m' in
      substring 0 (k' - f) m' ++ "." ++ substring (k' - f) f m'
  end.

(** [x.toFixed(f)]: the integer [n] nearest to [x * 10^f] (the larger
    one on a tie), for [|x| < 10^21]. *)
Definition toFixed (f : nat) (x : num) : res string :=
  if (100 <? f)%nat then Throw (RangeError "toFixed() digits argument must be between 0 and 100")
  else match x with
       | NaN => Ok "NaN"
       | PosInf => Ok "Infinity"
       | NegInf => Ok "-Infinity"
       | Fin q =>
           let s := if Qltb q 0 then "-" else "" in
           let y := Qabs q in
           Ok (s ++ (if Qle_bool (inject_Z (10 ^ 21)) y then number_to_string y
                     else fixed_digits (Qfloor (y * inject_Z (10 ^ Z.of_nat f) + (1 # 2))) f))
       end.

(** The cedi sign U+20B5 of line 572, as the UTF-8 bytes of the source
    file. *)
Definition cedi_sign : string :=
  String (ascii_of_nat 226) (String (ascii_of_nat 130) (String (ascii_of_nat 181) EmptyString)).

Section WithRuntime.
Context {RT : Runtime}.

(** [formatPrice(price, currency)] for a number [price]. *)
Definition formatPrice (price : num) (currency : string) : res string :=
  if is_nan price then Ok "N/A"
  else if String.eqb currency "GHS" then
    s <- toFixed 2 price ;; Ok ("GH" ++ cedi_sign ++ " " ++ s)
  else format_currency (if String.eqb currency "" then "USD" else currency) price.

End WithRuntime.

(** ** Dates *)

(** [new Date(dateString)] read in local time: its calendar day (year,
    month, day), or [None] for an invalid date. *)
Definition local_day (tz : Z) (dateString : string) : option (Z * Z * Z) :=
  match parse_iso_date dateString with
  | Some t => Some (civil_from_days ((t + tz * 60000) / msPerDay))
  | None => None
  end.

(** The abbreviated month names of the [en] locale. *)
Definition month_names : list string :=
  ["Jan"; "Feb"; "Mar"; "Apr"; "May"; "Jun"; "Jul"; "Aug"; "Sep"; "Oct"; "Nov"; "Dec"].

Definition month_short (m : Z) : string := nth (Z.to_nat (m - 1)) month_names "".

(** The year of the era of a proleptic Gregorian year: 0 is 1 BC. *)
Definition year_of_era (y : Z) : Z := if (0 <? y)%Z then y else (1 - y)%Z.

(** [date.toLocaleDateString('en-US', {year: 'numeric', month: 'short',
    day: 'numeric'})]: the pattern ["MMM d, y"] of the [en] locale, whose
    [y] is the year of the era (the era itself is not shown); an invalid
    date is ["Invalid Date"] (ECMA-402, [Date.prototype.toLocaleDateString]). *)
Definition toLocaleDateString_en_US (d : option (Z * Z * Z)) : string :=
  match d with
  | None => "Invalid Date"
  | Some (y, m, dd) => month_short m ++ " " ++ Z_to_decimal dd ++ ", " ++ Z_to_decimal (year_of_era y)
  end.

(** [formatDate(dateString)] (lines 582-593).  Neither [new Date] nor
    [toLocaleDateString] throws, so the [catch] branch never runs. *)
Definition formatDate (tz : Z) (dateString : string) : string :=
  toLocaleDateString_en_US (local_day tz dateString).

(** [getTimeAgo(dateString)] at time [now] (a time value): the
    difference of the two dates, divided by the minute, hour and day in
    milliseconds and rounded down ([Math.floor]), all in doubles; an
    invalid date makes every figure [NaN] and prints ["NaNd ago"]. *)
Definition getTimeAgo (now : Z) (dateString : string) : string :=
  let date := date_value dateString in
  let diffMs := num_sub (Fin (inject_Z now)) date in
  let diffMins := num_floor (num_div diffMs (Fin (inject_Z (1000 * 60)))) in
  let diffHours := num_floor (num_div diffMs (Fin (inject_Z (1000 * 60 * 60)))) in
  let diffDays := num_floor (num_div diffMs (Fin (inject_Z (1000 * 60 * 60 * 24)))) in
  if num_lt diffMins (Fin 60) then num_to_string diffMins ++ "m ago"
  else if num_lt diffHours (Fin 24) then num_to_string diffHours ++ "h ago"
  else num_to_string diffDays ++ "d ago".

(** The same figures in integer arithmetic, [Math.floor] read as [Z.div]. *)
Definition time_ago_exact (now : Z) (dateString : string) : string :=
  match parse_iso_date dateString with
  | None => "NaNd ago"
  | Some t =>
      let diffMs := (now - t)%Z in
      let diffMins := (diffMs / 60000)%Z in
      let diffHours := (diffMs / 3600000)%Z in
      let diffDays := (diffMs / msPerDay)%Z in
      if (diffMins <? 60)%Z then num_to_string (Fin (inject_Z diffMins)) ++ "m ago"
      else if (diffHours <? 24)%Z then num_to_string (Fin (inject_Z diffHours)) ++ "h ago"
      else num_to_string (Fin (inject_Z diffDays)) ++ "d ago"
  end.

(** ** A row of the table *)

(** [arr.find(p)] with a callback that may throw. *)
Fixpoint find_res (p : jsval -> res bool) (ws : list jsval) : res (option jsval) :=
  match ws with
  | [] => Ok None
  | w :: ws' => b <- p w ;; if b then Ok (Some w) else find_res p ws'
  end.

(** [this.watchlist && this.watchlist.find(w => w.productName === name)],
    as a condition. *)
Definition watch_find (wl : jsval) (name : string) : res bool :=
  if truthy wl then
    match wl with
    | JArray ws =>
        found <- find_res (named name) ws ;;
        Ok (match found with Some w => truthy w | None => false end)
    | _ => Throw (TypeError "this.watchlist.find is not a function")
    end
  else Ok false.

(** ** HTML attributes

    The value of an attribute written [attr="t"] in markup: the HTML
    tokenizer reads [t] up to its first double quote and decodes its
    character references.  [decode_refs] decodes the five references
    the code's own text can hold ([&amp;], [&lt;], [&gt;], [&nbsp;] from
    [escapeHtml], [&quot;] from the [onclick] attribute of the details
    window) and keeps every other character: it is the tokenizer's
    decoding on a text whose every [&] starts one of these five. *)
Fixpoint take_until_quote (t : string) : string :=
  match t with
  | EmptyString => EmptyString
  | String c r => if (c =? quote_char)%char then EmptyString else String c (take_until_quote r)
  end.

Fixpoint decode_refs (t : string) : string :=
  match t with
  | EmptyString => EmptyString
  | String "&" (String "a" (String "m" (String "p" (String ";" r)))) => String "&" (decode_refs r)
  | String "&" (String "l" (String "t" (String ";" r))) => String "<" (decode_refs r)
  | String "&" (String "g" (String "t" (String ";" r))) => String ">" (decode_refs r)
  | String "&" (String "n" (String "b" (String "s" (String "p" (String ";" r))))) =>
      String (ascii_of_nat 160) (decode_refs r)
  | String "&" (String "q" (String "u" (String "o" (String "t" (String ";" r))))) =>
      String quote_char (decode_refs r)
  | String c r => String c (decode_refs r)
  end.

Definition attr_value (t : string) : string := decode_refs (take_until_quote t).

(** The classes of the icon [<i class="...">] the markup [html] of
    [renderTrend] opens with, as the HTML parser reads the attribute. *)
Definition icon_class (html : string) : string :=
  attr_value (substring 10 (String.length html - 10) html).

(** The values the template of lines 489-524 interpolates, the
    [data-commodity] attribute of the row's two buttons, and whether the
    watchlist button has the class [in-watchlist]. *)
Record row_view : Type := mkRowView {
  name_html : string;
  category : string;
  price_text : string;
  usd_text : string;
  indicator : trend;
  location_html : string;
  date_shown : string;
  time_ago : string;
  trend_icon : string;
  data_commodity : string;
  in_watchlist : bool
}.

(** [showNoData()] and [hideNoData()]: whether [#noData] is visible
    after the call (its class [hidden] removed or added). *)
Definition showNoData : bool := true.
Definition hideNoData : bool := false.

Section Render.
Context {RT : Runtime}.
Variables (tz now : Z) (data filteredData : list obj) (wl : jsval).

(** [updateWatchlistButton(commodityName, isInWatchlist)] (lines
    348-363) on the rows of the table body: the selector
    [[data-commodity="<name>"]] is parsed, and the watchlist button of
    every row whose [data-commodity] is the selector's value gets
    [isInWatchlist]; an unparsable selector throws. *)
Definition updateWatchlistButton (commodityName : string) (isInWatchlist : bool)
    (rows : list row_view) : res (list row_view) :=
  match css_string commodityName with
  | None => Throw (DOMException "SyntaxError" "'querySelectorAll': not a valid selector")
  | Some v =>
      Ok (map (fun r => if String.eqb (data_commodity r) v
                        then {| name_html := name_html r; category := category r;
                                price_text := price_text r; usd_text := usd_text r;
                                indicator := indicator r; location_html := location_html r;
                                date_shown := date_shown r; time_ago := time_ago r;
                                trend_icon := trend_icon r; data_commodity := data_commodity r;
                                in_watchlist := isInWatchlist |}
                        else r) rows)
  end.

(** The body of [this.filteredData.forEach((item, index) => {...})], in
    the order the template literal evaluates its substitutions, given the
    rows [body] appended so far: the new row's buttons start without
    [in-watchlist]; [updateWatchlistButton] runs before the row is
    appended, on the rows of the document; the rows after the body, and
    the new row. *)
Definition render_row (index : nat) (body : list row_view) (item : obj) : res (list row_view * row_view) :=
  let r := snd item in
  trend <- calculateTrend filteredData r (Z.of_nat index) ;;
  nameHtml <- escapeHtml (JString (productName r)) ;;
  cat <- to_string (getCommodityCategory (productName r)) ;;
  priceText <- formatPrice (price r) (currency r) ;;
  usd <- toFixed 2 (usdPrice r) ;;
  ind <- getPriceChangeIndicator data filteredData item ;;
  locationHtml <- escapeHtml (location r) ;;
  let v := {| name_html := nameHtml; category := cat; price_text := priceText;
              usd_text := if String.eqb usd "" then "N/A" else usd;
              indicator := ind; location_html := locationHtml;
              date_shown := formatDate tz (date r); time_ago := getTimeAgo now (date r);
              trend_icon := renderTrend trend; data_commodity := attr_value nameHtml;
              in_watchlist := false |} in
  inWl <- watch_find wl (productName r) ;;
  body' <- (if inWl then updateWatchlistButton (productName r) true body else Ok body) ;;
  Ok (body', v).

(** The rows of the table body after the loop from [index] on, and the
    exception that stopped it. *)
Fixpoint render_rows (index : nat) (body : list row_view) (items : list obj) : list row_view * option exn :=
  match items with
  | [] => (body, None)
  | item :: items' =>
      match render_row index body item with
      | Ok (body', v) => render_rows (S index) (body' ++ [v]) items'
      | Throw e => (body, Some e)
      end
  end.

(** [renderTable()]: the rows in the table body, and [Ok b] when it
    returns, [b] saying whether the "no data" panel is shown, or the
    exception that stopped it. *)
Definition renderTable : list row_view * res bool :=
  match filteredData with
  | [] => ([], Ok showNoData)
  | _ => let '(vs, e) := render_rows 0 [] filteredData in
         (vs, match e with None => Ok hideNoData | Some ex => Throw ex end)
  end.

End Render.

(** ** [Set] and the statistics *)

(** SameValueZero on numbers. *)
Definition num_same (a b : num) : bool :=
  match a, b with
  | NaN, NaN | PosInf, PosInf | NegInf, NegInf => true
  | Fin x, Fin y => Qeq_bool x y
  | _, _ => false
  end.

(** SameValueZero on the values of the [location] field, each tagged with
    the row object it was read from: an array or object location is the
    [exchange] value of that row's quote, a different object for every
    row, so two of them are the same only when they come from one row. *)
Definition same_value_zero (a b : nat * jsval) : bool :=
  match snd a, snd b with
  | JUndefined, JUndefined | JNull, JNull | JObjectPrototype, JObjectPrototype => true
  | JBool x, JBool y => Bool.eqb x y
  | JNumber x, JNumber y => num_same x y
  | JString x, JString y | JFunction x, JFunction y => String.eqb x y
  | JArray _, JArray _ | JObject _, JObject _ => Nat.eqb (fst a) (fst b)
  | _, _ => false
  end.

(** [set.add(x)] on a set kept in insertion order. *)
Definition set_add {A} (eqb : A -> A -> bool) (s : list A) (x : A) : list A :=
  if existsb (eqb x) s then s else (s ++ [x])%list.

(** [[...new Set(xs)]]. *)
Definition new_set {A} (eqb : A -> A -> bool) (xs : list A) : list A :=
  fold_left (set_add eqb) xs [].

(** [Math.max(...ts)] of the time values of the dates (at least one),
    [NaN] as soon as one is invalid, then [new Date(...)]. *)
Fixpoint max_time_value (t : Z) (ts : list (option Z)) : option Z :=
  match ts with
  | [] => Some t
  | None :: _ => None
  | Some t' :: ts' => max_time_value (Z.max t t') ts'
  end.

Definition row_time (o : obj) : option Z := parse_iso_date (date (snd o)).

(** The text [updateStats] writes; [lastUpdated] is the time value
    [toLocaleDateString()] prints ([None]: ["Invalid Date"]). *)
Record stats : Type := mkStats {
  totalProducts : nat;
  totalRegions : nat;
  lastUpdated : option Z;
  dataSource : string
}.

Fixpoint join (sep : string) (xs : list string) : string :=
  match xs with
  | [] => ""
  | [x] => x
  | x :: xs' => x ++ sep ++ join sep xs'
  end.

(** [updateStats()] at time [now]. *)
Definition updateStats (now : Z) (data filteredData : list obj) : stats :=
  let uniqueCommodities := List.length (new_set String.eqb (map (fun o => productName (snd o)) filteredData)) in
  let uniqueLocations := List.length (new_set same_value_zero (map (fun o => (fst o, location (snd o))) filteredData)) in
  let lastUpdated := match map row_time data with
                     | [] => Some now
                     | None :: _ => None
                     | Some t :: ts => max_time_value t ts
                     end in
  {| totalProducts := uniqueCommodities;
     totalRegions := uniqueLocations;
     lastUpdated := lastUpdated;
     dataSource := match data with
                   | [] => "-"
                   | _ => join ", " (new_set String.eqb (map (fun o => source (snd o)) data))
                   end |}.

(** ** The options of the two selects *)

(** The comparison of [Array.prototype.sort] without a comparator: code
    units of [String(x)]. *)
Definition code_unit_cmp (a b : string) : num :=
  num_of_Z (match ascii_compare a b with Lt => (-1)%Z | Eq => 0%Z | Gt => 1%Z end).

Definition is_undefined (v : jsval) : bool :=
  match v with JUndefined => true | _ => false end.

(** [populateFilters()]: the options added to the commodity and location
    selects after the "All" option, and the exception that stopped it.
    [.sort()] converts every element with [String] when it has two
    elements to compare ([undefined] is put last without comparison);
    [option.value = region] converts each region again. *)
Definition populateFilters (data : list obj) : list string * list string * option exn :=
  let productNames := sort code_unit_cmp (new_set String.eqb (map (fun o => productName (snd o)) data)) in
  let regions := map snd (new_set same_value_zero (map (fun o => (fst o, location (snd o))) data)) in
  let defined := filter (fun v => negb (is_undefined v)) regions in
  let undefs := filter is_undefined regions in
  match (if (2 <=? List.length defined)%nat then map_res to_string defined else Ok []) with
  | Throw e => ([], [], Some e)
  | Ok _ =>
      match map_res to_string defined with
      | Ok strs =>
          (productNames, (sort code_unit_cmp strs ++ map (fun _ => "undefined") undefs)%list, None)
      | Throw e => (productNames, [], Some e)
      end
  end.

(** ** Lemmas *)

Lemma index_of_in id xs :
  In id (map fst xs) -> (0 <= index_of id xs < Z.of_nat (List.length xs))%Z.
Proof.
  induction xs as [|[id' r] xs IH]; simpl; [tauto|]. intros H.
  destruct (Nat.eqb_spec id id'); [lia|].
  destruct H as [H|H]; [congruence|]. specialize (IH H).
  destruct (index_of id xs <? 0)%Z eqn:E; [apply Z.ltb_lt in E|]; lia.
Qed.

Lemma index_of_not_in id xs : ~ In id (map fst xs) -> index_of id xs = (-1)%Z.
Proof.
  induction xs as [|[id' r] xs IH]; simpl; [reflexivity|]. intros H.
  destruct (Nat.eqb_spec id id') as [->|]; [tauto|]. rewrite IH by tauto. reflexivity.
Qed.

(** [calculateTrend] finds the previous element whenever [index] is a
    position of the array or one past it. *)
Lemma calculateTrend_ok fd r index :
  (0 <= index <= Z.of_nat (List.length fd))%Z -> exists t, calculateTrend fd r index = Ok t.
Proof.
  intros H. unfold calculateTrend. destruct (Z.eqb_spec index 0); [eauto|].
  destruct (Z.ltb_spec (index - 1) 0); [lia|].
  destruct (nth_error fd _) as [[id p]|] eqn:E; [eauto|].
  apply nth_error_None in E. lia.
Qed.

Lemma calculateTrend_far fd r index :
  (index < 0 \/ Z.of_nat (List.length fd) < index)%Z ->
  calculateTrend fd r index = Throw (TypeError "Cannot read properties of undefined (reading 'price')").
Proof.
  intros H. unfold calculateTrend. destruct (Z.eqb_spec index 0); [lia|].
  destruct (Z.ltb_spec (index - 1) 0); [reflexivity|].
  rewrite (proj2 (nth_error_None _ _)); [reflexivity|lia].
Qed.

(** The category always converts to a string. *)
Lemma category_to_string name : exists s, to_string (getCommodityCategory name) = Ok s.
Proof.
  unfold getCommodityCategory. destruct (assoc _ _); [simpl; eauto|].
  destruct (inherited_member name) as [v|] eqn:E; [|simpl; eauto].
  destruct (inherited_member_value _ _ E) as [->|[n ->]]; simpl; eauto.
Qed.

Lemma toFixed_ok f x : (f <= 100)%nat -> exists s, toFixed f x = Ok s.
Proof.
  intros H. unfold toFixed. rewrite (proj2 (Nat.ltb_ge _ _) H).
  destruct x; eauto.
Qed.

Lemma formatPrice_GHS {RT : Runtime} p : exists s, formatPrice p "GHS" = Ok s.
Proof.
  unfold formatPrice. destruct (is_nan p); [eauto|].
  destruct (toFixed_ok 2 p) as [s ->]; [lia|]. simpl. eauto.
Qed.

(** A row whose fields render: its currency is the one [normalize]
    sets. *)
Lemma render_row_indicator {RT : Runtime} tz now data fd wl index body item :
  currency (snd item) = "GHS" ->
  (exists t, calculateTrend fd (snd item) (Z.of_nat index) = Ok t) ->
  forall e, getPriceChangeIndicator data fd item = Throw e ->
  render_row tz now data fd wl index body item = Throw e.
Proof.
  intros Hc [t Ht] e He. unfold render_row. rewrite Ht. simpl.
  destruct (category_to_string (productName (snd item))) as [c ->]. simpl.
  rewrite Hc. destruct (formatPrice_GHS (price (snd item))) as [p ->]. simpl.
  destruct (toFixed_ok 2 (usdPrice (snd item))) as [u ->]; [lia|]. simpl.
  rewrite He. reflexivity.
Qed.

(** *** [Set] in insertion order *)

Lemma new_set_incl {A} (eqb : A -> A -> bool) xs x : In x (new_set eqb xs) -> In x xs.
Proof.
  unfold new_set. enough (forall acc, In x (fold_left (set_add eqb) xs acc) -> In x acc \/ In x xs)
    by (intros Hx; destruct (H [] Hx); [contradiction|assumption]).
  induction xs as [|y xs IH]; simpl; [auto|]. intros acc H.
  destruct (IH _ H) as [H'|H']; [|auto]. unfold set_add in H'.
  destruct (existsb _ _); [auto|]. apply in_app_or in H' as [H'|[<-|[]]]; auto.
Qed.

Section NewSet.
Context {A : Type} (eqb : A -> A -> bool).
Hypothesis eqb_spec : forall x y, eqb x y = true <-> x = y.

Lemma set_add_spec s x :
  NoDup s -> NoDup (set_add eqb s x) /\ (forall y, In y (set_add eqb s x) <-> In y s \/ y = x).
Proof.
  intros Hs. unfold set_add. destruct (existsb (eqb x) s) eqn:E.
  - apply existsb_exists in E as [z [Hz Hxz%eqb_spec]]. subst z.
    split; [exact Hs|]. intros y. split; [auto|]. intros [H| ->]; auto.
  - split.
    + apply NoDup_app; [exact Hs|constructor; [intros []|constructor]|].
      intros y Hy [<-|[]]. assert (existsb (eqb x) s = true) by
        (apply existsb_exists; exists x; split; [exact Hy|apply eqb_spec; reflexivity]).
      congruence.
    + intros y. rewrite in_app_iff. simpl. intuition.
Qed.

(** [[...new Set(xs)]] holds every element of [xs] once. *)
Lemma new_set_spec xs : NoDup (new_set eqb xs) /\ (forall y, In y (new_set eqb xs) <-> In y xs).
Proof.
  unfold new_set.
  enough (forall acc, NoDup acc -> NoDup (fold_left (set_add eqb) xs acc)
            /\ forall y, In y (fold_left (set_add eqb) xs acc) <-> In y acc \/ In y xs) as H.
  { destruct (H [] (NoDup_nil _)) as [H1 H2]. split; [exact H1|]. intros y. rewrite H2. simpl. tauto. }
  induction xs as [|x xs IH]; simpl; intros acc Hacc; [split; [exact Hacc|tauto]|].
  destruct (set_add_spec acc x Hacc) as [Hn Hi].
  destruct (IH _ Hn) as [Hn' Hi']. split; [exact Hn'|].
  intros y. rewrite Hi', Hi. intuition.
Qed.

(** The size of the set is the number of distinct elements. *)
Lemma new_set_length (dec : forall x y : A, {x = y} + {x <> y}) xs :
  List.length (new_set eqb xs) = List.length (nodup dec xs).
Proof.
  destruct (new_set_spec xs) as [Hn Hi].
  apply Permutation_length, NoDup_Permutation; [exact Hn|apply NoDup_nodup|].
  intros y. rewrite Hi, nodup_In. reflexivity.
Qed.

End NewSet.

Lemma max_time_value_spec t ts :
  exists m, max_time_value t (map Some ts) = Some m /\ In m (t :: ts) /\ Forall (fun x => x <= m)%Z (t :: ts).
Proof.
  revert t. induction ts as [|t' ts IH]; intros t; simpl.
  - exists t. repeat constructor; lia.
  - destruct (IH (Z.max t t')) as [m [Hm [Hin Hle]]]. exists m. split; [exact Hm|].
    inversion Hle as [|? ? Hmax Hrest]. subst. split.
    + destruct Hin as [<-|Hin]; [|auto]. destruct (Z.max_spec t t') as [[_ ->]|[_ ->]]; auto.
    + constructor; [lia|]. constructor; [lia|exact Hrest].
Qed.

(** [code_unit_cmp a b] says [a] goes after [b] exactly when [a] is
    greater in code-unit order. *)
Lemma code_unit_cmp_le a b : cmp_le code_unit_cmp a b = true <-> ascii_compare a b <> Gt.
Proof.
  unfold cmp_le, cmp_gt, code_unit_cmp.
  destruct (ascii_compare a b); vm_compute; split; congruence.
Qed.

Lemma code_unit_cmp_consistent : consistent code_unit_cmp (fun _ => True).
Proof.
  split.
  - intros a b _ _. rewrite !code_unit_cmp_le, (ascii_compare_antisym a b).
    destruct (ascii_compare a b); simpl; [left|left|right]; congruence.
  - intros a b c _ _ _. rewrite !code_unit_cmp_le. apply ascii_compare_le_trans.
Qed.

(** *** [escapeHtml] *)

Lemma escape_char_spec c :
  has_char "<" (escape_char c) = false /\ has_char ">" (escape_char c) = false
  /\ has_char quote_char (escape_char c) = (c =? quote_char)%char.
Proof. destruct c as [[] [] [] [] [] [] [] []]; vm_compute; auto. Qed.

(** *** Attribute values *)

(** [decode_refs] leaves a character other than [&] as it is. *)
Lemma decode_refs_cons c r : c <> "&"%char -> decode_refs (String c r) = String c (decode_refs r).
Proof.
  destruct c as [[] [] [] [] [] [] [] []]; intros H; try reflexivity.
  exfalso. apply H. reflexivity.
Qed.

Lemma decode_refs_app s t :
  has_char "&" s = false -> decode_refs (s ++ t) = s ++ decode_refs t.
Proof.
  induction s as [|c s IH]; [reflexivity|]. intros H. simpl in H.
  change (String c s ++ t) with (String c (s ++ t)).
  apply Bool.orb_false_iff in H as [Hc Hs].
  rewrite decode_refs_cons by (intros ->; discriminate). rewrite IH by exact Hs. reflexivity.
Qed.

Lemma take_until_quote_app s t :
  has_char quote_char s = false -> take_until_quote (s ++ t) = s ++ take_until_quote t.
Proof.
  induction s as [|c s IH]; simpl; [reflexivity|]. intros H.
  apply Bool.orb_false_iff in H as [Hc Hs]. rewrite Hc, IH by exact Hs. reflexivity.
Qed.

(** *** The watchlist buttons of the table *)

Section Stars.
Context {RT : Runtime}.
Variables (tz now : Z) (data fd : list obj) (wl : jsval).

(** [updateWatchlistButton] keeps the rows in place and their
    attributes; a row changes only when the selector's value is its
    [data-commodity]. *)
Lemma updateWatchlistButton_nth name b body body' :
  updateWatchlistButton name b body = Ok body' ->
  List.length body' = List.length body /\
  forall j v', nth_error body' j = Some v' -> exists v, nth_error body j = Some v /\
    data_commodity v' = data_commodity v /\
    (in_watchlist v' = in_watchlist v \/ (css_string name = Some (data_commodity v) /\ in_watchlist v' = b)).
Proof.
  unfold updateWatchlistButton. destruct (css_string name) as [c|] eqn:Hc; [|discriminate].
  intros [= <-]. rewrite length_map. split; [reflexivity|].
  intros j v' Hj. rewrite nth_error_map in Hj.
  destruct (nth_error body j) as [v|]; [|discriminate]. injection Hj as <-.
  exists v. split; [reflexivity|].
  destruct (String.eqb_spec (data_commodity v) c) as [->|]; simpl; auto.
Qed.

(** A new row starts without its star; the rows before it may have
    theirs set by [updateWatchlistButton]. *)
Lemma render_row_star index body item body' v :
  render_row tz now data fd wl index body item = Ok (body', v) ->
  in_watchlist v = false /\
  (body' = body \/ (watch_find wl (productName (snd item)) = Ok true
                    /\ updateWatchlistButton (productName (snd item)) true body = Ok body')).
Proof.
  unfold render_row. intros H. inv_res. split; [reflexivity|].
  destruct a6; [right|left]; [auto|congruence].
Qed.

(** Every star of [rows] was set by a row further down: a row at
    position [k] whose name is in the watchlist and whose selector
    matches. *)
Definition set_by_later (rows : list row_view) : Prop :=
  forall j v, nth_error rows j = Some v -> in_watchlist v = true ->
  exists k o, (j < k < List.length rows)%nat /\ nth_error fd k = Some o
    /\ watch_find wl (productName (snd o)) = Ok true
    /\ css_string (productName (snd o)) = Some (data_commodity v).

Lemma render_rows_stars index body items rows e :
  render_rows tz now data fd wl index body items = (rows, e) ->
  List.length body = index -> items = skipn index fd -> set_by_later body -> set_by_later rows.
Proof.
  revert index body. induction items as [|item items IH]; intros index body H Hl Hi Hs; simpl in H.
  { injection H as <- _. exact Hs. }
  destruct (render_row _ _ _ _ _ index body item) as [[body' v]|e'] eqn:Er;
    [|injection H as <- _; exact Hs].
  assert (Hitem : nth_error fd index = Some item).
  { rewrite <- (Nat.add_0_r index), <- nth_error_skipn, <- Hi. reflexivity. }
  destruct (render_row_star _ _ _ _ _ Er) as [Hv Hb].
  assert (Hlen : List.length body' = List.length body).
  { destruct Hb as [->|[_ Hu]]; [reflexivity|exact (proj1 (updateWatchlistButton_nth _ _ _ _ Hu))]. }
  apply (IH (S index) (body' ++ [v])%list H).
  - rewrite length_app, Hlen, Hl. simpl. lia.
  - change (S index) with (1 + index)%nat. rewrite <- skipn_skipn, <- Hi. reflexivity.
  - intros j w Hj Hw. rewrite length_app, Hlen. simpl.
    destruct (Nat.ltb_spec j (List.length body')) as [Hlt|Hge].
    2:{ rewrite nth_error_app2 in Hj by exact Hge.
        destruct (j - List.length body')%nat as [|]; simpl in Hj; [|destruct n; discriminate].
        injection Hj as <-. congruence. }
    rewrite nth_error_app1 in Hj by exact Hlt.
    destruct Hb as [->|[Hf Hu]].
    + destruct (Hs j w Hj Hw) as (k & o & Hk & Ho). exists k, o. split; [lia|exact Ho].
    + destruct (proj2 (updateWatchlistButton_nth _ _ _ _ Hu) j w Hj) as (w0 & Hj0 & Hd & [Hst|[Hc _]]).
      * rewrite Hw in Hst. destruct (Hs j w0 Hj0 (eq_sym Hst)) as (k & o & Hk & Ho).
        exists k, o. rewrite Hd. split; [lia|exact Ho].
      * exists index, item. rewrite Hd. repeat split; auto; lia.
Qed.

End Stars.

(** ** Properties of the page values *)

(** C8: when the first row of [this.filteredData] is not in [this.data]
    at a position from 0 to the length of [this.filteredData] (a filter
    kept a row from further down the data, or the row is not in the data
    at all), [renderTable] appends no row and throws the [TypeError] of
    [getPriceChangeIndicator], which reads [this.filteredData] at an index
    of [this.data]. *)
Theorem renderTable_indicator_type_error {RT : Runtime} tz now data item rest wl :
  currency (snd item) = "GHS" ->
  (index_of (fst item) data < 0 \/ Z.of_nat (S (List.length rest)) < index_of (fst item) data)%Z ->
  renderTable tz now data (item :: rest) wl =
    ([], Throw (TypeError "Cannot read properties of undefined (reading 'price')")).
Proof.
  intros Hc Hi. unfold renderTable. simpl render_rows.
  rewrite (render_row_indicator tz now data (item :: rest) wl 0 [] item Hc)
    with (e := TypeError "Cannot read properties of undefined (reading 'price')").
  - reflexivity.
  - exists stable. reflexivity.
  - apply calculateTrend_far. exact Hi.
Qed.

(** When [this.filteredData] holds the rows of [this.data] in any
    order (no filter is active), every price indicator is computed. *)
Theorem getPriceChangeIndicator_unfiltered data fd item :
  Permutation (map fst fd) (map fst data) -> In item fd ->
  exists t, getPriceChangeIndicator data fd item = Ok t.
Proof.
  intros Hp Hin. unfold getPriceChangeIndicator. apply calculateTrend_ok.
  assert (Hd : In (fst item) (map fst data)) by (eapply Permutation_in; [exact Hp|apply in_map, Hin]).
  pose proof (index_of_in _ _ Hd). apply Permutation_length in Hp. rewrite !length_map in Hp. lia.
Qed.

(** The category of a row [loadFromNewAPI] builds is its entry in the
    category table or ['Commodity']: a title-cased name never reaches a
    member of [Object.prototype]. *)
Theorem getCommodityCategory_normalized now item r :
  normalize now item = Ok r ->
  getCommodityCategory (productName r) =
    JString (match assoc (productName r) categories with Some c => c | None => "Commodity" end).
Proof.
  intros H. unfold getCommodityCategory. destruct (assoc _ _); [reflexivity|].
  rewrite (inherited_member_productName _ _ _ H). reflexivity.
Qed.

(** C30: bounds of the GHS price: a USD price whose product with 15.5
    reaches the largest double gives the row the price [Infinity], which
    passes the retention filter ([Infinity > 0]) and is shown as
    "GH₵ Infinity". *)
Theorem price_overflow_shows_infinity {RT : Runtime} now item r u :
  normalize now item = Ok r -> usdPrice r = Fin u -> (overflow_bound <= u * (31 # 2))%Q ->
  price r = PosInf /\ num_gt (price r) (Fin 0) = true
  /\ formatPrice (price r) (currency r) = Ok ("GH" ++ cedi_sign ++ " Infinity").
Proof.
  intros Hn Hu Hq. destruct (normalize_fields _ _ _ Hn) as [Hc [_ Hp]].
  assert (Hinf : price r = PosInf) by (rewrite Hp, Hu; exact (mkfin_overflow _ Hq)).
  rewrite Hinf, Hc. repeat split.
Qed.

(** [escapeHtml] of a string leaves no [<] or [>] in its result, so
    the text cannot open a tag, but keeps every double quote: interpolated
    into the attribute [data-commodity="..."] of lines 517-522, a quote in
    a product name ends the attribute. *)
Theorem escapeHtml_string s :
  escapeHtml (JString s) = Ok (escape_text s)
  /\ has_char "<" (escape_text s) = false /\ has_char ">" (escape_text s) = false
  /\ has_char quote_char (escape_text s) = has_char quote_char s.
Proof.
  split; [reflexivity|].
  induction s as [|c s IH]; [repeat split|]. simpl escape_text.
  destruct IH as (H1 & H2 & H3). destruct (escape_char_spec c) as (E1 & E2 & E3).
  rewrite !has_char_app, H1, H2, H3, E1, E2, E3. repeat split.
Qed.

(** C24: a date-only string is UTC midnight, and [toLocaleDateString]
    spells the local day: east of UTC ([tz] between 0 and 24 h) the
    table shows the row's date, west of it (between -24 h and 0) the day
    before, as "MMM d, y". *)
Theorem formatDate_local_day tz s t :
  parse_iso_date s = Some t -> (-1440 < tz < 1440)%Z ->
  formatDate tz s = toLocaleDateString_en_US (Some (civil_from_days (t / msPerDay - (if (tz <? 0)%Z then 1 else 0)))).
Proof.
  intros H Htz. unfold formatDate, local_day. rewrite H. do 3 f_equal.
  destruct (parse_iso_date_midnight _ _ H) as [d [-> _]]. unfold msPerDay in *.
  rewrite Z.div_mul by lia. symmetry.
  destruct (Z.ltb_spec tz 0).
  - apply Z.div_unique with (r := (86400000 + tz * 60000)%Z); [left|]; lia.
  - apply Z.div_unique with (r := (tz * 60000)%Z); [left|]; lia.
Qed.

(** C12: [getTimeAgo] computes in doubles, and within [2^52] ms (about
    142,000 years) of the current time its figures are the integer ones:
    the subtraction of the two time values is exact and [Math.floor] of
    each rounded quotient is the integer quotient, so the text is the one
    of integer division; an invalid date gives "NaNd ago" in both. *)
Theorem getTimeAgo_exact now s :
  (forall t, parse_iso_date s = Some t -> Z.abs (now - t) < 2 ^ 52) ->
  getTimeAgo now s = time_ago_exact now s.
Proof.
  intros H. unfold getTimeAgo, time_ago_exact, date_value.
  destruct (parse_iso_date s) as [t|]; [|reflexivity].
  specialize (H t eq_refl). assert (H53 : (2 ^ 52 < 2 ^ 53)%Z) by reflexivity.
  rewrite num_sub_int by lia.
  rewrite !num_floor_div_int by (lia || (apply Z.leb_le; reflexivity)).
  change (Fin 60) with (Fin (inject_Z 60)). change (Fin 24) with (Fin (inject_Z 24)).
  rewrite !num_lt_int. reflexivity.
Qed.

(** C23: when every row's date is valid, the "last updated" figure is the
    latest of the rows' dates. *)
Theorem updateStats_lastUpdated_latest now data fd ts :
  map row_time data = map Some ts -> ts <> [] ->
  exists t, lastUpdated (updateStats now data fd) = Some t /\ In t ts /\ Forall (fun t' => t' <= t)%Z ts.
Proof.
  intros H Hne. unfold updateStats. simpl. rewrite H.
  destruct ts as [|t0 ts]; [congruence|]. simpl. apply max_time_value_spec.
Qed.

(** The "total products" figure is the number of distinct product
    names among the displayed rows. *)
Theorem updateStats_totalProducts now data fd :
  totalProducts (updateStats now data fd) =
    List.length (nodup string_dec (map (fun o => productName (snd o)) fd)).
Proof. apply new_set_length, String.eqb_eq. Qed.

(** When every location converts to a string, [populateFilters] runs to
    the end, and the commodity options are the sorted set of names. *)
Lemma populateFilters_ok data :
  Forall (fun o => exists s, to_string (location (snd o)) = Ok s) data ->
  exists regions, populateFilters data =
    (sort code_unit_cmp (new_set String.eqb (map (fun o => productName (snd o)) data)), regions, None).
Proof.
  intros H. unfold populateFilters. cbv zeta.
  set (defined := filter (fun v => negb (is_undefined v)) _).
  destruct (map_res_total to_string (fun _ => True) defined) as [strs [Hs _]].
  { intros v Hv. apply filter_In in Hv as [Hv _].
    apply in_map_iff in Hv as [[id v'] [<- Hp]]. apply new_set_incl in Hp.
    apply in_map_iff in Hp as [o [Ho Hin]]. injection Ho as _ <-.
    rewrite Forall_forall in H. destruct (H o Hin) as [s Hs]. eauto. }
  rewrite Hs. destruct (2 <=? _)%nat; eexists; reflexivity.
Qed.

(** When every location converts to a string, [populateFilters]
    completes and the options of the commodity select are the product
    names of the data, each once, in code-unit order. *)
Theorem populateFilters_products data :
  Forall (fun o => exists s, to_string (location (snd o)) = Ok s) data ->
  let '(products, _, e) := populateFilters data in
  e = None /\ NoDup products
  /\ (forall n, In n products <-> exists o, In o data /\ productName (snd o) = n)
  /\ StronglySorted (fun a b => ascii_compare a b <> Gt) products.
Proof.
  intros H. destruct (populateFilters_ok data H) as [regions ->].
  set (names := map (fun o => productName (snd o)) data).
  destruct (new_set_spec String.eqb String.eqb_eq names) as [Hn Hi].
  pose proof (sort_perm code_unit_cmp (new_set String.eqb names)) as Hp.
  destruct code_unit_cmp_consistent as [Ht Htr].
  split; [reflexivity|]. split; [exact (Permutation_NoDup Hp Hn)|]. split.
  - intros n. split.
    + intros Hin%(Permutation_in _ (Permutation_sym Hp)). apply Hi, in_map_iff in Hin.
      destruct Hin as [o [<- Ho]]. eauto.
    + intros [o [Ho <-]]. apply (Permutation_in _ Hp), Hi, in_map_iff. eauto.
  - eapply StronglySorted_impl_in; [|apply (sort_sorted code_unit_cmp (fun _ => True) Ht Htr)].
    + intros a b _ _. apply code_unit_cmp_le.
    + apply Forall_forall. trivial.
Qed.

(** ** Concrete boards *)

Definition gold_obj : obj :=
  (0%nat, mkRow "Gold" (Fin 62000) "GHS" (JString "New York, New York") "2023-11-13" "API Ninjas" (Fin 4000)).
Definition silver_obj : obj :=
  (1%nat, mkRow "Silver" (Fin (1457 # 4)) "GHS" (JString "New York, New York") "2023-11-14" "API Ninjas" (Fin (47 # 2))).
Definition corn_obj : obj := (2%nat, corn_row).

(** [this.data] after a load of three quotes. *)
Definition board_data : list obj := [gold_obj; silver_obj; corn_obj].

(** The corn row of the specification's scenario, in a board whose
    watchlist holds it, is shown as "Corn", category "Agriculture",
    "GH₵ 69.75" and "($4.50 USD)", in Chicago, dated Nov 14, 2023 in UTC
    and "22h ago" at 2023-11-14T22:13:20Z, with a stable trend; its
    buttons carry [data-commodity="Corn"], and its watchlist button is
    not marked although the watchlist holds corn: [updateWatchlistButton]
    ran before the row was in the document. *)
Theorem renderTable_corn_scenario :
  @renderTable ascii_runtime 0 1700000000000 [corn_obj] [corn_obj] (JArray [watch_entry 0 corn_row]) =
  ([{| name_html := "Corn"; category := "Agriculture";
       price_text := "GH" ++ cedi_sign ++ " 69.75"; usd_text := "4.50";
       indicator := stable; location_html := "Chicago, Illinois";
       date_shown := "Nov 14, 2023"; time_ago := "22h ago";
       trend_icon := renderTrend stable; data_commodity := "Corn";
       in_watchlist := false |}], Ok false).
Proof. vm_compute. reflexivity. Qed.

(** C10: a watchlist star of the table is set only by a row further down:
    [renderTable] calls [updateWatchlistButton] before it appends the
    row, so the selector reaches the rows appended before it and never
    the row itself.  A star that shows belongs to a row followed, at
    some position [k], by a row whose name is in the watchlist and whose
    selector matches; the last row never shows its star. *)
Theorem renderTable_star_set_by_later_row {RT : Runtime} tz now data fd wl rows r j v :
  renderTable tz now data fd wl = (rows, r) -> nth_error rows j = Some v -> in_watchlist v = true ->
  exists k o, (j < k < List.length rows)%nat /\ nth_error fd k = Some o
    /\ watch_find wl (productName (snd o)) = Ok true
    /\ css_string (productName (snd o)) = Some (data_commodity v).
Proof.
  unfold renderTable. destruct fd as [|o fd'].
  - intros [= <- _]. destruct j; discriminate.
  - intros H. destruct (render_rows _ _ _ _ _ 0 [] _) as [vs e] eqn:Er. injection H as <- _.
    apply (render_rows_stars tz now data (o :: fd') wl 0 [] _ vs e Er); try reflexivity.
    intros j' w Hj'. destruct j'; discriminate.
Qed.

(** Filtering the board down to its corn row breaks the table. *)
Lemma renderTable_indicator_type_error_witness :
  @renderTable ascii_runtime 0 0 board_data [corn_obj] (JArray []) =
    ([], Throw (TypeError "Cannot read properties of undefined (reading 'price')")).
Proof.
  apply renderTable_indicator_type_error; [reflexivity|]. right. vm_compute. reflexivity.
Defined.

Lemma getPriceChangeIndicator_unfiltered_witness :
  exists t, getPriceChangeIndicator board_data (rev board_data) corn_obj = Ok t.
Proof.
  apply getPriceChangeIndicator_unfiltered; simpl.
  - apply (Permutation_sym (Permutation_rev [0; 1; 2]%nat)).
  - auto.
Defined.

Lemma getCommodityCategory_normalized_witness :
  getCommodityCategory (productName corn_row) = JString "Agriculture".
Proof. apply (getCommodityCategory_normalized 0 corn_quote). vm_compute. reflexivity. Defined.

Lemma getTimeAgo_exact_witness :
  getTimeAgo 1700000000000 "2023-11-14" = time_ago_exact 1700000000000 "2023-11-14".
Proof.
  apply getTimeAgo_exact. intros t Ht. vm_compute in Ht. injection Ht as <-.
  vm_compute. reflexivity.
Defined.

Lemma formatDate_local_day_witness : formatDate (-300) "2023-11-14" = "Nov 13, 2023".
Proof.
  rewrite (formatDate_local_day (-300) "2023-11-14" 1699920000000).
  - vm_compute. reflexivity.
  - vm_compute. reflexivity.
  - lia.
Defined.

Lemma updateStats_lastUpdated_latest_witness :
  exists t, lastUpdated (updateStats 0 board_data board_data) = Some t
    /\ In t [1699833600000; 1699920000000; 1699920000000]%Z
    /\ Forall (fun t' => t' <= t)%Z [1699833600000; 1699920000000; 1699920000000]%Z.
Proof. apply updateStats_lastUpdated_latest; vm_compute; congruence. Defined.

Lemma populateFilters_products_witness :
  let '(products, _, e) := populateFilters board_data in
  e = None /\ NoDup products
  /\ (forall n, In n products <-> exists o, In o board_data /\ productName (snd o) = n)
  /\ StronglySorted (fun a b => ascii_compare a b <> Gt) products.
Proof. apply populateFilters_products. repeat constructor; eexists; reflexivity. Defined.

(** Corn listed twice, both watched: the first row's star is set by the
    second, the second's by none. *)
Definition corn_twice : list obj := [(0%nat, corn_row); (1%nat, corn_row)].

Definition corn_view (star : bool) : row_view :=
  {| name_html := "Corn"; category := "Agriculture";
     price_text := "GH" ++ cedi_sign ++ " 69.75"; usd_text := "4.50";
     indicator := stable; location_html := "Chicago, Illinois";
     date_shown := "Nov 14, 2023"; time_ago := "22h ago";
     trend_icon := renderTrend stable; data_commodity := "Corn";
     in_watchlist := star |}.

Lemma renderTable_star_set_by_later_row_witness :
  exists k o, (0 < k < List.length [corn_view true; corn_view false])%nat
    /\ nth_error corn_twice k = Some o
    /\ watch_find (JArray [watch_entry 0 corn_row]) (productName (snd o)) = Ok true
    /\ @css_string ascii_runtime (productName (snd o)) = Some (data_commodity (corn_view true)).
Proof.
  apply (renderTable_star_set_by_later_row (RT := ascii_runtime) 0 1700000000000 corn_twice corn_twice
           (JArray [watch_entry 0 corn_row]) [corn_view true; corn_view false] (Ok false) 0 (corn_view true));
    vm_compute; reflexivity.
Defined.

(** Gold quoted at 10^308 USD. *)
Definition huge_gold : jsval :=
  JObject [("name", JString "gold"); ("exchange", JString "COMEX");
           ("updated", JNumber (Fin 1700000000)); ("price", JNumber (Fin (inject_Z (10 ^ 308))))].

Lemma price_overflow_shows_infinity_witness :
  PosInf = PosInf /\ num_gt PosInf (Fin 0) = true
  /\ @formatPrice ascii_runtime PosInf "GHS" = Ok ("GH" ++ cedi_sign ++ " Infinity").
Proof.
  apply (price_overflow_shows_infinity (RT := ascii_runtime) 0 huge_gold
           (mkRow "Gold" PosInf "GHS" (JString "New York, New York") "2023-11-14" "API Ninjas"
                  (Fin (inject_Z (10 ^ 308))))
           (inject_Z (10 ^ 308))).
  - vm_compute. reflexivity.
  - reflexivity.
  - unfold overflow_bound, Qle. simpl. lia.
Defined.
