(* ===== verification/Markup.v ===== *)
(** * The markup of a table row

    [renderTable] (lines 484-524 of [src/script.js]) sets the
    [innerHTML] of each new row to a template literal that interpolates
    the values of [Presentation.row_view]: [row_markup] is that text,
    whitespace included.  The values that are markup themselves are the
    price indicator ([Presentation.price_indicator]) and the trend icon
    ([Presentation.renderTrend]); the product name and the location are
    escaped ([escapeHtml]), and the other values are text the code
    builds from numbers, dates and fixed strings.

    The theorem of this file counts the [<] of a row's markup, each the
    start of a tag: on a row of the board, every one of them is the
    template's own, so no value of the API adds an element; but the
    quotes of a product name reach the two [data-commodity="..."]
    attributes unescaped. *)

From Stdlib Require Import List String Ascii ZArith QArith Lia DecimalString.
From S2P Require Import Prelude JsNum JsValue NumText Text Dates Normalizer Presentation.
Import ListNotations.
Open Scope string_scope.
Open Scope bool_scope.
Open Scope pb_scope.

(** ** The template *)

Definition newline : string := String (ascii_of_nat 10) EmptyString.

(** A line of the template literal: a line break, then [n] spaces of
    indentation before the text [s]. *)
Definition line (n : nat) (s : string) : string := newline ++ repeat_char n " " ++ s.

(** The markup [<tag class="cls">]. *)
Definition open_tag (tag cls : string) : string := "<" ++ tag ++ " class=" ++ quoted cls ++ ">".

(** [row.innerHTML = `...`] (lines 489-524), the values of [v] in
    place of the substitutions. *)
Definition row_markup (v : row_view) : string :=
  line 16 (open_tag "td" "commodity-cell") ++
  line 20 (open_tag "div" "commodity-info") ++
  line 24 ("<strong>" ++ name_html v ++ "</strong>") ++
  line 24 (open_tag "small" "commodity-category" ++ category v ++ "</small>") ++
  line 20 "</div>" ++
  line 16 "</td>" ++
  line 16 (open_tag "td" "price-cell") ++
  line 20 (open_tag "div" "price-info") ++
  line 24 (open_tag "div" "primary-price" ++ price_text v ++ "</div>") ++
  line 24 (open_tag "div" "secondary-price" ++ "($" ++ usd_text v ++ " USD)</div>") ++
  line 24 (open_tag "div" "price-change" ++ price_indicator (indicator v) ++ "</div>") ++
  line 20 "</div>" ++
  line 16 "</td>" ++
  line 16 (open_tag "td" "location-cell") ++
  line 20 (open_tag "div" "location-info") ++
  line 24 (open_tag "i" "fas fa-map-marker-alt" ++ "</i>") ++
  line 24 ("<span>" ++ location_html v ++ "</span>") ++
  line 20 "</div>" ++
  line 16 "</td>" ++
  line 16 (open_tag "td" "date-cell") ++
  line 20 (open_tag "div" "date-info") ++
  line 24 (open_tag "div" "update-time" ++ date_shown v ++ "</div>") ++
  line 24 (open_tag "small" "time-ago" ++ time_ago v ++ "</small>") ++
  line 20 "</div>" ++
  line 16 "</td>" ++
  line 16 (open_tag "td" "trend-cell" ++ trend_icon v ++ "</td>") ++
  line 16 (open_tag "td" "actions-cell") ++
  line 20 ("<button class=" ++ quoted "btn btn-sm btn-info commodity-details-btn"
           ++ " data-commodity=" ++ quoted (name_html v) ++ " title=" ++ quoted "View Details" ++ ">") ++
  line 24 (open_tag "i" "fas fa-info-circle" ++ "</i>") ++
  line 20 "</button>" ++
  line 20 ("<button class=" ++ quoted "btn btn-sm btn-secondary watchlist-btn"
           ++ " data-commodity=" ++ quoted (name_html v) ++ " title=" ++ quoted "Add to Watchlist" ++ ">") ++
  line 24 (open_tag "i" "fas fa-star" ++ "</i>") ++
  line 20 "</button>" ++
  line 16 "</td>" ++
  newline ++ repeat_char 12 " ".

(** The occurrences of the character [c] in [s]. *)
Fixpoint count_char (c : ascii) (s : string) : nat :=
  match s with
  | EmptyString => O
  | String c' s' => (if (c' =? c)%char then 1 else 0) + count_char c s'
  end.

(** ** Characters of strings *)

Lemma count_char_app c a b : count_char c (a ++ b) = (count_char c a + count_char c b)%nat.
Proof. induction a as [|x a IH]; simpl; [reflexivity|]. rewrite IH. lia. Qed.

Lemma count_char_none c s : has_char c s = false -> count_char c s = O.
Proof.
  induction s as [|x s IH]; simpl; [reflexivity|].
  intros H. apply orb_false_iff in H as [H1 H2]. rewrite H1. simpl. auto.
Qed.

Lemma has_char_substring c i j s : has_char c s = false -> has_char c (substring i j s) = false.
Proof.
  revert i j. induction s as [|x s IH]; intros [|i] [|j] H; simpl; auto;
    simpl in H; apply orb_false_iff in H as [H1 H2]; rewrite ?H1; simpl; auto.
Qed.

Lemma has_char_repeat c n d : d <> c -> has_char c (repeat_char n d) = false.
Proof.
  intros Hd. induction n as [|n IH]; simpl; [reflexivity|].
  rewrite IH, orb_false_r. apply Ascii.eqb_neq. exact Hd.
Qed.

#[export] Hint Rewrite count_char_app : pb_rw.

(** ** Values without a tag

    [tag_free s]: the text [s] holds no [<], so it opens no tag. *)
Abbreviation tag_free s := (has_char "<" s = false).

(** Rewrites a goal [has_char "<" t = false] into the pieces of [t]. *)
Ltac tag_split :=
  autorewrite with pb_rw;
  repeat match goal with
         | H : has_char "<" ?s = false |- context [has_char "<" ?s] => rewrite H
         end.

Lemma digits_k_is_digits k s : is_digits (digits_k k s).
Proof.
  revert s. induction k as [|k IH]; intros s; simpl; [constructor|].
  apply Forall_app. split; [apply IH|]. constructor; [|constructor].
  pose proof (Z.mod_pos_bound s 10). lia.
Qed.

Lemma digits_tag_free ds : is_digits ds -> tag_free (digits_to_string ds).
Proof.
  induction 1 as [|d ds Hd _ IH]; [reflexivity|]. cbn [digits_to_string has_char]. rewrite IH, orb_false_r.
  assert (exists m, d = Z.of_nat m /\ (m <= 9)%nat) as [m [-> Hm]] by (exists (Z.to_nat d); split; lia).
  do 10 (destruct m as [|m]; [reflexivity|]). lia.
Qed.

Lemma Z_to_decimal_tag_free z : tag_free (Z_to_decimal z).
Proof.
  destruct (Z_le_gt_dec 0 z) as [Hz|Hz].
  - destruct (Z_to_decimal_digits z Hz) as (ds & -> & Hds & _). now apply digits_tag_free.
  - destruct z as [|p|p]; [lia|lia|]. unfold Z_to_decimal. cbn [Z.to_int NilEmpty.string_of_int].
    rewrite string_of_uint_digits. apply (digits_tag_free _ (uint_digits_ok _)).
Qed.

Lemma format_decimal_tag_free s n : tag_free s -> tag_free (format_decimal s n).
Proof.
  intros H. unfold format_decimal.
  destruct (_ && _); [tag_split; now rewrite has_char_repeat|].
  destruct (_ && _); [tag_split; now rewrite !has_char_substring|].
  destruct (_ && _); [tag_split; now rewrite has_char_repeat|].
  destruct s as [|c r]; [reflexivity|]. cbn [has_char] in H. apply orb_false_iff in H as [Hc Hr].
  assert (He : forall x, tag_free x -> tag_free (String c x)) by (intros x Hx; cbn [has_char]; now rewrite Hc, Hx).
  destruct r as [|c' r]; apply He; tag_split; destruct (0 <=? _)%Z; rewrite Z_to_decimal_tag_free; reflexivity.
Qed.

Lemma number_to_string_tag_free q : tag_free (number_to_string q).
Proof.
  unfold number_to_string. destruct (Qeq_bool q 0); [reflexivity|].
  assert (Hs : tag_free (if (Qnum q <? 0)%Z then "-" else "")) by (destruct (_ <? _)%Z; reflexivity).
  destruct (shortest_decimal _) as [[[s n] k]|].
  - tag_split. apply format_decimal_tag_free, digits_tag_free, digits_k_is_digits.
  - destruct (decimal_of q) as [[m e]|]; [|reflexivity].
    tag_split. apply format_decimal_tag_free, Z_to_decimal_tag_free.
Qed.

Lemma num_to_string_tag_free n : tag_free (num_to_string n).
Proof. destruct n; [reflexivity..|apply number_to_string_tag_free]. Qed.

Lemma fixed_digits_tag_free n f : tag_free (fixed_digits n f).
Proof.
  unfold fixed_digits. pose proof (Z_to_decimal_tag_free n) as Hm. destruct f as [|f]; [exact Hm|].
  set (m' := if (_ <=? _)%nat then _ else _).
  assert (H : tag_free m') by (subst m'; destruct (_ <=? _)%nat; tag_split; now rewrite ?has_char_repeat).
  tag_split. now rewrite !has_char_substring.
Qed.

Lemma toFixed_tag_free f x s : toFixed f x = Ok s -> tag_free s.
Proof.
  unfold toFixed. destruct (100 <? f)%nat; [discriminate|].
  destruct x as [| | |q]; intros [= <-]; [reflexivity..|].
  assert (Hs : tag_free (if Qltb q 0 then "-" else "")) by (destruct (Qltb q 0); reflexivity).
  tag_split. destruct (Qle_bool _ _); [apply number_to_string_tag_free|apply fixed_digits_tag_free].
Qed.

Lemma formatPrice_GHS_tag_free {RT : Runtime} p s : formatPrice p "GHS" = Ok s -> tag_free s.
Proof.
  unfold formatPrice. destruct (is_nan p); [intros [= <-]; reflexivity|]. rewrite String.eqb_refl.
  intros H. inv_res. apply toFixed_tag_free in Ha. tag_split. reflexivity.
Qed.

Lemma month_short_tag_free m : tag_free (month_short m).
Proof.
  unfold month_short. destruct (nth_in_or_default (Z.to_nat (m - 1)) month_names "") as [Hin | ->]; [|reflexivity].
  assert (Hall : forallb (fun s => negb (has_char "<" s)) month_names = true) by reflexivity.
  rewrite forallb_forall in Hall. apply Hall, negb_true_iff in Hin. exact Hin.
Qed.

Lemma formatDate_tag_free tz s : tag_free (formatDate tz s).
Proof.
  unfold formatDate, toLocaleDateString_en_US. destruct (local_day tz s) as [[[y m] d]|]; [|reflexivity].
  pose proof (month_short_tag_free m). pose proof (Z_to_decimal_tag_free d).
  pose proof (Z_to_decimal_tag_free (year_of_era y)). tag_split. reflexivity.
Qed.

Lemma getTimeAgo_tag_free now s : tag_free (getTimeAgo now s).
Proof.
  unfold getTimeAgo.
  repeat match goal with |- context [if ?b then _ else _] => destruct b end;
    tag_split; rewrite num_to_string_tag_free; reflexivity.
Qed.

Lemma escapeHtml_tag_free v s : escapeHtml v = Ok s -> tag_free s.
Proof.
  unfold escapeHtml. intros H. inv_res. clear Ha.
  induction a as [|c r IH]; [reflexivity|]. cbn [escape_text]. rewrite has_char_app, IH, orb_false_r.
  apply (proj1 (escape_char_spec c)).
Qed.

Lemma assoc_in k l v : assoc k l = Some v -> In v (map snd l).
Proof.
  induction l as [|[k' v'] l IH]; simpl; [discriminate|].
  destruct (String.eqb k k'); [intros [= <-]; now left|intros H; right; auto].
Qed.

(** A category is an entry of the table, ['Commodity'], or a member of
    [Object.prototype] printed: none holds a tag. *)
Lemma category_tag_free name s : to_string (getCommodityCategory name) = Ok s -> tag_free s.
Proof.
  unfold getCommodityCategory. destruct (assoc name categories) as [c|] eqn:E.
  - intros [= <-]. apply assoc_in in E.
    assert (Hall : forallb (fun s => negb (has_char "<" s)) (map snd categories) = true) by reflexivity.
    rewrite forallb_forall in Hall. apply Hall, negb_true_iff in E. exact E.
  - unfold inherited_member.
    destruct (String.eqb name "__proto__"); [intros [= <-]; reflexivity|].
    destruct (String.eqb name "constructor"); [intros [= <-]; reflexivity|].
    destruct (existsb (String.eqb name) _) eqn:Ex; [|intros [= <-]; reflexivity].
    apply existsb_exists in Ex as (k & Hk & Hn). apply String.eqb_eq in Hn. subst k.
    intros [= <-]. repeat destruct Hk as [<-|Hk]; try reflexivity. destruct Hk.
Qed.

(** The indicator and the icon of a trend are one element each. *)
Lemma trend_markup_tags t :
  count_char "<" (price_indicator t) = 2%nat /\ count_char "<" (renderTrend t) = 2%nat.
Proof. destruct t; split; reflexivity. Qed.

(** The template holds 46 tags of its own; each value adds its own [<],
    the escaped name three times. *)
Lemma row_markup_tags v :
  count_char "<" (row_markup v) =
    (46 + 3 * count_char "<" (name_html v) + count_char "<" (category v) + count_char "<" (price_text v)
     + count_char "<" (usd_text v) + count_char "<" (price_indicator (indicator v))
     + count_char "<" (location_html v) + count_char "<" (date_shown v) + count_char "<" (time_ago v)
     + count_char "<" (trend_icon v))%nat.
Proof.
  unfold row_markup, line, open_tag, quoted, newline. rewrite !count_char_app.
  generalize (name_html v) (category v) (price_text v) (usd_text v) (price_indicator (indicator v))
    (location_html v) (date_shown v) (time_ago v) (trend_icon v). intros.
  simpl. rewrite !count_char_app. simpl. lia.
Qed.

(** ** The markup of a row of the board *)

Section Rows.
Context {RT : Runtime}.
Variables (tz now : Z) (data filteredData : list obj) (wl : jsval).

(** C25: the markup of a rendered row of the board (its price in GHS, as
    every row [loadFromNewAPI] builds) holds exactly the template's 50
    tags: the name and the location are escaped and every other value is
    a number, a date or a fixed text, so nothing the API sends opens an
    element.  The name is escaped as text only: its double quotes reach
    the two attributes [data-commodity="..."] as they are. *)
Theorem render_row_markup_tags index body item body' v :
  currency (snd item) = "GHS" ->
  render_row tz now data filteredData wl index body item = Ok (body', v) ->
  count_char "<" (row_markup v) = 50%nat
  /\ name_html v = escape_text (productName (snd item))
  /\ has_char quote_char (name_html v) = has_char quote_char (productName (snd item)).
Proof.
  intros Hc H. unfold render_row in H. inv_res.
  rewrite Hc in Ha2. cbn [escapeHtml to_string bind] in Ha0. injection Ha0 as <-.
  rewrite row_markup_tags. cbn [name_html category price_text usd_text indicator location_html date_shown time_ago trend_icon].
  split; [|split; [reflexivity|exact (proj2 (proj2 (proj2 (escapeHtml_string _))))]].
  assert (Hu : tag_free (if String.eqb a3 "" then "N/A" else a3))
    by (destruct (String.eqb a3 ""); [reflexivity|exact (toFixed_tag_free _ _ _ Ha3)]).
  rewrite (count_char_none _ _ (proj1 (proj2 (escapeHtml_string _)))),
    (count_char_none _ _ (category_tag_free _ _ Ha1)), (count_char_none _ _ (formatPrice_GHS_tag_free _ _ Ha2)),
    (count_char_none _ _ Hu), (count_char_none _ _ (escapeHtml_tag_free _ _ Ha5)),
    (count_char_none _ _ (formatDate_tag_free _ _)), (count_char_none _ _ (getTimeAgo_tag_free _ _)),
    (proj1 (trend_markup_tags a4)), (proj2 (trend_markup_tags a)).
  reflexivity.
Qed.

End Rows.

(** ** A name with quotes *)

(** A product name that closes the attribute and adds one of its own. *)
Definition quoted_name : string :=
  "Corn" ++ String quote_char " onmouseover=" ++ String quote_char "alert(1)".

Definition quoted_obj : obj :=
  (0%nat, mkRow quoted_name (Fin (279 # 4)) "GHS" (JString "Chicago, Illinois") "2023-11-14" "API Ninjas" (Fin (9 # 2))).

Definition quoted_view : row_view :=
  match @render_row ascii_runtime 0 1700000000000 [quoted_obj] [quoted_obj] (JArray []) 0 [] quoted_obj with
  | Ok (_, v) => v
  | Throw _ => mkRowView "" "" "" "" stable "" "" "" "" "" false
  end.

(** The buttons of its row read [data-commodity="Corn"]: the rest of
    the name is an attribute [onmouseover] of each button. *)
Lemma quoted_view_attribute : data_commodity quoted_view = "Corn".
Proof. vm_compute. reflexivity. Qed.

Lemma render_row_markup_tags_witness :
  count_char "<" (row_markup quoted_view) = 50%nat
  /\ name_html quoted_view = escape_text (productName (snd quoted_obj))
  /\ has_char quote_char (name_html quoted_view) = has_char quote_char (productName (snd quoted_obj)).
Proof.
  apply (render_row_markup_tags (RT := ascii_runtime) 0 1700000000000 [quoted_obj] [quoted_obj] (JArray [])
           0 [] quoted_obj []); [reflexivity|].
  vm_compute. reflexivity.
Defined.
