(* ===== verification/App.v ===== *)
(** * The page: [PriceBoardApp]'s state and its event handlers

    The object [PriceBoardApp] (lines 2-651 of [src/script.js]) as a
    state ([app]) and the events that change it ([event], [step]):

    - [init] is the constructor and [init()] up to the [await] of
      [loadData()]: the watchlist read from storage, the page's controls
      at their initial values, and the first load started;
    - [loadData()] (lines 72-88) runs in two steps, since it awaits
      [loadFromNewAPI()]: [loadData_start] ([setLoading(true)],
      [hideError()], the requests sent) and [loadData_finish] (the
      responses arrived: the rows assigned to [this.data], [updateStats],
      [populateFilters], [applyFilters], the [catch] that shows the one
      error message, the [finally] that hides the spinner); [load_rows]
      is the [try] block once the rows arrived.  [enabled] lets a retry
      start a load in every state, an over-approximation of the page
      (the retry button may be hidden while a load is pending); [pending]
      counts the loads;
    - [applyFilters()] (lines 430-451), called by the change events of the
      three selects and by the search box's debounce timer;
    - the search box's [input] handler (lines 60-66): [clearTimeout] and a
      new 300 ms timer, so at most one timer is pending ([searchTimer]);
      [Overlay] runs the timer on a clock;
    - a click on a row's star: [addToWatchlist(item)], whose button
      update is [updateWatchlistButton] on the table's rows.

    An exception thrown by an event handler other than [loadData] is not
    caught: the handler stops and the changes made before the throw stay.
    The objects of [this.data] are numbered by [nextId] as they are
    created ([Presentation.obj]). *)

From Stdlib Require Import List String ZArith QArith Lia Permutation.
From S2P Require Import Prelude JsNum JsValue Text Dates Fetcher Normalizer StableSort FilterSort Watchlist Presentation.
Import ListNotations.
Open Scope string_scope.
Open Scope bool_scope.
Open Scope pb_scope.

(** The fields of the object, the values of its page elements that the
    code reads back (the four controls) or writes (the table, the
    panels, the figures, the options of the selects). *)
Record app : Type := mkApp {
  data : list obj;
  filteredData : list obj;
  isLoading : bool;
  currentError : option string;
  wl : wl_state;
  controls : filter_state;
  table : list row_view;
  noDataShown : bool;
  statsShown : option stats;
  options : list string * list string;
  searchTimer : bool;
  pending : nat;
  nextId : nat
}.

Inductive event : Type :=
| LoadStart                                  (** [loadData()]: start-up or the retry button *)
| LoadDone (api : Api) (now : Z)             (** the awaited requests have settled *)
| CropChange (now : Z) (v : string)          (** [change] on the commodity select *)
| RegionChange (now : Z) (v : string)        (** [change] on the location select *)
| SortChange (now : Z) (v : string)          (** [change] on the sort select *)
| SearchInput (text : string)                (** [input] on the search box *)
| SearchTimer (now : Z)                      (** the debounce timer fires *)
| WatchToggle (now : Z) (item : obj).        (** the star of a table row *)

Definition loadErrorMessage : string :=
  "Unable to load data. Please check your connection and try again.".

(** ** Updates of single fields *)

Definition with_controls (s : app) (c : filter_state) : app :=
  mkApp (data s) (filteredData s) (isLoading s) (currentError s) (wl s) c (table s)
        (noDataShown s) (statsShown s) (options s) (searchTimer s) (pending s) (nextId s).

Definition with_view (s : app) (fd : list obj) (t : list row_view) (nd : bool) (st : option stats) : app :=
  mkApp (data s) fd (isLoading s) (currentError s) (wl s) (controls s) t nd st
        (options s) (searchTimer s) (pending s) (nextId s).

Definition with_wl (s : app) (w : wl_state) (t : list row_view) : app :=
  mkApp (data s) (filteredData s) (isLoading s) (currentError s) w (controls s) t
        (noDataShown s) (statsShown s) (options s) (searchTimer s) (pending s) (nextId s).

Definition with_timer (s : app) (b : bool) : app :=
  mkApp (data s) (filteredData s) (isLoading s) (currentError s) (wl s) (controls s) (table s)
        (noDataShown s) (statsShown s) (options s) b (pending s) (nextId s).

(** [setLoading(b)] with the error state: [setLoading(true)] empties the
    table body; [showError] empties it too. *)
Definition with_status (s : app) (loading : bool) (err : option string) (t : list row_view) (p : nat) : app :=
  mkApp (data s) (filteredData s) loading err (wl s) (controls s) t
        (noDataShown s) (statsShown s) (options s) (searchTimer s) p (nextId s).

Definition with_data (s : app) (d : list obj) (n : nat) : app :=
  mkApp d (filteredData s) (isLoading s) (currentError s) (wl s) (controls s) (table s)
        (noDataShown s) (statsShown s) (options s) (searchTimer s) (pending s) n.

Definition with_options (s : app) (o : list string * list string) (c : filter_state) (st : option stats) : app :=
  mkApp (data s) (filteredData s) (isLoading s) (currentError s) (wl s) c (table s)
        (noDataShown s) st o (searchTimer s) (pending s) (nextId s).

(** The row objects [rows.map(...)] creates, numbered from [n]. *)
Fixpoint alloc (n : nat) (rows : list row) : list obj :=
  match rows with
  | [] => []
  | r :: rows' => (n, r) :: alloc (S n) rows'
  end.

Section Handlers.
Context {RT : Runtime}.
(** The local time zone, in minutes east of UTC. *)
Variable tz : Z.

(** [sortData(sortBy)] on the objects of [this.filteredData]. *)
Definition sortData_objs (sortBy : string) (fd : list obj) : list obj :=
  sort (fun a b => comparator sortBy (snd a) (snd b)) fd.

(** [applyFilters()] at time [now]: the state after it, and the
    exception that stopped it. *)
Definition applyFilters_app (now : Z) (s : app) : app * option exn :=
  let c := controls s in
  match filter_res (fun o => matches (to_lower (searchInput c)) (cropFilter c) (regionFilter c) (snd o))
                   (data s) with
  | Throw e => (s, Some e)
  | Ok filtered =>
      let fd := sortData_objs (sortBy c) filtered in
      let '(rows, r) := renderTable tz now (data s) fd (watchlist (wl s)) in
      match r with
      | Throw e => (with_view s fd rows (noDataShown s) (statsShown s), Some e)
      | Ok nd => (with_view s fd rows nd (Some (updateStats now (data s) fd)), None)
      end
  end.

(** [loadData()] up to its [await]. *)
Definition loadData_start (s : app) : app :=
  with_status s true None [] (S (pending s)).

(** The rest of the [try] block once [loadFromNewAPI()] returned: its
    rows become new objects of [this.data]; [updateStats()] reads the
    old [this.filteredData]; [populateFilters()] replaces the options,
    which selects "All" in both selects; then [applyFilters()].  The
    state, and the exception that stopped the block. *)
Definition load_rows (now : Z) (rows : list row) (s : app) : app * option exn :=
  let objs := alloc (nextId s) rows in
  let s1 := with_data s objs (nextId s + List.length rows) in
  let st := Some (updateStats now objs (filteredData s1)) in
  let '(prods, regs, e) := populateFilters objs in
  let c := controls s1 in
  let s2 := with_options s1 (prods, regs) (mkFilterState (searchInput c) "" "" (sortBy c)) st in
  match e with
  | Some e => (s2, Some e)
  | None => applyFilters_app now s2
  end.

(** The body of [loadData()] after the [await], with its [catch] and
    [finally]: any exception of the [try] block shows the error message
    and empties the table; the spinner is hidden. *)
Definition loadData_finish (api : Api) (now : Z) (s : app) : app :=
  let '(s1, err) :=
    match loadFromNewAPI api now with
    | Throw e => (s, Some e)
    | Ok rows => load_rows now rows s
    end in
  match err with
  | Some _ => with_status s1 false (Some loadErrorMessage) [] (pred (pending s))
  | None => with_status s1 false (currentError s1) (table s1) (pred (pending s))
  end.

(** The handler of each event. *)
Definition step (s : app) (ev : event) : app :=
  match ev with
  | LoadStart => loadData_start s
  | LoadDone api now => loadData_finish api now s
  | CropChange now v =>
      let c := controls s in
      fst (applyFilters_app now (with_controls s (mkFilterState (searchInput c) v (regionFilter c) (sortBy c))))
  | RegionChange now v =>
      let c := controls s in
      fst (applyFilters_app now (with_controls s (mkFilterState (searchInput c) (cropFilter c) v (sortBy c))))
  | SortChange now v =>
      let c := controls s in
      fst (applyFilters_app now (with_controls s (mkFilterState (searchInput c) (cropFilter c) (regionFilter c) v)))
  | SearchInput text =>
      let c := controls s in
      with_timer (with_controls s (mkFilterState text (cropFilter c) (regionFilter c) (sortBy c))) true
  | SearchTimer now =>
      if searchTimer s then fst (applyFilters_app now (with_timer s false)) else s
  | WatchToggle now item =>
      let '(w, t, _) := addToWatchlist updateWatchlistButton now (snd item) (wl s) (table s) in
      with_wl s w t
  end.

(** The events that can happen in a state: a load completes only when
    one is pending, at a valid time ([new Date()] is one), a select takes one of its options, a star belongs to
    a row of the table. *)
Definition enabled (s : app) (ev : event) : Prop :=
  match ev with
  | LoadDone _ now => 0 < pending s /\ (Z.abs now <= max_time)%Z
  | CropChange _ v => v = "" \/ In v (fst (options s))
  | RegionChange _ v => v = "" \/ In v (snd (options s))
  | SearchTimer _ => searchTimer s = true
  | WatchToggle _ item => In item (firstn (List.length (table s)) (filteredData s))
  | _ => True
  end%nat.

(** The constructor and [init()]: [loadWatchlistFromStorage()] on the
    stored text, then [loadData()] up to its [await]. *)
Definition init (saved : option string) (c0 : filter_state) : app :=
  loadData_start
    (mkApp [] [] false None (mkWlState (loadWatchlistFromStorage saved) saved []) c0 [] false None
           ([], []) false 0 0).

Inductive reachable (saved : option string) (c0 : filter_state) : app -> Prop :=
| reachable_init : reachable saved c0 (init saved c0)
| reachable_step s ev : reachable saved c0 s -> enabled s ev -> reachable saved c0 (step s ev).

(** A sequence of events. *)
Definition run (s : app) (evs : list event) : app := fold_left step evs s.

End Handlers.

(** ** Lemmas *)

Lemma alloc_snd n rows : map snd (alloc n rows) = rows.
Proof. revert n. induction rows as [|r rows IH]; intros n; simpl; [reflexivity|]. now rewrite IH. Qed.

Lemma alloc_fst n rows : map fst (alloc n rows) = seq n (List.length rows).
Proof. revert n. induction rows as [|r rows IH]; intros n; simpl; [reflexivity|]. now rewrite IH. Qed.

(** The new objects are distinct and numbered below the new counter. *)
Lemma alloc_fresh n rows :
  NoDup (map fst (alloc n rows)) /\ Forall (fun o => fst o < n + List.length rows)%nat (alloc n rows).
Proof.
  rewrite alloc_fst. split; [apply seq_NoDup|].
  apply Forall_forall. intros o Ho. apply (in_map fst) in Ho. rewrite alloc_fst, in_seq in Ho. lia.
Qed.

(** What every reachable state satisfies: the rows in [this.data] and
    [this.filteredData] are valid rows of [loadFromNewAPI] whose dates
    read back as valid days, the spinner is shown only while a load is
    pending, the only error message is the load's, and the row objects
    are distinct and numbered below the counter. *)
Definition obj_ok (o : obj) : Prop := row_wf (snd o) /\ date_ok (date (snd o)).

Definition app_inv (s : app) : Prop :=
  Forall obj_ok (data s)
  /\ Forall obj_ok (filteredData s)
  /\ (isLoading s = true -> 0 < pending s)%nat
  /\ (currentError s = None \/ currentError s = Some loadErrorMessage)
  /\ NoDup (map fst (data s))
  /\ Forall (fun o => fst o < nextId s)%nat (data s).

Section HandlerLemmas.
Context {RT : Runtime}.
Variable tz : Z.

(** [applyFilters()] changes only the view; the new [this.filteredData]
    is made of objects of [this.data]. *)
Lemma applyFilters_app_view now s s' err :
  applyFilters_app tz now s = (s', err) ->
  exists fd t nd st, s' = with_view s fd t nd st /\ (fd = filteredData s \/ incl fd (data s)).
Proof.
  unfold applyFilters_app. cbv zeta.
  destruct (filter_res _ (data s)) as [filtered|e] eqn:Hf.
  - destruct (renderTable _ _ _ _ _) as [rows [nd|e]]; intros [= <- _]; do 4 eexists;
      (split; [reflexivity|right]);
      intros o Ho%(Permutation_in _ (Permutation_sym (sort_perm _ filtered)));
      apply filter_res_Ok in Hf as [_ ->]; apply filter_In in Ho as [Ho _]; exact Ho.
  - intros [= <- _]. exists (filteredData s), (table s), (noDataShown s), (statsShown s).
    split; [destruct s; reflexivity|now left].
Qed.

Lemma app_inv_view s fd t nd st :
  app_inv s -> (fd = filteredData s \/ incl fd (data s)) -> app_inv (with_view s fd t nd st).
Proof.
  intros (Hd & Hf & Hl & He & Hn & Hi) Hfd. unfold with_view. repeat split; simpl; auto.
  destruct Hfd as [->|Hfd]; [exact Hf|]. apply Forall_forall. intros o Ho.
  exact (proj1 (Forall_forall _ _) Hd o (Hfd o Ho)).
Qed.

Lemma applyFilters_app_inv now s : app_inv s -> app_inv (fst (applyFilters_app tz now s)).
Proof.
  intros H. destruct (applyFilters_app tz now s) as [s' err] eqn:E.
  destruct (applyFilters_app_view _ _ _ _ E) as (fd & t & nd & st & -> & Hfd).
  now apply app_inv_view.
Qed.

Lemma app_inv_status s l e t p :
  app_inv s -> (l = true -> 0 < p)%nat -> (e = None \/ e = Some loadErrorMessage) ->
  app_inv (with_status s l e t p).
Proof. intros (Hd & Hf & _ & _ & Hn & Hi) Hl He. repeat split; auto. Qed.

(** A completed load keeps the invariant: the new objects hold valid
    rows and fresh numbers. *)
Lemma loadData_finish_inv api now s :
  app_inv s -> Z.abs now <= max_time -> app_inv (loadData_finish tz api now s).
Proof.
  intros H Hnow. unfold loadData_finish.
  destruct (loadFromNewAPI api now) as [rows|e] eqn:Hl;
    [|apply app_inv_status; auto; discriminate].
  unfold load_rows. cbv zeta. destruct (alloc_fresh (nextId s) rows) as [Hn Hi].
  assert (Hs2 : forall o c st, app_inv (with_options (with_data s (alloc (nextId s) rows)
                                   (nextId s + List.length rows)) o c st)).
  { intros o c st. destruct H as (_ & Hf & Hld & He & _). repeat split; simpl; auto.
    apply Forall_forall. intros x Hx. apply (in_map snd) in Hx. rewrite alloc_snd in Hx.
    exact (conj (loadFromNewAPI_row_wf _ _ _ _ Hl Hx) (loadFromNewAPI_row_date _ _ _ _ Hl Hnow Hx)). }
  destruct (populateFilters _) as [[prods regs] [e|]].
  - apply app_inv_status; auto. discriminate.
  - destruct (applyFilters_app tz now _) as [s1 err] eqn:Ha.
    destruct (applyFilters_app_view _ _ _ _ Ha) as (fd & t & nd & st & -> & Hfd).
    assert (Hv := app_inv_view _ fd t nd st (Hs2 _ _ _) Hfd).
    destruct err; apply app_inv_status; auto; try discriminate.
    destruct H as (_ & _ & _ & He & _). exact He.
Qed.

Lemma app_inv_controls s c : app_inv s -> app_inv (with_controls s c).
Proof. intros (Hd & Hf & Hl & He & Hn & Hi). repeat split; auto. Qed.

Lemma app_inv_timer s b : app_inv s -> app_inv (with_timer s b).
Proof. intros (Hd & Hf & Hl & He & Hn & Hi). repeat split; auto. Qed.

Lemma app_inv_wl s w t : app_inv s -> app_inv (with_wl s w t).
Proof. intros (Hd & Hf & Hl & He & Hn & Hi). repeat split; auto. Qed.

Lemma init_inv saved c0 : app_inv (init saved c0).
Proof. repeat split; simpl; try constructor; reflexivity. Qed.

Lemma step_inv s ev : app_inv s -> enabled s ev -> app_inv (step tz s ev).
Proof.
  intros H Hen. destruct ev as [|api now|now v|now v|now v|text|now|now item]; simpl.
  - apply app_inv_status; [exact H|intros _; lia|now left].
  - now apply loadData_finish_inv; [|apply Hen].
  - now apply applyFilters_app_inv, app_inv_controls.
  - now apply applyFilters_app_inv, app_inv_controls.
  - now apply applyFilters_app_inv, app_inv_controls.
  - now apply app_inv_timer, app_inv_controls.
  - destruct (searchTimer s); [|exact H]. now apply applyFilters_app_inv, app_inv_timer.
  - destruct (addToWatchlist _ _ _ _ _) as [[w t] e]. now apply app_inv_wl.
Qed.

End HandlerLemmas.

Section Properties.
Context {RT : Runtime}.
Variable tz : Z.

(** A completed load sets [this.data] to new objects holding the rows. *)
Lemma loadData_finish_data api now s rows :
  loadFromNewAPI api now = Ok rows -> data (loadData_finish tz api now s) = alloc (nextId s) rows.
Proof.
  intros Hl. unfold loadData_finish, load_rows. rewrite Hl. cbv zeta.
  destruct (populateFilters _) as [[prods regs] [e|]]; [reflexivity|].
  destruct (applyFilters_app tz now _) as [s1 err] eqn:Ha.
  destruct (applyFilters_app_view _ _ _ _ _ Ha) as (fd & t & nd & st & -> & _).
  destruct err; reflexivity.
Qed.

Lemma run_search_inputs s t texts :
  run tz s (map SearchInput (t :: texts)) =
  with_timer (with_controls s (mkFilterState (last (t :: texts) "") (cropFilter (controls s))
                                 (regionFilter (controls s)) (sortBy (controls s)))) true.
Proof.
  revert s t. induction texts as [|t' texts IH]; intros s t; [reflexivity|].
  unfold run in *. cbn [map fold_left] in *. rewrite IH. reflexivity.
Qed.

(** C4: every state the page can reach satisfies [app_inv]: the rows
    held and displayed are valid rows of [loadFromNewAPI], the spinner
    is shown only while a load is pending, the only error message is
    the load's, and the row objects are distinct. *)
Theorem reachable_app_inv saved c0 s : reachable tz saved c0 s -> app_inv s.
Proof.
  induction 1 as [|s ev _ IH Hen]; [apply init_inv|now apply step_inv].
Qed.

(** [applyFilters()] on the page computes what the filter/sort
    engine [FilterSort.applyFilters] specifies: when the engine returns
    rows, they are the rows of the new [this.filteredData]; when it
    throws, the page is unchanged and the exception propagates. *)
Theorem applyFilters_app_refines now s :
  match applyFilters (map snd (data s)) (controls s) with
  | Ok rows => map snd (filteredData (fst (applyFilters_app tz now s))) = rows
  | Throw e => applyFilters_app tz now s = (s, Some e)
  end.
Proof.
  unfold applyFilters, applyFilters_app. cbv zeta. rewrite filter_res_map.
  destruct (filter_res _ (data s)) as [filtered|e]; simpl; [|reflexivity].
  destruct (renderTable _ _ _ _ _) as [rows [nd|e]]; simpl;
    unfold sortData_objs, sortData; apply (sort_map (comparator (sortBy (controls s))) snd).
Qed.

(** C7: when every request of a load fails, the load shows the one
    error message, empties the table and hides the spinner; [this.data],
    [this.filteredData], the figures and the options keep their values
    (empty only on the first load). *)
Theorem loadData_all_requests_failed s api now :
  (forall n, In n defaultCommodities -> request_failed (api n)) ->
  step tz s (LoadDone api now) = with_status s false (Some loadErrorMessage) [] (pred (pending s)).
Proof.
  intros H. simpl. unfold loadData_finish, loadFromNewAPI. cbv zeta.
  rewrite fetch_all_failed by exact H. reflexivity.
Qed.

(** In [App], any run of [input] events followed
    by the debounce timer's expiry filters once, with the last text
    typed ([Overlay.search_debounced] shows that the page sets one
    timer, 300 ms after the last keystroke). *)
Theorem debounce_last_input s texts now :
  texts <> [] ->
  run tz s (map SearchInput texts ++ [SearchTimer now]) =
  fst (applyFilters_app tz now
         (with_timer (with_controls s (mkFilterState (last texts "") (cropFilter (controls s))
                                         (regionFilter (controls s)) (sortBy (controls s)))) false)).
Proof.
  destruct texts as [|t texts]; [congruence|]. intros _.
  unfold run. rewrite fold_left_app. fold (run tz s (map SearchInput (t :: texts))).
  rewrite run_search_inputs. reflexivity.
Qed.

(** C19: the [catch] of [loadData] wraps the rendering as well as the
    fetch: when the quotes arrived but [populateFilters] or
    [applyFilters] (its [renderTable] included) throws, the page shows
    the network error message and empties the table, although
    [this.data] holds the new rows. *)
Theorem load_exception_reported_as_network_error s api now rows e :
  loadFromNewAPI api now = Ok rows -> snd (load_rows tz now rows s) = Some e ->
  currentError (step tz s (LoadDone api now)) = Some loadErrorMessage
  /\ table (step tz s (LoadDone api now)) = []
  /\ map snd (data (step tz s (LoadDone api now))) = rows.
Proof.
  intros Hl He. cbn [step]. split; [|split].
  3: rewrite (loadData_finish_data _ _ _ _ Hl); apply alloc_snd.
  all: unfold loadData_finish; rewrite Hl; destruct (load_rows tz now rows s) as [s1 err];
       cbn [snd] in He; subst err; reflexivity.
Qed.

(** C11: a toggle of an item whose name makes the selector of
    [updateWatchlistButton] unparsable (a double quote in the name)
    changes the watchlist in memory and shows the notification, then
    throws: [localStorage] keeps its old text and the table is untouched,
    so the next page load loses the change. *)
Theorem watch_toggle_bad_selector_unsaved s now item ws :
  css_string (productName (snd item)) = None ->
  watchlist (wl s) = JArray ws -> findIndex (named (productName (snd item))) ws = Ok None ->
  wl (step tz s (WatchToggle now item)) =
    mkWlState (JArray (ws ++ [watch_entry now (snd item)])) (storage (wl s))
      (notifications (wl s) ++ [(productName (snd item) ++ " added to watchlist!", "success")])
  /\ table (step tz s (WatchToggle now item)) = table s.
Proof.
  intros Hc Hw Hf. simpl. unfold addToWatchlist. rewrite Hw. simpl. rewrite Hf. simpl.
  unfold updateWatchlistButton. rewrite Hc. split; reflexivity.
Qed.

End Properties.

(** ** Concrete runs *)

(** The page's controls at start-up: empty search, both selects on
    "All", sorted by date. *)
Definition start_controls : filter_state := mkFilterState "" "" "" "date".

Definition quote (name exchange : string) (p : Q) : jsval :=
  JObject [("name", JString name); ("exchange", JString exchange);
           ("updated", JNumber (Fin 1700000000)); ("price", JNumber (Fin p))].

(** Corn, coffee and gold are quoted; every other request fails. *)
Definition board_api : Api :=
  fun n => if String.eqb n "corn" then HttpResponse true (Some (quote "corn" "CBOT" (9 # 2)))
           else if String.eqb n "coffee" then HttpResponse true (Some (quote "coffee" "ICE" (9 # 5)))
           else if String.eqb n "gold" then HttpResponse true (Some (quote "gold" "COMEX" 2000))
           else NetworkError.

Definition network_down : Api := fun _ => NetworkError.

(** The board after start-up and its first load, at 2023-11-14T22:13:20Z. *)
Definition loaded_board : app :=
  @step ascii_runtime 0 (@init ascii_runtime None start_controls) (LoadDone board_api 1700000000000).

(** The board loads corn, coffee and gold in the order of the
    requests and shows the three rows; choosing "Gold" in the commodity
    select then leaves the table empty: [this.filteredData] is the gold
    row, third in [this.data], and [getPriceChangeIndicator] throws
    before the row is appended. *)
Example select_gold_empties_table :
  List.map (fun o => productName (snd o)) (data loaded_board) = ["Corn"; "Coffee"; "Gold"]
  /\ List.length (table loaded_board) = 3%nat /\ currentError loaded_board = None
  /\ let s := @step ascii_runtime 0 loaded_board (CropChange 1700000000000 "Gold") in
     List.map (fun o => productName (snd o)) (filteredData s) = ["Gold"] /\ table s = [].
Proof. vm_compute. repeat split; reflexivity. Qed.

Lemma reachable_app_inv_witness : app_inv (@init ascii_runtime None start_controls).
Proof. apply (@reachable_app_inv ascii_runtime 0 None start_controls). constructor. Defined.

Lemma loadData_all_requests_failed_witness :
  @step ascii_runtime 0 (@init ascii_runtime None start_controls) (LoadDone network_down 0)
  = with_status (@init ascii_runtime None start_controls) false (Some loadErrorMessage) [] 0.
Proof. apply loadData_all_requests_failed. intros n _. left. reflexivity. Defined.

(** A product named [Gold "24K"]. *)
Definition quoted_gold : obj :=
  (7%nat, mkRow ("Gold " ++ String quote_char ("24K" ++ String quote_char EmptyString))
             (Fin 62000) "GHS" (JString "New York, New York") "2023-11-13" "API Ninjas" (Fin 4000)).

Lemma watch_toggle_bad_selector_unsaved_witness :
  wl (@step ascii_runtime 0 loaded_board (WatchToggle 0 quoted_gold)) =
    mkWlState (JArray ([] ++ [watch_entry 0 (snd quoted_gold)])) (storage (wl loaded_board))
      (notifications (wl loaded_board) ++ [(productName (snd quoted_gold) ++ " added to watchlist!", "success")])
  /\ table (@step ascii_runtime 0 loaded_board (WatchToggle 0 quoted_gold)) = table loaded_board.
Proof. apply watch_toggle_bad_selector_unsaved; vm_compute; reflexivity. Defined.

(** The board of three quotes, loaded with "gold" in the search box:
    [renderTable] throws on the gold row, third in [this.data]. *)
Definition board_rows : list row :=
  match loadFromNewAPI board_api 1700000000000 with Ok r => r | Throw _ => [] end.

Lemma load_exception_reported_as_network_error_witness :
  let s := @step ascii_runtime 0 (@init ascii_runtime None (mkFilterState "gold" "" "" "date"))
             (LoadDone board_api 1700000000000) in
  currentError s = Some loadErrorMessage /\ table s = [] /\ map snd (data s) = board_rows.
Proof.
  eapply (@load_exception_reported_as_network_error ascii_runtime 0).
  - vm_compute. reflexivity.
  - vm_compute. reflexivity.
Defined.
