(* ===== verification/Overlay.v ===== *)
(** * The details window, the notifications and the browser's timers

    What the page shows over the table (lines 233-315 and 365-383 of
    [src/script.js]), and the timers that make it come and go:

    - [showCommodityDetails(item)] (lines 234-247), the handler of a
      row's details button (line 529), builds the window with
      [createCommodityDetailsModal(item)] (lines 249-306), appends it to
      the body, binds [closeModal] to the first [.modal-close] and the
      first [.modal-overlay] of the window, and shows it 10 ms later;
    - [closeModal(modal)] (lines 308-315) hides it and removes it from
      the document 300 ms later; it does not cancel a pending show, so a
      window closed within its first 10 ms is shown again;
    - [showNotification(message, type)] (lines 365-383) inserts a
      notification right after the page header (the newest first) and
      removes it 3000 ms later;
    - the search box's debounce (lines 60-66) is a timer too: the page
      runs [applyFilters()] 300 ms after the last keystroke.

    The window is the record [modal_view] of what its template
    interpolates, and the tree [modal_elements] of its elements in
    document order with their classes; a click on an element runs the
    listeners on its way up to the window ([path_up]), as a click event
    bubbles.  The [onclick] attribute of the "Add to Watchlist" button is
    an inline handler: its source is the attribute's value, and [this]
    is the button.

    The page ([page]) is the application state of [App] and the screen
    ([screen]): the clock, the notifications, the windows, the pending
    timers in the order they fire, and the sources of the inline handlers
    that threw.  [page_step] runs one event: an event of [App] at the
    current time, then the notifications it emitted; a click on a
    details button or in a window; or time passing ([Wait]), which runs
    every timer due by then.  The event loop runs a due timer before any
    later event (timers are not throttled). *)

From Stdlib Require Import List String Ascii ZArith QArith Lia.
From S2P Require Import Prelude JsNum JsValue Text Dates Normalizer StableSort FilterSort Watchlist Presentation App.
Import ListNotations.
Open Scope string_scope.
Open Scope bool_scope.
Open Scope pb_scope.

(** ** The details window *)

(** The values the template of lines 252-304 interpolates, in its
    order; [add_onclick] is the markup of the [onclick] attribute of the
    "Add to Watchlist" button. *)
Record modal_view : Type := mkModalView {
  title_html : string;
  price_display : string;
  usd_display : string;
  location_display : string;
  category_badge : string;
  updated_day : string;
  updated_ago : string;
  data_source : string;
  trend_display : string;
  exchange_rate : string;
  add_onclick : string
}.

(** The [replace] of line 298: every double quote of the text becomes
    the reference [&quot;]. *)
Fixpoint quot_encode (t : string) : string :=
  match t with
  | EmptyString => EmptyString
  | String c r => if (c =? quote_char)%char then "&quot;" ++ quot_encode r else String c (quot_encode r)
  end.

(** The markup of the [onclick] attribute of the "Add to Watchlist"
    button of the window of [item]. *)
Definition onclick_markup (item : row) : string :=
  "this.addToWatchlist(" ++ quot_encode (json_stringify (JObject (row_object item))) ++ ")".

Section Details.
Context {RT : Runtime}.
Variables (tz now : Z) (filteredData : list obj).

(** [createCommodityDetailsModal(item)] at time [now], in the order the
    template literal evaluates its substitutions. *)
Definition createCommodityDetailsModal (item : row) : res modal_view :=
  title <- escapeHtml (JString (productName item)) ;;
  priceText <- formatPrice (price item) (currency item) ;;
  usd <- toFixed 2 (usdPrice item) ;;
  loc <- escapeHtml (location item) ;;
  cat <- to_string (getCommodityCategory (productName item)) ;;
  trend <- calculateTrend filteredData item 0 ;;
  Ok {| title_html := title; price_display := priceText;
        usd_display := if String.eqb usd "" then "N/A" else usd;
        location_display := loc; category_badge := cat;
        updated_day := formatDate tz (date item); updated_ago := getTimeAgo now (date item);
        data_source := source item; trend_display := renderTrend trend;
        exchange_rate := num_to_string usdToGhsRate;
        add_onclick := onclick_markup item |}.

End Details.

(** ** The elements of the window *)

(** An element: its tag, its class list, its parent's position in
    document order (none for the window itself) and the markup of its
    [onclick] attribute. *)
Record element : Type := mkElement {
  tag : string;
  classes : list string;
  parent : option nat;
  onclick : option string
}.

(** [el.classList] of a [class] attribute: the words between spaces. *)
Fixpoint class_words_acc (acc : string) (t : string) : list string :=
  match t with
  | EmptyString => if String.eqb acc "" then [] else [acc]
  | String c r =>
      if (c =? " ")%char then (if String.eqb acc "" then [] else [acc]) ++ class_words_acc "" r
      else class_words_acc (acc ++ String c EmptyString) r
  end.

Definition class_words (t : string) : list string := class_words_acc "" t.

Definition el (t : string) (cls : string) (p : nat) : element :=
  mkElement t (class_words cls) (Some p) None.

(** The elements of the window in document order (lines 251-303): the
    positions are the ones written beside them. *)
Definition modal_elements (v : modal_view) : list element :=
  [ mkElement "div" ["commodity-modal"] None None;  (*  0 *)
    el "div" "modal-overlay" 0;                      (*  1 *)
    el "div" "modal-content" 0;                      (*  2 *)
    el "div" "modal-header" 2;                       (*  3 *)
    el "h3" "" 3;                                    (*  4 *)
    el "i" "fas fa-chart-line" 4;                    (*  5 *)
    el "button" "modal-close" 3;                     (*  6 *)
    el "div" "modal-body" 2;                         (*  7 *)
    el "div" "detail-grid" 7;                        (*  8 *)
    el "div" "detail-item" 8;                        (*  9 *)
    el "label" "" 9;                                 (* 10 *)
    el "span" "price-display" 9;                     (* 11 *)
    el "div" "detail-item" 8;                        (* 12 *)
    el "label" "" 12;                                (* 13 *)
    el "span" "" 12;                                 (* 14 *)
    el "div" "detail-item" 8;                        (* 15 *)
    el "label" "" 15;                                (* 16 *)
    el "span" "" 15;                                 (* 17 *)
    el "i" "fas fa-map-marker-alt" 17;               (* 18 *)
    el "div" "detail-item" 8;                        (* 19 *)
    el "label" "" 19;                                (* 20 *)
    el "span" "category-badge" 19;                   (* 21 *)
    el "div" "detail-item" 8;                        (* 22 *)
    el "label" "" 22;                                (* 23 *)
    el "span" "" 22;                                 (* 24 *)
    el "div" "detail-item" 8;                        (* 25 *)
    el "label" "" 25;                                (* 26 *)
    el "span" "" 25;                                 (* 27 *)
    el "div" "price-analysis" 7;                     (* 28 *)
    el "h4" "" 28;                                   (* 29 *)
    el "div" "analysis-item" 28;                     (* 30 *)
    el "span" "trend-indicator" 30;                  (* 31 *)
    el "i" (icon_class (trend_display v)) 31;        (* 32 *)
    el "span" "" 30;                                 (* 33 *)
    el "div" "analysis-item" 28;                     (* 34 *)
    el "span" "currency-info" 34;                    (* 35 *)
    el "div" "modal-footer" 2;                       (* 36 *)
    mkElement "button" ["btn"; "btn-primary"] (Some 36%nat) (Some (add_onclick v)); (* 37 *)
    el "i" "fas fa-star" 37;                         (* 38 *)
    el "button" "btn btn-secondary modal-close" 36 ]. (* 39 *)

(** [modal.querySelector('.' + cls)]: the first descendant of the window,
    in document order, with the class. *)
Fixpoint first_with (cls : string) (i : nat) (els : list element) : option nat :=
  match els with
  | [] => None
  | e :: es => if existsb (String.eqb cls) (classes e) then Some i else first_with cls (S i) es
  end.

Definition querySelector (cls : string) (els : list element) : option nat :=
  first_with cls 1 (tl els).

(** The elements a click on element [k] reaches as it bubbles up to the
    window, [k] first; a parent precedes its children, so [S k] steps
    reach the window. *)
Fixpoint path_up (fuel : nat) (els : list element) (k : nat) : list nat :=
  match fuel with
  | O => []
  | S fuel' =>
      k :: match nth_error els k with
           | Some e => match parent e with Some p => path_up fuel' els p | None => [] end
           | None => []
           end
  end.

(** The listeners [showCommodityDetails] binds to [closeModal]: on
    [modal.querySelector('.modal-close')] and on
    [modal.querySelector('.modal-overlay')]. *)
Definition close_targets (v : modal_view) : list nat :=
  let els := modal_elements v in
  match querySelector "modal-close" els, querySelector "modal-overlay" els with
  | Some a, Some b => [a; b]
  | _, _ => []
  end.

(** ** The screen and its timers *)

(** The callbacks of the timers the code sets. *)
Inductive task : Type :=
| ShowModal (m : nat)            (** line 246: [modal.classList.add('show')] *)
| RemoveModal (m : nat)          (** lines 310-314 *)
| RemoveNotification (n : nat)   (** lines 378-382 *)
| ApplyFilters.                  (** lines 63-65: the debounced [applyFilters()] *)

Record timer : Type := mkTimer { due : Z; task_of : task }.

(** [setTimeout(f, d)]: the timers fire by due time, and in the order
    they were set among equal ones. *)
Fixpoint schedule (tm : timer) (ts : list timer) : list timer :=
  match ts with
  | [] => [tm]
  | t :: ts' => if (due tm <? due t)%Z then tm :: ts else t :: schedule tm ts'
  end.

(** A notification element: its class, its icon's classes and the markup
    of its [span] (the message, not escaped). *)
Record notification : Type := mkNotification {
  note_id : nat;
  note_class : string;
  note_icon : string;
  note_message : string
}.

(** A details window in the document: whether it has the class [show]. *)
Record modal : Type := mkModal {
  modal_id : nat;
  modal_item : row;
  view : modal_view;
  shown : bool
}.

(** The screen: the time, the notifications after the header (the
    newest first), the windows appended to the body, the pending timers
    in firing order, the sources of the inline handlers that threw, and
    the counter of created elements. *)
Record screen : Type := mkScreen {
  clock : Z;
  notices : list notification;
  modals : list modal;
  timers : list timer;
  failed_handlers : list string;
  next_node : nat
}.

Definition with_notices (sc : screen) (ns : list notification) : screen :=
  mkScreen (clock sc) ns (modals sc) (timers sc) (failed_handlers sc) (next_node sc).

Definition with_modals (sc : screen) (ms : list modal) : screen :=
  mkScreen (clock sc) (notices sc) ms (timers sc) (failed_handlers sc) (next_node sc).

Definition with_timers (sc : screen) (ts : list timer) : screen :=
  mkScreen (clock sc) (notices sc) (modals sc) ts (failed_handlers sc) (next_node sc).

Definition with_clock (sc : screen) (t : Z) : screen :=
  mkScreen t (notices sc) (modals sc) (timers sc) (failed_handlers sc) (next_node sc).

(** [setTimeout(f, d)] at the current time. *)
Definition set_timeout (sc : screen) (d : Z) (k : task) : screen :=
  with_timers sc (schedule (mkTimer (clock sc + d) k) (timers sc)).

(** [showNotification(message, type)]. *)
Definition showNotification (message type : string) (sc : screen) : screen :=
  let n := mkNotification (next_node sc) ("notification notification-" ++ type)
             ("fas fa-" ++ (if String.eqb type "success" then "check-circle" else "info-circle"))
             message in
  set_timeout (mkScreen (clock sc) (n :: notices sc) (modals sc) (timers sc)
                        (failed_handlers sc) (S (next_node sc)))
              3000 (RemoveNotification (next_node sc)).

(** [modal.classList.add/remove('show')]. *)
Definition set_shown (m : nat) (b : bool) (ms : list modal) : list modal :=
  map (fun x => if Nat.eqb (modal_id x) m then mkModal (modal_id x) (modal_item x) (view x) b else x) ms.

(** [closeModal(modal)]. *)
Definition closeModal (m : nat) (sc : screen) : screen :=
  set_timeout (with_modals sc (set_shown m false (modals sc))) 300 (RemoveModal m).

Section Page.
Context {RT : Runtime}.
Variable tz : Z.

(** [showCommodityDetails(item)]: the screen after it, and the exception
    that stopped it. *)
Definition showCommodityDetails (fd : list obj) (item : row) (sc : screen) : screen * option exn :=
  match createCommodityDetailsModal tz (clock sc) fd item with
  | Throw e => (sc, Some e)
  | Ok v =>
      let m := next_node sc in
      let sc1 := mkScreen (clock sc) (notices sc) (modals sc ++ [mkModal m item v false])
                          (timers sc) (failed_handlers sc) (S m) in
      let els := modal_elements v in
      match querySelector "modal-close" els, querySelector "modal-overlay" els with
      | Some _, Some _ => (set_timeout sc1 10 (ShowModal m), None)
      | _, _ => (sc1, Some (TypeError "Cannot read properties of null (reading 'addEventListener')"))
      end
  end.

(** The listeners element [j] of window [md] runs when a click bubbles
    through it: its inline [onclick] handler, whose source is the value
    of the attribute, runs with [this] the button, which has no
    [addToWatchlist] method: the call throws and the source is reported;
    a [closeModal] listener closes the window. *)
Definition click_element (md : modal) (sc : screen) (j : nat) : screen :=
  let sc1 := match nth_error (modal_elements (view md)) j with
             | Some e =>
                 match onclick e with
                 | Some a => mkScreen (clock sc) (notices sc) (modals sc) (timers sc)
                                      (failed_handlers sc ++ [attr_value a]) (next_node sc)
                 | None => sc
                 end
             | None => sc
             end in
  if existsb (Nat.eqb j) (close_targets (view md)) then closeModal (modal_id md) sc1 else sc1.

(** A click on element [k] of window [md]. *)
Definition modal_click (md : modal) (k : nat) (sc : screen) : screen :=
  fold_left (click_element md) (path_up (S k) (modal_elements (view md)) k) sc.

(** The page: the state of [PriceBoardApp] and the screen. *)
Record page : Type := mkPage { app_of : app; screen_of : screen }.

Inductive page_event : Type :=
| AppEvent (ev : event)            (** an event of [App] at the current time *)
| Wait (t : Z)                     (** time passes until [t] *)
| DetailsClick (item : obj)        (** the details button of a table row *)
| ModalClick (m : nat) (k : nat).  (** a click on element [k] of window [m] *)

(** The notifications an [App] step emitted, shown in turn. *)
Definition show_all (ns : list (string * string)) (sc : screen) : screen :=
  fold_left (fun sc n => showNotification (fst n) (snd n) sc) ns sc.

(** An [App] event: its step, the notifications it emitted; on a
    keystroke in the search box, [clearTimeout] of the pending debounce
    timer and a new one. *)
Definition app_event (p : page) (ev : event) : page :=
  let a := app_of p in
  let a' := step tz a ev in
  let sc := show_all (skipn (List.length (notifications (wl a))) (notifications (wl a')))
                     (screen_of p) in
  match ev with
  | SearchInput _ =>
      mkPage a' (set_timeout (with_timers sc (filter (fun tm => match task_of tm with
                                                               | ApplyFilters => false
                                                               | _ => true end) (timers sc)))
                             300 ApplyFilters)
  | _ => mkPage a' sc
  end.

(** A timer's callback, run at its due time. *)
Definition run_task (p : page) (tm : timer) : page :=
  let sc := with_clock (screen_of p) (due tm) in
  match task_of tm with
  | ShowModal m => mkPage (app_of p) (with_modals sc (set_shown m true (modals sc)))
  | RemoveModal m => mkPage (app_of p) (with_modals sc (filter (fun x => negb (Nat.eqb (modal_id x) m)) (modals sc)))
  | RemoveNotification n => mkPage (app_of p) (with_notices sc (filter (fun x => negb (Nat.eqb (note_id x) n)) (notices sc)))
  | ApplyFilters => mkPage (step tz (app_of p) (SearchTimer (due tm))) sc
  end.

(** Time passes until [t]: the timers due by then fire in order. *)
Definition advance (t : Z) (p : page) : page :=
  let '(fired, rest) := partition (fun tm => (due tm <=? t)%Z) (timers (screen_of p)) in
  let p1 := fold_left run_task fired (mkPage (app_of p) (with_timers (screen_of p) rest)) in
  mkPage (app_of p1) (with_clock (screen_of p1) t).

Definition page_step (p : page) (pe : page_event) : page :=
  match pe with
  | AppEvent ev => app_event p ev
  | Wait t => advance t p
  | DetailsClick item =>
      mkPage (app_of p) (fst (showCommodityDetails (filteredData (app_of p)) (snd item) (screen_of p)))
  | ModalClick m k =>
      match find (fun x => Nat.eqb (modal_id x) m) (modals (screen_of p)) with
      | Some md => mkPage (app_of p) (modal_click md k (screen_of p))
      | None => p
      end
  end.

(** The time an [App] event happens at, when its handler reads it. *)
Definition event_time (ev : event) : option Z :=
  match ev with
  | LoadStart | SearchInput _ => None
  | LoadDone _ t | CropChange t _ | RegionChange t _ | SortChange t _
  | SearchTimer t | WatchToggle t _ => Some t
  end.

(** The events that can happen: an [App] event at the current time (the
    debounce runs only from its timer), time moving forward, a click on
    a details button of the table or on an element of a window. *)
Definition page_enabled (p : page) (pe : page_event) : Prop :=
  match pe with
  | AppEvent (SearchTimer _) => False
  | AppEvent ev => enabled (app_of p) ev /\ (forall t, event_time ev = Some t -> t = clock (screen_of p))
  | Wait t => (clock (screen_of p) <= t)%Z
  | DetailsClick item => In item (firstn (List.length (table (app_of p))) (filteredData (app_of p)))
  | ModalClick m k => In m (map modal_id (modals (screen_of p))) /\ (k < 40)%nat
  end.

Definition page_init (saved : option string) (c0 : filter_state) (t0 : Z) : page :=
  mkPage (init saved c0) (mkScreen t0 [] [] [] [] 0).

Inductive page_reachable (saved : option string) (c0 : filter_state) (t0 : Z) : page -> Prop :=
| page_reachable_init : page_reachable saved c0 t0 (page_init saved c0 t0)
| page_reachable_step p pe :
    page_reachable saved c0 t0 p -> page_enabled p pe -> page_reachable saved c0 t0 (page_step p pe).

End Page.

(** The pending timers of the search box's debounce: the value of its
    [searchTimeout] while it has not fired. *)
Definition is_apply (tm : timer) : bool :=
  match task_of tm with ApplyFilters => true | _ => false end.

Definition apply_timers (sc : screen) : list timer := filter is_apply (timers sc).

(** ** Lemmas *)

Lemma schedule_In tm ts x : In x (schedule tm ts) <-> In x (tm :: ts).
Proof.
  induction ts as [|t ts IH]; simpl; [tauto|].
  destruct (due tm <? due t)%Z; simpl; [tauto|]. rewrite IH. simpl. tauto.
Qed.

(** The window's listeners: the [x] of its header and its overlay. *)
Lemma close_targets_value v : close_targets v = [6; 1]%nat.
Proof. reflexivity. Qed.

Lemma modal_queries v :
  querySelector "modal-close" (modal_elements v) = Some 6%nat
  /\ querySelector "modal-overlay" (modal_elements v) = Some 1%nat.
Proof. split; reflexivity. Qed.

(** *** The page invariant *)

(** Every notification on the screen has its removal timer pending, due
    at most 3000 ms from now. *)
Definition notice_timers (sc : screen) : Prop :=
  forall n, In n (notices sc) ->
  exists d, In (mkTimer d (RemoveNotification (note_id n))) (timers sc) /\ (d <= clock sc + 3000)%Z.

(** Every window's button carries the JSON of the window's item. *)
Definition views_ok (sc : screen) : Prop :=
  forall md, In md (modals sc) -> add_onclick (view md) = onclick_markup (modal_item md).

Definition screen_inv (sc : screen) : Prop := notice_timers sc /\ views_ok sc.

(** A change of the screen that keeps the time and the notifications,
    keeps every removal timer of a notification, and keeps the windows
    or only hides, shows or adds valid ones. *)
Definition keeps (sc sc' : screen) : Prop :=
  clock sc' = clock sc /\ notices sc' = notices sc
  /\ (forall d n, In (mkTimer d (RemoveNotification n)) (timers sc) ->
                  In (mkTimer d (RemoveNotification n)) (timers sc'))
  /\ (views_ok sc -> views_ok sc').

Lemma set_shown_views sc m b :
  views_ok sc -> views_ok (with_modals sc (set_shown m b (modals sc))).
Proof.
  intros Hv md Hin. simpl in Hin. unfold set_shown in Hin.
  apply in_map_iff in Hin as (x & <- & Hx). destruct (Nat.eqb _ _); exact (Hv x Hx).
Qed.

(** A timer's callback only hides, shows or removes: it adds no
    notification and no window, and leaves the timers alone. *)
Section Tasks.
Context {RT : Runtime}.
Variable tz : Z.

Lemma run_task_timers p tm : timers (screen_of (run_task tz p tm)) = timers (screen_of p).
Proof. destruct tm as [d []]; reflexivity. Qed.

Lemma run_task_notices p tm : incl (notices (screen_of (run_task tz p tm))) (notices (screen_of p)).
Proof.
  destruct tm as [d []]; simpl; try apply incl_refl.
  intros x Hx. apply filter_In in Hx as [Hx _]. exact Hx.
Qed.

Lemma run_task_note_ids p tm :
  incl (map note_id (notices (screen_of (run_task tz p tm)))) (map note_id (notices (screen_of p))).
Proof. apply incl_map, run_task_notices. Qed.

Lemma run_task_views p tm : views_ok (screen_of p) -> views_ok (screen_of (run_task tz p tm)).
Proof.
  intros Hv. destruct tm as [d []]; simpl; try exact Hv.
  - exact (set_shown_views (with_clock (screen_of p) d) m true Hv).
  - intros md Hin. apply filter_In in Hin as [Hin _]. exact (Hv md Hin).
Qed.

Lemma run_task_modals p tm :
  incl (map modal_id (modals (screen_of (run_task tz p tm)))) (map modal_id (modals (screen_of p))).
Proof.
  destruct tm as [d []]; simpl; try apply incl_refl.
  - unfold set_shown. rewrite map_map. intros x Hx. apply in_map_iff in Hx as (y & <- & Hy).
    apply in_map_iff. exists y. split; [|exact Hy]. now destruct (Nat.eqb _ _).
  - intros x Hx. apply in_map_iff in Hx as (y & <- & Hy). apply filter_In in Hy as [Hy _].
    now apply in_map.
Qed.

(** The timers of a run of callbacks stay those of its start. *)
Lemma fold_run_task_timers fired p :
  timers (screen_of (fold_left (run_task tz) fired p)) = timers (screen_of p).
Proof.
  revert p. induction fired as [|tm fired IH]; intros p; simpl; [reflexivity|].
  rewrite IH. apply run_task_timers.
Qed.

(** An element removed by a callback of a run of callbacks stays
    removed: the callbacks after it only remove. *)
Section Removal.
Variable f : page -> list nat.
Hypothesis f_run : forall p tm, incl (f (run_task tz p tm)) (f p).

Lemma fold_run_task_incl fired p : incl (f (fold_left (run_task tz) fired p)) (f p).
Proof.
  revert p. induction fired as [|tm fired IH]; intros p; simpl; [apply incl_refl|].
  eapply incl_tran; [apply IH|apply f_run].
Qed.

Lemma fold_run_task_removes fired p tm x :
  In tm fired -> (forall q, ~ In x (f (run_task tz q tm))) ->
  ~ In x (f (fold_left (run_task tz) fired p)).
Proof.
  revert p. induction fired as [|tm' fired IH]; intros p Hin Hrm; [destruct Hin|].
  simpl. destruct Hin as [<-|Hin]; [|now apply IH].
  intros Hx. apply (Hrm p). exact (fold_run_task_incl fired _ x Hx).
Qed.

End Removal.

(** A window survives a run of callbacks that removes none of it: a
    callback keeps its id; it stays shown once shown, and a [ShowModal]
    of it among them leaves it shown, since no callback hides. *)
Section Reshow.
Variable m : nat.

Lemma run_task_keeps_modal p tm x :
  task_of tm <> RemoveModal m -> In x (modals (screen_of p)) -> modal_id x = m ->
  exists y, In y (modals (screen_of (run_task tz p tm))) /\ modal_id y = m
    /\ (shown x = true \/ task_of tm = ShowModal m -> shown y = true).
Proof.
  intros Hrm Hx Hid. destruct tm as [d [m'|m'|n|]]; simpl.
  - exists (if Nat.eqb (modal_id x) m' then mkModal (modal_id x) (modal_item x) (view x) true else x).
    split; [apply in_map_iff; eauto|].
    destruct (Nat.eqb_spec (modal_id x) m'); simpl; split; auto.
    intros [Hs|Hs]; [exact Hs|]. injection Hs as <-. contradiction.
  - exists x. split; [apply filter_In; split; [exact Hx|]|split; [exact Hid|]].
    + apply negb_true_iff, Nat.eqb_neq. intros <-. apply Hrm. simpl. now rewrite Hid.
    + intros [Hs|Hs]; [exact Hs|discriminate].
  - exists x. repeat split; auto. intros [Hs|Hs]; [exact Hs|discriminate].
  - exists x. repeat split; auto. intros [Hs|Hs]; [exact Hs|discriminate].
Qed.

Lemma fold_run_task_reshow fired p x :
  (forall tm, In tm fired -> task_of tm <> RemoveModal m) ->
  In x (modals (screen_of p)) -> modal_id x = m ->
  exists y, In y (modals (screen_of (fold_left (run_task tz) fired p))) /\ modal_id y = m
    /\ (shown x = true \/ (exists tm, In tm fired /\ task_of tm = ShowModal m) -> shown y = true).
Proof.
  revert p x. induction fired as [|tm fired IH]; intros p x Hrm Hx Hid; simpl.
  - exists x. split; [exact Hx|split; [exact Hid|]]. intros [Hs|(? & [] & _)]. exact Hs.
  - destruct (run_task_keeps_modal p tm x) as (z & Hz & Hzid & Hzs); [apply Hrm; now left|exact Hx|exact Hid|].
    destruct (IH _ z (fun tm' H => Hrm tm' (or_intror H)) Hz Hzid) as (y & Hy & Hyid & Hys).
    exists y. split; [exact Hy|split; [exact Hyid|]].
    intros [Hs|(tm' & [<-|Hin] & Ht)]; apply Hys; eauto.
Qed.

End Reshow.

(** [Wait t] runs every timer due by [t]. *)
Lemma advance_fired t p tm :
  In tm (timers (screen_of p)) -> (due tm <= t)%Z ->
  exists fired rest, partition (fun tm => (due tm <=? t)%Z) (timers (screen_of p)) = (fired, rest)
    /\ In tm fired
    /\ advance tz t p = mkPage (app_of (fold_left (run_task tz) fired (mkPage (app_of p) (with_timers (screen_of p) rest))))
                             (with_clock (screen_of (fold_left (run_task tz) fired (mkPage (app_of p) (with_timers (screen_of p) rest)))) t).
Proof.
  intros Hin Hd. destruct (partition _ _) as [fired rest] eqn:Hp.
  exists fired, rest. split; [reflexivity|]. split.
  - rewrite partition_as_filter in Hp. injection Hp as <- _.
    apply filter_In. split; [exact Hin|]. now apply Z.leb_le.
  - unfold advance. rewrite Hp. reflexivity.
Qed.

End Tasks.

Lemma keeps_inv sc sc' : keeps sc sc' -> screen_inv sc -> screen_inv sc'.
Proof.
  intros (Hc & Hn & Ht & Hv) [Hnt Hvo]. split; [|exact (Hv Hvo)].
  intros n Hin. rewrite Hn in Hin. destruct (Hnt n Hin) as (d & Hd & Hle).
  exists d. rewrite Hc. auto.
Qed.

Lemma keeps_refl sc : keeps sc sc.
Proof. repeat split; auto. Qed.

Lemma keeps_trans a b c : keeps a b -> keeps b c -> keeps a c.
Proof.
  intros (H1 & H2 & H3 & H4) (H1' & H2' & H3' & H4'). repeat split; try congruence; auto.
Qed.

#[local] Hint Resolve keeps_refl : pb.

Lemma set_timeout_keeps sc d k : keeps sc (set_timeout sc d k).
Proof.
  repeat split; simpl; auto. intros e n H. apply schedule_In. now right.
Qed.



Lemma closeModal_keeps sc m : keeps sc (closeModal m sc).
Proof.
  eapply keeps_trans; [|apply set_timeout_keeps].
  repeat split; simpl; auto. apply set_shown_views.
Qed.

Lemma click_element_keeps md sc j : keeps sc (click_element md sc j).
Proof.
  unfold click_element.
  assert (H : keeps sc (match nth_error (modal_elements (view md)) j with
                        | Some e => match onclick e with
                                    | Some a => mkScreen (clock sc) (notices sc) (modals sc) (timers sc)
                                                         (failed_handlers sc ++ [attr_value a]) (next_node sc)
                                    | None => sc end
                        | None => sc end)).
  { destruct (nth_error _ j) as [e|]; [destruct (onclick e)|]; [|apply keeps_refl..].
    repeat split; simpl; auto. }
  destruct (existsb _ _); [|exact H]. eapply keeps_trans; [exact H|apply closeModal_keeps].
Qed.

Lemma modal_click_keeps md k sc : keeps sc (modal_click md k sc).
Proof.
  unfold modal_click. generalize sc. induction (path_up _ _ _) as [|j js IH]; intros sc0; simpl.
  - apply keeps_refl.
  - eapply keeps_trans; [apply click_element_keeps|apply IH].
Qed.

Lemma showNotification_inv msg ty sc : screen_inv sc -> screen_inv (showNotification msg ty sc).
Proof.
  intros [Hnt Hv]. split; [|exact Hv].
  intros n Hin. simpl in Hin. destruct Hin as [<-|Hin].
  - exists (clock sc + 3000)%Z. simpl. split; [apply schedule_In; now left|lia].
  - destruct (Hnt n Hin) as (d & Hd & Hle). exists d. simpl.
    split; [apply schedule_In; now right|exact Hle].
Qed.

Lemma show_all_inv ns sc : screen_inv sc -> screen_inv (show_all ns sc).
Proof.
  unfold show_all. revert sc. induction ns as [|n ns IH]; intros sc H; simpl; [exact H|].
  apply IH, showNotification_inv, H.
Qed.

(** The window [createCommodityDetailsModal] builds carries the JSON of
    its item. *)
Lemma createCommodityDetailsModal_onclick {RT : Runtime} tz now fd item v :
  createCommodityDetailsModal tz now fd item = Ok v -> add_onclick v = onclick_markup item.
Proof. unfold createCommodityDetailsModal. intros H. inv_res. reflexivity. Qed.

Lemma showCommodityDetails_inv {RT : Runtime} tz fd item sc :
  screen_inv sc -> screen_inv (fst (showCommodityDetails tz fd item sc)).
Proof.
  unfold showCommodityDetails.
  destruct (createCommodityDetailsModal tz (clock sc) fd item) as [v|e] eqn:Hc; [|auto].
  intros Hi.
  assert (H1 : screen_inv (mkScreen (clock sc) (notices sc) (modals sc ++ [mkModal (next_node sc) item v false])
                                     (timers sc) (failed_handlers sc) (S (next_node sc)))).
  { apply (keeps_inv sc); [|exact Hi]. repeat split; auto.
    intros Hv md Hin. simpl in Hin. apply in_app_or in Hin as [Hin|[<-|[]]]; [now apply Hv|].
    exact (createCommodityDetailsModal_onclick _ _ _ _ _ Hc). }
  destruct (modal_queries v) as [-> ->]. simpl.
  exact (keeps_inv _ _ (set_timeout_keeps _ _ _) H1).
Qed.

Section Invariant.
Context {RT : Runtime}.
Variable tz : Z.

Lemma fold_run_task_notices fired p :
  incl (notices (screen_of (fold_left (run_task tz) fired p))) (notices (screen_of p)).
Proof.
  revert p. induction fired as [|tm fired IH]; intros p; simpl; [apply incl_refl|].
  eapply incl_tran; [apply IH|apply run_task_notices].
Qed.

Lemma fold_run_task_views fired p :
  views_ok (screen_of p) -> views_ok (screen_of (fold_left (run_task tz) fired p)).
Proof.
  revert p. induction fired as [|tm fired IH]; intros p H; simpl; [exact H|].
  apply IH, run_task_views, H.
Qed.

(** A removal timer that fired took its notification away. *)
Lemma fold_run_task_note_removed fired p d n :
  In (mkTimer d (RemoveNotification n)) fired ->
  ~ In n (map note_id (notices (screen_of (fold_left (run_task tz) fired p)))).
Proof.
  intros Hin. apply (fold_run_task_removes tz (fun q => map note_id (notices (screen_of q)))
                       (run_task_note_ids tz) _ _ _ _ Hin).
  intros q Hq. simpl in Hq. apply in_map_iff in Hq as (y & Hy & Hy').
  apply filter_In in Hy' as [_ Hn]. rewrite Hy, Nat.eqb_refl in Hn. discriminate.
Qed.

Lemma advance_inv t p :
  (clock (screen_of p) <= t)%Z -> screen_inv (screen_of p) -> screen_inv (screen_of (advance tz t p)).
Proof.
  intros Hle [Hnt Hv]. unfold advance.
  destruct (partition _ _) as [fired rest] eqn:Hp.
  rewrite partition_as_filter in Hp. injection Hp as Hf Hr.
  set (p0 := mkPage (app_of p) (with_timers (screen_of p) rest)).
  split; simpl.
  - intros n Hn. pose proof (fold_run_task_notices fired p0 n Hn) as Hn0.
    destruct (Hnt n Hn0) as (d & Hd & Hdle).
    destruct (Z.leb_spec d t) as [Hdt|Hdt].
    + exfalso. apply (fold_run_task_note_removed fired p0 d (note_id n)).
      * rewrite <- Hf. apply filter_In. split; [exact Hd|]. now apply Z.leb_le.
      * now apply in_map.
    + exists d. cbn [with_clock timers clock]. rewrite fold_run_task_timers.
      unfold p0. cbn [with_timers timers screen_of]. split; [|lia].
      rewrite <- Hr. apply filter_In. split; [exact Hd|]. simpl. now destruct (Z.leb_spec d t); [lia|].
  - apply fold_run_task_views. exact Hv.
Qed.

(** The debounce timer replaced: only the pending [applyFilters] timer
    goes. *)
Lemma debounce_keeps sc :
  keeps sc (set_timeout (with_timers sc (filter (fun tm => match task_of tm with
                                                           | ApplyFilters => false
                                                           | _ => true end) (timers sc)))
                        300 ApplyFilters).
Proof.
  eapply keeps_trans; [|apply set_timeout_keeps].
  repeat split; simpl; auto. intros d n H. apply filter_In. split; [exact H|reflexivity].
Qed.

Lemma app_event_inv p ev : screen_inv (screen_of p) -> screen_inv (screen_of (app_event tz p ev)).
Proof.
  intros H. unfold app_event. pose proof (show_all_inv (skipn (List.length (notifications (wl (app_of p))))
                                   (notifications (wl (step tz (app_of p) ev)))) _ H) as H1.
  destruct ev; try exact H1. eapply keeps_inv; [|exact H1].
  first [apply debounce_keeps|apply set_timeout_keeps].
Qed.

Lemma page_step_inv p pe :
  screen_inv (screen_of p) -> page_enabled p pe -> screen_inv (screen_of (page_step tz p pe)).
Proof.
  intros H Hen. destruct pe as [ev|t|item|m k]; simpl.
  - now apply app_event_inv.
  - now apply advance_inv.
  - now apply showCommodityDetails_inv.
  - destruct (find _ _) as [md|]; [|exact H]. exact (keeps_inv _ _ (modal_click_keeps _ _ _) H).
Qed.

Lemma page_reachable_inv saved c0 t0 p :
  page_reachable tz saved c0 t0 p -> screen_inv (screen_of p).
Proof.
  induction 1 as [|p pe _ IH Hen]; [|now apply page_step_inv].
  split; intros ? [].
Qed.

(** The application state of a reachable page is a reachable state of
    [App]: the page runs [App]'s handlers, and the debounce timer runs
    [applyFilters()] only when [App]'s own flag says one is pending. *)
Lemma run_task_app saved c0 p tm :
  reachable tz saved c0 (app_of p) -> reachable tz saved c0 (app_of (run_task tz p tm)).
Proof.
  intros H. destruct tm as [d []]; cbn [run_task app_of task_of due]; try exact H.
  destruct (searchTimer (app_of p)) eqn:E.
  - apply reachable_step; [exact H|exact E].
  - replace (step tz (app_of p) (SearchTimer d)) with (app_of p); [exact H|].
    simpl. rewrite E. reflexivity.
Qed.

Lemma fold_run_task_app saved c0 fired q :
  reachable tz saved c0 (app_of q) -> reachable tz saved c0 (app_of (fold_left (run_task tz) fired q)).
Proof.
  revert q. induction fired as [|tm fired IH]; intros q H; simpl; [exact H|].
  apply IH, run_task_app, H.
Qed.

Lemma page_reachable_app saved c0 t0 p :
  page_reachable tz saved c0 t0 p -> reachable tz saved c0 (app_of p).
Proof.
  induction 1 as [|p pe _ IH Hen]; [constructor|].
  destruct pe as [ev|t|item|m k]; simpl.
  - unfold app_event. assert (Hs : reachable tz saved c0 (step tz (app_of p) ev)).
    { apply reachable_step; [exact IH|]. destruct ev; try contradiction; apply Hen. }
    destruct ev; exact Hs.
  - unfold advance. destruct (partition _ _) as [fired rest]. simpl.
    now apply fold_run_task_app.
  - exact IH.
  - destruct (find _ _); exact IH.
Qed.

End Invariant.

(** *** The [onclick] attribute *)

Lemma quot_encode_no_quote j : has_char quote_char (quot_encode j) = false.
Proof.
  induction j as [|c j IH]; [reflexivity|]. simpl.
  destruct (c =? quote_char)%char eqn:E; simpl; [exact IH|]. rewrite E. exact IH.
Qed.

(** The HTML parser undoes [quot_encode] on a text without [&]. *)
Lemma decode_quot_encode j t :
  has_char "&" j = false -> decode_refs (quot_encode j ++ t) = j ++ decode_refs t.
Proof.
  induction j as [|c j IH]; [reflexivity|]. intros H. simpl in H.
  apply Bool.orb_false_iff in H as [Hc Hj]. simpl quot_encode.
  destruct (c =? quote_char)%char eqn:E.
  - apply Ascii.eqb_eq in E. subst c. rewrite append_assoc.
    change ("&quot;" ++ (quot_encode j ++ t)) with
      (String "&" (String "q" (String "u" (String "o" (String "t" (String ";" (quot_encode j ++ t))))))).
    cbn [decode_refs]. rewrite IH by exact Hj. reflexivity.
  - change (String c (quot_encode j) ++ t) with (String c (quot_encode j ++ t)).
    rewrite decode_refs_cons by (intros ->; discriminate). rewrite IH by exact Hj. reflexivity.
Qed.

(** The source of the inline handler is the call with the item's JSON,
    when that JSON holds no [&]. *)
Lemma onclick_source item :
  has_char "&" (json_stringify (JObject (row_object item))) = false ->
  attr_value (onclick_markup item) = "this.addToWatchlist(" ++ json_stringify (JObject (row_object item)) ++ ")".
Proof.
  intros H. unfold attr_value, onclick_markup.
  rewrite take_until_quote_app by reflexivity.
  rewrite take_until_quote_app by apply quot_encode_no_quote.
  rewrite decode_refs_app by reflexivity. rewrite decode_quot_encode by exact H. reflexivity.
Qed.

(** *** Clicks in a window *)

Section Clicks.
Context {RT : Runtime}.
Variable tz : Z.

Lemma page_step_click p m k md :
  find (fun x => Nat.eqb (modal_id x) m) (modals (screen_of p)) = Some md ->
  page_step tz p (ModalClick m k) = mkPage (app_of p) (modal_click md k (screen_of p)).
Proof. intros H. simpl. rewrite H. reflexivity. Qed.

(** The [x] of the header (6) and the overlay (1) close the window. *)
Lemma modal_click_close md k sc : (k = 1 \/ k = 6)%nat -> modal_click md k sc = closeModal (modal_id md) sc.
Proof. intros [-> | ->]; reflexivity. Qed.

(** A string's [escapeHtml] succeeds when it converts to a string. *)
Lemma escapeHtml_ok v l : to_string v = Ok l -> exists s, escapeHtml v = Ok s.
Proof. unfold escapeHtml. intros H. destruct v; try (rewrite H; simpl; eauto); simpl; eauto. Qed.

(** The window of a row in GHS whose location prints: its trend is always
    "stable", [calculateTrend(item, 0)] being the first row's. *)
Lemma createCommodityDetailsModal_ok now fd item :
  currency item = "GHS" -> (exists l, to_string (location item) = Ok l) ->
  exists v, createCommodityDetailsModal tz now fd item = Ok v /\ trend_display v = renderTrend stable.
Proof.
  intros Hc [l Hl]. unfold createCommodityDetailsModal. cbn [bind escapeHtml to_string].
  rewrite Hc. destruct (formatPrice_GHS (price item)) as [pt ->]. cbn [bind].
  destruct (toFixed_ok 2 (usdPrice item)) as [u ->]; [lia|]. cbn [bind].
  destruct (escapeHtml_ok _ _ Hl) as [lh ->]. cbn [bind].
  destruct (category_to_string (productName item)) as [c ->]. cbn [bind].
  eexists. split; reflexivity.
Qed.

End Clicks.

(** ** The debounce timer on the page *)

Lemma filter_schedule_other (f : timer -> bool) tm ts : f tm = false -> filter f (schedule tm ts) = filter f ts.
Proof.
  intros Hf. induction ts as [|t ts IH]; simpl; [now rewrite Hf|].
  destruct (due tm <? due t)%Z; simpl; [now rewrite Hf|]. destruct (f t); [f_equal|]; exact IH.
Qed.

Lemma filter_schedule_only (f : timer -> bool) tm ts :
  f tm = true -> filter f ts = [] -> filter f (schedule tm ts) = [tm].
Proof.
  intros Hf. induction ts as [|t ts IH]; simpl; [now rewrite Hf|].
  destruct (f t) eqn:Ht; [discriminate|]. intros H.
  destruct (due tm <? due t)%Z; simpl; [now rewrite Hf, Ht, H|rewrite Ht; exact (IH H)].
Qed.

Lemma showNotification_apply msg ty sc :
  apply_timers (showNotification msg ty sc) = apply_timers sc /\ clock (showNotification msg ty sc) = clock sc.
Proof. split; [apply filter_schedule_other|]; reflexivity. Qed.

Lemma show_all_apply ns sc : apply_timers (show_all ns sc) = apply_timers sc /\ clock (show_all ns sc) = clock sc.
Proof.
  unfold show_all. revert sc. induction ns as [|n ns IH]; intros sc; simpl; [auto|].
  destruct (IH (showNotification (fst n) (snd n) sc)) as [-> ->]. apply showNotification_apply.
Qed.

Lemma click_element_apply md sc j : apply_timers (click_element md sc j) = apply_timers sc.
Proof.
  unfold click_element.
  assert (H : apply_timers (match nth_error (modal_elements (view md)) j with
                            | Some e => match onclick e with
                                        | Some a => mkScreen (clock sc) (notices sc) (modals sc) (timers sc)
                                                             (failed_handlers sc ++ [attr_value a]) (next_node sc)
                                        | None => sc end
                            | None => sc end) = apply_timers sc)
    by (destruct (nth_error _ _) as [e|]; [destruct (onclick e)|]; reflexivity).
  destruct (existsb _ _); [|exact H]. rewrite <- H. apply filter_schedule_other. reflexivity.
Qed.

Lemma modal_click_apply md k sc : apply_timers (modal_click md k sc) = apply_timers sc.
Proof.
  unfold modal_click. generalize sc. induction (path_up _ _ _) as [|j js IH]; intros sc0; simpl; [reflexivity|].
  rewrite IH. apply click_element_apply.
Qed.

Section Debounce.
Context {RT : Runtime}.
Variable tz : Z.

Lemma showCommodityDetails_apply fd item sc :
  apply_timers (fst (showCommodityDetails tz fd item sc)) = apply_timers sc.
Proof.
  unfold showCommodityDetails. destruct (createCommodityDetailsModal _ _ _ _) as [v|e]; [|reflexivity].
  destruct (querySelector "modal-close" (modal_elements v)), (querySelector "modal-overlay" (modal_elements v)); try reflexivity. apply filter_schedule_other. reflexivity.
Qed.

(** Time passing only fires timers. *)
Lemma advance_apply t p :
  (List.length (apply_timers (screen_of (advance tz t p))) <= List.length (apply_timers (screen_of p)))%nat.
Proof.
  unfold advance, apply_timers. rewrite partition_as_filter. cbn [screen_of with_clock timers].
  rewrite fold_run_task_timers. cbn [screen_of with_timers timers].
  rewrite filter_comm. apply filter_length_le.
Qed.

(** A keystroke clears the pending timer and sets one for 300 ms later;
    every other event of [App] leaves the debounce timers alone. *)
Lemma app_event_apply p ev :
  apply_timers (screen_of (app_event tz p ev)) =
    match ev with
    | SearchInput _ => [mkTimer (clock (screen_of p) + 300) ApplyFilters]
    | _ => apply_timers (screen_of p)
    end.
Proof.
  unfold app_event. destruct (show_all_apply (skipn (List.length (notifications (wl (app_of p))))
                                   (notifications (wl (step tz (app_of p) ev)))) (screen_of p)) as [Ha Hc].
  destruct ev; try exact Ha. cbn [screen_of]. unfold apply_timers, set_timeout. cbn [timers clock with_timers].
  rewrite Hc. apply filter_schedule_only; [reflexivity|].
  induction (timers _) as [|t ts IH]; simpl; [reflexivity|]. destruct t as [d []]; simpl; auto.
Qed.

End Debounce.

(** ** Properties of the page *)

Section Properties.
Context {RT : Runtime}.
Variable tz : Z.

Lemma page_app_inv saved c0 t0 p : page_reachable tz saved c0 t0 p -> app_inv (app_of p).
Proof.
  intros H. pose proof (page_reachable_app _ _ _ _ _ H) as Hr.
  induction Hr as [|s ev _ IH Hen]; [apply init_inv|now apply step_inv].
Qed.

(** C9: a notification never outlives its 3000 ms: whenever a reachable
    page shows a notification, the notification is gone once the clock
    has moved 3000 ms past the current time, whatever happened since it
    was shown. *)
Theorem notification_gone_within_3s saved c0 t0 p n t :
  page_reachable tz saved c0 t0 p -> In n (notices (screen_of p)) ->
  (clock (screen_of p) + 3000 <= t)%Z ->
  ~ In (note_id n) (map note_id (notices (screen_of (page_step tz p (Wait t))))).
Proof.
  intros Hr Hn Ht. destruct (page_reachable_inv _ _ _ _ _ Hr) as [Hnt _].
  destruct (Hnt n Hn) as (d & Hd & Hle).
  destruct (advance_fired tz t p _ Hd) as (fired & rest & _ & Hin & Heq); [simpl; lia|].
  simpl. rewrite Heq. simpl. exact (fold_run_task_note_removed tz fired _ d _ Hin).
Qed.

(** C20: the search box is debounced on the page: on every reachable
    page at most one [applyFilters] timer is pending (the code's
    [searchTimeout]), and a keystroke at time [c] clears it and leaves
    exactly one, due at [c + 300], so the filters run once, 300 ms after
    the last keystroke. *)
Theorem search_debounced saved c0 t0 p text :
  page_reachable tz saved c0 t0 p ->
  (List.length (apply_timers (screen_of p)) <= 1)%nat
  /\ apply_timers (screen_of (page_step tz p (AppEvent (SearchInput text))))
     = [mkTimer (clock (screen_of p) + 300) ApplyFilters].
Proof.
  intros Hr. split; [|exact (app_event_apply tz p (SearchInput text))].
  induction Hr as [|p pe _ IH _]; [simpl; lia|].
  destruct pe as [ev|t|item|m k]; cbn [page_step].
  - rewrite app_event_apply. destruct ev; simpl; lia.
  - pose proof (advance_apply tz t p). lia.
  - cbn [screen_of]. rewrite showCommodityDetails_apply. exact IH.
  - destruct (find _ _); [cbn [screen_of]; rewrite modal_click_apply|]; exact IH.
Qed.

(** C14: the [x] of a window's header and its overlay close it: 300 ms
    after the click the window is no longer in the document. *)
Theorem modal_close_removes_within_300ms p md k t :
  find (fun x => Nat.eqb (modal_id x) (modal_id md)) (modals (screen_of p)) = Some md ->
  (k = 1 \/ k = 6)%nat -> (clock (screen_of p) + 300 <= t)%Z ->
  ~ In (modal_id md) (map modal_id (modals (screen_of
      (page_step tz (page_step tz p (ModalClick (modal_id md) k)) (Wait t))))).
Proof.
  intros Hf Hk Ht. rewrite (page_step_click _ _ _ _ _ Hf), modal_click_close by exact Hk.
  cbn [page_step].
  destruct (advance_fired tz t (mkPage (app_of p) (closeModal (modal_id md) (screen_of p)))
              (mkTimer (clock (screen_of p) + 300) (RemoveModal (modal_id md))))
    as (fired & rest & _ & Hin & ->); [simpl; apply schedule_In; now left|simpl; lia|].
  simpl. apply (fold_run_task_removes tz (fun q => map modal_id (modals (screen_of q)))
                 (run_task_modals tz) _ _ _ _ Hin).
  intros q Hq. simpl in Hq. apply in_map_iff in Hq as (y & Hy & Hy').
  apply filter_In in Hy' as [_ Hn]. rewrite Hy, Nat.eqb_refl in Hn. discriminate.
Qed.

(** C15: a window closed before its 10 ms show timer fires is shown
    again: [closeModal] hides it and schedules its removal 300 ms later,
    but does not cancel the pending [classList.add('show')]; at any time
    from that timer's due time until the removal the window is in the
    document with the class [show], although the user closed it. *)
Theorem modal_reshown_after_early_close p md k d t :
  find (fun x => Nat.eqb (modal_id x) (modal_id md)) (modals (screen_of p)) = Some md ->
  (k = 1 \/ k = 6)%nat ->
  In (mkTimer d (ShowModal (modal_id md))) (timers (screen_of p)) ->
  (forall tm, In tm (timers (screen_of p)) -> task_of tm <> RemoveModal (modal_id md)) ->
  (d <= t < clock (screen_of p) + 300)%Z ->
  exists y, In y (modals (screen_of (page_step tz (page_step tz p (ModalClick (modal_id md) k)) (Wait t))))
    /\ modal_id y = modal_id md /\ shown y = true.
Proof.
  intros Hf Hk Hs Hnr Ht. rewrite (page_step_click _ _ _ _ _ Hf), modal_click_close by exact Hk.
  cbn [page_step].
  destruct (advance_fired tz t (mkPage (app_of p) (closeModal (modal_id md) (screen_of p)))
              (mkTimer d (ShowModal (modal_id md))))
    as (fired & rest & Hp & Hin & ->); [simpl; apply schedule_In; now right|simpl; lia|].
  destruct (find_some _ _ Hf) as [Hmd Hid]. apply Nat.eqb_eq in Hid.
  destruct (fold_run_task_reshow tz (modal_id md) fired
              (mkPage (app_of p) (with_timers (closeModal (modal_id md) (screen_of p)) rest))
              (mkModal (modal_id md) (modal_item md) (view md) false))
    as (y & Hy & Hyid & Hys).
  - rewrite partition_as_filter in Hp. injection Hp as <- _.
    intros tm Htm. apply filter_In in Htm as [Htm Hle]. apply Z.leb_le in Hle.
    cbn [closeModal set_timeout with_timers timers] in Htm. apply schedule_In in Htm as [<-|Htm].
    + simpl in Hle. lia.
    + exact (Hnr tm Htm).
  - simpl. apply in_map_iff. exists md. split; [rewrite Nat.eqb_refl; reflexivity|exact Hmd].
  - reflexivity.
  - exists y. split; [exact Hy|split; [exact Hyid|]]. apply Hys. right. eexists. split; [exact Hin|reflexivity].
Qed.

(** C16: the "Close" button of a window's footer does nothing: only the
    first [.modal-close] of the window, the [x] of its header, has the
    listener, and the click bubbles through no other. *)
Theorem footer_close_does_nothing p m : page_step tz p (ModalClick m 39) = p.
Proof. simpl. destruct (find _ _) as [md|]; [|reflexivity]. destruct p; reflexivity. Qed.

(** C13: the "Add to Watchlist" button of a window never adds: its inline
    handler runs with [this] the button, so [this.addToWatchlist] is not
    a function; the page is unchanged but for the failed handler, whose
    source is the call with the item's JSON when that JSON holds no
    [&]. *)
Theorem add_button_reports_call saved c0 t0 p md k :
  page_reachable tz saved c0 t0 p ->
  find (fun x => Nat.eqb (modal_id x) (modal_id md)) (modals (screen_of p)) = Some md ->
  (k = 37 \/ k = 38)%nat ->
  has_char "&" (json_stringify (JObject (row_object (modal_item md)))) = false ->
  page_step tz p (ModalClick (modal_id md) k) =
    mkPage (app_of p)
      (mkScreen (clock (screen_of p)) (notices (screen_of p)) (modals (screen_of p)) (timers (screen_of p))
         (failed_handlers (screen_of p)
            ++ ["this.addToWatchlist(" ++ json_stringify (JObject (row_object (modal_item md))) ++ ")"])
         (next_node (screen_of p))).
Proof.
  intros Hr Hf Hk Hamp. rewrite (page_step_click _ _ _ _ _ Hf).
  destruct (page_reachable_inv _ _ _ _ _ Hr) as [_ Hv].
  rewrite <- (onclick_source _ Hamp), <- (Hv md (proj1 (find_some _ _ Hf))).
  destruct Hk as [-> | ->]; reflexivity.
Qed.

(** C17: the details button of every row of the table opens its window:
    [showCommodityDetails] does not throw, the window is appended hidden
    and shown 10 ms later, and its trend reads "stable" whatever the
    table shows for the row. *)
Theorem details_click_opens_window saved c0 t0 p item :
  page_reachable tz saved c0 t0 p ->
  In item (firstn (List.length (table (app_of p))) (filteredData (app_of p))) ->
  exists v, showCommodityDetails tz (filteredData (app_of p)) (snd item) (screen_of p) =
    (set_timeout (mkScreen (clock (screen_of p)) (notices (screen_of p))
                    (modals (screen_of p) ++ [mkModal (next_node (screen_of p)) (snd item) v false])
                    (timers (screen_of p)) (failed_handlers (screen_of p)) (S (next_node (screen_of p))))
                 10 (ShowModal (next_node (screen_of p))), None)
    /\ trend_display v = renderTrend stable.
Proof.
  intros Hr Hin. destruct (page_app_inv _ _ _ _ Hr) as (_ & Hfd & _).
  rewrite <- (firstn_skipn (List.length (table (app_of p))) (filteredData (app_of p))) in Hfd.
  apply Forall_app in Hfd as [Hfd _].
  destruct (proj1 (Forall_forall _ _) Hfd item Hin) as [(_ & _ & Hc & _ & _ & Hl) _].
  destruct (createCommodityDetailsModal_ok tz (clock (screen_of p)) (filteredData (app_of p)) _ Hc Hl)
    as (v & Hv & Ht).
  exists v. split; [|exact Ht]. unfold showCommodityDetails. rewrite Hv.
  destruct (modal_queries v) as [-> ->]. reflexivity.
Qed.

End Properties.

(** ** Concrete runs *)

(** The board of [App] at 2023-11-14T22:13:20Z: loaded, then the
    details of its first row opened, then that row added to the
    watchlist. *)
Definition board_t0 : Z := 1700000000000.
Definition page0 : page := @page_init ascii_runtime None start_controls board_t0.
Definition page1 : page := @page_step ascii_runtime 0 page0 (AppEvent (LoadDone board_api board_t0)).
Definition first_row : obj := nth 0 (filteredData (app_of page1)) (0%nat, corn_row).
Definition page2 : page := @page_step ascii_runtime 0 page1 (DetailsClick first_row).
Definition page3 : page := @page_step ascii_runtime 0 page2 (AppEvent (WatchToggle board_t0 first_row)).

Definition corn_window : modal :=
  match modals (screen_of page3) with
  | md :: _ => md
  | [] => mkModal 0 corn_row (mkModalView "" "" "" "" "" "" "" "" "" "" "") false
  end.

Definition corn_note : notification :=
  match notices (screen_of page3) with
  | n :: _ => n
  | [] => mkNotification 0 "" "" ""
  end.

Lemma page2_reachable : @page_reachable ascii_runtime 0 None start_controls board_t0 page2.
Proof.
  apply page_reachable_step; [apply page_reachable_step; [constructor|]|].
  - split; [split; [simpl; lia|unfold board_t0, max_time; lia]|].
    intros t H. injection H as <-. reflexivity.
  - vm_compute. left. reflexivity.
Qed.

Lemma page3_reachable : @page_reachable ascii_runtime 0 None start_controls board_t0 page3.
Proof.
  apply page_reachable_step; [exact page2_reachable|]. split.
  - vm_compute. left. reflexivity.
  - intros t H. injection H as <-. reflexivity.
Qed.

Lemma notification_gone_within_3s_witness :
  ~ In (note_id corn_note)
       (map note_id (notices (screen_of (@page_step ascii_runtime 0 page3 (Wait (board_t0 + 3000)))))).
Proof.
  apply (notification_gone_within_3s (RT := ascii_runtime) 0 None start_controls board_t0).
  - exact page3_reachable.
  - vm_compute. left. reflexivity.
  - replace (clock (screen_of page3)) with board_t0 by (vm_compute; reflexivity). lia.
Defined.

Lemma search_debounced_witness :
  (List.length (apply_timers (screen_of page2)) <= 1)%nat
  /\ apply_timers (screen_of (@page_step ascii_runtime 0 page2 (AppEvent (SearchInput "corn"))))
     = [mkTimer (clock (screen_of page2) + 300) ApplyFilters].
Proof. exact (search_debounced (RT := ascii_runtime) 0 None start_controls board_t0 page2 "corn" page2_reachable). Defined.

Lemma modal_close_removes_within_300ms_witness :
  ~ In (modal_id corn_window) (map modal_id (modals (screen_of
      (@page_step ascii_runtime 0 (@page_step ascii_runtime 0 page3 (ModalClick (modal_id corn_window) 6))
                  (Wait (board_t0 + 300)))))).
Proof.
  apply (modal_close_removes_within_300ms (RT := ascii_runtime) 0).
  - vm_compute. reflexivity.
  - right. reflexivity.
  - replace (clock (screen_of page3)) with board_t0 by (vm_compute; reflexivity). lia.
Defined.

Lemma modal_reshown_after_early_close_witness :
  exists y, In y (modals (screen_of
      (@page_step ascii_runtime 0 (@page_step ascii_runtime 0 page3 (ModalClick (modal_id corn_window) 1))
                  (Wait (board_t0 + 10)))))
    /\ modal_id y = modal_id corn_window /\ shown y = true.
Proof.
  apply (modal_reshown_after_early_close (RT := ascii_runtime) 0 page3 corn_window 1 (board_t0 + 10)).
  - vm_compute. reflexivity.
  - left. reflexivity.
  - vm_compute. left. reflexivity.
  - intros tm Htm. vm_compute in Htm. repeat destruct Htm as [<-|Htm]; try discriminate; destruct Htm.
  - replace (clock (screen_of page3)) with board_t0 by (vm_compute; reflexivity). lia.
Defined.

Lemma add_button_reports_call_witness :
  @page_step ascii_runtime 0 page3 (ModalClick (modal_id corn_window) 37) =
    mkPage (app_of page3)
      (mkScreen (clock (screen_of page3)) (notices (screen_of page3)) (modals (screen_of page3))
         (timers (screen_of page3))
         (failed_handlers (screen_of page3)
            ++ ["this.addToWatchlist(" ++ json_stringify (JObject (row_object (modal_item corn_window))) ++ ")"])
         (next_node (screen_of page3))).
Proof.
  apply (add_button_reports_call (RT := ascii_runtime) 0 None start_controls board_t0).
  - exact page3_reachable.
  - vm_compute. reflexivity.
  - left. reflexivity.
  - vm_compute. reflexivity.
Defined.

Lemma details_click_opens_window_witness :
  exists v, @showCommodityDetails ascii_runtime 0 (filteredData (app_of page2)) (snd first_row) (screen_of page2) =
    (set_timeout (mkScreen (clock (screen_of page2)) (notices (screen_of page2))
                    (modals (screen_of page2) ++ [mkModal (next_node (screen_of page2)) (snd first_row) v false])
                    (timers (screen_of page2)) (failed_handlers (screen_of page2)) (S (next_node (screen_of page2))))
                 10 (ShowModal (next_node (screen_of page2))), None)
    /\ trend_display v = renderTrend stable.
Proof.
  apply (details_click_opens_window (RT := ascii_runtime) 0 None start_controls board_t0).
  - exact page2_reachable.
  - vm_compute. left. reflexivity.
Defined.
